(** * n8n-nodes-akash: SDL pipeline, unit converters and bid polling

    A shallow embedding of the parts of the Akash node that carry logic:
    [helpers/amountConverter.ts], [helpers/sdlParser.ts], the part of
    [transport/cosmosClient.ts] that builds the deployment message, and
    the deployment [create] handler with its bid-polling loop.

    Conventions of the embedding.
    - A JavaScript [number] is an exact decimal fraction, or one of the
      two infinities, or NaN.  Every IEEE double is a decimal fraction, so
      every value the program can hold is representable; arithmetic is
      exact, so the rounding error and overflow of doubles are outside
      the model.  A statement that fixes the digits of a result is made
      for arguments on which doubles compute the same digits: whole
      numbers and amounts with few decimals below 10^15.
    - Strings are sequences of characters with the codes 0 to 255, the
      Latin-1 part of UTF-16.  White space is that of ECMAScript in this
      range: TAB, LF, VT, FF, CR, SPACE and NO-BREAK SPACE.
    - A JavaScript object used as a record with string keys is an
      association list in insertion order ([Object.entries] order).  A
      property read with a computed key, [o[k]], finds the object's own
      properties and the members of [Object.prototype] ([get]); a read
      of an own property alone is [lookup].
    - A property the interfaces type [number] holds what the YAML
      document put there: nothing, a number or a string ([number_field]).
      Other kinds of value are outside the model.
    - An exception is the [Throw] branch of [result]; [try]/[catch] is a
      match on it.
    - Every call that leaves the process is on record, in the order the
      calls are made: the two connections to the RPC node that
      [initialize] opens, the connection of [getQueryClient],
      [getHeight], [signAndBroadcast], [getBids], [sendManifest] and
      [disconnect].  Reading the credentials, making the signer and
      making the console client open no connection and are not on
      record.
    - The digest behind [generateVersionHash] is the hash library's; the
      embedding takes it as given. *)

From Stdlib Require Import ZArith QArith Qround Qabs List String Ascii Bool Lia Lqa.
Import ListNotations.
Open Scope string_scope.
Open Scope Z_scope.

(* ================================================================== *)
(** ** JavaScript built-ins used by the sources *)
(* ================================================================== *)

Module JS.

(** Exceptions.  [Error msg] is [new Error(msg)]; the other constructors
    are the built-in error classes the modelled code can run into. *)
Inductive error : Type :=
| TypeError
| RangeError
| SyntaxError
| YAMLException (msg : string)
| Error (msg : string).

Inductive result (A : Type) : Type :=
| Ok (a : A)
| Throw (e : error).

Arguments Ok {A} a.
Arguments Throw {A} e.

Definition bind {A B : Type} (c : result A) (k : A -> result B) : result B :=
  match c with
  | Ok a => k a
  | Throw e => Throw e
  end.

Notation "x <- c ;; k" := (bind c (fun x => k))
  (at level 61, c at next level, right associativity).
Notation "' p <- c ;; k" := (bind c (fun x => let 'p := x in k))
  (at level 61, p pattern, c at next level, right associativity).

(** [e.message] *)
Definition message (e : error) : string :=
  match e with
  | TypeError => "TypeError"
  | RangeError => "RangeError"
  | SyntaxError => "SyntaxError"
  | YAMLException m => m
  | Error m => m
  end.

(** Reading a property of [undefined] throws a TypeError. *)
Definition deref {A : Type} (o : option A) : result A :=
  match o with
  | Some a => Ok a
  | None => Throw TypeError
  end.

Fixpoint mapM {A B : Type} (f : A -> result B) (l : list A) : result (list B) :=
  match l with
  | [] => Ok []
  | a :: r => b <- f a ;; bs <- mapM f r ;; Ok (b :: bs)
  end.

(** [Array.prototype.map] with the index passed to the callback. *)
Fixpoint mapMi_from {A B : Type} (i : nat) (f : nat -> A -> result B) (l : list A)
  : result (list B) :=
  match l with
  | [] => Ok []
  | a :: r => b <- f i a ;; bs <- mapMi_from (S i) f r ;; Ok (b :: bs)
  end.

Definition mapMi {A B : Type} := @mapMi_from A B 0%nat.

Fixpoint mapi_from {A B : Type} (i : nat) (f : nat -> A -> B) (l : list A) : list B :=
  match l with
  | [] => []
  | a :: r => f i a :: mapi_from (S i) f r
  end.

Definition mapi {A B : Type} := @mapi_from A B 0%nat.

(** *** Objects as association lists *)

Definition obj (V : Type) : Type := list (string * V).

Fixpoint lookup {V : Type} (k : string) (o : obj V) : option V :=
  match o with
  | [] => None
  | (k', v) :: r => if String.eqb k k' then Some v else lookup k r
  end.

Definition keys {V : Type} (o : obj V) : list string := map fst o.

(** The names of the members of [Object.prototype], which every object
    literal and every mapping read by js-yaml inherits. *)
Definition prototype_keys : list string :=
  [ "constructor"; "hasOwnProperty"; "isPrototypeOf"; "propertyIsEnumerable";
    "toLocaleString"; "toString"; "valueOf"; "__proto__";
    "__defineGetter__"; "__defineSetter__"; "__lookupGetter__"; "__lookupSetter__" ].

Definition inherited (k : string) : bool := existsb (String.eqb k) prototype_keys.

(** [o[k]]: an own property, else an inherited member, else [undefined].
    An inherited member is a function (for [__proto__] the prototype
    itself): it is truthy and has none of the properties the sources
    read, so it is modelled by [blank], the record of the value type
    with every field missing. *)
Definition get {V : Type} (blank : V) (k : string) (o : obj V) : option V :=
  match lookup k o with
  | Some v => Some v
  | None => if inherited k then Some blank else None
  end.

(** *** Characters and strings *)

Definition is_digit (c : ascii) : bool :=
  let n := nat_of_ascii c in (48 <=? n)%nat && (n <=? 57)%nat.

Definition digit_val (c : ascii) : Z := Z.of_nat (nat_of_ascii c) - 48.

Definition digit_char (d : Z) : ascii := ascii_of_nat (Z.to_nat (d + 48)).

(** White space and line terminators of ECMAScript below U+0100: TAB, LF,
    VT, FF, CR, SPACE and NO-BREAK SPACE. *)
Definition is_space (c : ascii) : bool :=
  let n := nat_of_ascii c in
  ((9 <=? n)%nat && (n <=? 13)%nat) || (n =? 32)%nat || (n =? 160)%nat.

(** [toLowerCase] on one character: the capital letters of ASCII and of
    Latin-1 (U+00C0 to U+00DE without the multiplication sign). *)
Definition to_lower (c : ascii) : ascii :=
  let n := nat_of_ascii c in
  if ((65 <=? n)%nat && (n <=? 90)%nat)
     || ((192 <=? n)%nat && (n <=? 222)%nat && negb (n =? 215)%nat)
  then ascii_of_nat (n + 32) else c.

Fixpoint map_string (f : ascii -> ascii) (s : string) : string :=
  match s with
  | EmptyString => EmptyString
  | String c r => String (f c) (map_string f r)
  end.

Definition toLowerCase : string -> string := map_string to_lower.

Fixpoint rev_append (s acc : string) : string :=
  match s with
  | EmptyString => acc
  | String c r => rev_append r (String c acc)
  end.

Definition rev_string (s : string) : string := rev_append s EmptyString.

Fixpoint trimStart (s : string) : string :=
  match s with
  | EmptyString => EmptyString
  | String c r => if is_space c then trimStart r else s
  end.

Definition trimEnd (s : string) : string := rev_string (trimStart (rev_string s)).

Definition trim (s : string) : string := trimEnd (trimStart s).

(** Longest prefix whose characters satisfy [p], and the rest. *)
Fixpoint span (p : ascii -> bool) (s : string) : string * string :=
  match s with
  | EmptyString => (EmptyString, EmptyString)
  | String c r =>
      if p c then let (a, b) := span p r in (String c a, b)
      else (EmptyString, s)
  end.

Definition is_empty (s : string) : bool :=
  match s with
  | EmptyString => true
  | _ => false
  end.

(** Truthiness of a string: [!s] is [is_empty s]. *)
Definition truthy_string (s : string) : bool := negb (is_empty s).

Definition truthy_ostring (s : option string) : bool :=
  match s with
  | Some t => truthy_string t
  | None => false
  end.

(** Value of a string of decimal digits, most significant first. *)
Fixpoint digits_val_acc (acc : Z) (s : string) : Z :=
  match s with
  | EmptyString => acc
  | String c r => digits_val_acc (acc * 10 + digit_val c) r
  end.

Definition digits_val (s : string) : Z := digits_val_acc 0 s.

(** Decimal digits of a natural number.  [fuel] bounds the number of
    digits; [Z_to_digits] supplies enough. *)
Fixpoint digits_of_fuel (fuel : nat) (n : Z) (acc : string) : string :=
  match fuel with
  | O => acc
  | S f =>
      let acc' := String (digit_char (n mod 10)) acc in
      if n / 10 =? 0 then acc' else digits_of_fuel f (n / 10) acc'
  end.

Definition Z_to_digits (n : Z) : string :=
  digits_of_fuel (S (Z.to_nat (Z.log2 n))) n EmptyString.

(** [BigInt.prototype.toString()] and [Number.prototype.toString()] on an
    integer. *)
Definition Z_to_string (z : Z) : string :=
  if z <? 0 then String "-" (Z_to_digits (- z)) else Z_to_digits z.

Definition nat_to_string (n : nat) : string := Z_to_string (Z.of_nat n).

(** *** Numbers *)

(** [mkDec m s] is the decimal fraction [m / 10^s]. *)
Record dec : Type := mkDec { dmant : Z; dscale : nat }.

Inductive number : Type :=
| Fin (d : dec)
| Inf (negative : bool)
| NaN.

Definition pow10 (n : nat) : Z := 10 ^ Z.of_nat n.

Definition dec_of_Z (z : Z) : dec := mkDec z 0.

Definition num (z : Z) : number := Fin (dec_of_Z z).

Definition dec_to_Q (d : dec) : Q := inject_Z (dmant d) / inject_Z (pow10 (dscale d)).

Definition dec_mul (a b : dec) : dec :=
  mkDec (dmant a * dmant b) (dscale a + dscale b).

(** Division by the constant [10^k]. *)
Definition dec_div_pow10 (a : dec) (k : nat) : dec :=
  mkDec (dmant a) (dscale a + k).

Definition dec_compare (a b : dec) : comparison :=
  Z.compare (dmant a * pow10 (dscale b)) (dmant b * pow10 (dscale a)).

Definition dec_is_zero (a : dec) : bool := dmant a =? 0.

Definition dec_is_neg (a : dec) : bool := dmant a <? 0.

(** [Math.round]: the nearest integer, ties towards positive infinity. *)
Definition dec_round (a : dec) : Z :=
  (2 * dmant a + pow10 (dscale a)) / (2 * pow10 (dscale a)).

Definition dec_is_int (a : dec) : bool := dmant a mod pow10 (dscale a) =? 0.

Definition dec_trunc (a : dec) : Z := Z.quot (dmant a) (pow10 (dscale a)).

(** Strip trailing zeros of the fraction. *)
Fixpoint dec_normalize_aux (m : Z) (s : nat) : dec :=
  match s with
  | O => mkDec m O
  | S s' => if m mod 10 =? 0 then dec_normalize_aux (m / 10) s' else mkDec m s
  end.

Definition dec_normalize (a : dec) : dec := dec_normalize_aux (dmant a) (dscale a).

Fixpoint zeros (n : nat) : string :=
  match n with
  | O => EmptyString
  | S k => String "0" (zeros k)
  end.

(** The [w] low decimal digits of [n], with leading zeros. *)
Definition pad_digits (w : nat) (n : Z) : string :=
  let ds := if n =? 0 then EmptyString else Z_to_digits n in
  zeros (w - String.length ds) ++ ds.

(** Positional notation of a decimal fraction.  (JavaScript switches to
    exponent notation below 1e-6 and from 1e21 on; the model prints every
    finite number positionally.) *)
Definition dec_to_string (a : dec) : string :=
  let n := dec_normalize a in
  let m := Z.abs (dmant n) in
  let p := pow10 (dscale n) in
  let body :=
    match dscale n with
    | O => Z_to_digits m
    | S _ => Z_to_digits (m / p) ++ "." ++ pad_digits (dscale n) (m mod p)
    end in
  if dmant n <? 0 then String "-" body else body.

(** [String(x)] and [x.toString()] for a number. *)
Definition number_to_string (x : number) : string :=
  match x with
  | Fin d => dec_to_string d
  | Inf false => "Infinity"
  | Inf true => "-Infinity"
  | NaN => "NaN"
  end.

Definition isNaN (x : number) : bool :=
  match x with
  | NaN => true
  | _ => false
  end.

(** Truthiness of a number: false for 0 and NaN. *)
Definition truthy_number (x : number) : bool :=
  match x with
  | Fin d => negb (dec_is_zero d)
  | Inf _ => true
  | NaN => false
  end.

Definition number_mul (x y : number) : number :=
  match x, y with
  | NaN, _ | _, NaN => NaN
  | Fin a, Fin b => Fin (dec_mul a b)
  | Inf n, Fin b | Fin b, Inf n =>
      if dec_is_zero b then NaN else Inf (xorb n (dec_is_neg b))
  | Inf n, Inf n' => Inf (xorb n n')
  end.

(** [x / 10^k] for the constant divisors 1000 and 1_000_000. *)
Definition number_div_pow10 (x : number) (k : nat) : number :=
  match x with
  | Fin a => Fin (dec_div_pow10 a k)
  | other => other
  end.

Definition number_compare (x y : number) : option comparison :=
  match x, y with
  | NaN, _ | _, NaN => None
  | Fin a, Fin b => Some (dec_compare a b)
  | Inf n, Inf n' =>
      Some (if Bool.eqb n n' then Eq else if n then Lt else Gt)
  | Inf n, Fin _ => Some (if n then Lt else Gt)
  | Fin _, Inf n => Some (if n then Gt else Lt)
  end.

(** The relational operators; every comparison with NaN is false. *)
Definition number_lt (x y : number) : bool :=
  match number_compare x y with
  | Some Lt => true
  | _ => false
  end.

Definition number_le (x y : number) : bool :=
  match number_compare x y with
  | Some Lt | Some Eq => true
  | _ => false
  end.

Definition number_gt (x y : number) : bool := number_lt y x.

Definition number_ge (x y : number) : bool := number_le y x.

Definition Math_round (x : number) : number :=
  match x with
  | Fin a => num (dec_round a)
  | other => other
  end.

(** *** parseFloat, parseInt, BigInt *)

Definition split_sign (s : string) : bool * string :=
  match s with
  | String "-" r => (true, r)
  | String "+" r => (false, r)
  | _ => (false, s)
  end.

Definition is_e (c : ascii) : bool := Ascii.eqb c "e" || Ascii.eqb c "E".

(** The exponent part [e[+-]ddd] at the head of [s]; 0 when there is no
    well-formed exponent part. *)
Definition parse_exponent (s : string) : Z :=
  match s with
  | String c r =>
      if is_e c then
        let (neg, r') := split_sign r in
        let (ds, _) := span is_digit r' in
        if is_empty ds then 0
        else if neg then - digits_val ds else digits_val ds
      else 0
  | EmptyString => 0
  end.

Definition dec_scale10 (a : dec) (e : Z) : dec :=
  if e <? 0 then mkDec (dmant a) (dscale a + Z.to_nat (- e))
  else mkDec (dmant a * 10 ^ e) (dscale a).

(** [parseFloat]: skip leading white space, then read the longest prefix
    that is a decimal literal; NaN when there is none. *)
Definition parseFloat (s : string) : number :=
  let (neg, u) := split_sign (trimStart s) in
  if String.prefix "Infinity" u then Inf neg
  else
    let (ip, r1) := span is_digit u in
    let (fp, r2) :=
      match r1 with
      | String "." r => span is_digit r
      | _ => (EmptyString, r1)
      end in
    if is_empty ip && is_empty fp then NaN
    else
      let m := digits_val (ip ++ fp) in
      Fin (dec_scale10 (mkDec (if neg then - m else m) (String.length fp))
             (parse_exponent r2)).

(** [parseInt(s, 10)] *)
Definition parseInt (s : string) : number :=
  let (neg, u) := split_sign (trimStart s) in
  let (ds, _) := span is_digit u in
  if is_empty ds then NaN
  else num (if neg then - digits_val ds else digits_val ds).

Fixpoint all_digits (s : string) : bool :=
  match s with
  | EmptyString => true
  | String c r => is_digit c && all_digits r
  end.

(** The value of a digit in the radix 2, 8 or 16. *)
Definition radix_digit (radix : Z) (c : ascii) : option Z :=
  let n := Z.of_nat (nat_of_ascii c) in
  let v :=
    if (48 <=? n) && (n <=? 57) then Some (n - 48)
    else if (97 <=? n) && (n <=? 102) then Some (n - 87)
    else if (65 <=? n) && (n <=? 70) then Some (n - 55)
    else None in
  match v with
  | Some d => if d <? radix then Some d else None
  | None => None
  end.

Fixpoint radix_val_acc (radix acc : Z) (s : string) : option Z :=
  match s with
  | EmptyString => Some acc
  | String c r =>
      match radix_digit radix c with
      | Some d => radix_val_acc radix (acc * radix + d) r
      | None => None
      end
  end.

(** The prefix [0x], [0o] or [0b], in either case, and what follows it. *)
Definition radix_prefix (s : string) : option (Z * string) :=
  match s with
  | String "0" (String c r) =>
      if Ascii.eqb c "x" || Ascii.eqb c "X" then Some (16, r)
      else if Ascii.eqb c "o" || Ascii.eqb c "O" then Some (8, r)
      else if Ascii.eqb c "b" || Ascii.eqb c "B" then Some (2, r)
      else None
  | _ => None
  end.

(** [BigInt(s)] for a string: white space is trimmed, the empty string is
    0n, otherwise a hexadecimal, octal or binary literal without sign, or
    an optionally signed run of decimal digits. *)
Definition BigInt_of_string (s : string) : result Z :=
  let t := trim s in
  if is_empty t then Ok 0
  else
    match radix_prefix t with
    | Some (radix, ds) =>
        if is_empty ds then Throw SyntaxError
        else match radix_val_acc radix 0 ds with
             | Some v => Ok v
             | None => Throw SyntaxError
             end
    | None =>
        let (neg, u) := split_sign t in
        if negb (is_empty u) && all_digits u
        then Ok (if neg then - digits_val u else digits_val u)
        else Throw SyntaxError
    end.

(** [BigInt(x)] for a number: a RangeError unless [x] is an integer. *)
Definition BigInt_of_number (x : number) : result Z :=
  match x with
  | Fin d => if dec_is_int d then Ok (dec_trunc d) else Throw RangeError
  | _ => Throw RangeError
  end.

End JS.

(* ================================================================== *)
(** ** constants/index.ts *)
(* ================================================================== *)

Module Constants.
Import JS.

Definition TOKEN_DENOMINATIONS_akt : string := "akt".
Definition TOKEN_DENOMINATIONS_uakt : string := "uakt".
Definition TOKEN_DENOMINATIONS_usdc : string :=
  "ibc/170C677610AC31DF0904FFE09CD3B5C657492170E7E52372E48756B71E56F2F1".

Definition AKT_DECIMALS : nat := 6.
Definition UAKT_PER_AKT : number := num 1000000.

(** [POLLING_INTERVALS.bidPolling], in milliseconds *)
Definition POLLING_INTERVALS_bidPolling : Z := 3000.

End Constants.

(* ================================================================== *)
(** ** helpers/amountConverter.ts *)
(* ================================================================== *)

Module AmountConverter.
Import JS Constants.

(** The argument of [aktToUakt] is [number | string]; callers also pass
    a property that may be missing. *)
Inductive amount_arg : Type :=
| AUndefined
| ANumber (n : number)
| AString (s : string).

Definition amount_arg_to_string (a : amount_arg) : string :=
  match a with
  | AUndefined => "undefined"
  | ANumber n => number_to_string n
  | AString s => s
  end.

Definition aktToUakt (akt : amount_arg) : result string :=
  let aktNum :=
    match akt with
    | AString s => parseFloat s
    | ANumber n => n
    | AUndefined => NaN
    end in
  if isNaN aktNum then
    Throw (Error ("Invalid AKT amount: " ++ amount_arg_to_string akt))
  else if number_lt aktNum (num 0) then
    Throw (Error "Amount cannot be negative")
  else
    let uaktValue := Math_round (number_mul aktNum UAKT_PER_AKT) in
    Ok (number_to_string uaktValue).

Record ICoin : Type := mkCoin { denom : option string; amount : string }.

Definition createAktCoin (amount : amount_arg) : result ICoin :=
  a <- aktToUakt amount ;;
  Ok (mkCoin (Some TOKEN_DENOMINATIONS_uakt) a).

(** The character class [[KMGTP]] under the [i] flag. *)
Definition is_size_letter (c : ascii) : bool :=
  let l := to_lower c in
  Ascii.eqb l "k" || Ascii.eqb l "m" || Ascii.eqb l "g"
  || Ascii.eqb l "t" || Ascii.eqb l "p".

Definition is_letter_i (c : ascii) : bool := Ascii.eqb (to_lower c) "i".

(** [sizeStr.match(/^(\d+(?:\.\d+)?)\s*([KMGTP]i?)?$/i)]: the two capture
    groups, or [None] when the string does not match.  Every quantifier
    of the expression is followed by something its own characters cannot
    start, so the greedy choice is the only one. *)
Definition match_memory_size (s : string) : option (string * option string) :=
  let (ip, r1) := span is_digit s in
  if is_empty ip then None
  else
    let (numeral, r2) :=
      match r1 with
      | String "." r =>
          let (fp, r') := span is_digit r in
          if is_empty fp then (ip, r1) else (ip ++ "." ++ fp, r')
      | _ => (ip, r1)
      end in
    match trimStart r2 with
    | EmptyString => Some (numeral, None)
    | String c EmptyString =>
        if is_size_letter c then Some (numeral, Some (String c EmptyString))
        else None
    | String c (String i EmptyString) =>
        if is_size_letter c && is_letter_i i
        then Some (numeral, Some (String c (String i EmptyString)))
        else None
    | _ => None
    end.

Definition multipliers : obj number :=
  [ ("", num 1);
    ("k", num 1000);
    ("ki", num 1024);
    ("m", num 1000000);
    ("mi", num (1024 * 1024));
    ("g", num 1000000000);
    ("gi", num (1024 * 1024 * 1024));
    ("t", num 1000000000000);
    ("ti", num (1024 * 1024 * 1024 * 1024));
    ("p", num 1000000000000000);
    ("pi", num (1024 * 1024 * 1024 * 1024 * 1024)) ].

Definition parseMemorySize (sizeStr : string) : result number :=
  match match_memory_size sizeStr with
  | None => Throw (Error ("Invalid memory size format: " ++ sizeStr))
  | Some (m1, m2) =>
      let value := parseFloat m1 in
      let unit :=
        toLowerCase (match m2 with
                     | Some u => if is_empty u then "" else u
                     | None => ""
                     end) in
      match lookup unit multipliers with
      | None => Throw (Error ("Unknown memory unit: " ++ unit))
      | Some mult => Ok (Math_round (number_mul value mult))
      end
  end.

(** [trimmed.match(/^(\d+)m$/)]: the capture group. *)
Definition match_millicpu (s : string) : option string :=
  let (ds, r) := span is_digit s in
  if is_empty ds then None
  else if String.eqb r "m" then Some ds
  else None.

Definition parseCpuUnits (cpuStr : string) : result number :=
  let trimmed := toLowerCase (trim cpuStr) in
  match match_millicpu trimmed with
  | Some m1 => Ok (number_div_pow10 (parseInt m1) 3)
  | None =>
      let value := parseFloat trimmed in
      if negb (isNaN value) then Ok value
      else Throw (Error ("Invalid CPU units format: " ++ cpuStr))
  end.

End AmountConverter.

(* ================================================================== *)
(** ** types/index.ts: the SDL manifest and the chain message shapes *)
(* ================================================================== *)

Module Types.
Import JS AmountConverter.

(** Optional fields, and fields the validator tests with [!x], are
    options: [None] is a property that is missing.  For [port], [as] and
    [gpu.units] it is also one that does not hold a number, which the
    validator rejects alike. *)

(** [count] and the [amount] of a pricing are typed [number], and the
    conversions coerce what they find there: these fields hold nothing,
    a number, or a string that the YAML document put there. *)
Definition number_field : Type := amount_arg.

Record ISDLExposeTo : Type := mkExposeTo {
  to_global : option bool;
  to_service : option string
}.

Record ISDLExpose : Type := mkExpose {
  ex_port : option number;
  ex_as : option number;
  ex_proto : option string;
  ex_to : option (list ISDLExposeTo);
  ex_accept : option (list string)
}.

Record ISDLStorageParams : Type := mkStorageParams {
  sp_mount : string;
  sp_readOnly : option bool
}.

Record ISDLService : Type := mkService {
  image : option string;
  command : option (list string);
  args : option (list string);
  env : option (list string);
  expose : option (list ISDLExpose);
  params_storage : option (obj ISDLStorageParams)   (* params?.storage *)
}.

(** [cpu.units : number | string] *)
Inductive cpu_units : Type :=
| UnitsNumber (n : number)
| UnitsString (s : string).

Record ISDLStorage : Type := mkStorage {
  st_size : option string;
  st_name : option string;
  st_class : option string
}.

(** [storage : ISDLStorage[] | ISDLStorage] *)
Inductive storage_field : Type :=
| StorageArray (l : list ISDLStorage)
| StorageSingle (s : ISDLStorage).

Record ISDLGpuModel : Type := mkGpuModel {
  gm_model : string;
  gm_ram : option string
}.

Record ISDLGpu : Type := mkGpu {
  gpu_units : option number;
  gpu_nvidia : option (list ISDLGpuModel)   (* attributes?.vendor?.nvidia *)
}.

Record ISDLResources : Type := mkResources {
  cpu : option (option cpu_units);          (* cpu, then cpu.units *)
  memory : option (option string);          (* memory, then memory.size *)
  storage : option storage_field;
  gpu : option ISDLGpu
}.

Record ISDLComputeProfile : Type := mkComputeProfile {
  resources : option ISDLResources
}.

Record ISDLPricing : Type := mkPricing {
  pr_denom : option string;
  pr_amount : number_field
}.

Record ISignedBy : Type := mkSignedBy {
  anyOf : option (list string);
  allOf : option (list string)
}.

Record ISDLPlacementProfile : Type := mkPlacementProfile {
  pl_attributes : option (obj string);
  pl_signedBy : option ISignedBy;
  pricing : option (obj ISDLPricing)
}.

Record ISDLDeploymentEntry : Type := mkDeploymentEntry {
  profile : string;
  count : number_field
}.

Definition ISDLDeploymentConfig : Type := obj ISDLDeploymentEntry.

Record ISDLProfiles : Type := mkProfiles {
  compute : option (obj ISDLComputeProfile);
  placement : option (obj ISDLPlacementProfile)
}.

Record ISDLManifest : Type := mkManifest {
  version : option string;
  services : option (obj ISDLService);
  profiles : option ISDLProfiles;
  deployment : option (obj ISDLDeploymentConfig)
}.

(** What a read with a computed key finds of an inherited member: none
    of the properties of the interface. *)
Definition blank_service : ISDLService := mkService None None None None None None.

Definition blank_compute : ISDLComputeProfile := mkComputeProfile None.

Definition blank_placement : ISDLPlacementProfile := mkPlacementProfile None None None.

Definition blank_pricing : ISDLPricing := mkPricing None AUndefined.

Record IAttribute : Type := mkAttribute { key : string; value : string }.

Record IStorageResource : Type := mkStorageResource {
  sr_name : string;
  sr_quantity : string;                      (* quantity.val *)
  sr_attributes : option (list IAttribute)
}.

Record IGpuResource : Type := mkGpuResource {
  gr_units : string;                         (* units.val *)
  gr_attributes : option (list IAttribute)
}.

Record IEndpoint : Type := mkEndpoint { kind : Z; sequenceNumber : nat }.

Record IResourceUnits : Type := mkResourceUnits {
  ru_cpu : string;                           (* cpu.units.val *)
  ru_memory : string;                        (* memory.quantity.val *)
  ru_storage : list IStorageResource;
  ru_gpu : option IGpuResource;
  ru_endpoints : option (list IEndpoint)
}.

Record IResourceGroup : Type := mkResourceGroup {
  rg_resources : IResourceUnits;
  rg_count : number_field;
  rg_price : ICoin
}.

Record IPlacementRequirements : Type := mkRequirements {
  rq_attributes : option (list IAttribute);
  rq_signedBy : option ISignedBy
}.

Record IGroupSpec : Type := mkGroupSpec {
  gs_name : string;
  gs_requirements : IPlacementRequirements;
  gs_resources : list IResourceGroup
}.

(** The provider manifest built by [sdlToManifest]. *)
Record ManifestStorage : Type := mkManifestStorage {
  ms_name : string;
  ms_size : string;
  ms_attributes : list IAttribute
}.

Record ManifestGpu : Type := mkManifestGpu {
  mg_units : number;
  mg_attributes : list IAttribute
}.

Record ManifestResources : Type := mkManifestResources {
  mr_cpu_units : number;
  mr_memory_size : string;
  mr_storage : list ManifestStorage;
  mr_gpu : option ManifestGpu
}.

Record ManifestExpose : Type := mkManifestExpose {
  me_port : option number;
  me_externalPort : option number;
  me_proto : string;
  me_global : bool;
  me_hosts : option (list string)
}.

Record ManifestStorageParam : Type := mkManifestStorageParam {
  mp_name : string;
  mp_mount : string;
  mp_readOnly : bool
}.

Record ManifestService : Type := mkManifestService {
  msv_name : string;
  msv_image : option string;
  msv_count : number_field;
  msv_resources : ManifestResources;
  msv_command : option (list string);
  msv_args : option (list string);
  msv_env : option (list (string * string));
  msv_expose : option (list ManifestExpose);
  msv_params : option (list ManifestStorageParam)
}.

Record ManifestGroup : Type := mkManifestGroup {
  mgr_name : string;
  mgr_services : list ManifestService
}.

Record ITransactionResult : Type := mkTxResult {
  transactionHash : string;
  code : Z;
  height : Z;
  gasUsed : Z;
  gasWanted : Z
}.

Record IBidId : Type := mkBidId {
  bid_owner : string;
  bid_dseq : string;
  bid_gseq : Z;
  bid_oseq : Z;
  bid_provider : string
}.

Record IBid : Type := mkBid {
  bidId : IBidId;
  bid_state : string;
  bid_price : ICoin
}.

End Types.

(* ================================================================== *)
(** ** helpers/sdlParser.ts *)
(* ================================================================== *)

Module SdlParser.
Import JS Constants AmountConverter Types.

(** *** js-yaml

    The YAML library is an external collaborator: [load] and [dump] are
    parameters of the functions that call them.  A loaded document is
    either an object, read at the manifest type as the source's cast
    does, or something that is not an object ([null] or a scalar). *)

Inductive yaml_value : Type :=
| YObject (m : ISDLManifest)
| YNotObject.

Record YamlLib : Type := mkYaml {
  load : string -> result yaml_value;
  dump : ISDLManifest -> string
}.

Definition parseSDL (yaml : YamlLib) (sdlContent : string) : result ISDLManifest :=
  match load yaml sdlContent with
  | Ok (YObject parsed) => Ok parsed
  | Ok YNotObject => Throw (Error "Invalid SDL: must be a valid YAML object")
  | Throw (YAMLException msg) => Throw (Error ("SDL YAML parsing error: " ++ msg))
  | Throw e => Throw e
  end.

(** [JSON.stringify] on a manifest and the SHA-256 digest of the crypto
    library. *)
Record HashLib : Type := mkHash {
  stringify : ISDLManifest -> string;
  sha256 : string -> list Byte.byte
}.

Definition generateVersionHash (lib : HashLib) (sdl : ISDLManifest) : list Byte.byte :=
  sha256 lib (stringify lib sdl).

(** *** Validation *)

Definition is_nil {A : Type} (l : list A) : bool :=
  match l with
  | [] => true
  | _ => false
  end.

(** [!o || Object.keys(o).length === 0] *)
Definition missing_or_empty {V : Type} (o : option (obj V)) : bool :=
  match o with
  | None => true
  | Some l => is_nil l
  end.

Definition entries {V : Type} (o : option (obj V)) : obj V :=
  match o with
  | Some l => l
  | None => []
  end.

Definition proto_ok (p : string) : bool := String.eqb p "tcp" || String.eqb p "udp".

Definition validateExpose (prefix : string) (i : nat) (e : ISDLExpose) : list string :=
  (match ex_port e with
   | Some p =>
       if truthy_number p then []
       else [prefix ++ ": expose[" ++ nat_to_string i ++ "] missing or invalid 'port'"]
   | None => [prefix ++ ": expose[" ++ nat_to_string i ++ "] missing or invalid 'port'"]
   end)
  ++
  (match ex_proto e with
   | Some p =>
       if truthy_string p && negb (proto_ok p)
       then [prefix ++ ": expose[" ++ nat_to_string i ++ "] invalid proto '" ++ p
               ++ "' (must be tcp or udp)"]
       else []
   | None => []
   end).

Definition validateService (name : string) (service : ISDLService) : list string :=
  let prefix := "Service '" ++ name ++ "'" in
  (if truthy_ostring (image service) then []
   else [prefix ++ ": missing required field 'image'"])
  ++
  (match expose service with
   | Some l => List.concat (mapi (validateExpose prefix) l)
   | None => []
   end).

(** [String(resources.cpu.units)] *)
Definition String_of_units (u : option cpu_units) : string :=
  match u with
  | Some (UnitsNumber n) => number_to_string n
  | Some (UnitsString s) => s
  | None => "undefined"
  end.

Definition truthy_units (u : option cpu_units) : bool :=
  match u with
  | Some (UnitsNumber n) => truthy_number n
  | Some (UnitsString s) => truthy_string s
  | None => false
  end.

Definition validateCpu (prefix : string) (r : ISDLResources) : list string :=
  match cpu r with
  | Some u =>
      if truthy_units u then
        match parseCpuUnits (String_of_units u) with
        | Ok cpuValue =>
            if number_le cpuValue (num 0)
            then [prefix ++ ": cpu.units must be positive"]
            else []
        | Throw _ => [prefix ++ ": invalid cpu.units format"]
        end
      else [prefix ++ ": missing required field 'resources.cpu.units'"]
  | None => [prefix ++ ": missing required field 'resources.cpu.units'"]
  end.

Definition validateMemory (prefix : string) (r : ISDLResources) : list string :=
  match memory r with
  | Some (Some size) =>
      if truthy_string size then
        match parseMemorySize size with
        | Ok memValue =>
            if number_le memValue (num 0)
            then [prefix ++ ": memory.size must be positive"]
            else []
        | Throw _ => [prefix ++ ": invalid memory.size format"]
        end
      else [prefix ++ ": missing required field 'resources.memory.size'"]
  | _ => [prefix ++ ": missing required field 'resources.memory.size'"]
  end.

Definition validateGpu (prefix : string) (r : ISDLResources) : list string :=
  match gpu r with
  | Some g =>
      match gpu_units g with
      | Some u =>
          if number_lt u (num 0)
          then [prefix ++ ": gpu.units must be a non-negative number"]
          else []
      | None => [prefix ++ ": gpu.units must be a non-negative number"]
      end
  | None => []
  end.

Definition validateComputeProfile (name : string) (profile : ISDLComputeProfile)
  : list string :=
  let prefix := "Compute profile '" ++ name ++ "'" in
  match resources profile with
  | None => [prefix ++ ": missing required field 'resources'"]
  | Some r =>
      validateCpu prefix r
      ++ validateMemory prefix r
      ++ (match storage r with
          | Some _ => []
          | None => [prefix ++ ": missing required field 'resources.storage'"]
          end)
      ++ validateGpu prefix r
  end.

Definition validatePricing (prefix : string) (entry : string * ISDLPricing) : list string :=
  let (computeProfile, p) := entry in
  (if truthy_ostring (pr_denom p) then []
   else [prefix ++ ": pricing for '" ++ computeProfile ++ "' missing 'denom'"])
  ++
  (match pr_amount p with
   | ANumber a =>
       if number_le a (num 0)
       then [prefix ++ ": pricing for '" ++ computeProfile ++ "' must have positive 'amount'"]
       else []
   | _ => [prefix ++ ": pricing for '" ++ computeProfile ++ "' must have positive 'amount'"]
   end).

Definition validatePlacementProfile (name : string) (profile : ISDLPlacementProfile)
  : list string :=
  let prefix := "Placement profile '" ++ name ++ "'" in
  if missing_or_empty (pricing profile)
  then [prefix ++ ": missing required field 'pricing'"]
  else List.concat (map (validatePricing prefix) (entries (pricing profile))).

(** [sdl.profiles?.compute?.[k]], [sdl.profiles?.placement?.[k]] and
    [sdl.services?.[k]] *)
Definition find_compute (sdl : ISDLManifest) (k : string) : option ISDLComputeProfile :=
  match profiles sdl with
  | Some p => match compute p with Some c => get blank_compute k c | None => None end
  | None => None
  end.

Definition find_placement (sdl : ISDLManifest) (k : string) : option ISDLPlacementProfile :=
  match profiles sdl with
  | Some p => match placement p with Some c => get blank_placement k c | None => None end
  | None => None
  end.

Definition find_service (sdl : ISDLManifest) (k : string) : option ISDLService :=
  match services sdl with
  | Some s => get blank_service k s
  | None => None
  end.

Definition is_some {A : Type} (o : option A) : bool :=
  match o with
  | Some _ => true
  | None => false
  end.

Definition validateDeploymentEntry (sdl : ISDLManifest)
  (entry : string * ISDLDeploymentEntry) : list string :=
  let (serviceName, config) := entry in
  (if is_some (find_service sdl serviceName) then []
   else ["Deployment references undefined service: " ++ serviceName])
  ++
  (if is_some (find_compute sdl (profile config)) then []
   else ["Deployment references undefined compute profile: " ++ profile config])
  ++
  (match count config with
   | ANumber c =>
       if number_lt c (num 1)
       then ["Invalid count for service " ++ serviceName ++ ": must be a positive integer"]
       else []
   | _ => ["Invalid count for service " ++ serviceName ++ ": must be a positive integer"]
   end).

Definition validateDeploymentPlacement (sdl : ISDLManifest)
  (entry : string * ISDLDeploymentConfig) : list string :=
  let (placementName, placement) := entry in
  (if is_some (find_placement sdl placementName) then []
   else ["Deployment references undefined placement profile: " ++ placementName])
  ++ List.concat (map (validateDeploymentEntry sdl) placement).

Record validation : Type := mkValidation { valid : bool; errors : list string }.

Definition validateSDL_errors (sdl : ISDLManifest) : list string :=
  (* version *)
  (match version sdl with
   | Some v =>
       if is_empty v then ["Missing required field: version"]
       else if negb (String.eqb v "2.0") && negb (String.eqb v "2.1")
       then ["Unsupported SDL version: " ++ v ++ ". Supported versions: 2.0, 2.1"]
       else []
   | None => ["Missing required field: version"]
   end)
  ++
  (* services *)
  (if missing_or_empty (services sdl)
   then ["Missing required field: services (at least one service required)"]
   else List.concat (map (fun e => validateService (fst e) (snd e)) (entries (services sdl))))
  ++
  (* profiles *)
  (match profiles sdl with
   | None => ["Missing required field: profiles"]
   | Some p =>
       (if missing_or_empty (compute p)
        then ["Missing required field: profiles.compute"]
        else List.concat (map (fun e => validateComputeProfile (fst e) (snd e))
                       (entries (compute p))))
       ++
       (if missing_or_empty (placement p)
        then ["Missing required field: profiles.placement"]
        else List.concat (map (fun e => validatePlacementProfile (fst e) (snd e))
                       (entries (placement p))))
   end)
  ++
  (* deployment *)
  (if missing_or_empty (deployment sdl)
   then ["Missing required field: deployment"]
   else List.concat (map (validateDeploymentPlacement sdl) (entries (deployment sdl)))).

Definition validateSDL (sdl : ISDLManifest) : validation :=
  let errors := validateSDL_errors sdl in
  mkValidation (is_nil errors) errors.

(** *** Conversion to deployment groups *)

(** [s.name || (index === 0 ? 'default' : `storage-${index}`)] *)
Definition storage_name (s : ISDLStorage) (index : nat) : string :=
  match st_name s with
  | Some n =>
      if truthy_string n then n
      else match index with O => "default" | _ => "storage-" ++ nat_to_string index end
  | None => match index with O => "default" | _ => "storage-" ++ nat_to_string index end
  end.

(** [Array.isArray(resources.storage) ? resources.storage : [resources.storage]] *)
Definition storage_list (f : option storage_field) : list (option ISDLStorage) :=
  match f with
  | Some (StorageArray l) => map Some l
  | Some (StorageSingle s) => [Some s]
  | None => [None]
  end.

(** [expose.to?.some(t => t.global)] *)
Definition exposed_globally (e : ISDLExpose) : bool :=
  match ex_to e with
  | Some l =>
      existsb (fun t => match to_global t with Some b => b | None => false end) l
  | None => false
  end.

Definition gpu_attributes (g : ISDLGpu) : list IAttribute :=
  match gpu_nvidia g with
  | Some (m0 :: _) =>
      [mkAttribute "vendor" "nvidia"]
      ++ (if truthy_string (gm_model m0) then [mkAttribute "model" (gm_model m0)] else [])
      ++ (match gm_ram m0 with
          | Some r => if truthy_string r then [mkAttribute "ram" r] else []
          | None => []
          end)
  | _ => []
  end.

Definition convertStorage (index : nat) (os : option ISDLStorage) : result IStorageResource :=
  s <- deref os ;;
  let name := storage_name s index in
  size <- deref (st_size s) ;;
  q <- parseMemorySize size ;;
  Ok (mkStorageResource name (number_to_string q)
        (match st_class s with
         | Some c => if truthy_string c then Some [mkAttribute "class" c] else None
         | None => None
         end)).

Definition convertResources (resources : option ISDLResources) (service : option ISDLService)
  : result IResourceUnits :=
  r <- deref resources ;;
  u <- deref (cpu r) ;;
  cpuValue <- parseCpuUnits (String_of_units u) ;;
  let cpuMillis := Math_round (number_mul cpuValue (num 1000)) in
  m <- deref (memory r) ;;
  size <- deref m ;;
  memoryBytes <- parseMemorySize size ;;
  storageResources <- mapMi convertStorage (storage_list (storage r)) ;;
  let gpuResource :=
    match gpu r with
    | Some g =>
        match gpu_units g with
        | Some gu =>
            if number_gt gu (num 0) then
              let gpuAttributes := gpu_attributes g in
              Some (mkGpuResource (number_to_string gu)
                      (if is_nil gpuAttributes then None else Some gpuAttributes))
            else None
        | None => None
        end
    | None => None
    end in
  svc <- deref service ;;
  let endpoints :=
    match expose svc with
    | Some (e :: l) =>
        Some (mapi (fun index ex =>
                mkEndpoint (if exposed_globally ex then 1 else 0) index) (e :: l))
    | _ => None
    end in
  Ok (mkResourceUnits (number_to_string cpuMillis) (number_to_string memoryBytes)
        storageResources gpuResource endpoints).

Definition groupResource (sdl : ISDLManifest) (placementProfile : option ISDLPlacementProfile)
  (entry : string * ISDLDeploymentEntry) : result IResourceGroup :=
  let (serviceName, config) := entry in
  profs <- deref (profiles sdl) ;;
  cmap <- deref (compute profs) ;;
  let computeProfile := get blank_compute (profile config) cmap in
  pp <- deref placementProfile ;;
  prmap <- deref (pricing pp) ;;
  let pricing := get blank_pricing (profile config) prmap in
  cp <- deref computeProfile ;;
  svcs <- deref (services sdl) ;;
  resourceUnits <- convertResources (resources cp) (get blank_service serviceName svcs) ;;
  p <- deref pricing ;;
  amt <- aktToUakt (pr_amount p) ;;
  Ok (mkResourceGroup resourceUnits (count config) (mkCoin (pr_denom p) amt)).

Definition groupOfPlacement (sdl : ISDLManifest) (entry : string * ISDLDeploymentConfig)
  : result IGroupSpec :=
  let (placementName, placement) := entry in
  profs <- deref (profiles sdl) ;;
  plmap <- deref (Types.placement profs) ;;
  let placementProfile := get blank_placement placementName plmap in
  resources <- mapM (groupResource sdl placementProfile) placement ;;
  pp <- deref placementProfile ;;
  let requirements :=
    mkRequirements
      (option_map (map (fun kv => mkAttribute (fst kv) (snd kv))) (pl_attributes pp))
      (pl_signedBy pp) in
  Ok (mkGroupSpec placementName requirements resources).

Definition sdlToGroups (sdl : ISDLManifest) : result (list IGroupSpec) :=
  dep <- deref (deployment sdl) ;;
  mapM (groupOfPlacement sdl) dep.

(** *** Price of an SDL *)

Fixpoint foldM {A B : Type} (f : B -> A -> result B) (l : list A) (acc : B) : result B :=
  match l with
  | [] => Ok acc
  | a :: r => acc' <- f acc a ;; foldM f r acc'
  end.

(** [BigInt(config.count)] *)
Definition BigInt_of_count (c : number_field) : result Z :=
  match c with
  | ANumber n => BigInt_of_number n
  | AString s => BigInt_of_string s
  | AUndefined => Throw TypeError
  end.

Definition addServicePrice (placementProfile : option ISDLPlacementProfile)
  (totalAmount : Z) (entry : string * ISDLDeploymentEntry) : result Z :=
  let (_serviceName, config) := entry in
  pp <- deref placementProfile ;;
  prmap <- deref (pricing pp) ;;
  p <- deref (get blank_pricing (profile config) prmap) ;;
  priceUakt <- aktToUakt (pr_amount p) ;;
  price <- BigInt_of_string priceUakt ;;
  n <- BigInt_of_count (count config) ;;
  Ok (totalAmount + price * n).

Definition addPlacementPrice (sdl : ISDLManifest) (totalAmount : Z)
  (entry : string * ISDLDeploymentConfig) : result Z :=
  let (placementName, placement) := entry in
  profs <- deref (profiles sdl) ;;
  plmap <- deref (Types.placement profs) ;;
  foldM (addServicePrice (get blank_placement placementName plmap)) placement totalAmount.

Definition calculateSDLPrice (sdl : ISDLManifest) : result ICoin :=
  dep <- deref (deployment sdl) ;;
  totalAmount <- foldM (addPlacementPrice sdl) dep 0 ;;
  Ok (mkCoin (Some TOKEN_DENOMINATIONS_uakt) (Z_to_string totalAmount)).

(** *** Conversion to the provider manifest *)

Definition convertManifestStorage (index : nat) (os : option ISDLStorage)
  : result ManifestStorage :=
  s <- deref os ;;
  let name := storage_name s index in
  size <- deref (st_size s) ;;
  q <- parseMemorySize size ;;
  Ok (mkManifestStorage name (number_to_string q)
        (match st_class s with
         | Some c => if truthy_string c then [mkAttribute "class" c] else []
         | None => []
         end)).

Definition convertManifestResources (resources : option ISDLResources)
  : result ManifestResources :=
  r <- deref resources ;;
  u <- deref (cpu r) ;;
  cpuValue <- parseCpuUnits (String_of_units u) ;;
  m <- deref (memory r) ;;
  size <- deref m ;;
  memoryBytes <- parseMemorySize size ;;
  let cpuUnits := Math_round (number_mul cpuValue (num 1000)) in
  storageList <- mapMi convertManifestStorage (storage_list (storage r)) ;;
  let gpuPart :=
    match gpu r with
    | Some g =>
        match gpu_units g with
        | Some gu =>
            if number_gt gu (num 0) then
              Some (mkManifestGpu gu
                      (match gpu_nvidia g with
                       | Some ms =>
                           map (fun m => mkAttribute "vendor/nvidia/model" (gm_model m)) ms
                       | None => []
                       end))
            else None
        | None => None
        end
    | None => None
    end in
  Ok (mkManifestResources cpuUnits (number_to_string memoryBytes) storageList gpuPart).

(** [e.split('=')] read as [[key, ...valueParts]] with the parts joined
    again: the text before the first [=] and the text after it. *)
Fixpoint split_env (e : string) : string * string :=
  match e with
  | EmptyString => (EmptyString, EmptyString)
  | String c r =>
      if Ascii.eqb c "=" then (EmptyString, r)
      else let (k, v) := split_env r in (String c k, v)
  end.

Definition manifestExpose (exp : ISDLExpose) : ManifestExpose :=
  mkManifestExpose
    (ex_port exp)
    (match ex_as exp with
     | Some a => if truthy_number a then Some a else ex_port exp
     | None => ex_port exp
     end)
    (match ex_proto exp with
     | Some p => if truthy_string p then p else "tcp"
     | None => "tcp"
     end)
    (exposed_globally exp)
    (ex_accept exp).

Definition manifestService (sdl : ISDLManifest) (entry : string * ISDLDeploymentEntry)
  : result ManifestService :=
  let (serviceName, config) := entry in
  svcs <- deref (services sdl) ;;
  let service := get blank_service serviceName svcs in
  profs <- deref (profiles sdl) ;;
  cmap <- deref (compute profs) ;;
  let computeProfile := get blank_compute (profile config) cmap in
  svc <- deref service ;;
  cp <- deref computeProfile ;;
  res <- convertManifestResources (resources cp) ;;
  Ok (mkManifestService serviceName (image svc) (count config) res
        (command svc)
        (args svc)
        (option_map (map split_env) (env svc))
        (option_map (map manifestExpose) (expose svc))
        (option_map
           (map (fun np =>
              mkManifestStorageParam (fst np) (sp_mount (snd np))
                (match sp_readOnly (snd np) with Some b => b | None => false end)))
           (params_storage svc))).

Definition manifestGroup (sdl : ISDLManifest) (entry : string * ISDLDeploymentConfig)
  : result ManifestGroup :=
  let (placementName, placement) := entry in
  services <- mapM (manifestService sdl) placement ;;
  Ok (mkManifestGroup placementName services).

Definition sdlToManifest (sdl : ISDLManifest) : result (list ManifestGroup) :=
  dep <- deref (deployment sdl) ;;
  mapM (manifestGroup sdl) dep.

(** *** The SDL builder *)

Record SimpleSDLOptions : Type := mkSimpleSDLOptions {
  o_serviceName : string;
  o_image : string;
  o_cpu : number;
  o_memory : string;
  o_storage : string;
  o_port : option number;
  o_env : option (obj string);
  o_replicas : option number;
  o_maxPrice : option number
}.

(** The object literal [sdl] that [createSimpleSDL] hands to [yaml.dump]. *)
Definition simpleSDLObject (options : SimpleSDLOptions) : ISDLManifest :=
  let serviceName := o_serviceName options in
  let replicas := match o_replicas options with Some r => r | None => num 1 end in
  let maxPrice := match o_maxPrice options with Some p => p | None => num 100 end in
  mkManifest
    (Some "2.0")
    (Some
       [ (serviceName,
          mkService
            (Some (o_image options))
            None
            None
            (option_map (map (fun kv => fst kv ++ "=" ++ snd kv)) (o_env options))
            (match o_port options with
             | Some port =>
                 if truthy_number port
                 then Some [ mkExpose (Some port) (Some (num 80)) None
                               (Some [ mkExposeTo (Some true) None ]) None ]
                 else None
             | None => None
             end)
            None) ])
    (Some
       (mkProfiles
          (Some
             [ (serviceName,
                mkComputeProfile
                  (Some
                     (mkResources
                        (Some (Some (UnitsNumber (o_cpu options))))
                        (Some (Some (o_memory options)))
                        (Some (StorageArray [ mkStorage (Some (o_storage options)) None None ]))
                        None))) ])
          (Some
             [ ("dcloud",
                mkPlacementProfile None None
                  (Some [ (serviceName, mkPricing (Some "uakt") (ANumber maxPrice)) ])) ])))
    (Some [ ("dcloud", [ (serviceName, mkDeploymentEntry serviceName (ANumber replicas)) ]) ]).

Definition createSimpleSDL (yaml : YamlLib) (options : SimpleSDLOptions) : string :=
  dump yaml (simpleSDLObject options).

End SdlParser.

(* ================================================================== *)
(** ** The outside world of the deployment handler *)
(* ================================================================== *)

Module Transport.
Import JS Constants AmountConverter Types SdlParser.

(** Chain messages handed to [signAndBroadcast]. *)
Inductive msg : Type :=
| MsgCreateDeployment (owner dseq : string) (groups : list IGroupSpec)
    (version : list Byte.byte) (deposit : ICoin) (depositor : string)
| MsgCreateLease (owner dseq : string) (gseq oseq : Z) (provider : string).

(** The calls that leave the process, in the order they are made.
    [ConnectWithSigner] is [SigningStargateClient.connectWithSigner] and
    [ConnectTendermint] is [Tendermint37Client.connect], both made by
    [initialize]; [ConnectQuery] is the [StargateClient.connect] of
    [getQueryClient]. *)
Inductive call : Type :=
| ConnectWithSigner
| ConnectTendermint
| ConnectQuery
| GetHeight
| SignAndBroadcast (m : msg)
| HttpGetBids (owner dseq : string) (gseq oseq : Z)
| HttpSendManifest (owner dseq provider : string) (manifest : list ManifestGroup)
| Disconnect.

(** What [initialize] leaves in the client. *)
Record CosmosClient : Type := mkClient {
  walletAddress : option string;
  signingClient : bool
}.

(** The environment answers every call.  [credentials] is what reading
    the credentials and making the signer yield: an error, no signer
    (the credentials hold neither mnemonic nor private key), or a signer
    with the wallet address found for it, if any.  [connectWithSigner],
    [tendermint] and [connect] are the outcomes of the three connections.
    Replies to [getBids] are
    indexed by the polling round; [timer_late k] is how late the timer of
    round [k] fires and [getBids_time k] how long the request of round [k]
    takes, both in milliseconds. *)
Record Env : Type := mkEnv {
  yaml : YamlLib;
  hash : HashLib;
  credentials : result (option (option string));
  connectWithSigner : result unit;
  tendermint : result unit;
  createConsoleApiClient : result unit;
  connect : result unit;
  getHeight : result Z;
  signAndBroadcast : msg -> result ITransactionResult;
  getBids_reply : nat -> result (list IBid);
  timer_late : nat -> N;
  getBids_time : nat -> N;
  sendManifest_reply : string -> string -> string -> list ManifestGroup -> result unit;
  disconnect_reply : result unit
}.

Record World : Type := mkWorld {
  clock : Z;              (* Date.now() *)
  polls : nat;            (* polling rounds started so far *)
  calls : list call       (* newest first *)
}.

Definition world0 : World := mkWorld 0 0 [].

(** Calls in the order they were made. *)
Definition trace (w : World) : list call := rev (calls w).

(** A computation runs in a world and either runs out of fuel ([None]) or
    ends in a world with a value or an exception. *)
Definition M (A : Type) : Type := World -> option (World * result A).

Definition ret {A : Type} (a : A) : M A := fun w => Some (w, Ok a).

Definition throw {A : Type} (e : error) : M A := fun w => Some (w, Throw e).

Definition bindM {A B : Type} (c : M A) (k : A -> M B) : M B :=
  fun w =>
    match c w with
    | None => None
    | Some (w', Ok a) => k a w'
    | Some (w', Throw e) => Some (w', Throw e)
    end.

(** [try { c } catch (error) { h error }] *)
Definition try_catch {A : Type} (c : M A) (h : error -> M A) : M A :=
  fun w =>
    match c w with
    | None => None
    | Some (w', Ok a) => Some (w', Ok a)
    | Some (w', Throw e) => h e w'
    end.

Definition lift {A : Type} (r : result A) : M A := fun w => Some (w, r).

Definition log (c : call) : M unit :=
  fun w => Some (mkWorld (clock w) (polls w) (c :: calls w), Ok tt).

Definition advance (ms : Z) : M unit :=
  fun w => Some (mkWorld (clock w + ms) (polls w) (calls w), Ok tt).

Definition Date_now : M Z := fun w => Some (w, Ok (clock w)).

Definition next_poll : M nat :=
  fun w => Some (mkWorld (clock w) (S (polls w)) (calls w), Ok (polls w)).

End Transport.

Module TransportNotations.
Notation "x <-- c ;; k" := (Transport.bindM c (fun x => k))
  (at level 61, c at next level, right associativity).
Notation "' p <-- c ;; k" := (Transport.bindM c (fun x => let 'p := x in k))
  (at level 61, p pattern, c at next level, right associativity).

End TransportNotations.

(* ================================================================== *)
(** ** transport/cosmosClient.ts and transport/consoleApi.ts *)
(* ================================================================== *)

Module Clients.
Import JS Constants AmountConverter Types SdlParser Transport TransportNotations.

Definition getWalletAddress (client : CosmosClient) : result string :=
  match walletAddress client with
  | Some a =>
      if truthy_string a then Ok a
      else Throw (Error "Client not initialized. Call initialize() first.")
  | None => Throw (Error "Client not initialized. Call initialize() first.")
  end.

(** The guard [!this.signingClient || !this.walletAddress] *)
Definition require_signing (client : CosmosClient) : result string :=
  if signingClient client then
    match walletAddress client with
    | Some a =>
        if truthy_string a then Ok a
        else Throw (Error "Signing client not initialized")
    | None => Throw (Error "Signing client not initialized")
    end
  else Throw (Error "Signing client not initialized").

(** [client.initialize(credentials)], with the reading of the
    credentials that precedes it in [createCosmosClient]. *)
Definition initialize (env : Env) : M CosmosClient :=
  signer <-- lift (credentials env) ;;
  client <--
    match signer with
    | Some address =>
        _ <-- log ConnectWithSigner ;;
        _ <-- lift (connectWithSigner env) ;;
        ret (mkClient address true)
    | None => ret (mkClient None false)
    end ;;
  _ <-- log ConnectTendermint ;;
  _ <-- lift (tendermint env) ;;
  ret client.

(** [createCosmosClient(this)] *)
Definition createCosmosClient (env : Env) : M CosmosClient := initialize env.

(** [this.getQueryClient()] *)
Definition getQueryClient (env : Env) : M unit :=
  _ <-- log ConnectQuery ;;
  lift (connect env).

Definition broadcast (env : Env) (m : msg) : M ITransactionResult :=
  _ <-- log (SignAndBroadcast m) ;;
  lift (signAndBroadcast env m).

Definition createDeployment (env : Env) (client : CosmosClient)
  (sdlContent deposit : string) : M (ITransactionResult * string) :=
  owner <-- lift (require_signing client) ;;
  sdl <-- lift (parseSDL (yaml env) sdlContent) ;;
  groups <-- lift (sdlToGroups sdl) ;;
  let version := generateVersionHash (hash env) sdl in
  _ <-- getQueryClient env ;;
  _ <-- log GetHeight ;;
  height <-- lift (getHeight env) ;;
  let dseq := Z_to_string height in
  coin <-- lift (createAktCoin (AString deposit)) ;;
  result <-- broadcast env (MsgCreateDeployment owner dseq groups version coin owner) ;;
  ret (result, dseq).

Definition createLease (env : Env) (client : CosmosClient)
  (dseq : string) (gseq oseq : Z) (provider : string) : M ITransactionResult :=
  owner <-- lift (require_signing client) ;;
  broadcast env (MsgCreateLease owner dseq gseq oseq provider).

(** [consoleClient.getBids]: the request of the current polling round. *)
Definition getBids (env : Env) (k : nat) (owner dseq : string) (gseq oseq : Z)
  : M (list IBid) :=
  _ <-- log (HttpGetBids owner dseq gseq oseq) ;;
  _ <-- advance (Z.of_N (getBids_time env k)) ;;
  lift (getBids_reply env k).

Definition sendManifest (env : Env) (owner dseq provider : string)
  (manifest : list ManifestGroup) : M unit :=
  _ <-- log (HttpSendManifest owner dseq provider manifest) ;;
  lift (sendManifest_reply env owner dseq provider manifest).

Definition disconnect (env : Env) (client : CosmosClient) : M unit :=
  if signingClient client then
    _ <-- log Disconnect ;; lift (disconnect_reply env)
  else ret tt.

(** [await new Promise(resolve => setTimeout(resolve, ms))]: the timer
    fires no earlier than [ms] milliseconds later. *)
Definition sleep (env : Env) (k : nat) (ms : Z) : M unit :=
  advance (ms + Z.of_N (timer_late env k)).

End Clients.

(* ================================================================== *)
(** ** actions/deployment/create: the [execute] handler *)
(* ================================================================== *)

Module DeploymentCreate.
Import JS Constants AmountConverter Types SdlParser Transport TransportNotations Clients.

Record CreateOptions : Type := mkOptions {
  autoAcceptBid : option bool;
  bidWaitTime : option number;
  preferredProvider : option string;
  maxPrice : option number;
  opt_sendManifest : option bool;
  validateOnly : option bool
}.

Record LeaseInfo : Type := mkLeaseInfo {
  created : bool;
  lease_transactionHash : string;
  lease_provider : string;
  lease_price : ICoin;
  lease_gseq : Z;
  lease_oseq : Z
}.

(** The [response] object.  A [None] is a key that was never assigned;
    [lease = Some None] is [lease: null]. *)
Record Response : Type := mkResponse {
  success : bool;
  r_transactionHash : string;
  r_dseq : string;
  r_owner : string;
  r_deposit : string;
  r_height : Z;
  r_gasUsed : Z;
  bidsReceived : option nat;
  lease : option (option LeaseInfo);
  manifestSent : option bool;
  manifestError : option string;
  r_message : option string
}.

Definition set_bidsReceived (r : Response) (n : nat) : Response :=
  mkResponse (success r) (r_transactionHash r) (r_dseq r) (r_owner r) (r_deposit r)
    (r_height r) (r_gasUsed r) (Some n) (lease r) (manifestSent r) (manifestError r)
    (r_message r).

Definition set_lease (r : Response) (l : option LeaseInfo) : Response :=
  mkResponse (success r) (r_transactionHash r) (r_dseq r) (r_owner r) (r_deposit r)
    (r_height r) (r_gasUsed r) (bidsReceived r) (Some l) (manifestSent r) (manifestError r)
    (r_message r).

Definition set_manifestSent (r : Response) (b : bool) : Response :=
  mkResponse (success r) (r_transactionHash r) (r_dseq r) (r_owner r) (r_deposit r)
    (r_height r) (r_gasUsed r) (bidsReceived r) (lease r) (Some b) (manifestError r)
    (r_message r).

Definition set_manifestError (r : Response) (m : string) : Response :=
  mkResponse (success r) (r_transactionHash r) (r_dseq r) (r_owner r) (r_deposit r)
    (r_height r) (r_gasUsed r) (bidsReceived r) (lease r) (manifestSent r) (Some m)
    (r_message r).

Definition set_message (r : Response) (m : string) : Response :=
  mkResponse (success r) (r_transactionHash r) (r_dseq r) (r_owner r) (r_deposit r)
    (r_height r) (r_gasUsed r) (bidsReceived r) (lease r) (manifestSent r) (manifestError r)
    (Some m).

Inductive Output : Type :=
| ValidationOnly (estimatedPricePerBlock : ICoin) (services profiles : list string)
| Created (response : Response).

Definition newline : string := String (ascii_of_nat 10) EmptyString.

(** [errors.join(sep)] *)
Fixpoint join (sep : string) (l : list string) : string :=
  match l with
  | [] => EmptyString
  | [x] => x
  | x :: r => x ++ sep ++ join sep r
  end.

(** *** The polling loop *)

Record PollState : Type := mkPoll {
  bestBid : option IBid;
  bids : list IBid
}.

(** [parseInt(b.price.amount, 10)] *)
Definition price_of (b : IBid) : number := parseInt (amount (bid_price b)).

(** The bids left after the [maxPrice] filter. *)
Definition eligibleBids (options : CreateOptions) (bids : list IBid) : list IBid :=
  match maxPrice options with
  | Some mp =>
      if truthy_number mp && number_gt mp (num 0)
      then filter (fun b => number_le (price_of b) mp) bids
      else bids
  | None => bids
  end.

(** [eligibleBids.find(b => b.bidId.provider === options.preferredProvider)],
    under the guard [if (options.preferredProvider)] *)
Definition preferredBid (options : CreateOptions) (eligible : list IBid) : option IBid :=
  match preferredProvider options with
  | Some p =>
      if truthy_string p
      then find (fun b => String.eqb (bid_provider (bidId b)) p) eligible
      else None
  | None => None
  end.

(** The callback of [reduce]. *)
Definition cheaper (prev curr : IBid) : IBid :=
  if number_lt (price_of curr) (price_of prev) then curr else prev.

Definition lowestBid (first : IBid) (rest : list IBid) : IBid :=
  fold_left cheaper rest first.

(** One pass through the body of the [while] loop.  The boolean is
    [true] when the body left the loop with [break]. *)
Definition poll_round (env : Env) (client : CosmosClient) (options : CreateOptions)
  (dseq : string) (startTime : Z) (st : PollState) : M (bool * PollState) :=
  k <-- next_poll ;;
  _ <-- sleep env k POLLING_INTERVALS_bidPolling ;;
  try_catch
    (owner <-- lift (getWalletAddress client) ;;
     bids <-- getBids env k owner dseq 1 1 ;;
     if (0 <? List.length bids)%nat then
       let eligible := eligibleBids options bids in
       match preferredBid options eligible with
       | Some preferred => ret (true, mkPoll (Some preferred) bids)
       | None =>
           match eligible with
           | first :: rest =>
               let best := lowestBid first rest in
               now <-- Date_now ;;
               if now - startTime >? 30000
               then ret (true, mkPoll (Some best) bids)
               else ret (false, mkPoll (Some best) bids)
           | [] => ret (false, mkPoll (bestBid st) bids)
           end
       end
     else ret (false, mkPoll (bestBid st) bids))
    (fun _ => ret (false, st)).

Definition out_of_fuel {A : Type} : M A := fun _ => None.

(** [while (Date.now() - startTime < bidWaitTime) { ... }]; [fuel] bounds
    the number of passes. *)
Fixpoint poll_loop (fuel : nat) (env : Env) (client : CosmosClient)
  (options : CreateOptions) (dseq : string) (startTime : Z) (bidWaitTime : number)
  (st : PollState) : M PollState :=
  now <-- Date_now ;;
  if number_lt (num (now - startTime)) bidWaitTime then
    match fuel with
    | O => out_of_fuel
    | S fuel' =>
        ' (stop, st') <-- poll_round env client options dseq startTime st ;;
        if (stop : bool) then ret st'
        else poll_loop fuel' env client options dseq startTime bidWaitTime st'
    end
  else ret st.

(** [(options.bidWaitTime || 120) * 1000] *)
Definition bidWaitTime_ms (options : CreateOptions) : number :=
  number_mul
    (match bidWaitTime options with
     | Some t => if truthy_number t then t else num 120
     | None => num 120
     end)
    (num 1000).

(** The polling part of [execute]: from [startTime = Date.now()] to the
    end of the loop. *)
Definition poll_bids (fuel : nat) (env : Env) (client : CosmosClient)
  (options : CreateOptions) (dseq : string) : M PollState :=
  startTime <-- Date_now ;;
  poll_loop fuel env client options dseq startTime (bidWaitTime_ms options)
    (mkPoll None []).

Definition is_false (b : option bool) : bool :=
  match b with
  | Some false => true
  | _ => false
  end.

Definition is_true (b : option bool) : bool :=
  match b with
  | Some true => true
  | _ => false
  end.

(** The branch [if (bestBid) { ... } else { ... }] *)
Definition accept_bid (env : Env) (client : CosmosClient) (options : CreateOptions)
  (parsedSdl : ISDLManifest) (dseq : string) (response : Response)
  (best : option IBid) : M Response :=
  match best with
  | Some b =>
      let id := bidId b in
      leaseResult <-- createLease env client dseq (bid_gseq id) (bid_oseq id)
                        (bid_provider id) ;;
      let response :=
        set_lease response
          (Some (mkLeaseInfo (code leaseResult =? 0) (transactionHash leaseResult)
                   (bid_provider id) (bid_price b) (bid_gseq id) (bid_oseq id))) in
      if negb (is_false (opt_sendManifest options)) && (code leaseResult =? 0) then
        try_catch
          (manifest <-- lift (sdlToManifest parsedSdl) ;;
           owner <-- lift (getWalletAddress client) ;;
           _ <-- sendManifest env owner dseq (bid_provider id) manifest ;;
           ret (set_manifestSent response true))
          (fun error =>
             ret (set_manifestError (set_manifestSent response false) (message error)))
      else ret response
  | None =>
      ret (set_message (set_lease response None)
             "No suitable bids received within the wait time")
  end.

Definition execute (fuel : nat) (env : Env) (sdl : string) (deposit : number)
  (options : CreateOptions) : M Output :=
  parsedSdl <-- lift (parseSDL (yaml env) sdl) ;;
  let validation := validateSDL parsedSdl in
  if negb (valid validation) then
    throw (Error ("SDL validation failed:" ++ newline ++ join newline (errors validation)))
  else if is_true (validateOnly options) then
    estimatedPrice <-- lift (calculateSDLPrice parsedSdl) ;;
    svcs <-- lift (deref (services parsedSdl)) ;;
    profs <-- lift (deref (profiles parsedSdl)) ;;
    comp <-- lift (deref (compute profs)) ;;
    ret (ValidationOnly estimatedPrice (keys svcs) (keys comp))
  else
    cosmosClient <-- createCosmosClient env ;;
    _ <-- lift (createConsoleApiClient env) ;;
    ' (result, dseq) <-- createDeployment env cosmosClient sdl (number_to_string deposit) ;;
    owner <-- lift (getWalletAddress cosmosClient) ;;
    let response :=
      mkResponse (code result =? 0) (transactionHash result) dseq owner
        (number_to_string deposit ++ " AKT") (height result) (gasUsed result)
        None None None None None in
    response <--
      (if negb (is_false (autoAcceptBid options)) then
         st <-- poll_bids fuel env cosmosClient options dseq ;;
         let response := set_bidsReceived response (List.length (bids st)) in
         accept_bid env cosmosClient options parsedSdl dseq response (bestBid st)
       else ret response) ;;
    _ <-- disconnect env cosmosClient ;;
    ret (Created response).

End DeploymentCreate.

(* ================================================================== *)
(** ** helpers/amountConverter.ts: formatting and amount arithmetic *)
(* ================================================================== *)

Module Amounts.
Import JS Constants AmountConverter.

(** [x.toFixed(f)]: the sign, then the integer nearest to [|x| * 10^f]
    (the larger one on a tie) written with [f] digits after the point.
    From 1e21 on, and for a value that is not finite, it is [String(x)]. *)
Definition toFixed (x : number) (f : nat) : string :=
  match x with
  | Fin d =>
      let a := mkDec (Z.abs (dmant d)) (dscale d) in
      let m :=
        if number_ge (Fin a) (num (10 ^ 21)) then number_to_string (Fin a)
        else
          let n := dec_round (mkDec (dmant a * pow10 f) (dscale a)) in
          match f with
          | O => Z_to_digits n
          | S _ => Z_to_digits (n / pow10 f) ++ "." ++ pad_digits f (n mod pow10 f)
          end in
      if dmant d <? 0 then String "-" m else m
  | other => number_to_string other
  end.

Definition uaktToAkt (uakt : amount_arg) : result string :=
  let uaktNum :=
    match uakt with
    | AString s => parseInt s
    | ANumber n => Math_round n
    | AUndefined => NaN
    end in
  if isNaN uaktNum then
    Throw (Error ("Invalid uAKT amount: " ++ amount_arg_to_string uakt))
  else
    let aktValue := number_div_pow10 uaktNum 6 in
    Ok (toFixed aktValue AKT_DECIMALS).

Definition createCoin (amount denom : string) : ICoin := mkCoin (Some denom) amount.

(** [coin.denom === d] *)
Definition denom_is (coin : ICoin) (d : string) : bool :=
  match denom coin with
  | Some x => String.eqb x d
  | None => false
  end.

Definition formatCoin (coin : ICoin) : result string :=
  if denom_is coin TOKEN_DENOMINATIONS_uakt then
    akt <- uaktToAkt (AString (amount coin)) ;;
    Ok (akt ++ " AKT")
  else if denom_is coin TOKEN_DENOMINATIONS_usdc then
    let usdc := toFixed (number_div_pow10 (parseInt (amount coin)) 6) 6 in
    Ok (usdc ++ " USDC")
  else
    Ok (amount coin ++ " "
        ++ match denom coin with Some d => d | None => "undefined" end).

(** The character class [[\d.]]. *)
Definition is_amount_char (c : ascii) : bool := is_digit c || Ascii.eqb c ".".

(** [trimmed.match(/^(C+)\s*unit$/i)] for a character class [C] that has
    neither white space nor a letter: the capture group.  The run of [C]
    cannot end earlier than at its longest, since what follows it must
    start outside [C]. *)
Definition match_amount (cls : ascii -> bool) (unit : string) (s : string) : option string :=
  let (m1, r) := span cls s in
  if is_empty m1 then None
  else if String.eqb (toLowerCase (trimStart r)) unit then Some m1
  else None.

(** [trimmed.match(/^[\d.]+$/)] *)
Definition match_number (s : string) : bool :=
  let (m1, r) := span is_amount_char s in
  negb (is_empty m1) && is_empty r.

Definition parseAmountString (amountStr : string) : result ICoin :=
  let trimmed := toLowerCase (trim amountStr) in
  match match_amount is_amount_char "akt" trimmed with
  | Some m1 => createAktCoin (AString m1)
  | None =>
      match match_amount is_digit "uakt" trimmed with
      | Some m1 => Ok (mkCoin (Some TOKEN_DENOMINATIONS_uakt) m1)
      | None =>
          match match_amount is_amount_char "usdc" trimmed with
          | Some m1 =>
              let amount :=
                number_to_string (Math_round (number_mul (parseFloat m1) (num 1000000))) in
              Ok (mkCoin (Some TOKEN_DENOMINATIONS_usdc) amount)
          | None =>
              if match_number trimmed then createAktCoin (AString trimmed)
              else Throw (Error ("Unable to parse amount string: " ++ amountStr))
          end
      end
  end.

Definition calculateTotalCost (pricePerBlock : string) (blocks : number) : result string :=
  price <- BigInt_of_string pricePerBlock ;;
  b <- BigInt_of_number blocks ;;
  let totalUakt := price * b in
  Ok (Z_to_string totalUakt).

Definition estimateMonthlyCost (hourlyPrice : string) : result string :=
  hourly <- BigInt_of_string hourlyPrice ;;
  let monthly := hourly * 24 * 30 in
  Ok (Z_to_string monthly).

Definition formatCpuUnits (cpu : number) (useMillicpu : bool) : string :=
  if useMillicpu then number_to_string (Math_round (number_mul cpu (num 1000))) ++ "m"
  else number_to_string cpu.

Definition compareAmounts (a b : string) : result Z :=
  aBig <- BigInt_of_string a ;;
  bBig <- BigInt_of_string b ;;
  if aBig <? bBig then Ok (-1)
  else if aBig >? bBig then Ok 1
  else Ok 0.

Definition addAmounts (a b : string) : result string :=
  aBig <- BigInt_of_string a ;;
  bBig <- BigInt_of_string b ;;
  Ok (Z_to_string (aBig + bBig)).

Definition subtractAmounts (a b : string) : result string :=
  aBig <- BigInt_of_string a ;;
  bBig <- BigInt_of_string b ;;
  let result := aBig - bBig in
  if result <? 0 then Throw (Error "Subtraction would result in negative amount")
  else Ok (Z_to_string result).

End Amounts.

(* ================================================================== *)
(** ** actions/deployment: the update, close and deposit handlers *)
(* ================================================================== *)

Module DeploymentOps.
Import JS Constants AmountConverter Types SdlParser Transport Clients DeploymentCreate.

(** The messages of the other deployment operations. *)
Inductive op_msg : Type :=
| MsgUpdateDeployment (owner dseq : string) (version : list Byte.byte)
| MsgCloseDeployment (owner dseq : string)
| MsgDepositDeployment (owner dseq : string) (amount : ICoin) (depositor : string).

(** The calls these operations make, in the order they are made; the
    first two are the connections of [initialize]. *)
Inductive op_call : Type :=
| OpConnectWithSigner
| OpConnectTendermint
| OpSignAndBroadcast (m : op_msg)
| OpSendManifest (owner dseq provider : string) (manifest : list ManifestGroup)
| OpDisconnect.

Record OpEnv : Type := mkOpEnv {
  op_yaml : YamlLib;
  op_hash : HashLib;
  op_credentials : result (option (option string));
  op_connectWithSigner : result unit;
  op_tendermint : result unit;
  op_createConsoleApiClient : result unit;
  op_signAndBroadcast : op_msg -> result ITransactionResult;
  op_sendManifest_reply : string -> string -> string -> list ManifestGroup -> result unit;
  op_disconnect_reply : result unit
}.

(** These handlers neither loop nor read the clock: a computation takes
    the calls made so far, newest first, and returns them with a value
    or an exception. *)
Definition T (A : Type) : Type := list op_call -> list op_call * result A.

Definition retT {A : Type} (a : A) : T A := fun cs => (cs, Ok a).

Definition throwT {A : Type} (e : error) : T A := fun cs => (cs, Throw e).

Definition bindT {A B : Type} (c : T A) (k : A -> T B) : T B :=
  fun cs =>
    match c cs with
    | (cs', Ok a) => k a cs'
    | (cs', Throw e) => (cs', Throw e)
    end.

(** [try { c } catch (error) { h error }] *)
Definition try_catchT {A : Type} (c : T A) (h : error -> T A) : T A :=
  fun cs =>
    match c cs with
    | (cs', Ok a) => (cs', Ok a)
    | (cs', Throw e) => h e cs'
    end.

Definition liftT {A : Type} (r : result A) : T A := fun cs => (cs, r).

Definition logT (c : op_call) : T unit := fun cs => (c :: cs, Ok tt).

Notation "x <~ c ;; k" := (bindT c (fun x => k))
  (at level 61, c at next level, right associativity).

(** Calls in the order they were made. *)
Definition made (cs : list op_call) : list op_call := rev cs.

(** *** transport/cosmosClient.ts *)

(** [createCosmosClient(this)] *)
Definition op_createCosmosClient (env : OpEnv) : T CosmosClient :=
  signer <~ liftT (op_credentials env) ;;
  client <~
    match signer with
    | Some address =>
        _ <~ logT OpConnectWithSigner ;;
        _ <~ liftT (op_connectWithSigner env) ;;
        retT (mkClient address true)
    | None => retT (mkClient None false)
    end ;;
  _ <~ logT OpConnectTendermint ;;
  _ <~ liftT (op_tendermint env) ;;
  retT client.

Definition op_broadcast (env : OpEnv) (m : op_msg) : T ITransactionResult :=
  _ <~ logT (OpSignAndBroadcast m) ;;
  liftT (op_signAndBroadcast env m).

Definition closeDeployment (env : OpEnv) (client : CosmosClient) (dseq : string)
  : T ITransactionResult :=
  owner <~ liftT (require_signing client) ;;
  op_broadcast env (MsgCloseDeployment owner dseq).

Definition updateDeployment (env : OpEnv) (client : CosmosClient)
  (dseq sdlContent : string) : T ITransactionResult :=
  owner <~ liftT (require_signing client) ;;
  sdl <~ liftT (parseSDL (op_yaml env) sdlContent) ;;
  let version := generateVersionHash (op_hash env) sdl in
  op_broadcast env (MsgUpdateDeployment owner dseq version).

Definition depositDeployment (env : OpEnv) (client : CosmosClient)
  (dseq amount : string) : T ITransactionResult :=
  owner <~ liftT (require_signing client) ;;
  coin <~ liftT (createAktCoin (AString amount)) ;;
  op_broadcast env (MsgDepositDeployment owner dseq coin owner).

Definition op_disconnect (env : OpEnv) (client : CosmosClient) : T unit :=
  if signingClient client then
    _ <~ logT OpDisconnect ;; liftT (op_disconnect_reply env)
  else retT tt.

(** *** transport/consoleApi.ts *)

Definition op_sendManifest (env : OpEnv) (owner dseq provider : string)
  (manifest : list ManifestGroup) : T unit :=
  _ <~ logT (OpSendManifest owner dseq provider manifest) ;;
  liftT (op_sendManifest_reply env owner dseq provider manifest).

(** *** actions/deployment: update, close, deposit *)

(** The [response] object of [executeUpdate]; a [None] is a key that was
    never assigned. *)
Record UpdateResponse : Type := mkUpdateResponse {
  u_success : bool;
  u_transactionHash : string;
  u_dseq : string;
  u_height : Z;
  u_manifestSent : option bool;
  u_manifestError : option string
}.

Definition executeUpdate (env : OpEnv) (dseq sdl provider : string) : T UpdateResponse :=
  parsedSdl <~ liftT (parseSDL (op_yaml env) sdl) ;;
  let validation := validateSDL parsedSdl in
  if negb (valid validation) then
    throwT (Error ("SDL validation failed:" ++ newline ++ join newline (errors validation)))
  else
    cosmosClient <~ op_createCosmosClient env ;;
    _ <~ liftT (op_createConsoleApiClient env) ;;
    result <~ updateDeployment env cosmosClient dseq sdl ;;
    let response :=
      mkUpdateResponse (code result =? 0) (transactionHash result) dseq (height result)
        None None in
    response <~
      (if code result =? 0 then
         try_catchT
           (manifest <~ liftT (sdlToManifest parsedSdl) ;;
            owner <~ liftT (getWalletAddress cosmosClient) ;;
            _ <~ op_sendManifest env owner dseq provider manifest ;;
            retT (mkUpdateResponse (u_success response) (u_transactionHash response)
                    (u_dseq response) (u_height response) (Some true)
                    (u_manifestError response)))
           (fun e =>
              retT (mkUpdateResponse (u_success response) (u_transactionHash response)
                      (u_dseq response) (u_height response) (Some false)
                      (Some (message e))))
       else retT response) ;;
    _ <~ op_disconnect env cosmosClient ;;
    retT response.

Record CloseResponse : Type := mkCloseResponse {
  c_success : bool;
  c_transactionHash : string;
  c_dseq : string;
  c_height : Z;
  c_gasUsed : Z
}.

Definition executeClose (env : OpEnv) (dseq : string) : T CloseResponse :=
  cosmosClient <~ op_createCosmosClient env ;;
  result <~ closeDeployment env cosmosClient dseq ;;
  _ <~ op_disconnect env cosmosClient ;;
  retT (mkCloseResponse (code result =? 0) (transactionHash result) dseq (height result)
          (gasUsed result)).

Record DepositResponse : Type := mkDepositResponse {
  d_success : bool;
  d_transactionHash : string;
  d_dseq : string;
  d_amount : string;
  d_height : Z;
  d_gasUsed : Z
}.

Definition executeDeposit (env : OpEnv) (dseq : string) (amount : number)
  : T DepositResponse :=
  cosmosClient <~ op_createCosmosClient env ;;
  result <~ depositDeployment env cosmosClient dseq (number_to_string amount) ;;
  _ <~ op_disconnect env cosmosClient ;;
  retT (mkDepositResponse (code result =? 0) (transactionHash result) dseq
          (number_to_string amount ++ " AKT") (height result) (gasUsed result)).

End DeploymentOps.

(* ================================================================== *)
(** ** Concrete manifests, bids and environments *)
(* ================================================================== *)

Module Samples.
Import JS Constants AmountConverter Types SdlParser Transport Clients DeploymentCreate.

Definition dec_half : number := Fin (mkDec 5 1).

Definition web_expose : ISDLExpose :=
  mkExpose (Some (num 80)) (Some (num 80)) None (Some [mkExposeTo (Some true) None]) None.

Definition web_service : ISDLService :=
  mkService (Some "nginx:latest") None None None (Some [web_expose]) None.

Definition web_resources (storageSize : string) : ISDLResources :=
  mkResources (Some (Some (UnitsNumber dec_half))) (Some (Some "512Mi"))
    (Some (StorageArray [mkStorage (Some storageSize) None None])) None.

Definition dcloud_placement (computeName : string) : ISDLPlacementProfile :=
  mkPlacementProfile None None
    (Some [(computeName, mkPricing (Some "uakt") (ANumber (num 1000)))]).

(** The manifest [VALID_SDL] of the test suite. *)
Definition valid_sdl : ISDLManifest :=
  mkManifest (Some "2.0")
    (Some [("web", web_service)])
    (Some (mkProfiles
             (Some [("web", mkComputeProfile (Some (web_resources "1Gi")))])
             (Some [("dcloud", dcloud_placement "web")])))
    (Some [("dcloud", [("web", mkDeploymentEntry "web" (ANumber (num 1)))])]).

(** [VALID_SDL] with the storage size written [1GB]. *)
Definition sdl_storage_1GB : ISDLManifest :=
  mkManifest (Some "2.0")
    (Some [("web", web_service)])
    (Some (mkProfiles
             (Some [("web", mkComputeProfile (Some (web_resources "1GB")))])
             (Some [("dcloud", dcloud_placement "web")])))
    (Some [("dcloud", [("web", mkDeploymentEntry "web" (ANumber (num 1)))])]).

(** [VALID_SDL] with the placement priced for a compute profile [other]
    that the deployment does not use. *)
Definition sdl_unpriced_profile : ISDLManifest :=
  mkManifest (Some "2.0")
    (Some [("web", web_service)])
    (Some (mkProfiles
             (Some [("web", mkComputeProfile (Some (web_resources "1Gi")))])
             (Some [("dcloud", dcloud_placement "other")])))
    (Some [("dcloud", [("web", mkDeploymentEntry "web" (ANumber (num 1)))])]).


(** Two services under one placement: three replicas of [web] at 0.001
    AKT, and of [api], whose count and amount the document quotes, two
    at 0.002 AKT. *)
Definition sdl_two_services : ISDLManifest :=
  mkManifest (Some "2.0")
    (Some [("web", web_service); ("api", web_service)])
    (Some (mkProfiles
             (Some [("web", mkComputeProfile (Some (web_resources "1Gi")));
                    ("api", mkComputeProfile (Some (web_resources "1Gi")))])
             (Some [("dcloud",
                     mkPlacementProfile None None
                       (Some [("web", mkPricing (Some "uakt") (ANumber (Fin (mkDec 1 3))));
                              ("api", mkPricing (Some "uakt") (AString "0.002"))]))])))
    (Some [("dcloud", [("web", mkDeploymentEntry "web" (ANumber (num 3)));
                       ("api", mkDeploymentEntry "api" (AString "2"))])]).

(** [VALID_SDL] with a deployment entry for a service [toString] that
    uses a compute profile [valueOf]: neither is defined in the
    manifest, both are names of members of [Object.prototype]. *)
Definition sdl_inherited_names : ISDLManifest :=
  mkManifest (Some "2.0")
    (Some [("web", web_service)])
    (Some (mkProfiles
             (Some [("web", mkComputeProfile (Some (web_resources "1Gi")))])
             (Some [("dcloud", dcloud_placement "web")])))
    (Some [("dcloud", [("toString", mkDeploymentEntry "valueOf" (ANumber (num 1)))])]).

(** A YAML library that knows one document. *)
Definition yaml_of (text : string) (m : ISDLManifest) : YamlLib :=
  mkYaml
    (fun s => if String.eqb s text then Ok (YObject m)
              else Throw (YAMLException "bad indentation"))
    (fun _ => text).

Definition tx_ok (hash : string) : ITransactionResult := mkTxResult hash 0 100 5000 6000.

Definition bid (provider amount : string) : IBid :=
  mkBid (mkBidId "akash1owner" "100" 1 1 provider) "open" (mkCoin (Some "uakt") amount).

Definition signer : CosmosClient := mkClient (Some "akash1owner") true.

(** A hash library that writes every manifest as [{}] and digests every
    text to the bytes 01 02. *)
Definition hash_fixed : HashLib :=
  mkHash (fun _ => "{}") (fun _ => [Byte.x01; Byte.x02]).

(** An environment in which every call succeeds and every poll returns
    [bids]. *)
Definition env_with (m : ISDLManifest) (bids : nat -> result (list IBid)) : Env :=
  mkEnv (yaml_of "sdl" m) hash_fixed (Ok (Some (Some "akash1owner"))) (Ok tt) (Ok tt)
    (Ok tt) (Ok tt) (Ok 100)
    (fun msg =>
       match msg with
       | MsgCreateDeployment _ _ _ _ _ _ => Ok (tx_ok "DEPLOY")
       | MsgCreateLease _ _ _ _ _ => Ok (tx_ok "LEASE")
       end)
    bids (fun _ => 0%N) (fun _ => 0%N)
    (fun _ _ _ _ => Ok tt) (Ok tt).

Definition options0 : CreateOptions := mkOptions None None None None None None.

(** Options of the SDL builder as in the test suite, and a YAML library
    that knows the document built from them. *)
Definition builder_options (image : string) : SimpleSDLOptions :=
  mkSimpleSDLOptions "web" image dec_half "512Mi" "1Gi" (Some (num 80)) None None None.

Definition builder_yaml (image : string) : YamlLib :=
  yaml_of "version: '2.0'" (simpleSDLObject (builder_options image)).

(** Every poll returns one bid of 900 uakt. *)
Definition env_one_bid : Env :=
  env_with valid_sdl (fun _ => Ok [bid "akash1provider" "900"]).

(** Every poll returns a bid of 900 uakt and a bid of 700 uakt. *)
Definition env_two_bids : Env :=
  env_with valid_sdl (fun _ => Ok [bid "akash1a" "900"; bid "akash1b" "700"]).





(** The console API answers every request for bids with an error. *)
Definition env_console_down : Env :=
  env_with valid_sdl (fun _ => Throw (Error "Request failed with status code 503")).

(** The RPC node does not answer [getHeight]. *)
Definition env_rpc_down : Env :=
  mkEnv (yaml_of "sdl" valid_sdl) hash_fixed (Ok (Some (Some "akash1owner"))) (Ok tt)
    (Ok tt) (Ok tt) (Ok tt) (Throw (Error "socket hang up"))
    (fun _ => Ok (tx_ok "TX")) (fun _ => Ok []) (fun _ => 0%N) (fun _ => 0%N)
    (fun _ _ _ _ => Ok tt) (Ok tt).

(** Options of the SDL builder with an environment, two replicas and a
    price, and a YAML library that knows the document built from them. *)
Definition env_options : SimpleSDLOptions :=
  mkSimpleSDLOptions "web" "nginx:latest" dec_half "512Mi" "1Gi" (Some (num 80))
    (Some [("MODE", "a=b")]) (Some (num 2)) (Some (num 50)).

Definition env_yaml : YamlLib := yaml_of "version: '2.0'" (simpleSDLObject env_options).

(** Options of the SDL builder with one and a half replicas. *)
Definition fraction_options : SimpleSDLOptions :=
  mkSimpleSDLOptions "web" "nginx:latest" dec_half "512Mi" "1Gi" None None
    (Some (Fin (mkDec 15 1))) None.

Definition fraction_yaml : YamlLib :=
  yaml_of "version: '2.0'" (simpleSDLObject fraction_options).

(** An environment of the other deployment operations in which every
    call succeeds, and one in which the node refuses every broadcast. *)
Definition ops_env : DeploymentOps.OpEnv :=
  DeploymentOps.mkOpEnv (yaml_of "sdl" valid_sdl) hash_fixed
    (Ok (Some (Some "akash1owner"))) (Ok tt) (Ok tt) (Ok tt)
    (fun _ => Ok (tx_ok "TX")) (fun _ _ _ _ => Ok tt) (Ok tt).

Definition ops_env_refused : DeploymentOps.OpEnv :=
  DeploymentOps.mkOpEnv (yaml_of "sdl" valid_sdl) hash_fixed
    (Ok (Some (Some "akash1owner"))) (Ok tt) (Ok tt) (Ok tt)
    (fun _ => Throw (Error "insufficient fees")) (fun _ _ _ _ => Ok tt) (Ok tt).

End Samples.

(* ================================================================== *)
(** ** Vocabulary of the specification *)
(* ================================================================== *)

Module Spec.
Import JS Constants AmountConverter Types SdlParser Transport Clients DeploymentCreate.

(** [Math.round] on the rationals. *)
Definition round_Q (q : Q) : Z := Qfloor (q + (1 # 2)).

Definition number_value (x : number) (q : Q) : Prop :=
  exists d, x = Fin d /\ dec_to_Q d == q.

Fixpoint all_space (s : string) : bool :=
  match s with
  | EmptyString => true
  | String c r => is_space c && all_space r
  end.

(** No character of the string is white space. *)
Fixpoint no_space (s : string) : bool :=
  match s with
  | EmptyString => true
  | String c r => negb (is_space c) && no_space r
  end.

(** The string is empty or begins with a character that is no digit. *)
Definition starts_without_digit (r : string) : Prop :=
  match r with
  | EmptyString => True
  | String c _ => is_digit c = false
  end.

(** A numeral [ddd] or [ddd.ddd]: the digits before the point, and the
    digits after it when there is a point. *)
Record numeral : Type := mkNumeral { int_part : string; frac_part : option string }.

Definition numeral_ok (n : numeral) : Prop :=
  all_digits (int_part n) = true /\ int_part n <> EmptyString /\
  match frac_part n with
  | Some f => all_digits f = true /\ f <> EmptyString
  | None => True
  end.

Definition numeral_text (n : numeral) : string :=
  match frac_part n with
  | Some f => int_part n ++ "." ++ f
  | None => int_part n
  end.

Definition numeral_value (n : numeral) : Q :=
  match frac_part n with
  | Some f =>
      inject_Z (digits_val (int_part n))
      + inject_Z (digits_val f) / inject_Z (10 ^ Z.of_nat (String.length f))
  | None => inject_Z (digits_val (int_part n))
  end.

(** The size units of the specification: no unit, K M G T P for the
    powers of 1000, Ki Mi Gi Ti Pi for the powers of 1024, in any case. *)
Definition unit_rank (c : ascii) : option Z :=
  let l := to_lower c in
  if Ascii.eqb l "k" then Some 1
  else if Ascii.eqb l "m" then Some 2
  else if Ascii.eqb l "g" then Some 3
  else if Ascii.eqb l "t" then Some 4
  else if Ascii.eqb l "p" then Some 5
  else None.

Definition unit_multiplier (u : string) : option Z :=
  match u with
  | EmptyString => Some 1
  | String c EmptyString => option_map (fun k => 1000 ^ k) (unit_rank c)
  | String c (String i EmptyString) =>
      if Ascii.eqb (to_lower i) "i" then option_map (fun k => 1024 ^ k) (unit_rank c)
      else None
  | _ => None
  end.


(** The format the code reads: white space may separate numeral and unit. *)
Definition size_format (s : string) (bytes : Z) : Prop :=
  exists n ws u mult,
    numeral_ok n /\ all_space ws = true /\ unit_multiplier u = Some mult /\
    s = numeral_text n ++ ws ++ u /\
    bytes = round_Q (numeral_value n * inject_Z mult).


(** The whole number [z] is less than 1 away from [q]. *)
Definition within_one (z : Z) (q : Q) : Prop := (Qabs (inject_Z z - q) < 1)%Q.

(** [z] is [q] rounded, as far as the result does not depend on how the
    product behind [q] was computed: less than 1 away from [q], and [q]
    itself when [q] is whole. *)
Definition rounds (z : Z) (q : Q) : Prop :=
  within_one z q /\ forall n, q == inject_Z n -> z = n.

(** CPU formats: [Nm] and a plain number, optionally negative. *)
Definition millicpu_format (s : string) (n : Z) : Prop :=
  exists ds, all_digits ds = true /\ ds <> EmptyString /\ s = ds ++ "m" /\ n = digits_val ds.

Definition plain_number_format (s : string) (q : Q) : Prop :=
  exists (neg : bool) n,
    numeral_ok n /\
    s = (if neg then "-" else "") ++ numeral_text n /\
    q == (if neg then - numeral_value n else numeral_value n).



Definition parseCpuUnits_as_specified : Prop :=
  forall s,
    (forall n, millicpu_format s n ->
       exists v, parseCpuUnits s = Ok v /\ number_value v (n # 1000)) /\
    (forall q, plain_number_format s q ->
       exists v, parseCpuUnits s = Ok v /\ number_value v q) /\
    ((forall n, ~ millicpu_format s n) -> (forall q, ~ plain_number_format s q) ->
     exists e, parseCpuUnits s = Throw e).


(** The decimal fraction [parseFloat] builds from a numeral. *)
Definition numeral_dec (n : numeral) : dec :=
  match frac_part n with
  | Some f => mkDec (digits_val (int_part n ++ f)) (String.length f)
  | None => mkDec (digits_val (int_part n)) 0
  end.

(** *** What a valid manifest is *)

Definition positive (v : number) : Prop := number_gt v (num 0) = true.

Definition version_ok (sdl : ISDLManifest) : Prop :=
  version sdl = Some "2.0" \/ version sdl = Some "2.1".

(** A section of the manifest is present, has an entry, and every entry
    satisfies [P]. *)
Definition nonempty_section {V : Type} (o : option (obj V)) (P : V -> Prop) : Prop :=
  exists l, o = Some l /\ l <> [] /\ Forall (fun e => P (snd e)) l.

Definition image_present (s : ISDLService) : Prop :=
  exists i, image s = Some i /\ i <> "".

Definition expose_ok (e : ISDLExpose) : Prop :=
  (exists p, ex_port e = Some p /\ truthy_number p = true) /\
  (forall p, ex_proto e = Some p -> p = "" \/ p = "tcp" \/ p = "udp").

Definition service_ok (s : ISDLService) : Prop :=
  image_present s /\ (forall l, expose s = Some l -> Forall expose_ok l).

Definition cpu_ok (r : ISDLResources) : Prop :=
  exists u v, cpu r = Some u /\ parseCpuUnits (String_of_units u) = Ok v /\ positive v.

Definition memory_ok (r : ISDLResources) : Prop :=
  exists size v, memory r = Some (Some size) /\ parseMemorySize size = Ok v /\ positive v.

Definition storage_present (r : ISDLResources) : Prop := storage r <> None.

Definition gpu_ok (r : ISDLResources) : Prop :=
  forall g, gpu r = Some g -> exists u, gpu_units g = Some u /\ number_ge u (num 0) = true.


Definition compute_ok (p : ISDLComputeProfile) : Prop :=
  exists r, resources p = Some r /\ cpu_ok r /\ memory_ok r /\ storage_present r /\ gpu_ok r.

Definition pricing_ok (p : ISDLPricing) : Prop :=
  (exists d, pr_denom p = Some d /\ d <> "") /\
  (exists a, pr_amount p = ANumber a /\ positive a).

Definition placement_ok (p : ISDLPlacementProfile) : Prop :=
  nonempty_section (pricing p) pricing_ok.

(** The name [k] is defined in the section [o]: the section is there and
    has an entry of that name, or [k] names a member of
    [Object.prototype], which every section inherits. *)
Definition defined_in {V : Type} (o : option (obj V)) (k : string) : Prop :=
  exists l, o = Some l /\ (lookup k l <> None \/ In k prototype_keys).

Definition entry_ok (sdl : ISDLManifest) (e : string * ISDLDeploymentEntry) : Prop :=
  defined_in (services sdl) (fst e) /\
  (exists p, profiles sdl = Some p /\ defined_in (compute p) (profile (snd e))) /\
  exists c, count (snd e) = ANumber c /\ number_ge c (num 1) = true.

Definition deployment_ok (sdl : ISDLManifest)
  (e : string * ISDLDeploymentConfig) : Prop :=
  (exists p, profiles sdl = Some p /\ defined_in (placement p) (fst e)) /\
  Forall (entry_ok sdl) (snd e).

Definition sections_ok (sdl : ISDLManifest)
  (service_check : ISDLService -> Prop) (compute_check : ISDLComputeProfile -> Prop) : Prop :=
  version_ok sdl /\
  nonempty_section (services sdl) service_check /\
  (exists p, profiles sdl = Some p /\
     nonempty_section (compute p) compute_check /\
     nonempty_section (placement p) placement_ok) /\
  (exists d, deployment sdl = Some d /\ d <> [] /\ Forall (deployment_ok sdl) d).


(** ... and with the checks of [expose] entries and of [gpu] that the
    validator also makes. *)
Definition manifest_ok (sdl : ISDLManifest) : Prop :=
  sections_ok sdl service_ok compute_ok.

(** No [count], pricing [amount] or [gpu.units] of the manifest is NaN. *)
Definition gpu_no_NaN (p : ISDLComputeProfile) : Prop :=
  forall r g, resources p = Some r -> gpu r = Some g -> gpu_units g <> Some NaN.

Definition pricing_no_NaN (p : ISDLPlacementProfile) : Prop :=
  forall l, pricing p = Some l -> Forall (fun e => pr_amount (snd e) <> ANumber NaN) l.

Definition no_NaN (sdl : ISDLManifest) : Prop :=
  (forall p l, profiles sdl = Some p -> compute p = Some l ->
     Forall (fun e => gpu_no_NaN (snd e)) l) /\
  (forall p l, profiles sdl = Some p -> placement p = Some l ->
     Forall (fun e => pricing_no_NaN (snd e)) l) /\
  (forall d, deployment sdl = Some d ->
     Forall (fun e => Forall (fun e' => count (snd e') <> ANumber NaN) (snd e)) d).

(** *** The price of a list of groups *)

(** The whole number a count stands for: the number itself when it is
    whole, or the integer that a string spells. *)
Definition count_value (c : number_field) (n : Z) : Prop :=
  match c with
  | ANumber (Fin d) => dec_to_Q d == inject_Z n
  | AString s => BigInt_of_string s = Ok n
  | _ => False
  end.

(** What one resource entry costs per block: its price amount, read as
    an integer, times its count. *)
Definition entry_cost (rg : IResourceGroup) (cost : Z) : Prop :=
  exists price n,
    BigInt_of_string (amount (rg_price rg)) = Ok price /\
    count_value (rg_count rg) n /\
    cost = price * n.

Definition sum_Z (l : list Z) : Z := fold_right Z.add 0 l.

(** [total] is the sum of the costs of all entries of all groups. *)
Definition groups_cost (groups : list IGroupSpec) (total : Z) : Prop :=
  exists costs,
    Forall2 entry_cost (flat_map gs_resources groups) costs /\ total = sum_Z costs.

(** *** Options of the SDL builder *)

(** The conditions of the round trip as the specification has them: a
    positive cpu, memory and storage sizes that parse to something
    positive, replicas and maxPrice either left out or at least 1 and
    positive. *)
Definition options_listed (o : SimpleSDLOptions) : Prop :=
  positive (o_cpu o) /\
  (exists v, parseMemorySize (o_memory o) = Ok v /\ positive v) /\
  (exists v, parseMemorySize (o_storage o) = Ok v /\ positive v) /\
  (forall r, o_replicas o = Some r -> number_ge r (num 1) = true) /\
  (forall p, o_maxPrice o = Some p -> positive p).

(** The same with an image name, a finite cpu, and nothing asked of the
    storage size. *)
Definition options_ok (o : SimpleSDLOptions) : Prop :=
  o_image o <> "" /\
  (exists d, o_cpu o = Fin d /\ 0 < dmant d) /\
  (exists v, parseMemorySize (o_memory o) = Ok v /\ positive v) /\
  (forall r, o_replicas o = Some r -> number_ge r (num 1) = true) /\
  (forall p, o_maxPrice o = Some p -> positive p).

(** js-yaml reads back the document it wrote for these options. *)
Definition reads_back (yaml : YamlLib) (o : SimpleSDLOptions) : Prop :=
  load yaml (dump yaml (simpleSDLObject o)) = Ok (YObject (simpleSDLObject o)).

(** *** Bid selection *)

(** What one polling round decides, given the milliseconds elapsed when
    the reply is in, the state before the round and the reply: whether the
    loop is left with [break], and the state after the round. *)
Definition round_outcome (options : CreateOptions) (elapsed : Z) (st : PollState)
  (reply : result (list IBid)) : bool * PollState :=
  match reply with
  | Throw _ => (false, st)
  | Ok bids =>
      if (0 <? List.length bids)%nat then
        match preferredBid options (eligibleBids options bids) with
        | Some preferred => (true, mkPoll (Some preferred) bids)
        | None =>
            match eligibleBids options bids with
            | first :: rest => (elapsed >? 30000, mkPoll (Some (lowestBid first rest)) bids)
            | [] => (false, mkPoll (bestBid st) bids)
            end
        end
      else (false, mkPoll (bestBid st) bids)
  end.

(** The world after the polling round that starts in [w]. *)
Definition world_after_round (env : Env) (owner dseq : string) (w : World) : World :=
  mkWorld
    (clock w + (POLLING_INTERVALS_bidPolling + Z.of_N (timer_late env (polls w)))
     + Z.of_N (getBids_time env (polls w)))
    (S (polls w))
    (HttpGetBids owner dseq 1 1 :: calls w).


(** The bid is an eligible bid of the preferred provider. *)
Definition preferred_bid (options : CreateOptions) (bids : list IBid) (b : IBid) : Prop :=
  exists p, preferredProvider options = Some p /\ p <> "" /\
            In b (eligibleBids options bids) /\ bid_provider (bidId b) = p.


(** How a round with reply [bids] chooses [best]: the first eligible bid
    of the preferred provider, or else the result of [reduce] over the
    eligible bids. *)
Definition chosen (options : CreateOptions) (bids : list IBid) (best : IBid) : Prop :=
  preferredBid options (eligibleBids options bids) = Some best \/
  (preferredBid options (eligibleBids options bids) = None /\
   exists first rest,
     eligibleBids options bids = first :: rest /\ best = lowestBid first rest).

(** [best], if any, was chosen in one of the rounds [k0 .. k-1]. *)
Definition chosen_in_rounds (env : Env) (options : CreateOptions) (k0 k : nat)
  (best : option IBid) : Prop :=
  forall b, best = Some b ->
    exists j bids, (k0 <= j < k)%nat /\ getBids_reply env j = Ok bids /\ chosen options bids b.

(** A round in [k0 .. k-1] that saw an eligible bid of the preferred
    provider was the last round, and its choice is [best]. *)
Definition preferred_wins (env : Env) (options : CreateOptions) (k0 k : nat)
  (best : option IBid) : Prop :=
  forall j bids b,
    (k0 <= j < k)%nat -> getBids_reply env j = Ok bids -> preferred_bid options bids b ->
    k = S j /\ best = preferredBid options (eligibleBids options bids) /\
    exists b', best = Some b' /\ preferred_bid options bids b'.

(** The calls of the loop are its [getBids] requests. *)
Definition only_polls (owner dseq : string) (before after : list call) : Prop :=
  exists n, after = (repeat (HttpGetBids owner dseq 1 1) n ++ before)%list.

(** *** The bound on the polling rounds *)

(** [ceil(bidWaitTime * 1000 / 3000)] for a wait of [secs] seconds. *)
Definition max_rounds (secs : Q) : Z := Qceiling (secs * 1000 / 3000).

(** The wait in seconds that the options configure: a number from 30 to
    600, or 120 when none is given. *)
Definition configured_wait (options : CreateOptions) (secs : Q) : Prop :=
  (bidWaitTime options = None /\ secs == 120) \/
  (exists d, bidWaitTime options = Some (Fin d) /\ secs == dec_to_Q d /\
             (30 <= secs)%Q /\ (secs <= 600)%Q).

(** *** Calls of the transport and their errors *)

(** The reply of the environment to the call [c] is the error [e].  (The
    replies to [getBids] and [sendManifest] are treated apart.) *)
Definition failed (env : Env) (c : call) (e : error) : Prop :=
  match c with
  | ConnectWithSigner => connectWithSigner env = Throw e
  | ConnectTendermint => tendermint env = Throw e
  | ConnectQuery => connect env = Throw e
  | GetHeight => getHeight env = Throw e
  | SignAndBroadcast m => signAndBroadcast env m = Throw e
  | Disconnect => disconnect_reply env = Throw e
  | HttpGetBids _ _ _ _ => False
  | HttpSendManifest _ _ _ _ => False
  end.

(** A computation that took the calls from [before] to [after] and ended
    in [res] ended in the error of each of its calls that failed. *)
Definition propagated {A : Type} (env : Env) (before after : list call) (res : result A)
  : Prop :=
  exists new, after = (new ++ before)%list /\
    forall c e, In c new -> failed env c e -> res = Throw e.



(** [client] is the client [createCosmosClient] makes from credentials
    with a key: both its connections were opened. *)
Definition signing_client_of (env : Env) (client : CosmosClient) : Prop :=
  credentials env = Ok (Some (walletAddress client)) /\
  signingClient client = true /\
  connectWithSigner env = Ok tt /\ tendermint env = Ok tt.

(** The message that accepts the bid [b] for the deployment [dseq] of [owner]. *)
Definition lease_message (owner dseq : string) (b : IBid) : msg :=
  MsgCreateLease owner dseq (bid_gseq (bidId b)) (bid_oseq (bidId b))
    (bid_provider (bidId b)).

(** The [lease] entry of the response for the bid [b] and the result
    [tx] of the lease transaction. *)
Definition lease_info (b : IBid) (tx : ITransactionResult) : LeaseInfo :=
  mkLeaseInfo (code tx =? 0) (transactionHash tx) (bid_provider (bidId b)) (bid_price b)
    (bid_gseq (bidId b)) (bid_oseq (bidId b)).

(** *** The run of the handler *)

(** The message that creates the deployment. *)
Definition deployment_message (env : Env) (parsed : ISDLManifest) (owner : string) (h : Z)
  (groups : list IGroupSpec) (coin : ICoin) : msg :=
  MsgCreateDeployment owner (Z_to_string h) groups
    (generateVersionHash (hash env) parsed) coin owner.

(** The response before bids are waited for. *)
Definition first_response (tx : ITransactionResult) (owner : string) (h : Z)
  (deposit : number) : Response :=
  mkResponse (code tx =? 0) (transactionHash tx) (Z_to_string h) owner
    (number_to_string deposit ++ " AKT") (height tx) (gasUsed tx)
    None None None None None.

(** The world in which polling starts, when the handler started in [w]:
    the client was made, the height asked and the message [m]
    broadcast. *)
Definition world_deployed (w : World) (m : msg) : World :=
  mkWorld (clock w) (polls w)
    (SignAndBroadcast m :: GetHeight :: ConnectQuery
     :: ConnectTendermint :: ConnectWithSigner :: calls w).



(** The lease of a response reports the bid [b]. *)
Definition lease_of_bid (l : LeaseInfo) (b : IBid) : Prop :=
  lease_provider l = bid_provider (bidId b) /\ lease_price l = bid_price b /\
  lease_gseq l = bid_gseq (bidId b) /\ lease_oseq l = bid_oseq (bidId b).


(** The response after a lease for [b] whose manifest could not be sent. *)
Definition manifest_failed (response : Response) (b : IBid) (tx : ITransactionResult)
  (e : error) : Response :=
  set_manifestError (set_manifestSent (set_lease response (Some (lease_info b tx))) false)
    (message e).

(** *** The groups of a manifest *)

(** The storage entry [sr] states the parsed size of [os]. *)
Definition storage_as_specified (os : option ISDLStorage) (sr : IStorageResource) : Prop :=
  exists s size q,
    os = Some s /\ st_size s = Some size /\ parseMemorySize size = Ok q /\
    sr_quantity sr = number_to_string q.

(** The resource entry [rg] is the one of the deployment entry [entry]
    under the placement profile [pp]: cpu in millicpu, memory and storage
    in bytes, the entry's count, and the placement's price in uakt. *)
Definition resource_as_specified (sdl : ISDLManifest) (pp : ISDLPlacementProfile)
  (entry : string * ISDLDeploymentEntry) (rg : IResourceGroup) : Prop :=
  exists profs cmap cp r u cpuValue size bytes prmap p amt,
    profiles sdl = Some profs /\ compute profs = Some cmap /\
    lookup (profile (snd entry)) cmap = Some cp /\ resources cp = Some r /\
    cpu r = Some u /\ parseCpuUnits (String_of_units u) = Ok cpuValue /\
    memory r = Some (Some size) /\ parseMemorySize size = Ok bytes /\
    pricing pp = Some prmap /\ lookup (profile (snd entry)) prmap = Some p /\
    aktToUakt (pr_amount p) = Ok amt /\
    ru_cpu (rg_resources rg) = number_to_string (Math_round (number_mul cpuValue (num 1000))) /\
    ru_memory (rg_resources rg) = number_to_string bytes /\
    Forall2 storage_as_specified (storage_list (storage r)) (ru_storage (rg_resources rg)) /\
    rg_count rg = count (snd entry) /\
    rg_price rg = mkCoin (pr_denom p) amt.

(** The group [g] is the one of the placement [entry] of the deployment. *)
Definition group_as_specified (sdl : ISDLManifest) (entry : string * ISDLDeploymentConfig)
  (g : IGroupSpec) : Prop :=
  gs_name g = fst entry /\
  exists profs plmap pp,
    profiles sdl = Some profs /\ placement profs = Some plmap /\
    get blank_placement (fst entry) plmap = Some pp /\
    Forall2 (resource_as_specified sdl pp) (snd entry) (gs_resources g).

End Spec.

(* ================================================================== *)
(** ** Further notions used in the statements *)
(* ================================================================== *)

Module Properties.
Import JS Constants AmountConverter Types SdlParser Transport Clients DeploymentCreate.
Import Amounts Spec.

(** *** Amounts as text *)

(** [n] micro-units written in whole units with six decimals. *)
Definition six_decimals (n : Z) : string :=
  Z_to_digits (n / 1000000) ++ "." ++ pad_digits 6 (n mod 1000000).

(** Every character of the string satisfies [p]. *)
Fixpoint all_chars (p : ascii -> bool) (s : string) : bool :=
  match s with
  | EmptyString => true
  | String c r => p c && all_chars p r
  end.

(** The string is empty or begins with a character that fails [p]. *)
Definition starts_outside (p : ascii -> bool) (r : string) : Prop :=
  match r with
  | EmptyString => True
  | String c _ => p c = false
  end.

(** *** The order of the calls of deployment create *)

(** The calls of [initialize], newest first: one of its connections, or
    both. *)
Definition client_calls (init : list call) : Prop :=
  init = [ConnectWithSigner] \/ init = [ConnectTendermint] \/
  init = [ConnectTendermint; ConnectWithSigner].

(** The manifest parsed and passed validation. *)
Definition validated (env : Env) (sdl : string) : Prop :=
  exists parsed, parseSDL (yaml env) sdl = Ok parsed /\ valid (validateSDL parsed) = true.

(** Deployment create has come as far as connecting to ask the chain for
    its height: the manifest parsed, passed validation and converted, and
    the clients were made, the first of them able to sign. *)
Definition height_asked (env : Env) (sdl : string) : Prop :=
  exists parsed client owner groups,
    parseSDL (yaml env) sdl = Ok parsed /\
    valid (validateSDL parsed) = true /\
    signing_client_of env client /\
    createConsoleApiClient env = Ok tt /\
    require_signing client = Ok owner /\
    sdlToGroups parsed = Ok groups.

(** *** How polling ends *)

(** The wait has run out after [elapsed] milliseconds. *)
Definition waited_out (options : CreateOptions) (elapsed : Z) : Prop :=
  number_lt (num elapsed) (bidWaitTime_ms options) = false.

(** Round [k], whose reply was in after [elapsed] milliseconds, left the
    loop with the bid [b]: the first eligible bid of the preferred
    provider, or, after more than 30 seconds, the result of [reduce] over
    the eligible bids. *)
Definition left_with (env : Env) (options : CreateOptions) (k : nat) (elapsed : Z)
  (b : IBid) : Prop :=
  exists bids,
    getBids_reply env k = Ok bids /\
    (preferredBid options (eligibleBids options bids) = Some b \/
     (preferredBid options (eligibleBids options bids) = None /\ 30000 < elapsed /\
      exists first rest,
        eligibleBids options bids = first :: rest /\ b = lowestBid first rest)).

(** [l] is the reply of the last of the rounds [k0 .. k-1] that was
    answered, or [init] when none was. *)
Definition last_reply (env : Env) (k0 k : nat) (init l : list IBid) : Prop :=
  (l = init /\ forall j, (k0 <= j < k)%nat -> exists e, getBids_reply env j = Throw e) \/
  (exists j, (k0 <= j < k)%nat /\ getBids_reply env j = Ok l /\
             forall j', (j < j' < k)%nat -> exists e, getBids_reply env j' = Throw e).

(** *** Groups and provider manifest of the same SDL *)

Definition same_storage (sr : IStorageResource) (ms : ManifestStorage) : Prop :=
  sr_name sr = ms_name ms /\ sr_quantity sr = ms_size ms.

Definition same_gpu (g : option IGpuResource) (m : option ManifestGpu) : Prop :=
  match g, m with
  | Some g', Some m' => gr_units g' = number_to_string (mg_units m')
  | None, None => True
  | _, _ => False
  end.

(** The resource entry of a group and the service of the manifest state
    the same cpu, memory, storage, gpu units and count. *)
Definition same_resources (rg : IResourceGroup) (ms : ManifestService) : Prop :=
  ru_cpu (rg_resources rg) = number_to_string (mr_cpu_units (msv_resources ms)) /\
  ru_memory (rg_resources rg) = mr_memory_size (msv_resources ms) /\
  Forall2 same_storage (ru_storage (rg_resources rg)) (mr_storage (msv_resources ms)) /\
  same_gpu (ru_gpu (rg_resources rg)) (mr_gpu (msv_resources ms)) /\
  rg_count rg = msv_count ms.

Definition same_group (g : IGroupSpec) (m : ManifestGroup) : Prop :=
  gs_name g = mgr_name m /\ Forall2 same_resources (gs_resources g) (mgr_services m).

(** *** The SDL builder and the converters *)

Definition option_default {A : Type} (x : option A) (d : A) : A :=
  match x with
  | Some v => v
  | None => d
  end.

(** No key of the environment has an equals sign. *)
Definition keys_without_equals (e : option (obj string)) : Prop :=
  forall l k v, e = Some l -> In (k, v) l ->
    all_chars (fun c => negb (Ascii.eqb c "=")) k = true.

(** The [expose] entry of the manifest for the builder's [port]. *)
Definition builder_expose (port : option number) : option (list ManifestExpose) :=
  match port with
  | Some p =>
      if truthy_number p
      then Some [mkManifestExpose (Some p) (Some (num 80)) "tcp" true None]
      else None
  | None => None
  end.

(** A deployment entry of a validated manifest that [calculateSDLPrice]
    can price: its count is a whole number, and the placement [pp] has a
    price for its profile. *)
Definition priceable (pp : option ISDLPlacementProfile) (config : ISDLDeploymentEntry)
  : Prop :=
  (exists d, count config = ANumber (Fin d) /\ dec_is_int d = true) /\
  (exists profile prmap p,
     pp = Some profile /\ pricing profile = Some prmap /\
     lookup (Types.profile config) prmap = Some p).

(** The calls of [createCosmosClient] in the other handlers, newest
    first: none, one of the connections, or both. *)
Definition op_client_calls (init : list DeploymentOps.op_call) : Prop :=
  init = [] \/ init = [DeploymentOps.OpConnectWithSigner] \/
  init = [DeploymentOps.OpConnectTendermint] \/
  init = [DeploymentOps.OpConnectTendermint; DeploymentOps.OpConnectWithSigner].

(** What [executeUpdate] has done when it returns [r], the update having
    been broadcast for [owner] with the result [tx]: the calls [made] and
    the manifest keys of [r]. *)
Definition update_outcome (env : DeploymentOps.OpEnv) (parsed : ISDLManifest)
  (owner dseq provider : string) (tx : ITransactionResult)
  (made : list DeploymentOps.op_call) (r : DeploymentOps.UpdateResponse) : Prop :=
  let update :=
    DeploymentOps.OpSignAndBroadcast
      (DeploymentOps.MsgUpdateDeployment owner dseq
         (generateVersionHash (DeploymentOps.op_hash env) parsed)) in
  if code tx =? 0 then
    match sdlToManifest parsed with
    | Ok manifest =>
        made = [DeploymentOps.OpConnectWithSigner; DeploymentOps.OpConnectTendermint;
                update; DeploymentOps.OpSendManifest owner dseq provider manifest;
                DeploymentOps.OpDisconnect] /\
        match DeploymentOps.op_sendManifest_reply env owner dseq provider manifest with
        | Ok _ =>
            DeploymentOps.u_manifestSent r = Some true /\
            DeploymentOps.u_manifestError r = None
        | Throw e =>
            DeploymentOps.u_manifestSent r = Some false /\
            DeploymentOps.u_manifestError r = Some (message e)
        end
    | Throw _ =>
        made = [DeploymentOps.OpConnectWithSigner; DeploymentOps.OpConnectTendermint;
                update; DeploymentOps.OpDisconnect] /\
        DeploymentOps.u_manifestSent r = Some false /\
        DeploymentOps.u_manifestError r <> None
    end
  else
    made = [DeploymentOps.OpConnectWithSigner; DeploymentOps.OpConnectTendermint;
            update; DeploymentOps.OpDisconnect] /\
    DeploymentOps.u_manifestSent r = None /\
    DeploymentOps.u_manifestError r = None.

End Properties.

(* ================================================================== *)
(** ** Facts about characters, digit strings and numbers *)
(* ================================================================== *)

Import JS Constants AmountConverter Types SdlParser Transport Clients DeploymentCreate Spec.
Import Amounts Properties.

Section Characters.

Lemma digit_not_space : forall c, is_digit c = true -> is_space c = false.
Proof. intros [[] [] [] [] [] [] [] []]; (reflexivity || discriminate). Qed.

Lemma digit_to_lower : forall c, is_digit c = true -> to_lower c = c.
Proof. intros [[] [] [] [] [] [] [] []]; (reflexivity || discriminate). Qed.

Lemma digit_not_point : forall c, is_digit c = true -> c <> "."%char.
Proof. intros c H E; subst c; discriminate. Qed.

Lemma digit_val_range : forall c, is_digit c = true -> 0 <= digit_val c < 10.
Proof.
  intros [[] [] [] [] [] [] [] []] H; try discriminate H; unfold digit_val; simpl; lia.
Qed.

Lemma digit_char_is_digit : forall d, 0 <= d < 10 -> is_digit (digit_char d) = true.
Proof.
  intros d H.
  assert (E : d = 0 \/ d = 1 \/ d = 2 \/ d = 3 \/ d = 4 \/ d = 5 \/ d = 6
              \/ d = 7 \/ d = 8 \/ d = 9) by lia.
  repeat (destruct E as [E | E]; [subst d; reflexivity |]); subst d; reflexivity.
Qed.

Lemma digit_val_char : forall d, 0 <= d < 10 -> digit_val (digit_char d) = d.
Proof.
  intros d H.
  assert (E : d = 0 \/ d = 1 \/ d = 2 \/ d = 3 \/ d = 4 \/ d = 5 \/ d = 6
              \/ d = 7 \/ d = 8 \/ d = 9) by lia.
  repeat (destruct E as [E | E]; [subst d; reflexivity |]); subst d; reflexivity.
Qed.

Lemma to_lower_idem : forall c, to_lower (to_lower c) = to_lower c.
Proof. intros [[] [] [] [] [] [] [] []]; reflexivity. Qed.

Lemma space_not_digit : forall c, is_space c = true -> is_digit c = false.
Proof. intros [[] [] [] [] [] [] [] []]; (reflexivity || discriminate). Qed.

End Characters.

Section Strings.

Lemma append_nil_r : forall s, s ++ "" = s.
Proof. induction s; simpl; congruence. Qed.

Lemma append_assoc : forall a b c : string, (a ++ b) ++ c = a ++ b ++ c.
Proof. induction a; intros; simpl; congruence. Qed.

Lemma length_append : forall a b, String.length (a ++ b) = (String.length a + String.length b)%nat.
Proof. induction a; intros; simpl; auto. Qed.

Lemma is_empty_true : forall s, is_empty s = true <-> s = "".
Proof. destruct s; simpl; split; congruence. Qed.

Lemma is_empty_false : forall s, is_empty s = false <-> s <> "".
Proof. destruct s; simpl; split; congruence. Qed.

Lemma rev_append_spec : forall s acc, rev_append s acc = rev_string s ++ acc.
Proof.
  unfold rev_string. induction s as [| c s IH]; intros acc; simpl.
  - reflexivity.
  - rewrite IH, (IH (String c "")), append_assoc. reflexivity.
Qed.

Lemma rev_string_append : forall a b, rev_string (a ++ b) = rev_string b ++ rev_string a.
Proof.
  induction a as [| c a IH]; intros b; simpl.
  - now rewrite append_nil_r.
  - unfold rev_string at 1 3. simpl.
    rewrite !rev_append_spec, IH, append_assoc. reflexivity.
Qed.

Lemma rev_string_involutive : forall s, rev_string (rev_string s) = s.
Proof.
  induction s as [| c s IH].
  - reflexivity.
  - unfold rev_string at 2. simpl. rewrite rev_append_spec, rev_string_append, IH.
    reflexivity.
Qed.

Lemma no_space_append : forall a b, Spec.no_space (a ++ b) = Spec.no_space a && Spec.no_space b.
Proof. induction a; intros; simpl; [reflexivity | rewrite IHa, andb_assoc; reflexivity]. Qed.

Lemma no_space_rev : forall s, Spec.no_space s = true -> Spec.no_space (rev_string s) = true.
Proof.
  induction s as [| c s IH]; intro H.
  - reflexivity.
  - simpl in H. apply andb_prop in H as [Hc Hs].
    unfold rev_string. simpl. rewrite rev_append_spec, no_space_append.
    rewrite (IH Hs). simpl. now rewrite Hc.
Qed.

Lemma trimStart_no_space : forall s, Spec.no_space s = true -> trimStart s = s.
Proof.
  destruct s as [| c s]; intro H; simpl in *.
  - reflexivity.
  - destruct (is_space c); [discriminate | reflexivity].
Qed.

Lemma trim_no_space : forall s, Spec.no_space s = true -> trim s = s.
Proof.
  intros s H. unfold trim, trimEnd.
  rewrite (trimStart_no_space s H), (trimStart_no_space _ (no_space_rev s H)).
  apply rev_string_involutive.
Qed.

Lemma trimStart_spaces : forall ws r, Spec.all_space ws = true -> trimStart (ws ++ r) = trimStart r.
Proof.
  induction ws as [| c ws IH]; intros r H; simpl in *.
  - reflexivity.
  - apply andb_prop in H as [Hc Hs]. rewrite Hc. auto.
Qed.

Lemma trimStart_split : forall s, exists ws, s = ws ++ trimStart s /\ Spec.all_space ws = true.
Proof.
  induction s as [| c s [ws [E H]]].
  - exists "". split; reflexivity.
  - simpl. destruct (is_space c) eqn:Hc.
    + exists (String c ws). simpl. rewrite Hc, H. split; [congruence | reflexivity].
    + exists "". split; reflexivity.
Qed.

Lemma all_digits_append : forall a b, all_digits (a ++ b) = all_digits a && all_digits b.
Proof. induction a; intros; simpl; [reflexivity | rewrite IHa, andb_assoc; reflexivity]. Qed.

Lemma all_digits_no_space : forall s, all_digits s = true -> Spec.no_space s = true.
Proof.
  induction s as [| c s IH]; intro H; simpl in *.
  - reflexivity.
  - apply andb_prop in H as [Hc Hs]. rewrite (digit_not_space c Hc). simpl. auto.
Qed.

Lemma all_digits_lower : forall s, all_digits s = true -> toLowerCase s = s.
Proof.
  induction s as [| c s IH]; intro H.
  - reflexivity.
  - simpl in H. apply andb_prop in H as [Hc Hs].
    change (toLowerCase (String c s)) with (String (to_lower c) (toLowerCase s)).
    rewrite (digit_to_lower c Hc), (IH Hs). reflexivity.
Qed.

Lemma toLowerCase_append : forall a b, toLowerCase (a ++ b) = toLowerCase a ++ toLowerCase b.
Proof.
  unfold toLowerCase. induction a; intros; simpl; [reflexivity | f_equal; apply IHa].
Qed.

Lemma span_digits : forall ds r,
  all_digits ds = true -> Spec.starts_without_digit r -> span is_digit (ds ++ r) = (ds, r).
Proof.
  induction ds as [| c ds IH]; intros r H Hr; simpl in *.
  - destruct r as [| c r]; simpl in *; [reflexivity | now rewrite Hr].
  - apply andb_prop in H as [Hc Hs]. rewrite Hc, (IH r Hs Hr). reflexivity.
Qed.

Lemma span_digits_all : forall ds, all_digits ds = true -> span is_digit ds = (ds, "").
Proof.
  intros ds H. rewrite <- (append_nil_r ds) at 1. now apply span_digits.
Qed.

Lemma span_inv : forall s a b,
  span is_digit s = (a, b) -> s = a ++ b /\ all_digits a = true /\ Spec.starts_without_digit b.
Proof.
  induction s as [| c s IH]; intros a b H; simpl in H.
  - inversion H; subst. repeat split.
  - destruct (is_digit c) eqn:Hc.
    + destruct (span is_digit s) as [a' b'] eqn:E. inversion H; subst.
      destruct (IH a' b eq_refl) as [E1 [E2 E3]].
      simpl. rewrite Hc, E2. repeat split; [congruence | assumption].
    + inversion H; subst. simpl. repeat split. assumption.
Qed.

End Strings.

Section Digits.

Lemma pow10_pos : forall n, 0 < pow10 n.
Proof. intro n. unfold pow10. apply Z.pow_pos_nonneg; lia. Qed.

Lemma pow10_S : forall n, pow10 (S n) = 10 * pow10 n.
Proof.
  intro n. unfold pow10. rewrite Nat2Z.inj_succ, Z.pow_succ_r by lia. reflexivity.
Qed.

Lemma pow10_add : forall a b, pow10 (a + b) = pow10 a * pow10 b.
Proof.
  intros a b. unfold pow10. rewrite Nat2Z.inj_add, Z.pow_add_r by lia. reflexivity.
Qed.

Lemma digits_val_acc_shift : forall s acc,
  digits_val_acc acc s = acc * pow10 (String.length s) + digits_val s.
Proof.
  unfold digits_val.
  induction s as [| c s IH]; intros acc.
  - cbn. lia.
  - cbn [digits_val_acc String.length]. rewrite IH, (IH (0 * 10 + digit_val c)), pow10_S. ring.
Qed.

Lemma digits_val_append : forall a b,
  digits_val (a ++ b) = digits_val a * pow10 (String.length b) + digits_val b.
Proof.
  intros a b. unfold digits_val at 1 2. generalize 0.
  induction a as [| c a IH]; intros acc.
  - cbn [append digits_val_acc]. apply digits_val_acc_shift.
  - cbn [append digits_val_acc]. apply IH.
Qed.

Lemma digits_val_single : forall c, digits_val (String c "") = digit_val c.
Proof. intro c. unfold digits_val. cbn [digits_val_acc]. lia. Qed.

Lemma digits_val_acc_nonneg : forall s acc,
  0 <= acc -> all_digits s = true -> 0 <= digits_val_acc acc s.
Proof.
  induction s as [| c s IH]; intros acc Hacc H; cbn [digits_val_acc].
  - assumption.
  - cbn in H. apply andb_prop in H as [Hc Hs]. apply IH; [| assumption].
    pose proof (digit_val_range c Hc). lia.
Qed.

Lemma digits_val_nonneg : forall s, all_digits s = true -> 0 <= digits_val s.
Proof. intros s H. apply digits_val_acc_nonneg; [lia | assumption]. Qed.

Lemma digits_val_bound : forall s, all_digits s = true -> digits_val s < pow10 (String.length s).
Proof.
  induction s as [| c s IH]; intro H.
  - cbn. lia.
  - cbn in H. apply andb_prop in H as [Hc Hs].
    change (String c s) with (String c "" ++ s).
    rewrite digits_val_append. cbn [String.length append]. rewrite pow10_S.
    pose proof (digit_val_range c Hc). specialize (IH Hs).
    pose proof (pow10_pos (String.length s)).
    rewrite digits_val_single. nia.
Qed.

(** The digits printed for a positive number, read back. *)
Lemma digits_of_fuel_spec : forall fuel n acc,
  0 < n < pow10 fuel ->
  exists ds, digits_of_fuel fuel n acc = ds ++ acc /\
             all_digits ds = true /\ ds <> "" /\ digits_val ds = n /\
             pow10 (String.length ds) <= 10 * n.
Proof.
  induction fuel as [| f IH]; intros n acc Hn.
  - unfold pow10 in Hn. simpl in Hn. lia.
  - cbn [digits_of_fuel].
    assert (Hm : 0 <= n mod 10 < 10) by (apply Z.mod_pos_bound; lia).
    destruct (n / 10 =? 0) eqn:E.
    + apply Z.eqb_eq in E.
      assert (n = n mod 10) by (rewrite (Z.div_mod n 10) at 1 by lia; lia).
      exists (String (digit_char (n mod 10)) "").
      repeat split.
      * cbn. now rewrite digit_char_is_digit.
      * discriminate.
      * rewrite digits_val_single, digit_val_char by assumption. lia.
      * cbn [String.length]. change (pow10 1) with 10. lia.
    + apply Z.eqb_neq in E.
      assert (Hq : 0 < n / 10 < pow10 f).
      { rewrite pow10_S in Hn. split.
        - assert (0 <= n / 10) by (apply Z.div_pos; lia). lia.
        - apply Z.div_lt_upper_bound; lia. }
      destruct (IH (n / 10) (String (digit_char (n mod 10)) acc) Hq)
        as [ds [E1 [E2 [E3 [E4 E5]]]]].
      exists (ds ++ String (digit_char (n mod 10)) "").
      repeat split.
      * rewrite E1, append_assoc. reflexivity.
      * rewrite all_digits_append, E2. cbn. now rewrite digit_char_is_digit.
      * destruct ds; discriminate.
      * rewrite digits_val_append, E4. cbn [String.length].
        rewrite digits_val_single, digit_val_char by assumption.
        change (pow10 1) with 10. rewrite (Z.div_mod n 10) at 3 by lia. lia.
      * rewrite length_append. cbn [String.length]. rewrite pow10_add.
        change (pow10 1) with 10.
        assert (10 * (n / 10) <= n) by (apply Z.mul_div_le; lia). lia.
Qed.

Lemma Z_to_digits_spec : forall n, 0 <= n ->
  all_digits (Z_to_digits n) = true /\ Z_to_digits n <> "" /\
  digits_val (Z_to_digits n) = n.
Proof.
  intros n Hn. destruct (Z.eq_dec n 0) as [-> | Hz].
  - repeat split. discriminate.
  - unfold Z_to_digits.
    assert (Hb : 0 < n < pow10 (S (Z.to_nat (Z.log2 n)))).
    { split; [lia |]. unfold pow10.
      rewrite Nat2Z.inj_succ, Z2Nat.id by apply Z.log2_nonneg.
      pose proof (Z.log2_spec n ltac:(lia)) as [_ Hl].
      eapply Z.lt_le_trans; [exact Hl |].
      apply Z.pow_le_mono_l. pose proof (Z.log2_nonneg n). lia. }
    destruct (digits_of_fuel_spec _ n "" Hb) as [ds [E1 [E2 [E3 [E4 _]]]]].
    rewrite E1, append_nil_r. auto.
Qed.

Lemma Z_to_digits_length : forall n w, 0 < n < pow10 w ->
  (String.length (Z_to_digits n) <= w)%nat.
Proof.
  intros n w Hn. unfold Z_to_digits.
  assert (Hb : 0 < n < pow10 (S (Z.to_nat (Z.log2 n)))).
  { split; [lia |]. unfold pow10.
    rewrite Nat2Z.inj_succ, Z2Nat.id by apply Z.log2_nonneg.
    pose proof (Z.log2_spec n ltac:(lia)) as [_ Hl].
    eapply Z.lt_le_trans; [exact Hl |].
    apply Z.pow_le_mono_l. pose proof (Z.log2_nonneg n). lia. }
  destruct (digits_of_fuel_spec _ n "" Hb) as [ds [E1 [_ [_ [_ E5]]]]].
  rewrite E1, append_nil_r.
  destruct (le_lt_dec (String.length ds) w) as [Hle | Hgt]; [assumption | exfalso].
  assert (pow10 (S w) <= pow10 (String.length ds)).
  { unfold pow10. apply Z.pow_le_mono_r; lia. }
  rewrite pow10_S in H. lia.
Qed.

End Digits.

Section Numbers.

Lemma dec_to_Q_of_Z : forall z, dec_to_Q (dec_of_Z z) == inject_Z z.
Proof. intro z. unfold dec_to_Q, dec_of_Z, pow10. simpl. field. Qed.

Lemma inject_Z_pow10_nonzero : forall n, ~ inject_Z (pow10 n) == 0%Q.
Proof.
  intros n H. pose proof (pow10_pos n).
  unfold Qeq in H. simpl in H. lia.
Qed.

Lemma dec_to_Q_mul : forall a b, dec_to_Q (dec_mul a b) == (dec_to_Q a * dec_to_Q b)%Q.
Proof.
  intros a b. unfold dec_to_Q, dec_mul. cbn [dmant dscale].
  rewrite pow10_add, !inject_Z_mult. field.
  split; apply inject_Z_pow10_nonzero.
Qed.

Lemma dec_to_Q_div_pow10 : forall a k,
  dec_to_Q (dec_div_pow10 a k) == (dec_to_Q a / inject_Z (pow10 k))%Q.
Proof.
  intros a k. unfold dec_to_Q, dec_div_pow10. cbn [dmant dscale].
  rewrite pow10_add, !inject_Z_mult. field.
  split; apply inject_Z_pow10_nonzero.
Qed.

(** [dec_round] is [Math.round] on the value. *)
Lemma dec_round_spec : forall a, dec_round a = round_Q (dec_to_Q a).
Proof.
  intros [m s]. unfold dec_round, round_Q, dec_to_Q. cbn [dmant dscale].
  pose proof (pow10_pos s) as Hp. set (p := pow10 s) in *.
  assert (E : (inject_Z m / inject_Z p + (1 # 2) ==
               (2 * m + p) # (Z.to_pos (2 * p)))%Q).
  { rewrite (Qmake_Qdiv (2 * m + p)), Z2Pos.id by lia.
    rewrite inject_Z_plus, !inject_Z_mult. field.
    intro H. unfold Qeq in H. simpl in H. lia. }
  rewrite (Qfloor_comp _ _ E). unfold Qfloor.
  rewrite Z2Pos.id by lia. reflexivity.
Qed.

(** [Math.round] of a whole number is that number. *)
Lemma round_Q_whole : forall q n, q == inject_Z n -> round_Q q = n.
Proof.
  intros q n H. unfold round_Q. rewrite (Qfloor_comp _ (inject_Z n + (1 # 2))).
  - apply Z.le_antisymm.
    + apply Z.lt_succ_r. rewrite Zlt_Qlt. eapply Qle_lt_trans; [apply Qfloor_le |].
      rewrite <- Z.add_1_r, inject_Z_plus. unfold Qlt, inject_Z, Qplus; cbn. lia.
    + rewrite Zle_Qle. rewrite <- (Qfloor_Z n) at 1. rewrite <- Zle_Qle.
      apply Qfloor_resp_le. unfold Qle, inject_Z, Qplus; cbn. lia.
  - now rewrite H.
Qed.

Lemma Z_to_string_nonneg : forall z, 0 <= z -> Z_to_string z = Z_to_digits z.
Proof. intros z H. unfold Z_to_string. destruct (z <? 0) eqn:E; [lia | reflexivity]. Qed.

Lemma number_to_string_num : forall z, number_to_string (num z) = Z_to_string z.
Proof.
  intro z. unfold num, number_to_string, dec_to_string, dec_of_Z, dec_normalize, Z_to_string.
  cbn [dmant dscale dec_normalize_aux].
  destruct (z <? 0) eqn:E; [| f_equal; lia].
  f_equal. f_equal. lia.
Qed.

Lemma split_sign_digit : forall c r, is_digit c = true -> split_sign (String c r) = (false, String c r).
Proof.
  intros c r H. unfold split_sign.
  destruct c as [[] [] [] [] [] [] [] []]; try discriminate H; reflexivity.
Qed.

Lemma prefix_Infinity_digit : forall c r, is_digit c = true -> String.prefix "Infinity" (String c r) = false.
Proof.
  intros c r H.
  destruct c as [[] [] [] [] [] [] [] []]; try discriminate H; reflexivity.
Qed.

Lemma prefix_Infinity_point : forall r, String.prefix "Infinity" (String "." r) = false.
Proof. reflexivity. Qed.

(** A run of decimal digits has no radix prefix. *)
Lemma radix_prefix_digits : forall s, all_digits s = true -> radix_prefix s = None.
Proof.
  intros [| c [| c' r]] H; [reflexivity | |].
  - unfold radix_prefix. destruct c as [[] [] [] [] [] [] [] []]; reflexivity.
  - cbn [all_digits] in H. apply andb_prop in H as [_ H]. apply andb_prop in H as [Hc _].
    unfold radix_prefix.
    destruct c as [[] [] [] [] [] [] [] []]; try reflexivity.
    destruct c' as [[] [] [] [] [] [] [] []]; try discriminate Hc; reflexivity.
Qed.

Lemma BigInt_of_Z_to_string : forall z, BigInt_of_string (Z_to_string z) = Ok z.
Proof.
  intro z. unfold BigInt_of_string, Z_to_string.
  destruct (z <? 0) eqn:E.
  - apply Z.ltb_lt in E.
    destruct (Z_to_digits_spec (- z) ltac:(lia)) as [H1 [H2 H3]].
    rewrite trim_no_space by (cbn; now rewrite all_digits_no_space).
    cbn [is_empty radix_prefix split_sign].
    rewrite H1, H3. destruct (Z_to_digits (- z)); [congruence |].
    cbn [is_empty negb andb]. f_equal. lia.
  - apply Z.ltb_ge in E.
    destruct (Z_to_digits_spec z E) as [H1 [H2 H3]].
    rewrite trim_no_space by now apply all_digits_no_space.
    rewrite (radix_prefix_digits _ H1).
    destruct (Z_to_digits z) as [| c r] eqn:D; [congruence |].
    cbn [is_empty]. cbn in H1. apply andb_prop in H1 as [Hc Hr].
    rewrite (split_sign_digit c r Hc). cbn [is_empty negb andb all_digits].
    rewrite Hc, Hr. cbn [negb andb]. now rewrite H3.
Qed.

End Numbers.

Section ParseFloat.

Lemma dec_scale10_zero : forall a, dec_scale10 a 0 = a.
Proof.
  intros [m s]. unfold dec_scale10. cbn. f_equal. lia.
Qed.

Lemma numeral_text_first : forall n, numeral_ok n ->
  exists c r, numeral_text n = String c r /\ is_digit c = true.
Proof.
  intros [ip fp] [H1 [H2 H3]]. cbn in *.
  destruct ip as [| c ip]; [congruence |].
  cbn in H1. apply andb_prop in H1 as [Hc _].
  destruct fp; cbn; eauto.
Qed.

Lemma numeral_dec_value : forall n, dec_to_Q (numeral_dec n) == numeral_value n.
Proof.
  intros [ip [f |]]; unfold numeral_dec, numeral_value, dec_to_Q; cbn [int_part frac_part dmant dscale].
  - rewrite digits_val_append, inject_Z_plus, inject_Z_mult. unfold pow10. field.
    apply (inject_Z_pow10_nonzero (String.length f)).
  - change (pow10 0) with 1. field.
Qed.

Lemma parseFloat_body : forall n neg,
  numeral_ok n ->
  (if String.prefix "Infinity" (numeral_text n) then Inf neg
   else
     let (ip, r1) := span is_digit (numeral_text n) in
     let (fp, r2) :=
       match r1 with
       | String "." r => span is_digit r
       | _ => (EmptyString, r1)
       end in
     if is_empty ip && is_empty fp then NaN
     else
       let m := digits_val (ip ++ fp) in
       Fin (dec_scale10 (mkDec (if neg then - m else m) (String.length fp))
              (parse_exponent r2)))
  = Fin (mkDec (if (neg : bool) then - dmant (numeral_dec n) else dmant (numeral_dec n))
           (dscale (numeral_dec n))).
Proof.
  intros n neg Hok.
  destruct (numeral_text_first n Hok) as [c [r [E Hc]]].
  rewrite E at 1. rewrite (prefix_Infinity_digit c r Hc).
  destruct n as [ip fp]. destruct Hok as [H1 [H2 H3]]. cbn [int_part frac_part] in *.
  unfold numeral_text, numeral_dec. cbn [int_part frac_part].
  destruct fp as [f |].
  - destruct H3 as [H3 H4].
    rewrite (span_digits ip ("." ++ f) H1) by reflexivity.
    cbn [append]. rewrite (span_digits_all f H3).
    apply is_empty_false in H2. rewrite H2. cbn [andb parse_exponent].
    rewrite dec_scale10_zero. reflexivity.
  - rewrite (span_digits_all ip H1).
    apply is_empty_false in H2. rewrite H2. cbn [andb parse_exponent].
    rewrite dec_scale10_zero, append_nil_r. reflexivity.
Qed.

Lemma parseFloat_numeral : forall n (neg : bool),
  numeral_ok n ->
  parseFloat ((if neg then "-" else "") ++ numeral_text n)
  = Fin (mkDec (if neg then - dmant (numeral_dec n) else dmant (numeral_dec n))
           (dscale (numeral_dec n))).
Proof.
  intros n neg Hok. unfold parseFloat.
  destruct (numeral_text_first n Hok) as [c [r [E Hc]]].
  destruct neg.
  - cbn [append trimStart]. change (is_space "-") with false. cbn iota.
    cbn [split_sign]. apply (parseFloat_body n true Hok).
  - cbn [append]. rewrite E at 1.
    cbn [trimStart]. rewrite (digit_not_space c Hc), (split_sign_digit c r Hc), <- E.
    apply (parseFloat_body n false Hok).
Qed.

End ParseFloat.

Section MemorySize.

Lemma round_Q_comp : forall p q, p == q -> round_Q p = round_Q q.
Proof.
  intros p q H. unfold round_Q. apply Qfloor_comp. now rewrite H.
Qed.

Lemma size_letter_class : forall c, is_size_letter c = true ->
  is_space c = false /\ is_digit c = false /\ c <> "."%char.
Proof.
  intros [[] [] [] [] [] [] [] []] H; try discriminate H; repeat split; discriminate.
Qed.

Lemma unit_rank_letter : forall c k, unit_rank c = Some k -> is_size_letter c = true.
Proof.
  intros [[] [] [] [] [] [] [] []] k H; try discriminate H; reflexivity.
Qed.

Lemma letter_unit_rank : forall c, is_size_letter c = true -> exists k, unit_rank c = Some k.
Proof.
  intros [[] [] [] [] [] [] [] []] H; try discriminate H; eexists; reflexivity.
Qed.

(** The table [multipliers] is the table of the specification. *)
Lemma multipliers_one : forall c k, unit_rank c = Some k ->
  lookup (toLowerCase (String c "")) multipliers = Some (num (1000 ^ k)).
Proof.
  intros [[] [] [] [] [] [] [] []] k H; try discriminate H;
    inversion H; subst k; reflexivity.
Qed.

Lemma multipliers_two : forall c i k,
  unit_rank c = Some k -> Ascii.eqb (to_lower i) "i" = true ->
  lookup (toLowerCase (String c (String i ""))) multipliers = Some (num (1024 ^ k)).
Proof.
  intros c i k H Hi. apply Ascii.eqb_eq in Hi.
  change (toLowerCase (String c (String i "")))
    with (String (to_lower c) (String (to_lower i) "")).
  rewrite Hi. clear Hi i.
  destruct c as [[] [] [] [] [] [] [] []]; try discriminate H;
    inversion H; subst k; reflexivity.
Qed.

(** What the regular expression captures on a well-formed size. *)
Lemma match_memory_size_format : forall n ws u mult,
  numeral_ok n -> all_space ws = true -> unit_multiplier u = Some mult ->
  match_memory_size (numeral_text n ++ ws ++ u)
  = Some (numeral_text n, if is_empty u then None else Some u)
  /\ lookup (toLowerCase u) multipliers = Some (num mult).
Proof.
  intros [ip fp] ws u mult [H1 [H2 H3]] Hws Hu. cbn [int_part frac_part] in *.
  assert (Hu' : trimStart (ws ++ u) = u /\ starts_without_digit (ws ++ u) /\
                (forall r, ws ++ u <> String "." r) /\
                lookup (toLowerCase u) multipliers = Some (num mult) /\
                match u with
                | EmptyString => Some (numeral_text (mkNumeral ip fp), @None string)
                | String c EmptyString =>
                    if is_size_letter c
                    then Some (numeral_text (mkNumeral ip fp), Some (String c EmptyString))
                    else None
                | String c (String i EmptyString) =>
                    if is_size_letter c && is_letter_i i
                    then Some (numeral_text (mkNumeral ip fp),
                               Some (String c (String i EmptyString)))
                    else None
                | _ => None
                end = Some (numeral_text (mkNumeral ip fp),
                            if is_empty u then None else Some u)).
  { rewrite (trimStart_spaces ws u Hws).
    assert (Hfirst : match u with
                     | String c _ => is_size_letter c = true
                     | EmptyString => True
                     end).
    { destruct u as [| c [| i [| x y]]]; cbn in Hu; try exact I.
      - destruct (unit_rank c) eqn:E; [| discriminate]. eapply unit_rank_letter; eauto.
      - destruct (Ascii.eqb (to_lower i) "i"); [| discriminate].
        destruct (unit_rank c) eqn:E; [| discriminate]. eapply unit_rank_letter; eauto.
      - discriminate. }
    split; [| split; [| split; [| split]]].
    - destruct u as [| c r]; [reflexivity |].
      cbn [trimStart]. now destruct (size_letter_class c Hfirst) as [-> _].
    - destruct ws as [| w ws']; cbn [append starts_without_digit].
      + destruct u as [| c r]; [exact I |].
        exact (proj1 (proj2 (size_letter_class c Hfirst))).
      + cbn [all_space] in Hws. apply andb_prop in Hws as [Hw _]. now apply space_not_digit.
    - intros r E. destruct ws as [| w ws']; cbn in E.
      + destruct u as [| c r']; [discriminate |]. inversion E; subst.
        destruct (size_letter_class _ Hfirst) as [_ [_ F]]. now apply F.
      + inversion E; subst. cbn in Hws. discriminate.
    - destruct u as [| c [| i [| x y]]]; cbn in Hu.
      + inversion Hu; subst. reflexivity.
      + destruct (unit_rank c) eqn:E; [| discriminate]. inversion Hu; subst.
        now apply multipliers_one.
      + destruct (Ascii.eqb (to_lower i) "i") eqn:Ei; [| discriminate].
        destruct (unit_rank c) eqn:E; [| discriminate]. inversion Hu; subst.
        now apply multipliers_two.
      + discriminate.
    - destruct u as [| c [| i [| x y]]]; cbn in Hu; cbn [is_empty].
      + reflexivity.
      + now rewrite Hfirst.
      + destruct (Ascii.eqb (to_lower i) "i") eqn:Ei; [| discriminate].
        unfold is_letter_i. now rewrite Hfirst, Ei.
      + discriminate. }
  destruct Hu' as [Ht [Hnd [Hnp [Hl Hm]]]].
  split; [| exact Hl].
  unfold match_memory_size, numeral_text. cbn [int_part frac_part] in *.
  destruct fp as [f |].
  - destruct H3 as [H3 H4].
    rewrite !append_assoc.
    rewrite (span_digits ip ("." ++ f ++ ws ++ u) H1) by reflexivity.
    apply is_empty_false in H2. rewrite H2.
    cbn [append]. rewrite (span_digits f (ws ++ u) H3 Hnd).
    apply is_empty_false in H4. rewrite H4. rewrite Ht. exact Hm.
  - rewrite (span_digits ip (ws ++ u) H1 Hnd).
    apply is_empty_false in H2. rewrite H2.
    destruct (ws ++ u) as [| c r] eqn:E.
    + cbn in Ht. subst u. exact Hm.
    + assert (c <> "."%char) by (intro; subst c; now apply (Hnp r)).
      assert (E' : match String c r with
                   | String "." r0 =>
                       let (fp, r') := span is_digit r0 in
                       if is_empty fp then (ip, String c r) else (ip ++ "." ++ fp, r')
                   | _ => (ip, String c r)
                   end = (ip, String c r)).
      { destruct c as [[] [] [] [] [] [] [] []]; try reflexivity. congruence. }
      rewrite E'. rewrite Ht. exact Hm.
Qed.

End MemorySize.

Section MemorySizeResult.

Lemma parseMemorySize_format : forall s bytes,
  size_format s bytes -> parseMemorySize s = Ok (num bytes).
Proof.
  intros s bytes [n [ws [u [mult [Hn [Hws [Hu [Es Eb]]]]]]]]. subst s.
  destruct (match_memory_size_format n ws u mult Hn Hws Hu) as [Hm Hl].
  unfold parseMemorySize. rewrite Hm.
  assert (Hunit : toLowerCase (match (if is_empty u then None else Some u) with
                               | Some u0 => if is_empty u0 then "" else u0
                               | None => ""
                               end) = toLowerCase u).
  { destruct u; reflexivity. }
  rewrite Hunit, Hl.
  pose proof (parseFloat_numeral n false Hn) as Hp. cbn [append] in Hp. rewrite Hp.
  cbn [number_mul num Math_round]. unfold num. do 3 f_equal.
  rewrite dec_round_spec. subst bytes. apply round_Q_comp.
  rewrite dec_to_Q_mul, dec_to_Q_of_Z.
  apply Qmult_comp; [| reflexivity].
  rewrite <- (numeral_dec_value n). destruct (numeral_dec n); reflexivity.
Qed.

(** Conversely, whatever the regular expression accepts is a numeral,
    white space and a unit. *)
Lemma match_memory_size_inv : forall s m1 m2,
  match_memory_size s = Some (m1, m2) -> exists bytes, size_format s bytes.
Proof.
  intros s m1 m2 H. unfold match_memory_size in H.
  destruct (span is_digit s) as [ip r1] eqn:E1.
  destruct (span_inv _ _ _ E1) as [Es [Hip Hr1]].
  destruct (is_empty ip) eqn:Hne; [discriminate |]. apply is_empty_false in Hne.
  assert (Hshape : exists n r2, numeral_ok n /\ s = numeral_text n ++ r2 /\
            match trimStart r2 with
            | EmptyString => Some (numeral_text n, @None string)
            | String c EmptyString =>
                if is_size_letter c then Some (numeral_text n, Some (String c EmptyString))
                else None
            | String c (String i EmptyString) =>
                if is_size_letter c && is_letter_i i
                then Some (numeral_text n, Some (String c (String i EmptyString)))
                else None
            | _ => None
            end = Some (m1, m2)).
  { assert (Hplain : (let (numeral, r2) := (ip, r1) in
              match trimStart r2 with
              | EmptyString => Some (numeral, @None string)
              | String c EmptyString =>
                  if is_size_letter c then Some (numeral, Some (String c EmptyString))
                  else None
              | String c (String i EmptyString) =>
                  if is_size_letter c && is_letter_i i
                  then Some (numeral, Some (String c (String i EmptyString)))
                  else None
              | _ => None
              end) = Some (m1, m2) ->
              exists n r2, numeral_ok n /\ s = numeral_text n ++ r2 /\
              match trimStart r2 with
              | EmptyString => Some (numeral_text n, @None string)
              | String c EmptyString =>
                  if is_size_letter c then Some (numeral_text n, Some (String c EmptyString))
                  else None
              | String c (String i EmptyString) =>
                  if is_size_letter c && is_letter_i i
                  then Some (numeral_text n, Some (String c (String i EmptyString)))
                  else None
              | _ => None
              end = Some (m1, m2)).
    { intro Hp. exists (mkNumeral ip None), r1. repeat split; auto. }
    destruct r1 as [| c r]; [now apply Hplain |].
    destruct (Ascii.eqb c ".") eqn:Ec.
    - apply Ascii.eqb_eq in Ec. subst c.
      destruct (span is_digit r) as [fp r'] eqn:E2.
      destruct (span_inv _ _ _ E2) as [Er [Hfp _]].
      destruct (is_empty fp) eqn:Hfe; [now apply Hplain |].
      apply is_empty_false in Hfe.
      exists (mkNumeral ip (Some fp)), r'. repeat split; auto.
      unfold numeral_text. cbn [int_part frac_part].
      rewrite Es, Er, !append_assoc. reflexivity.
    - apply Hplain.
      destruct c as [[] [] [] [] [] [] [] []]; try exact H. discriminate Ec. }
  destruct Hshape as [n [r2 [Hn [Es' Hm]]]].
  destruct (trimStart_split r2) as [ws [Er2 Hws]].
  assert (Hu : exists mult, unit_multiplier (trimStart r2) = Some mult).
  { destruct (trimStart r2) as [| c [| i [| x y]]]; cbn.
    - eauto.
    - destruct (is_size_letter c) eqn:Hc; [| discriminate].
      destruct (letter_unit_rank c Hc) as [k ->]. cbn. eauto.
    - destruct (is_size_letter c) eqn:Hc; [| discriminate].
      destruct (is_letter_i i) eqn:Hi; [| discriminate].
      unfold is_letter_i in Hi. rewrite Hi.
      destruct (letter_unit_rank c Hc) as [k ->]. cbn. eauto.
    - discriminate. }
  destruct Hu as [mult Hu].
  exists (round_Q (numeral_value n * inject_Z mult)).
  exists n, ws, (trimStart r2), mult.
  split; [exact Hn |]. split; [exact Hws |]. split; [exact Hu |]. split; [| reflexivity].
  rewrite Es', Er2 at 1. reflexivity.
Qed.


End MemorySizeResult.

Section CpuUnits.

Lemma parseInt_digits : forall ds, all_digits ds = true -> ds <> "" ->
  parseInt ds = num (digits_val ds).
Proof.
  intros ds H Hne. unfold parseInt.
  destruct ds as [| c r]; [congruence |].
  pose proof H as H'. cbn [all_digits] in H'. apply andb_prop in H' as [Hc _].
  cbn [trimStart]. rewrite (digit_not_space c Hc), (split_sign_digit c r Hc).
  rewrite (span_digits_all _ H). reflexivity.
Qed.

Lemma match_millicpu_format : forall ds, all_digits ds = true -> ds <> "" ->
  match_millicpu (ds ++ "m") = Some ds.
Proof.
  intros ds H Hne. unfold match_millicpu.
  rewrite (span_digits ds "m" H) by reflexivity.
  apply is_empty_false in Hne. now rewrite Hne.
Qed.

Lemma match_millicpu_inv : forall t m1,
  match_millicpu t = Some m1 -> millicpu_format t (digits_val m1).
Proof.
  intros t m1 H. unfold match_millicpu in H.
  destruct (span is_digit t) as [ds r] eqn:E.
  destruct (span_inv _ _ _ E) as [Et [Hds _]].
  destruct (is_empty ds) eqn:Hne; [discriminate |]. apply is_empty_false in Hne.
  destruct (String.eqb r "m") eqn:Er; [| discriminate].
  apply String.eqb_eq in Er. inversion H; subst.
  exists m1. auto.
Qed.

Lemma match_millicpu_plain : forall (neg : bool) n, numeral_ok n ->
  match_millicpu ((if neg then "-" else "") ++ numeral_text n) = None.
Proof.
  intros neg [ip fp] [H1 [H2 H3]]. cbn [int_part frac_part] in *.
  unfold match_millicpu, numeral_text. cbn [int_part frac_part].
  destruct neg; [reflexivity |].
  apply is_empty_false in H2.
  destruct fp as [f |]; cbn [append].
  - rewrite (span_digits ip (String "." f) H1) by reflexivity. now rewrite H2.
  - rewrite (span_digits_all ip H1). now rewrite H2.
Qed.


Lemma parseCpuUnits_plain : forall s q,
  plain_number_format (toLowerCase (trim s)) q ->
  exists v, parseCpuUnits s = Ok v /\ number_value v q.
Proof.
  intros s q [neg [n [Hn [E Eq]]]]. unfold parseCpuUnits.
  rewrite E, (match_millicpu_plain neg n Hn), (parseFloat_numeral n neg Hn).
  cbn [isNaN negb]. eexists. split; [reflexivity |].
  eexists. split; [reflexivity |].
  pose proof (numeral_dec_value n) as Hv. unfold dec_to_Q in *. cbn [dmant dscale].
  destruct neg; rewrite Eq, <- Hv; [| reflexivity].
  rewrite inject_Z_opp. field. apply inject_Z_pow10_nonzero.
Qed.






End CpuUnits.

Section Converters.



Lemma numeral_text_no_space : forall n, numeral_ok n -> no_space (numeral_text n) = true.
Proof.
  intros [ip fp] [H1 [_ H3]]. unfold numeral_text. cbn [int_part frac_part] in *.
  destruct fp as [f |].
  - destruct H3 as [H3 _].
    rewrite !no_space_append, (all_digits_no_space ip H1), (all_digits_no_space f H3).
    reflexivity.
  - now apply all_digits_no_space.
Qed.



Lemma millicpu_lower : forall s n, millicpu_format s n -> toLowerCase s = s.
Proof.
  intros s n [ds [H [_ [E _]]]]. subst s.
  now rewrite toLowerCase_append, (all_digits_lower ds H).
Qed.

Lemma numeral_text_lower : forall n, numeral_ok n -> toLowerCase (numeral_text n) = numeral_text n.
Proof.
  intros [ip fp] [H1 [_ H3]]. unfold numeral_text. cbn [int_part frac_part] in *.
  destruct fp as [f |].
  - destruct H3 as [H3 _].
    now rewrite !toLowerCase_append, (all_digits_lower ip H1), (all_digits_lower f H3).
  - now apply all_digits_lower.
Qed.

Lemma plain_number_lower : forall s q, plain_number_format s q -> toLowerCase s = s.
Proof.
  intros s q [neg [n [Hn [E _]]]]. subst s.
  rewrite toLowerCase_append, (numeral_text_lower n Hn). now destruct neg.
Qed.

End Converters.


(** The CPU part fails the same way: ["500M"] is neither [Nm] nor a plain
    number, and [parseCpuUnits] lower-cases it and returns 0.5. *)
Lemma parseCpuUnits_upper_case_accepted :
  parseCpuUnits "500M" = Ok (Fin (mkDec 500 3)) /\
  (forall n, ~ millicpu_format "500M" n) /\
  (forall q, ~ plain_number_format "500M" q) /\
  ~ parseCpuUnits_as_specified.
Proof.
  assert (H1 : forall n, ~ millicpu_format "500M" n).
  { intros n F. apply millicpu_lower in F. discriminate F. }
  assert (H2 : forall q, ~ plain_number_format "500M" q).
  { intros q F. apply plain_number_lower in F. discriminate F. }
  split; [reflexivity |]. split; [exact H1 |]. split; [exact H2 |].
  intro Hc. destruct (Hc "500M") as [_ [_ Hthrow]].
  destruct (Hthrow H1 H2) as [e He]. discriminate He.
Qed.

(** A numeric prefix is enough for [parseFloat]: ["1.5m"] is read as 1.5
    CPUs, not rejected and not 1.5 millicpu. *)
Lemma parseCpuUnits_reads_prefix :
  parseCpuUnits "1.5m" = Ok (Fin (mkDec 15 1)) /\
  parseCpuUnits "2 cores" = Ok (num 2).
Proof. split; reflexivity. Qed.




Section ListFacts.

Context {A B : Type}.

Lemma concat_nil_Forall : forall (l : list (list B)),
  List.concat l = [] <-> Forall (fun x => x = []) l.
Proof.
  induction l as [| x l IH]; cbn.
  - split; auto.
  - split.
    + intro H. apply app_eq_nil in H as [H1 H2]. constructor; [assumption | now apply IH].
    + intro H. inversion H; subst. cbn. now apply IH.
Qed.

Lemma concat_map_nil : forall (f : A -> list B) (l : list A),
  List.concat (map f l) = [] <-> Forall (fun x => f x = []) l.
Proof.
  intros f l. rewrite concat_nil_Forall, Forall_map. reflexivity.
Qed.

Lemma concat_mapi_nil : forall (f : nat -> A -> list B) (P : A -> Prop) (l : list A) k,
  (forall i x, f i x = [] <-> P x) ->
  List.concat (mapi_from k f l) = [] <-> Forall P l.
Proof.
  intros f P l k Hf. revert k.
  induction l as [| x l IH]; intro k; cbn.
  - split; auto.
  - split.
    + intro H. apply app_eq_nil in H as [H1 H2].
      constructor; [now apply (Hf k) | now apply (IH (S k))].
    + intro H. inversion H; subst.
      rewrite (proj2 (Hf k x)) by assumption. cbn. now apply (IH (S k)).
Qed.

Lemma app_nil_iff : forall (a b : list B), (a ++ b)%list = [] <-> a = [] /\ b = [].
Proof.
  intros a b. split.
  - apply app_eq_nil.
  - intros [-> ->]. reflexivity.
Qed.

Lemma is_nil_true : forall (l : list B), is_nil l = true <-> l = [].
Proof. destruct l; cbn; split; congruence. Qed.

Lemma guard_nil : forall (c : bool) (x : B), (if c then [] else [x]) = [] <-> c = true.
Proof. destruct c; split; congruence. Qed.

Lemma guard_nil_neg : forall (c : bool) (x : B), (if c then [x] else []) = [] <-> c = false.
Proof. destruct c; split; congruence. Qed.

End ListFacts.

Section Comparisons.

Lemma dec_compare_antisym : forall a b, dec_compare b a = CompOpp (dec_compare a b).
Proof. intros a b. unfold dec_compare. apply Z.compare_antisym. Qed.

Lemma number_compare_antisym : forall x y,
  number_compare y x = option_map CompOpp (number_compare x y).
Proof.
  intros [a | [] |] [b | [] |]; cbn; try reflexivity.
  now rewrite dec_compare_antisym.
Qed.

(** Away from NaN, [not (x < y)] is [x >= y], and [not (x <= y)] is [x > y]. *)
Lemma not_lt_ge : forall x y, x <> NaN -> y <> NaN ->
  number_lt x y = false <-> number_ge x y = true.
Proof.
  intros x y Hx Hy. unfold number_ge, number_le, number_lt.
  rewrite (number_compare_antisym x y).
  destruct x as [a | [] |], y as [b | [] |]; cbn; try congruence;
    try (split; congruence).
  destruct (dec_compare a b); cbn; split; congruence.
Qed.

Lemma not_le_gt : forall x y, x <> NaN -> y <> NaN ->
  number_le x y = false <-> number_gt x y = true.
Proof.
  intros x y Hx Hy. unfold number_gt, number_le, number_lt.
  rewrite (number_compare_antisym x y).
  destruct x as [a | [] |], y as [b | [] |]; cbn; try congruence;
    try (split; congruence).
  destruct (dec_compare a b); cbn; split; congruence.
Qed.

Lemma gt_not_NaN : forall x y, number_gt x y = true -> x <> NaN.
Proof. intros x y H E. subst x. destruct y as [b | [] |]; discriminate H. Qed.

Lemma ge_not_NaN : forall x y, number_ge x y = true -> x <> NaN.
Proof. intros x y H E. subst x. destruct y as [b | [] |]; discriminate H. Qed.

Lemma num_not_NaN : forall z, num z <> NaN.
Proof. discriminate. Qed.

End Comparisons.

Section ParsedValues.

Lemma parseCpuUnits_not_NaN : forall s v, parseCpuUnits s = Ok v -> v <> NaN.
Proof.
  intros s v H. unfold parseCpuUnits in H.
  destruct (match_millicpu (toLowerCase (trim s))) as [m1 |] eqn:E.
  - destruct (match_millicpu_inv _ _ E) as [ds [Hd [Hne [_ _]]]].
    unfold match_millicpu in E.
    destruct (span is_digit (toLowerCase (trim s))) as [ds' r] eqn:Es.
    destruct (span_inv _ _ _ Es) as [_ [Hd' _]].
    destruct (is_empty ds') eqn:He; [discriminate |]. apply is_empty_false in He.
    destruct (String.eqb r "m"); [| discriminate]. inversion E; subst.
    rewrite (parseInt_digits m1 Hd' He) in H. inversion H. discriminate.
  - destruct (parseFloat (toLowerCase (trim s))); cbn in H; inversion H; discriminate.
Qed.

Lemma parseMemorySize_integer : forall s v,
  parseMemorySize s = Ok v -> exists bytes, v = num bytes /\ size_format s bytes.
Proof.
  intros s v H.
  destruct (match_memory_size s) as [[m1 m2] |] eqn:E.
  - destruct (match_memory_size_inv s m1 m2 E) as [bytes Hb].
    rewrite (parseMemorySize_format s bytes Hb) in H. inversion H. eauto.
  - unfold parseMemorySize in H. rewrite E in H. discriminate.
Qed.

Lemma dec_normalize_zero : forall s, dec_normalize_aux 0 s = mkDec 0 0.
Proof. induction s; cbn; auto. Qed.

Lemma dec_to_string_zero : forall d, dmant d = 0 -> dec_to_string d = "0".
Proof.
  intros [m s] H. cbn in H. subst m. unfold dec_to_string, dec_normalize.
  cbn [dmant dscale]. rewrite dec_normalize_zero. reflexivity.
Qed.

(** A CPU value that parses to something positive is truthy. *)
Lemma positive_units_truthy : forall u v,
  parseCpuUnits (String_of_units u) = Ok v -> positive v -> truthy_units u = true.
Proof.
  intros u v H Hv. destruct u as [[n | s] |]; cbn in *.
  - destruct n as [d | b |]; cbn in *; try reflexivity.
    + unfold dec_is_zero. destruct (dmant d =? 0) eqn:E; [| reflexivity].
      apply Z.eqb_eq in E. rewrite (dec_to_string_zero d E) in H.
      inversion H; subst. discriminate Hv.
    + discriminate H.
  - destruct s; [discriminate H | reflexivity].
  - discriminate H.
Qed.

Lemma positive_size_truthy : forall s v, parseMemorySize s = Ok v -> truthy_string s = true.
Proof. intros [| c s] v H; [discriminate H | reflexivity]. Qed.

End ParsedValues.

Section Validation.

Lemma Forall_iff_transfer : forall {A : Type} (P Q : A -> Prop) (l : list A),
  Forall (fun x => Q x <-> P x) l -> (Forall Q l <-> Forall P l).
Proof.
  intros A P Q l H. induction H as [| x l Hx _ IH].
  - split; constructor.
  - split; intro F; inversion F; subst; constructor; tauto.
Qed.

Lemma and_iff_compat_both : forall A B C D : Prop,
  (A <-> B) -> (C <-> D) -> (A /\ C <-> B /\ D).
Proof. tauto. Qed.

Lemma truthy_ostring_iff : forall o,
  truthy_ostring o = true <-> exists s, o = Some s /\ s <> "".
Proof.
  intros [[| c r] |]; cbn; split; try discriminate.
  - intros [s [E H]]. inversion E; subst. congruence.
  - intros _. eexists. split; [reflexivity | discriminate].
  - intros [s [E H]]. reflexivity.
  - intros [s [E _]]. discriminate.
Qed.

Lemma section_nil : forall {V : Type} (o : option (obj V)) (msg : string)
  (f : string * V -> list string) (P : V -> Prop),
  (forall l, o = Some l -> Forall (fun e => f e = [] <-> P (snd e)) l) ->
  (if missing_or_empty o then [msg] else List.concat (map f (entries o))) = []
  <-> nonempty_section o P.
Proof.
  intros V o msg f P H. unfold nonempty_section.
  destruct o as [l |]; cbn.
  - specialize (H l eq_refl). destruct l as [| e l].
    + cbn. split; [discriminate |]. intros [l' [E [Hne _]]]. inversion E; subst. congruence.
    + cbn [is_nil]. rewrite concat_map_nil, (Forall_iff_transfer _ _ _ H).
      split.
      * intro F. exists (e :: l). repeat split; [discriminate | assumption].
      * intros [l' [E [_ F]]]. inversion E; subst. assumption.
  - split; [discriminate |]. intros [l [E _]]. discriminate.
Qed.

Lemma validateExpose_nil : forall prefix i e,
  validateExpose prefix i e = [] <-> expose_ok e.
Proof.
  intros prefix i e. unfold validateExpose, expose_ok. rewrite app_nil_iff.
  apply and_iff_compat_both.
  - destruct (ex_port e) as [p |].
    + rewrite guard_nil. split.
      * intro H. eauto.
      * intros [p' [E H]]. inversion E; subst. assumption.
    + split; [discriminate |]. intros [p [E _]]. discriminate.
  - destruct (ex_proto e) as [p |].
    + rewrite guard_nil_neg. unfold truthy_string.
      destruct (proto_ok p) eqn:Ep.
      * rewrite andb_false_r. split; [| reflexivity].
        intros _ q E. inversion E; subst q. right.
        apply orb_prop in Ep. destruct Ep as [H | H]; apply String.eqb_eq in H; auto.
      * rewrite andb_true_r. split.
        -- intros H q E. inversion E; subst q. left.
           apply negb_false_iff in H. now apply is_empty_true.
        -- intros H. destruct (H p eq_refl) as [-> | [-> | ->]];
             [reflexivity | discriminate Ep | discriminate Ep].
    + split; [intros _ p E; discriminate | reflexivity].
Qed.

Lemma validateService_nil : forall name s, validateService name s = [] <-> service_ok s.
Proof.
  intros name s. unfold validateService, service_ok. rewrite app_nil_iff.
  apply and_iff_compat_both.
  - rewrite guard_nil. apply truthy_ostring_iff.
  - destruct (expose s) as [l |].
    + unfold mapi. rewrite (concat_mapi_nil _ expose_ok) by apply validateExpose_nil.
      split; [intros H l' E; now inversion E; subst | auto].
    + split; [intros _ l E; discriminate | reflexivity].
Qed.

Lemma validateCpu_nil : forall prefix r, validateCpu prefix r = [] <-> cpu_ok r.
Proof.
  intros prefix r. unfold validateCpu, cpu_ok.
  destruct (cpu r) as [u |].
  - split.
    + intro H. destruct (truthy_units u); [| discriminate].
      destruct (parseCpuUnits (String_of_units u)) as [v | e] eqn:E; [| discriminate].
      apply guard_nil_neg in H.
      exists u, v. repeat split; auto.
      apply not_le_gt; auto using num_not_NaN. eapply parseCpuUnits_not_NaN; eauto.
    + intros [u' [v [Eu [Ep Hv]]]]. inversion Eu; subst u'.
      rewrite (positive_units_truthy u v Ep Hv), Ep.
      apply guard_nil_neg. apply not_le_gt; auto using num_not_NaN.
      eapply parseCpuUnits_not_NaN; eauto.
  - split; [discriminate |]. intros [u [v [E _]]]. discriminate.
Qed.

Lemma validateMemory_nil : forall prefix r, validateMemory prefix r = [] <-> memory_ok r.
Proof.
  intros prefix r. unfold validateMemory, memory_ok.
  destruct (memory r) as [[size |] |].
  - split.
    + intro H. destruct (truthy_string size); [| discriminate].
      destruct (parseMemorySize size) as [v | e] eqn:E; [| discriminate].
      apply guard_nil_neg in H.
      exists size, v. repeat split; auto.
      destruct (parseMemorySize_integer _ _ E) as [bytes [-> _]].
      apply not_le_gt; auto using num_not_NaN.
    + intros [size' [v [Eu [Ep Hv]]]]. inversion Eu; subst size'.
      rewrite (positive_size_truthy size v Ep), Ep.
      apply guard_nil_neg.
      destruct (parseMemorySize_integer _ _ Ep) as [bytes [-> _]].
      apply not_le_gt; auto using num_not_NaN.
  - split; [discriminate |]. intros [s [v [E _]]]. discriminate.
  - split; [discriminate |]. intros [s [v [E _]]]. discriminate.
Qed.

Lemma validateGpu_nil : forall prefix r,
  (forall g, gpu r = Some g -> gpu_units g <> Some NaN) ->
  validateGpu prefix r = [] <-> gpu_ok r.
Proof.
  intros prefix r Hn. unfold validateGpu, gpu_ok.
  destruct (gpu r) as [g |].
  - specialize (Hn g eq_refl). destruct (gpu_units g) as [u |] eqn:Eu.
    + rewrite guard_nil_neg. assert (u <> NaN) by congruence.
      rewrite not_lt_ge by auto using num_not_NaN.
      split.
      * intros H0 g' E. inversion E; subst g'. eauto.
      * intros H0. destruct (H0 g eq_refl) as [u' [E H1]].
        rewrite Eu in E. inversion E; subst u'. assumption.
    + split; [discriminate |]. intro H. destruct (H g eq_refl) as [u [E _]].
      rewrite Eu in E. discriminate.
  - split; [intros _ g E; discriminate | reflexivity].
Qed.

Lemma storage_nil : forall r (msg : string),
  match storage r with
  | Some _ => []
  | None => [msg]
  end = [] <-> storage_present r.
Proof. intros r msg. unfold storage_present. destruct (storage r); split; congruence. Qed.

Lemma validateComputeProfile_nil : forall name p,
  gpu_no_NaN p -> validateComputeProfile name p = [] <-> compute_ok p.
Proof.
  intros name p Hn. unfold validateComputeProfile, compute_ok. cbv zeta.
  destruct (resources p) as [r |] eqn:Er.
  - rewrite !app_nil_iff, validateCpu_nil, validateMemory_nil, storage_nil.
    rewrite (validateGpu_nil _ r) by (intros g Eg; now apply (Hn r g)).
    split.
    + intros [H1 [H2 [H3 H4]]]. exists r. auto.
    + intros [r' [E [H1 [H2 [H3 H4]]]]]. inversion E; subst r'. auto.
  - split; [discriminate |]. intros [r [E _]]. discriminate.
Qed.

Lemma validatePricing_nil : forall prefix e,
  pr_amount (snd e) <> ANumber NaN ->
  validatePricing prefix e = [] <-> pricing_ok (snd e).
Proof.
  intros prefix [name p] Hn. cbn [snd] in *. unfold validatePricing, pricing_ok.
  rewrite app_nil_iff. apply and_iff_compat_both.
  - rewrite guard_nil. apply truthy_ostring_iff.
  - destruct (pr_amount p) as [| a | t].
    + split; [discriminate |]. intros [a [E _]]. discriminate.
    + rewrite guard_nil_neg. assert (a <> NaN) by congruence.
      rewrite not_le_gt by auto using num_not_NaN. unfold positive.
      split; [eauto |]. intros [a' [E H0]]. inversion E; subst. assumption.
    + split; [discriminate |]. intros [a [E _]]. discriminate.
Qed.

Lemma validatePlacementProfile_nil : forall name p,
  pricing_no_NaN p -> validatePlacementProfile name p = [] <-> placement_ok p.
Proof.
  intros name p Hn. unfold validatePlacementProfile, placement_ok.
  apply section_nil. intros l E. specialize (Hn l E).
  eapply Forall_impl; [| exact Hn]. intros e He. now apply validatePricing_nil.
Qed.

Lemma is_some_iff : forall {A : Type} (o : option A), is_some o = true <-> o <> None.
Proof. intros A [a |]; cbn; split; congruence. Qed.

Lemma inherited_iff : forall k, inherited k = true <-> In k prototype_keys.
Proof.
  intro k. unfold inherited. rewrite existsb_exists. split.
  - intros [x [Hin E]]. apply String.eqb_eq in E. now subst x.
  - intro Hin. exists k. split; [exact Hin | apply String.eqb_refl].
Qed.

(** A read with a computed key finds something exactly for the names of
    own properties and of inherited members. *)
Lemma get_found : forall {V : Type} (blank : V) k (l : obj V),
  get blank k l <> None <-> lookup k l <> None \/ In k prototype_keys.
Proof.
  intros V blank k l. unfold get. rewrite <- inherited_iff.
  destruct (lookup k l) as [v |].
  - split; [intros _; left; discriminate | intros _; discriminate].
  - destruct (inherited k).
    + split; [intros _; right; reflexivity | intros _; discriminate].
    + split; [intro F; now elim F | intros [F | F]; [now elim F | discriminate F]].
Qed.

(** What a read with a computed key finds is an own property unless it
    is the blank of an inherited member. *)
Lemma get_own : forall {V : Type} (blank : V) k (l : obj V) v,
  get blank k l = Some v -> v <> blank -> lookup k l = Some v.
Proof.
  intros V blank k l v H Hv. unfold get in H.
  destruct (lookup k l) as [v' |]; [exact H |].
  destruct (inherited k); [| discriminate H].
  inversion H. congruence.
Qed.

Lemma get_single : forall {V : Type} (blank : V) k (v : V), get blank k [(k, v)] = Some v.
Proof. intros V blank k v. unfold get. cbn [lookup]. now rewrite String.eqb_refl. Qed.

Lemma lookup_get : forall {V : Type} (blank : V) k (l : obj V) v,
  lookup k l = Some v -> get blank k l = Some v.
Proof. intros V blank k l v H. unfold get. now rewrite H. Qed.

Lemma find_service_defined : forall sdl k,
  find_service sdl k <> None <-> defined_in (services sdl) k.
Proof.
  intros sdl k. unfold find_service, defined_in. destruct (services sdl) as [l |].
  - rewrite get_found. split.
    + intro H. exists l. auto.
    + intros [l' [E H]]. inversion E; subst l'. exact H.
  - split; [intro F; now elim F | intros [l [E _]]; discriminate E].
Qed.

Lemma find_compute_defined : forall sdl k,
  find_compute sdl k <> None
  <-> exists p, profiles sdl = Some p /\ defined_in (compute p) k.
Proof.
  intros sdl k. unfold find_compute, defined_in. destruct (profiles sdl) as [p |].
  - destruct (compute p) as [l |] eqn:Ec.
    + rewrite get_found. split.
      * intro H. exists p. split; [reflexivity |]. exists l. auto.
      * intros [p' [E [l' [El H]]]]. inversion E; subst p'. rewrite Ec in El.
        inversion El; subst l'. exact H.
    + split; [intro F; now elim F |].
      intros [p' [E [l [El _]]]]. inversion E; subst p'. rewrite Ec in El. discriminate El.
  - split; [intro F; now elim F | intros [p [E _]]; discriminate E].
Qed.

Lemma find_placement_defined : forall sdl k,
  find_placement sdl k <> None
  <-> exists p, profiles sdl = Some p /\ defined_in (placement p) k.
Proof.
  intros sdl k. unfold find_placement, defined_in. destruct (profiles sdl) as [p |].
  - destruct (placement p) as [l |] eqn:Ec.
    + rewrite get_found. split.
      * intro H. exists p. split; [reflexivity |]. exists l. auto.
      * intros [p' [E [l' [El H]]]]. inversion E; subst p'. rewrite Ec in El.
        inversion El; subst l'. exact H.
    + split; [intro F; now elim F |].
      intros [p' [E [l [El _]]]]. inversion E; subst p'. rewrite Ec in El. discriminate El.
  - split; [intro F; now elim F | intros [p [E _]]; discriminate E].
Qed.

Lemma validateDeploymentEntry_nil : forall sdl e,
  count (snd e) <> ANumber NaN ->
  validateDeploymentEntry sdl e = [] <-> entry_ok sdl e.
Proof.
  intros sdl [name c] Hn. cbn [snd fst] in *. unfold validateDeploymentEntry, entry_ok.
  cbn [fst snd]. rewrite !app_nil_iff, !guard_nil, !is_some_iff.
  rewrite find_service_defined, find_compute_defined.
  apply and_iff_compat_l, and_iff_compat_l.
  destruct (count c) as [| a | t].
  - split; [discriminate |]. intros [a [E _]]. discriminate.
  - rewrite guard_nil_neg. assert (a <> NaN) by congruence.
    rewrite not_lt_ge by auto using num_not_NaN.
    split; [eauto |]. intros [a' [E H0]]. inversion E; subst. assumption.
  - split; [discriminate |]. intros [a [E _]]. discriminate.
Qed.

Lemma validateDeploymentPlacement_nil : forall sdl e,
  Forall (fun e' => count (snd e') <> ANumber NaN) (snd e) ->
  validateDeploymentPlacement sdl e = [] <-> deployment_ok sdl e.
Proof.
  intros sdl [name pl] Hn. cbn [snd] in Hn.
  unfold validateDeploymentPlacement, deployment_ok. cbn [fst snd].
  rewrite app_nil_iff, guard_nil, is_some_iff, concat_map_nil.
  rewrite find_placement_defined.
  apply and_iff_compat_l. apply Forall_iff_transfer.
  eapply Forall_impl; [| exact Hn]. intros e He. now apply validateDeploymentEntry_nil.
Qed.

Lemma version_nil : forall sdl,
  match version sdl with
  | Some v =>
      if is_empty v then ["Missing required field: version"]
      else if negb (String.eqb v "2.0") && negb (String.eqb v "2.1")
      then ["Unsupported SDL version: " ++ v ++ ". Supported versions: 2.0, 2.1"]
      else []
  | None => ["Missing required field: version"]
  end = [] <-> version_ok sdl.
Proof.
  intro sdl. unfold version_ok. destruct (version sdl) as [v |].
  - destruct (String.eqb v "2.0") eqn:E1.
    + apply String.eqb_eq in E1. subst v. cbn. split; auto.
    + destruct (String.eqb v "2.1") eqn:E2.
      * apply String.eqb_eq in E2. subst v. cbn. split; auto.
      * apply String.eqb_neq in E1, E2. cbn [negb andb].
        destruct (is_empty v); split; try discriminate;
          intros [E | E]; inversion E; congruence.
  - split; [discriminate |]. intros [E | E]; discriminate.
Qed.

(** The validator's error list is empty exactly on the manifests that
    meet every condition. *)
Lemma validateSDL_errors_nil : forall sdl,
  no_NaN sdl -> validateSDL_errors sdl = [] <-> manifest_ok sdl.
Proof.
  intros sdl [Hg [Hp Hc]]. unfold validateSDL_errors, manifest_ok, sections_ok.
  rewrite !app_nil_iff, version_nil.
  rewrite (section_nil (services sdl) _ _ service_ok).
  2:{ intros l _. apply Forall_forall. intros [n s] _. apply validateService_nil. }
  assert (Hd : (if missing_or_empty (deployment sdl)
                then ["Missing required field: deployment"]
                else List.concat (map (validateDeploymentPlacement sdl)
                                    (entries (deployment sdl)))) = []
               <-> exists d, deployment sdl = Some d /\ d <> [] /\
                             Forall (deployment_ok sdl) d).
  { destruct (deployment sdl) as [d |] eqn:Ed; cbn.
    - specialize (Hc d eq_refl). destruct d as [| e d].
      + cbn. split; [discriminate |]. intros [d' [E [Hne _]]]. inversion E; subst. congruence.
      + cbn [is_nil]. rewrite concat_map_nil.
        assert (Ht : Forall (fun e0 => validateDeploymentPlacement sdl e0 = []) (e :: d)
                     <-> Forall (deployment_ok sdl) (e :: d)).
        { apply Forall_iff_transfer. eapply Forall_impl; [| exact Hc].
          intros e0 He. now apply validateDeploymentPlacement_nil. }
        rewrite Ht. split.
        * intro F. exists (e :: d). repeat split; [discriminate | assumption].
        * intros [d' [E [_ F]]]. inversion E; subst. assumption.
    - split; [discriminate |]. intros [d [E _]]. discriminate. }
  rewrite Hd.
  apply and_iff_compat_l, and_iff_compat_l, and_iff_compat_r.
  destruct (profiles sdl) as [p |] eqn:Ep.
  - rewrite app_nil_iff.
    rewrite (section_nil (compute p) _ _ compute_ok).
    2:{ intros l El. eapply Forall_impl; [| exact (Hg p l eq_refl El)].
        intros [n c] Hn. now apply validateComputeProfile_nil. }
    rewrite (section_nil (placement p) _ _ placement_ok).
    2:{ intros l El. eapply Forall_impl; [| exact (Hp p l eq_refl El)].
        intros [n c] Hn. now apply validatePlacementProfile_nil. }
    split.
    + intros [H1 H2]. exists p. auto.
    + intros [p' [E [H1 H2]]]. inversion E; subst. auto.
  - split; [discriminate |]. intros [p [E _]]. discriminate.
Qed.

End Validation.
Import Samples.



(** The validator accepts references to names that every object inherits:
    the deployment below is for a service [toString] with the compute
    profile [valueOf], and neither is defined in the manifest. *)
Lemma validateSDL_inherited_names :
  validateSDL sdl_inherited_names = mkValidation true [] /\
  (forall l, services sdl_inherited_names = Some l -> lookup "toString" l = None) /\
  sdlToGroups sdl_inherited_names = Throw TypeError.
Proof.
  split; [reflexivity |]. split; [| reflexivity].
  intros l H. inversion H. reflexivity.
Qed.



(** Inversion of a successful [bind]. *)
Ltac bind_ok H :=
  match type of H with
  | bind (Ok _) _ = Ok _ => cbn [bind] in H
  | bind ?c _ = Ok _ =>
      let E := fresh "E" in
      destruct c eqn:E; [cbn [bind] in H | discriminate H]
  end.

(** Identify the values of two runs of the same computation. *)
Ltac same_ok :=
  repeat match goal with
  | H : Ok _ = Ok _ |- _ => inversion H; subst; clear H
  | H1 : ?c = Ok ?x, H2 : ?c = Ok ?y |- _ =>
      rewrite H1 in H2; inversion H2; subst; clear H2
  end.

Section Price.

Lemma sum_Z_app : forall a b, sum_Z (a ++ b)%list = sum_Z a + sum_Z b.
Proof.
  unfold sum_Z. induction a as [| x a IH]; intro b; cbn [app fold_right].
  - reflexivity.
  - rewrite IH. lia.
Qed.

(** What [BigInt] makes of a count is the whole number it stands for. *)
Lemma BigInt_of_count_value : forall c n, BigInt_of_count c = Ok n -> count_value c n.
Proof.
  intros [| [d | b |] | t] n H; cbn in H; try discriminate H.
  - destruct (dec_is_int d) eqn:Ei; [| discriminate H]. inversion H. clear H.
    unfold count_value, dec_is_int, dec_trunc, dec_to_Q in *.
    destruct d as [m s]. cbn [dmant dscale] in *.
    pose proof (pow10_pos s) as Hp. apply Z.eqb_eq in Ei.
    assert (Em : m = pow10 s * (m / pow10 s))
      by (rewrite (Z.div_mod m (pow10 s)) at 1 by lia; lia).
    assert (Eq : Z.quot m (pow10 s) = m / pow10 s).
    { rewrite Em at 1. rewrite Z.mul_comm, Z.quot_mul by lia. reflexivity. }
    rewrite Eq. rewrite Em at 1. rewrite inject_Z_mult. field.
    apply inject_Z_pow10_nonzero.
  - exact H.
Qed.

Lemma service_price_entry : forall sdl pp acc acc' e rg,
  addServicePrice pp acc e = Ok acc' ->
  groupResource sdl pp e = Ok rg ->
  exists cost, entry_cost rg cost /\ acc' = acc + cost.
Proof.
  intros sdl pp acc acc' [serviceName config] rg Hp Hg.
  unfold addServicePrice in Hp. unfold groupResource in Hg.
  repeat bind_ok Hg. repeat bind_ok Hp.
  inversion Hg; subst rg. inversion Hp; subst acc'. clear Hg Hp. same_ok.
  eexists. split; [| reflexivity].
  eexists. eexists. cbn [rg_price rg_count amount].
  split; [eassumption |]. split; [| reflexivity].
  apply BigInt_of_count_value. eassumption.
Qed.

Lemma placement_price_entries : forall sdl pp pl acc acc' rs,
  foldM (addServicePrice pp) pl acc = Ok acc' ->
  mapM (groupResource sdl pp) pl = Ok rs ->
  exists costs, Forall2 entry_cost rs costs /\ acc' = acc + sum_Z costs.
Proof.
  intros sdl pp. induction pl as [| e pl IH]; intros acc acc' rs Hf Hm.
  - cbn in *. inversion Hf; inversion Hm; subst. exists []. split; [constructor | unfold sum_Z; cbn [fold_right]; lia].
  - cbn [foldM mapM] in *. bind_ok Hf. repeat bind_ok Hm. inversion Hm; subst rs.
    destruct (service_price_entry _ _ _ _ _ _ E E0) as [cost [Hc Ha]].
    destruct (IH _ _ _ Hf eq_refl) as [costs [Hcs Hs]].
    exists (cost :: costs). split; [now constructor |]. unfold sum_Z in *. cbn [fold_right]. lia.
Qed.

Lemma deployment_price_groups : forall sdl dep acc acc' gs,
  foldM (addPlacementPrice sdl) dep acc = Ok acc' ->
  mapM (groupOfPlacement sdl) dep = Ok gs ->
  exists costs,
    Forall2 entry_cost (flat_map gs_resources gs) costs /\ acc' = acc + sum_Z costs.
Proof.
  intros sdl. induction dep as [| [name pl] dep IH]; intros acc acc' gs Hf Hm.
  - cbn in *. inversion Hf; inversion Hm; subst. exists []. split; [constructor | unfold sum_Z; cbn [fold_right]; lia].
  - cbn [foldM mapM] in *. bind_ok Hf. repeat bind_ok Hm. inversion Hm; subst gs.
    unfold addPlacementPrice in E. unfold groupOfPlacement in E0.
    repeat bind_ok E0. repeat bind_ok E. inversion E0; subst a0. clear E0. same_ok.
    match goal with
    | H1 : foldM _ pl acc = Ok _, H2 : mapM _ pl = Ok _ |- _ =>
        destruct (placement_price_entries _ _ _ _ _ _ H1 H2) as [c1 [Hc1 Hs1]]
    end.
    destruct (IH _ _ _ Hf eq_refl) as [c2 [Hc2 Hs2]].
    exists (c1 ++ c2)%list. cbn [flat_map gs_resources]. split.
    + now apply Forall2_app.
    + rewrite sum_Z_app. lia.
Qed.

End Price.

(** C9.  Whenever both functions return, [calculateSDLPrice] yields the
    denomination [uakt] and, as amount, the decimal numeral of the sum over
    all entries of all groups of [sdlToGroups] of price amount times
    count, in exact integer arithmetic.  The count of an entry is the
    whole number its [count] field stands for: the value of a number, the
    integer literal of a string. *)
Theorem C9_price_is_sum_over_groups : forall sdl coin groups,
  calculateSDLPrice sdl = Ok coin ->
  sdlToGroups sdl = Ok groups ->
  denom coin = Some "uakt" /\
  exists total, groups_cost groups total /\ amount coin = Z_to_string total /\
                BigInt_of_string (amount coin) = Ok total.
Proof.
  intros sdl coin groups Hp Hg.
  unfold calculateSDLPrice in Hp. unfold sdlToGroups in Hg.
  repeat bind_ok Hp. repeat bind_ok Hg. inversion Hp; subst coin. clear Hp. same_ok.
  destruct (deployment_price_groups _ _ _ _ _ E0 Hg) as [costs [Hc Hs]].
  split; [reflexivity |].
  exists a0. split; [exists costs; split; [assumption | lia] |].
  cbn [amount]. split; [reflexivity | apply BigInt_of_Z_to_string].
Qed.

Lemma C9_price_is_sum_over_groups_witness :
  calculateSDLPrice sdl_two_services = Ok (mkCoin (Some "uakt") "7000") /\
  exists groups,
    sdlToGroups sdl_two_services = Ok groups /\
    map rg_count (flat_map gs_resources groups) = [ANumber (num 3); AString "2"] /\
    map (fun rg => amount (rg_price rg)) (flat_map gs_resources groups) = ["1000"; "2000"] /\
    exists total, groups_cost groups total /\ total = 7000.
Proof.
  split; [reflexivity |].
  assert (E : exists groups,
             sdlToGroups sdl_two_services = Ok groups /\
             map rg_count (flat_map gs_resources groups) = [ANumber (num 3); AString "2"] /\
             map (fun rg => amount (rg_price rg)) (flat_map gs_resources groups)
             = ["1000"; "2000"]).
  { vm_compute. eexists. repeat split. }
  destruct E as (groups & Eg & Hc & Ha). exists groups.
  split; [exact Eg |]. split; [exact Hc |]. split; [exact Ha |].
  destruct (C9_price_is_sum_over_groups sdl_two_services _ groups eq_refl Eg)
    as [_ [total [Hcost [_ Hb]]]].
  exists total. split; [exact Hcost |].
  cbn [amount] in Hb. vm_compute in Hb. now inversion Hb.
Defined.

(** C2.  A manifest that [validateSDL] accepts need not convert: the
    validator only checks that [storage] is present and that each placement
    has some pricing, so the test suite's manifest with the storage size
    [1GB], or with the placement priced for another compute profile, is
    valid and makes [sdlToGroups] throw. *)
Theorem C2_accepted_manifest_does_not_convert :
  validateSDL sdl_storage_1GB = mkValidation true [] /\
  sdlToGroups sdl_storage_1GB = Throw (Error "Invalid memory size format: 1GB") /\
  validateSDL sdl_unpriced_profile = mkValidation true [] /\
  sdlToGroups sdl_unpriced_profile = Throw TypeError.
Proof. repeat split; reflexivity. Qed.
Section PrintedNumbers.

Lemma all_digits_zeros : forall k, all_digits (zeros k) = true.
Proof. induction k; cbn; auto. Qed.

Lemma length_zeros : forall k, String.length (zeros k) = k.
Proof. induction k; cbn; auto. Qed.

Lemma digits_val_zeros : forall k, digits_val (zeros k) = 0.
Proof.
  induction k as [| k IH].
  - reflexivity.
  - change (zeros (S k)) with (String "0" "" ++ zeros k).
    rewrite digits_val_append, IH, digits_val_single. reflexivity.
Qed.

Lemma pad_digits_spec : forall w x, 0 <= x < pow10 w ->
  all_digits (pad_digits w x) = true /\
  String.length (pad_digits w x) = w /\
  digits_val (pad_digits w x) = x.
Proof.
  intros w x Hx. unfold pad_digits.
  destruct (x =? 0) eqn:E.
  - apply Z.eqb_eq in E. subst x. cbn [String.length]. rewrite Nat.sub_0_r, append_nil_r.
    auto using all_digits_zeros, length_zeros, digits_val_zeros.
  - apply Z.eqb_neq in E.
    destruct (Z_to_digits_spec x ltac:(lia)) as [H1 [H2 H3]].
    pose proof (Z_to_digits_length x w ltac:(lia)) as Hl.
    rewrite all_digits_append, all_digits_zeros, H1, length_append, length_zeros,
      digits_val_append, digits_val_zeros, H3.
    repeat split; lia.
Qed.

Lemma dec_normalize_aux_value : forall s m,
  dec_to_Q (dec_normalize_aux m s) == dec_to_Q (mkDec m s).
Proof.
  induction s as [| s IH]; intro m; cbn [dec_normalize_aux].
  - reflexivity.
  - destruct (m mod 10 =? 0) eqn:E; [| reflexivity].
    apply Z.eqb_eq in E. rewrite IH. unfold dec_to_Q. cbn [dmant dscale].
    rewrite pow10_S.
    assert (Hm : m = 10 * (m / 10)) by (rewrite (Z.div_mod m 10) at 1 by lia; lia).
    rewrite Hm at 2. rewrite !inject_Z_mult. field.
    apply inject_Z_pow10_nonzero.
Qed.

Lemma dec_normalize_aux_sign : forall s m, 0 < m -> 0 < dmant (dec_normalize_aux m s).
Proof.
  induction s as [| s IH]; intros m Hm; cbn [dec_normalize_aux].
  - assumption.
  - destruct (m mod 10 =? 0) eqn:E; [| assumption].
    apply Z.eqb_eq in E. apply IH.
    assert (m = 10 * (m / 10)) by (rewrite (Z.div_mod m 10) at 1 by lia; lia). lia.
Qed.

(** A positive finite number prints as a numeral of the same value. *)
Lemma dec_to_string_numeral : forall d, 0 < dmant d ->
  exists n, numeral_ok n /\ dec_to_string d = numeral_text n /\
            numeral_value n == dec_to_Q d.
Proof.
  intros d Hd. unfold dec_to_string.
  pose proof (dec_normalize_aux_sign (dscale d) (dmant d) Hd) as Hs.
  pose proof (dec_normalize_aux_value (dscale d) (dmant d)) as Hv.
  fold (dec_normalize d) in Hs, Hv.
  assert (Ed : mkDec (dmant d) (dscale d) = d) by (destruct d; reflexivity).
  rewrite Ed in Hv. clear Ed.
  destruct (dec_normalize d) as [m s]. cbn [dmant dscale] in *.
  assert (En : (m <? 0) = false) by (apply Z.ltb_ge; lia). rewrite En.
  rewrite Z.abs_eq by lia.
  destruct s as [| k].
  - destruct (Z_to_digits_spec m ltac:(lia)) as [H1 [H2 H3]].
    exists (mkNumeral (Z_to_digits m) None). repeat split; auto.
    rewrite <- Hv. unfold numeral_value, dec_to_Q. cbn [int_part frac_part dmant dscale].
    rewrite H3. change (pow10 0) with 1. field.
  - pose proof (pow10_pos (S k)) as Hp. set (p := pow10 (S k)) in *.
    assert (Hq : 0 <= m / p) by (apply Z.div_pos; lia).
    assert (Hr : 0 <= m mod p < p) by (apply Z.mod_pos_bound; lia).
    destruct (Z_to_digits_spec (m / p) Hq) as [H1 [H2 H3]].
    destruct (pad_digits_spec (S k) (m mod p) Hr) as [P1 [P2 P3]].
    exists (mkNumeral (Z_to_digits (m / p)) (Some (pad_digits (S k) (m mod p)))).
    repeat split; auto.
    + intro F. rewrite F in P2. discriminate P2.
    + rewrite <- Hv. unfold numeral_value, dec_to_Q. cbn [int_part frac_part dmant dscale].
      rewrite H3, P3, P2. fold (pow10 (S k)). fold p.
      rewrite (Z.div_mod m p) at 3 by lia.
      rewrite inject_Z_plus, inject_Z_mult. field.
      intro F. unfold Qeq in F. cbn in F. lia.
Qed.

Lemma dec_positive : forall d q, dec_to_Q d == q -> (0 < q)%Q -> 0 < dmant d.
Proof.
  intros [m s] q E Hq. cbn [dmant]. rewrite <- E in Hq.
  unfold dec_to_Q in Hq. cbn [dmant dscale] in Hq.
  pose proof (pow10_pos s) as Hp.
  destruct (Z_lt_le_dec 0 m) as [H | H]; [assumption | exfalso].
  assert (F : (inject_Z m / inject_Z (pow10 s) <= 0)%Q).
  { unfold Qdiv. rewrite <- (Qmult_0_l (/ inject_Z (pow10 s))).
    apply Qmult_le_compat_r.
    - unfold Qle. cbn. lia.
    - apply Qinv_le_0_compat. unfold Qle. cbn. lia. }
  apply (Qlt_irrefl 0). eapply Qlt_le_trans; eassumption.
Qed.

Lemma dec_to_Q_positive : forall d, 0 < dmant d -> (0 < dec_to_Q d)%Q.
Proof.
  intros [m s] H. unfold dec_to_Q. cbn [dmant dscale] in *.
  pose proof (pow10_pos s) as Hp.
  apply Qlt_shift_div_l.
  - unfold Qlt. cbn. lia.
  - rewrite Qmult_0_l. unfold Qlt. cbn. lia.
Qed.

Lemma positive_dec : forall d, 0 < dmant d -> positive (Fin d).
Proof.
  intros d H. unfold positive, number_gt, number_lt, num, dec_of_Z.
  cbn [number_compare]. unfold dec_compare. cbn [dmant dscale].
  change (pow10 0) with 1. rewrite Z.mul_0_l, Z.mul_1_r.
  destruct (0 ?= dmant d) eqn:E; try reflexivity.
  - apply Z.compare_eq in E. lia.
  - apply Z.compare_gt_iff in E. lia.
Qed.

(** [parseCpuUnits(String(x))] for a finite x > 0 is x again. *)
Lemma parseCpuUnits_of_number : forall d, 0 < dmant d ->
  exists v, parseCpuUnits (number_to_string (Fin d)) = Ok v /\
            number_value v (dec_to_Q d) /\ positive v.
Proof.
  intros d Hd. cbn [number_to_string].
  destruct (dec_to_string_numeral d Hd) as [n [Hn [Es Ev]]].
  assert (Hf : plain_number_format (toLowerCase (trim (dec_to_string d))) (dec_to_Q d)).
  { rewrite Es, trim_no_space by now apply numeral_text_no_space.
    rewrite (numeral_text_lower n Hn).
    exists false, n. split; [exact Hn |]. split; [reflexivity |]. symmetry. exact Ev. }
  destruct (parseCpuUnits_plain _ _ Hf) as [v [Hv Hval]].
  exists v. repeat split; auto.
  destruct Hval as [d' [-> Hd']].
  apply positive_dec. eapply dec_positive; [exact Hd' |]. now apply dec_to_Q_positive.
Qed.

End PrintedNumbers.

Section Builder.

Variable o : SimpleSDLOptions.
Hypothesis Hok : options_ok o.

Lemma lookup_single : forall {V : Type} (k : string) (v : V), lookup k [(k, v)] = Some v.
Proof. intros V k v. cbn. now rewrite String.eqb_refl. Qed.

Lemma simple_service_ok : forall svc,
  lookup (o_serviceName o) (entries (services (simpleSDLObject o))) = Some svc ->
  service_ok svc.
Proof.
  intros svc H. cbn in H. rewrite String.eqb_refl in H. inversion H; subst svc. clear H.
  destruct Hok as [Himg _]. split.
  - exists (o_image o). auto.
  - cbn [expose]. intros l E.
    destruct (o_port o) as [port |]; [| discriminate E].
    destruct (truthy_number port) eqn:Hp; [| discriminate E].
    inversion E; subst l. constructor; [| constructor]. split.
    + exists port. auto.
    + cbn [ex_proto]. intros q F. discriminate F.
Qed.

Lemma simple_compute_ok : forall c,
  (exists p, profiles (simpleSDLObject o) = Some p /\
     lookup (o_serviceName o) (entries (compute p)) = Some c) ->
  compute_ok c.
Proof.
  intros c [p [Ep H]]. cbn in Ep. inversion Ep; subst p. clear Ep.
  cbn in H. rewrite String.eqb_refl in H. inversion H; subst c. clear H.
  destruct Hok as [_ [[d [Ec Hd]] [[v [Em Hv]] _]]].
  eexists. split; [reflexivity |]. split; [| split; [| split]].
  - destruct (parseCpuUnits_of_number d Hd) as [w [Hw [_ Hpos]]].
    exists (Some (UnitsNumber (o_cpu o))), w. cbn [cpu String_of_units].
    rewrite Ec. auto.
  - exists (o_memory o), v. auto.
  - discriminate.
  - intros g E. discriminate E.
Qed.

Lemma simple_manifest_ok : manifest_ok (simpleSDLObject o).
Proof.
  destruct Hok as [Himg [Hcpu [Hmem [Hrep Hmax]]]].
  unfold manifest_ok, sections_ok. split; [| split; [| split]].
  - left. reflexivity.
  - eexists. split; [reflexivity |]. split; [discriminate |].
    constructor; [| constructor]. cbn [snd]. apply simple_service_ok.
    cbn. now rewrite String.eqb_refl.
  - eexists. split; [reflexivity |]. split.
    + eexists. split; [reflexivity |]. split; [discriminate |].
      constructor; [| constructor]. cbn [snd]. apply simple_compute_ok.
      eexists. split; [reflexivity |]. cbn. now rewrite String.eqb_refl.
    + eexists. split; [reflexivity |]. split; [discriminate |].
      constructor; [| constructor]. cbn [snd]. eexists. split; [reflexivity |].
      split; [discriminate |]. constructor; [| constructor].
      cbn [snd]. split; cbn [pr_denom pr_amount].
      * exists "uakt". split; [reflexivity | discriminate].
      * destruct (o_maxPrice o) as [p |] eqn:E.
        -- exists p. split; [reflexivity | now apply Hmax].
        -- exists (num 100). split; reflexivity.
  - eexists. split; [reflexivity |]. split; [discriminate |].
    constructor; [| constructor]. split; cbn [fst snd].
    + eexists. split; [reflexivity |]. eexists. split; [reflexivity |].
      left. cbn. discriminate.
    + constructor; [| constructor]. split; [| split]; cbn [fst snd profile count].
      * eexists. split; [reflexivity |]. left. cbn. rewrite String.eqb_refl. discriminate.
      * eexists. split; [reflexivity |]. eexists. split; [reflexivity |].
        left. cbn. rewrite String.eqb_refl. discriminate.
      * destruct (o_replicas o) as [r |] eqn:E.
        -- exists r. split; [reflexivity | now apply Hrep].
        -- exists (num 1). split; reflexivity.
Qed.

Lemma simple_manifest_no_NaN : no_NaN (simpleSDLObject o).
Proof.
  destruct Hok as [Himg [Hcpu [Hmem [Hrep Hmax]]]].
  split; [| split].
  - intros p l E1 E2. cbn in E1. inversion E1; subst p. cbn in E2. inversion E2; subst l.
    constructor; [| constructor]. intros r g Er Eg. cbn in Er. inversion Er; subst r.
    discriminate Eg.
  - intros p l E1 E2. cbn in E1. inversion E1; subst p. cbn in E2. inversion E2; subst l.
    constructor; [| constructor]. intros l El. cbn in El. inversion El; subst l.
    constructor; [| constructor]. cbn [snd pr_amount].
    destruct (o_maxPrice o) as [p |] eqn:E; [| discriminate].
    intro F. inversion F; subst p. specialize (Hmax NaN eq_refl). discriminate Hmax.
  - intros d E. cbn in E. inversion E; subst d.
    constructor; [| constructor]. constructor; [| constructor]. cbn [snd count].
    destruct (o_replicas o) as [r |] eqn:Er; [| discriminate].
    intro F. inversion F; subst r. specialize (Hrep NaN eq_refl). discriminate Hrep.
Qed.

End Builder.

(** C10, as stated, fails: the options of the test suite with an empty
    image name meet every listed condition, the document is read back as
    it was written, and the validator rejects it. *)
Lemma C10_empty_image_is_rejected :
  options_listed (builder_options "") /\
  reads_back (builder_yaml "") (builder_options "") /\
  parseSDL (builder_yaml "") (createSimpleSDL (builder_yaml "") (builder_options ""))
  = Ok (simpleSDLObject (builder_options "")) /\
  validateSDL (simpleSDLObject (builder_options ""))
  = mkValidation false ["Service 'web': missing required field 'image'"].
Proof.
  split; [| repeat split; reflexivity].
  unfold options_listed. cbn [builder_options o_cpu o_memory o_storage o_replicas o_maxPrice].
  split; [reflexivity |]. split; [eexists; split; reflexivity |].
  split; [eexists; split; reflexivity |].
  split; intros x E; discriminate E.
Qed.

(** C10 (amended).  For options with a non-empty image, a finite cpu > 0,
    a memory size that parses to a positive number of bytes, replicas >= 1
    or omitted and maxPrice > 0 or omitted, and a YAML library that reads
    back the document it wrote, [parseSDL (createSimpleSDL options)]
    succeeds and [validateSDL] accepts the result with no errors. *)
Theorem C10_builder_round_trip : forall yaml o,
  reads_back yaml o -> options_ok o ->
  exists m, parseSDL yaml (createSimpleSDL yaml o) = Ok m /\
            validateSDL m = mkValidation true [].
Proof.
  intros yaml o Hrb Hok. exists (simpleSDLObject o). split.
  - unfold parseSDL, createSimpleSDL. unfold reads_back in Hrb. now rewrite Hrb.
  - unfold validateSDL.
    rewrite (proj2 (validateSDL_errors_nil _ (simple_manifest_no_NaN o Hok))
               (simple_manifest_ok o Hok)).
    reflexivity.
Qed.

Lemma C10_builder_round_trip_witness :
  reads_back (builder_yaml "nginx:latest") (builder_options "nginx:latest") /\
  options_ok (builder_options "nginx:latest") /\
  exists m,
    parseSDL (builder_yaml "nginx:latest")
      (createSimpleSDL (builder_yaml "nginx:latest") (builder_options "nginx:latest")) = Ok m /\
    validateSDL m = mkValidation true [].
Proof.
  assert (Hrb : reads_back (builder_yaml "nginx:latest") (builder_options "nginx:latest"))
    by reflexivity.
  assert (Hok : options_ok (builder_options "nginx:latest")).
  { unfold options_ok. cbn [builder_options o_image o_cpu o_memory o_replicas o_maxPrice].
    split; [discriminate |].
    split; [eexists; split; [reflexivity | cbn; lia] |].
    split; [eexists; split; reflexivity |].
    split; intros x E; discriminate E. }
  split; [exact Hrb |]. split; [exact Hok |].
  exact (C10_builder_round_trip _ _ Hrb Hok).
Defined.

Section Selection.

Variable options : CreateOptions.










Lemma eligible_incl : forall bids b, In b (eligibleBids options bids) -> In b bids.
Proof.
  intros bids b H. unfold eligibleBids in H.
  destruct (maxPrice options) as [mp |]; [| assumption].
  destruct (truthy_number mp && number_gt mp (num 0)); [| assumption].
  now apply filter_In in H.
Qed.


Lemma preferredBid_some : forall eligible b,
  preferredBid options eligible = Some b ->
  exists p, preferredProvider options = Some p /\ p <> "" /\
            In b eligible /\ bid_provider (bidId b) = p.
Proof.
  intros eligible b H. unfold preferredBid in H.
  destruct (preferredProvider options) as [p |]; [| discriminate].
  destruct (truthy_string p) eqn:Hp; [| discriminate].
  apply find_some in H as [Hin Hb]. apply String.eqb_eq in Hb.
  exists p. repeat split; auto. intro F. rewrite F in Hp. cbn in Hp. discriminate Hp.
Qed.

Lemma preferredBid_none : forall eligible p b,
  preferredBid options eligible = None ->
  preferredProvider options = Some p -> p <> "" ->
  In b eligible -> bid_provider (bidId b) <> p.
Proof.
  intros eligible p b H Hp Hne Hin F. unfold preferredBid in H. rewrite Hp in H.
  assert (Ht : truthy_string p = true) by (destruct p; [congruence | reflexivity]).
  rewrite Ht in H.
  apply (find_none _ _ H) in Hin. rewrite F, String.eqb_refl in Hin. discriminate.
Qed.

End Selection.

Section Polling.

Variable env : Env.
Variable client : CosmosClient.
Variable options : CreateOptions.
Variable dseq : string.
Variable owner : string.
Hypothesis Hwallet : getWalletAddress client = Ok owner.

Lemma poll_round_run : forall start st w,
  poll_round env client options dseq start st w
  = Some (world_after_round env owner dseq w,
          Ok (round_outcome options (clock (world_after_round env owner dseq w) - start) st
                (getBids_reply env (polls w)))).
Proof.
  intros start st w.
  unfold poll_round, bindM, next_poll, sleep, advance, try_catch, lift, getBids, log,
    bindM, lift, advance, world_after_round, round_outcome.
  cbn [clock polls calls]. rewrite Hwallet. cbn [clock polls calls].
  destruct (getBids_reply env (polls w)) as [bids | e]; [| reflexivity].
  destruct (0 <? List.length bids)%nat; [| reflexivity].
  destruct (preferredBid options (eligibleBids options bids)); [reflexivity |].
  destruct (eligibleBids options bids); [reflexivity |].
  unfold Date_now, ret. cbn [clock polls calls].
  destruct (_ >? 30000); reflexivity.
Qed.

Lemma preferred_bid_found : forall bids b,
  preferred_bid options bids b ->
  (0 <? List.length bids)%nat = true /\
  exists b', preferredBid options (eligibleBids options bids) = Some b' /\
             preferred_bid options bids b'.
Proof.
  intros bids b [p [Hp [Hne [Hin Hb]]]]. split.
  - apply eligible_incl in Hin. destruct bids; [destruct Hin | reflexivity].
  - destruct (preferredBid options (eligibleBids options bids)) as [b' |] eqn:E.
    + exists b'. split; [reflexivity |].
      destruct (preferredBid_some _ _ _ E) as [p' [Hp' [Hne' [Hin' Hb']]]].
      exists p'. auto.
    + exfalso. eapply preferredBid_none; eauto.
Qed.

(** What is known about the state and the world when the loop is left. *)
Lemma poll_loop_post : forall start W k0 fuel st w w' res,
  (k0 <= polls w)%nat ->
  chosen_in_rounds env options k0 (polls w) (bestBid st) ->
  (forall j bids b, (k0 <= j < polls w)%nat -> getBids_reply env j = Ok bids ->
                    ~ preferred_bid options bids b) ->
  poll_loop fuel env client options dseq start W st w = Some (w', res) ->
  exists st', res = Ok st' /\
    (polls w <= polls w')%nat /\
    chosen_in_rounds env options k0 (polls w') (bestBid st') /\
    preferred_wins env options k0 (polls w') (bestBid st') /\
    only_polls owner dseq (calls w) (calls w').
Proof.
  intros start W k0. induction fuel as [| fuel IH]; intros st w w' res Hk Hinv Hno H.
  - cbn [poll_loop] in H. unfold bindM, Date_now in H.
    destruct (number_lt (num (clock w - start)) W); [discriminate H |].
    unfold ret in H. inversion H; subst. exists st.
    split; [reflexivity |]. split; [lia |]. split; [exact Hinv |]. split.
    + intros j bids b Hj Hr Hp. now destruct (Hno j bids b Hj Hr).
    + exists 0%nat. reflexivity.
  - cbn [poll_loop] in H. unfold bindM at 1, Date_now in H.
    destruct (number_lt (num (clock w - start)) W).
    2:{ unfold ret in H. inversion H; subst. exists st.
        split; [reflexivity |]. split; [lia |]. split; [exact Hinv |]. split.
        - intros j bids b Hj Hr Hp. now destruct (Hno j bids b Hj Hr).
        - exists 0%nat. reflexivity. }
    unfold bindM in H. rewrite poll_round_run in H.
    set (w1 := world_after_round env owner dseq w) in *.
    assert (Hcalls : calls w1 = HttpGetBids owner dseq 1 1 :: calls w) by reflexivity.
    assert (Hpolls : polls w1 = S (polls w)) by reflexivity.
    destruct (round_outcome options (clock w1 - start) st (getBids_reply env (polls w)))
      as [stop st1] eqn:Eo.
    (* the round's choice *)
    assert (Hround :
      chosen_in_rounds env options k0 (polls w1) (bestBid st1) /\
      ((forall j bids b, (k0 <= j < polls w1)%nat -> getBids_reply env j = Ok bids ->
                         ~ preferred_bid options bids b)
       \/ (stop = true /\ preferred_wins env options k0 (polls w1) (bestBid st1)))).
    { rewrite Hpolls. unfold round_outcome in Eo.
      assert (Hkeep : chosen_in_rounds env options k0 (S (polls w)) (bestBid st)).
      { intros b Hb. destruct (Hinv b Hb) as [j [bids [Hj Hc]]].
        exists j, bids. split; [lia | exact Hc]. }
      destruct (getBids_reply env (polls w)) as [bids | e] eqn:Er.
      - destruct (0 <? List.length bids)%nat eqn:El.
        + destruct (preferredBid options (eligibleBids options bids)) as [p |] eqn:Ep.
          * inversion Eo; subst stop st1. cbn [bestBid]. split.
            -- intros b Hb. inversion Hb; subst b. exists (polls w), bids.
               split; [lia |]. split; [exact Er | now left].
            -- right. split; [reflexivity |]. intros j bids' b Hj Hr Hp.
               assert (j = polls w).
               { destruct (Nat.eq_dec j (polls w)) as [-> | Hneq]; [reflexivity |].
                 exfalso. apply (Hno j bids' b); [lia | assumption | assumption]. }
               subst j. rewrite Er in Hr. inversion Hr; subst bids'.
               split; [reflexivity |]. split; [now rewrite Ep |].
               destruct (preferred_bid_found bids b Hp) as [_ [b' [Eb' Hb']]].
               rewrite Ep in Eb'. inversion Eb'; subst b'. eauto.
          * assert (Hnone : forall j bids0 b, (k0 <= j < S (polls w))%nat ->
                      getBids_reply env j = Ok bids0 -> ~ preferred_bid options bids0 b).
            { intros j bids0 b Hj Hr Hp.
              destruct (Nat.eq_dec j (polls w)) as [-> | Hneq].
              - rewrite Er in Hr. inversion Hr; subst bids0.
                destruct (preferred_bid_found bids b Hp) as [_ [b' [Eb' _]]]. congruence.
              - apply (Hno j bids0 b); [lia | assumption | assumption]. }
            destruct (eligibleBids options bids) as [| first rest] eqn:Ee.
            -- inversion Eo; subst stop st1. cbn [bestBid]. auto.
            -- inversion Eo; subst st1. cbn [bestBid]. split; [| now left].
               intros b Hb. inversion Hb; subst b. exists (polls w), bids.
               split; [lia |]. split; [exact Er |]. right. rewrite Ee.
               split; [exact Ep |]. exists first, rest. auto.
        + inversion Eo; subst stop st1. cbn [bestBid]. split; [exact Hkeep |]. left.
          intros j bids0 b Hj Hr Hp.
          destruct (Nat.eq_dec j (polls w)) as [-> | Hneq].
          * rewrite Er in Hr. inversion Hr; subst bids0.
            destruct (preferred_bid_found bids b Hp) as [F _]. congruence.
          * apply (Hno j bids0 b); [lia | assumption | assumption].
      - inversion Eo; subst stop st1. split; [exact Hkeep |]. left.
        intros j bids0 b Hj Hr Hp.
        destruct (Nat.eq_dec j (polls w)) as [-> | Hneq]; [congruence |].
        apply (Hno j bids0 b); [lia | assumption | assumption]. }
    destruct Hround as [Hinv1 Hpref].
    destruct stop.
    + unfold ret in H. inversion H; subst w' res. exists st1.
      split; [reflexivity |]. split; [lia |]. split; [exact Hinv1 |]. split.
      * destruct Hpref as [Hno1 | [_ Hw]]; [| exact Hw].
        intros j bids b Hj Hr Hp. now destruct (Hno1 j bids b Hj Hr).
      * exists 1%nat. exact Hcalls.
    + destruct Hpref as [Hno1 | [F _]]; [| discriminate F].
      destruct (IH st1 w1 w' res ltac:(lia) Hinv1 Hno1 H)
        as [st' [E [Hp' [Hc' [Hw' [n Hn]]]]]].
      exists st'. split; [exact E |]. split; [lia |]. split; [exact Hc' |].
      split; [exact Hw' |].
      exists (S n). rewrite Hn, Hcalls. cbn [repeat].
      rewrite <- app_comm_cons. f_equal.
      change (HttpGetBids owner dseq 1 1 :: calls w)
        with ([HttpGetBids owner dseq 1 1] ++ calls w)%list.
      rewrite app_assoc. f_equal.
      change [HttpGetBids owner dseq 1 1] with (repeat (HttpGetBids owner dseq 1 1) 1).
      rewrite <- repeat_app. rewrite Nat.add_1_r. reflexivity.
Qed.

End Polling.

Section Bound.

Variable env : Env.
Variable client : CosmosClient.
Variable options : CreateOptions.
Variable dseq : string.

(** Every round ends, counts as one poll, and takes at least the poll
    interval. *)
Lemma poll_round_total : forall start st w,
  exists w1 stop st1,
    poll_round env client options dseq start st w = Some (w1, Ok (stop, st1)) /\
    polls w1 = S (polls w) /\
    clock w + POLLING_INTERVALS_bidPolling <= clock w1.
Proof.
  intros start st w.
  destruct (getWalletAddress client) as [owner | e] eqn:Hw.
  - rewrite (poll_round_run env client options dseq owner Hw).
    destruct (round_outcome options _ st (getBids_reply env (polls w))) as [stop st1].
    eexists. exists stop, st1. split; [reflexivity |]. split; [reflexivity |].
    unfold world_after_round. cbn [clock]. lia.
  - unfold poll_round, bindM, next_poll, sleep, advance, try_catch, lift.
    cbn [clock polls calls]. rewrite Hw. unfold ret.
    eexists. exists false, st. split; [reflexivity |]. split; [reflexivity |].
    cbn [clock]. lia.
Qed.

Variable dW : dec.

Lemma wait_test : forall e,
  number_lt (num e) (Fin dW) = true <-> e * pow10 (dscale dW) < dmant dW.
Proof.
  intro e. unfold number_lt, num, dec_of_Z. cbn [number_compare]. unfold dec_compare.
  cbn [dmant dscale]. change (pow10 0) with 1. rewrite Z.mul_1_r.
  destruct (e * pow10 (dscale dW) ?= dmant dW) eqn:E.
  - apply Z.compare_eq in E. split; [discriminate | lia].
  - change (e * pow10 (dscale dW) < dmant dW) in E. tauto.
  - apply Z.compare_gt_iff in E. split; [discriminate | lia].
Qed.

(** While the wait has not run out after [j] rounds, [j] is below the
    bound. *)
Lemma below_bound : forall e j,
  0 <= j -> 3000 * j <= e -> number_lt (num e) (Fin dW) = true ->
  j + 1 <= Qceiling (dec_to_Q dW / 3000).
Proof.
  intros e j Hj He Hlt. apply wait_test in Hlt.
  pose proof (pow10_pos (dscale dW)) as Hp.
  assert (Hq : (inject_Z j < dec_to_Q dW / 3000)%Q).
  { unfold dec_to_Q. apply Qlt_shift_div_l; [reflexivity |].
    apply Qlt_shift_div_l; [unfold Qlt; cbn; lia |].
    unfold Qlt, Qmult, inject_Z. cbn. nia. }
  assert (Hc : (inject_Z j < inject_Z (Qceiling (dec_to_Q dW / 3000)))%Q).
  { eapply Qlt_le_trans; [exact Hq | apply Qle_ceiling]. }
  rewrite <- Zlt_Qlt in Hc. lia.
Qed.

Lemma poll_loop_bound : forall start fuel st w j,
  0 <= j -> 3000 * j <= clock w - start ->
  Qceiling (dec_to_Q dW / 3000) <= Z.of_nat fuel + j ->
  exists w' st' rounds,
    poll_loop fuel env client options dseq start (Fin dW) st w = Some (w', Ok st') /\
    polls w' = (polls w + rounds)%nat /\
    (rounds = 0%nat \/ j + Z.of_nat rounds <= Qceiling (dec_to_Q dW / 3000)).
Proof.
  intros start. induction fuel as [| fuel IH]; intros st w j Hj He Hf.
  - cbn [poll_loop]. unfold bindM, Date_now.
    destruct (number_lt (num (clock w - start)) (Fin dW)) eqn:Ec.
    + pose proof (below_bound _ _ Hj He Ec). lia.
    + exists w, st, 0%nat. split; [reflexivity |]. split; [lia | now left].
  - cbn [poll_loop]. unfold bindM at 1, Date_now.
    destruct (number_lt (num (clock w - start)) (Fin dW)) eqn:Ec.
    2:{ exists w, st, 0%nat. split; [reflexivity |]. split; [lia | now left]. }
    pose proof (below_bound _ _ Hj He Ec) as Hb.
    destruct (poll_round_total start st w) as [w1 [stop [st1 [Er [Hp Hc]]]]].
    unfold bindM. rewrite Er. unfold POLLING_INTERVALS_bidPolling in Hc.
    destruct stop.
    + exists w1, st1, 1%nat. split; [reflexivity |]. split; [lia | right; lia].
    + destruct (IH st1 w1 (j + 1) ltac:(lia) ltac:(lia) ltac:(lia))
        as [w' [st' [r [E [Hr Hd]]]]].
      exists w', st', (S r). split; [exact E |]. split; [lia |]. right.
      destruct Hd as [-> | Hd]; lia.
Qed.

End Bound.

Lemma bidWaitTime_ms_value : forall options secs,
  configured_wait options secs ->
  exists dW, bidWaitTime_ms options = Fin dW /\ dec_to_Q dW == secs * 1000.
Proof.
  intros options secs [[E Hs] | [d [E [Hs [Hlo Hhi]]]]]; unfold bidWaitTime_ms; rewrite E.
  - eexists. split; [reflexivity |]. rewrite Hs. reflexivity.
  - assert (Hz : dec_is_zero d = false).
    { unfold dec_is_zero. apply Z.eqb_neq. intro F.
      rewrite Hs in Hlo. unfold dec_to_Q in Hlo. rewrite F in Hlo.
      unfold Qle, Qdiv, Qmult in Hlo. cbn in Hlo. lia. }
    cbn [truthy_number]. rewrite Hz. cbn [negb number_mul num].
    eexists. split; [reflexivity |].
    rewrite dec_to_Q_mul, dec_to_Q_of_Z, Hs. reflexivity.
Qed.

(** C5.  For a configured wait of 30 to 600 seconds (120 when none is
    given), the polling loop ends after at most ceil(wait * 1000 / 3000)
    rounds: with that much fuel it returns, and the number of rounds it
    made, each of at least 3000 ms, is within the bound. *)
Theorem C5_polling_is_bounded : forall env client options dseq secs w fuel,
  configured_wait options secs ->
  max_rounds secs <= Z.of_nat fuel ->
  exists w' st rounds,
    poll_bids fuel env client options dseq w = Some (w', Ok st) /\
    polls w' = (polls w + rounds)%nat /\
    Z.of_nat rounds <= max_rounds secs.
Proof.
  intros env client options dseq secs w fuel Hc Hf.
  destruct (bidWaitTime_ms_value options secs Hc) as [dW [EW Hv]].
  assert (Hb : Qceiling (dec_to_Q dW / 3000) = max_rounds secs).
  { unfold max_rounds. apply Qceiling_comp. now rewrite Hv. }
  unfold poll_bids, bindM, Date_now. rewrite EW.
  destruct (poll_loop_bound env client options dseq dW (clock w) fuel (mkPoll None []) w 0
              ltac:(lia) ltac:(lia) ltac:(lia)) as [w' [st' [r [E [Hr Hd]]]]].
  exists w', st', r. split; [exact E |]. split; [exact Hr |].
  rewrite <- Hb. destruct Hd as [-> | Hd]; [| lia].
  cbn. rewrite Hb. unfold max_rounds.
  assert (H0 : (inject_Z 0 <= secs * 1000 / 3000)%Q).
  { apply Qle_shift_div_l; [reflexivity |]. rewrite Qmult_0_l.
    apply Qmult_le_0_compat; [| discriminate].
    destruct Hc as [[_ Hs] | [d [_ [_ [Hlo _]]]]].
    - rewrite Hs. discriminate.
    - eapply Qle_trans; [| exact Hlo]. discriminate. }
  assert (H1 : (inject_Z 0 <= inject_Z (Qceiling (secs * 1000 / 3000)))%Q).
  { eapply Qle_trans; [exact H0 | apply Qle_ceiling]. }
  now rewrite <- Zle_Qle in H1.
Qed.

Lemma C5_polling_is_bounded_witness :
  configured_wait options0 120 /\
  max_rounds 120 <= Z.of_nat 40 /\
  exists w' st rounds,
    poll_bids 40 (env_with valid_sdl (fun _ => Ok [])) signer options0 "100" world0
    = Some (w', Ok st) /\
    polls w' = (polls world0 + rounds)%nat /\
    Z.of_nat rounds <= max_rounds 120.
Proof.
  assert (Hc : configured_wait options0 120) by (left; split; reflexivity).
  assert (Hf : max_rounds 120 <= Z.of_nat 40) by (vm_compute; discriminate).
  split; [exact Hc |]. split; [exact Hf |].
  exact (C5_polling_is_bounded _ signer options0 "100" 120 world0 40%nat Hc Hf).
Defined.

Section ManifestAfterGroups.

Variable sdl : ISDLManifest.






End ManifestAfterGroups.

Section Runs.

Context {A B : Type}.

Lemma bindM_run : forall (c : M A) (k : A -> M B) w w' res,
  bindM c k w = Some (w', res) ->
  (exists w1 a, c w = Some (w1, Ok a) /\ k a w1 = Some (w', res)) \/
  (exists e, c w = Some (w', Throw e) /\ res = Throw e).
Proof.
  intros c k w w' res H. unfold bindM in H.
  destruct (c w) as [[w1 [a | e]] |] eqn:R; [| | discriminate H].
  - left. eauto.
  - right. inversion H; subst. eauto.
Qed.

Lemma lift_run : forall (r : result A) w w' res,
  lift r w = Some (w', res) -> w' = w /\ res = r.
Proof. intros r w w' res H. inversion H. auto. Qed.

Lemma ret_run : forall (a : A) w w' res,
  ret a w = Some (w', res) -> w' = w /\ res = Ok a.
Proof. intros a w w' res H. inversion H. auto. Qed.

End Runs.

(** Split a run of [x <-- c ;; k] into the run of [c] and the rest. *)
Ltac run_step H :=
  let w1 := fresh "w" in
  let a := fresh "a" in
  let e := fresh "e" in
  let R := fresh "R" in
  apply bindM_run in H;
  destruct H as [[w1 [a [R H]]] | [e [R H]]].

Ltac run_lift R :=
  apply lift_run in R; let E := fresh "E" in destruct R as [-> E]; symmetry in E.

Section Propagation.

Variable env : Env.

Lemma propagated_refl : forall A before (res : result A), propagated env before before res.
Proof. intros A before res. exists []. split; [reflexivity | intros c e []]. Qed.

Lemma propagated_trans : forall A B c0 c1 c2 (a : A) (res : result B),
  propagated env c0 c1 (Ok a) -> propagated env c1 c2 res -> propagated env c0 c2 res.
Proof.
  intros A B c0 c1 c2 a res [n1 [E1 H1]] [n2 [E2 H2]].
  exists (n2 ++ n1)%list. split.
  - rewrite E2, E1. apply app_assoc.
  - intros c e Hin Hf. apply in_app_or in Hin. destruct Hin as [Hin | Hin].
    + eauto.
    + specialize (H1 c e Hin Hf). discriminate H1.
Qed.

Lemma propagated_throw : forall A B before after e,
  propagated (A := A) env before after (Throw e) ->
  propagated (A := B) env before after (Throw e).
Proof.
  intros A B before after e [n [E H]]. exists n. split; [exact E |].
  intros c e' Hin Hf. specialize (H c e' Hin Hf). inversion H. reflexivity.
Qed.

Lemma propagated_call : forall A before c (res : result A),
  (forall e, failed env c e -> res = Throw e) -> propagated env before (c :: before) res.
Proof.
  intros A before c res H. exists [c]. split; [reflexivity |].
  intros c' e [<- | []] Hf. auto.
Qed.

Lemma propagated_polls : forall A owner dseq before after (res : result A),
  only_polls owner dseq before after -> propagated env before after res.
Proof.
  intros A owner dseq before after res [n E].
  exists (repeat (HttpGetBids owner dseq 1 1) n). split; [exact E |].
  intros c e Hin Hf. apply repeat_spec in Hin. subst c. destruct Hf.
Qed.

(** A run of [x <-- c ;; k] propagates when both parts do. *)
Lemma bindM_propagated : forall A B (c : M A) (k : A -> M B) w w' res,
  (forall w1 r, c w = Some (w1, r) -> propagated env (calls w) (calls w1) r) ->
  (forall w1 a, c w = Some (w1, Ok a) -> k a w1 = Some (w', res) ->
                propagated env (calls w1) (calls w') res) ->
  bindM c k w = Some (w', res) -> propagated env (calls w) (calls w') res.
Proof.
  intros A B c k w w' res Hc Hk H. run_step H.
  - eapply propagated_trans; eauto.
  - subst res. eapply propagated_throw. eauto.
Qed.

Lemma lift_propagated : forall A (r : result A) w w' res,
  lift r w = Some (w', res) -> propagated env (calls w) (calls w') res.
Proof. intros A r w w' res H. apply lift_run in H. destruct H as [-> _]. apply propagated_refl. Qed.

Lemma broadcast_run : forall m w,
  broadcast env m w
  = Some (mkWorld (clock w) (polls w) (SignAndBroadcast m :: calls w), signAndBroadcast env m).
Proof. reflexivity. Qed.

Lemma broadcast_propagated : forall m w w' res,
  broadcast env m w = Some (w', res) -> propagated env (calls w) (calls w') res.
Proof.
  intros m w w' res H. rewrite broadcast_run in H. inversion H; subst. cbn [calls].
  apply propagated_call. intros e Hf. exact Hf.
Qed.

End Propagation.

(** Propagation for a computation whose calls are written out. *)
Ltac known_calls :=
  match goal with
  | |- propagated _ ?b ?b _ => apply propagated_refl
  | |- propagated _ ?b (?c :: ?b) _ => exists [c]
  | |- propagated _ ?b (?c1 :: ?c2 :: ?b) _ => exists [c1; c2]
  | |- propagated _ ?b (?c1 :: ?c2 :: ?c3 :: ?b) _ => exists [c1; c2; c3]
  end;
  (split;
   [reflexivity
   | let c := fresh "c" in
     let e := fresh "e" in
     let Hin := fresh "Hin" in
     let Hf := fresh "Hf" in
     intros c e Hin Hf; cbn [In] in Hin;
     repeat match goal with
            | H : _ \/ _ |- _ => destruct H
            | H : False |- _ => destruct H
            end;
     subst c; cbn [failed] in Hf; try contradiction; congruence]).

Section Execute.

Variable env : Env.

Lemma signing_wallet : forall client owner,
  require_signing client = Ok owner -> getWalletAddress client = Ok owner.
Proof.
  intros client owner H. unfold require_signing in H. unfold getWalletAddress.
  destruct (signingClient client); [| discriminate H].
  destruct (walletAddress client) as [a |]; [| discriminate H].
  destruct (truthy_string a); [exact H | discriminate H].
Qed.

Lemma signing_client : forall client owner,
  require_signing client = Ok owner -> signingClient client = true.
Proof.
  intros client owner H. unfold require_signing in H.
  destruct (signingClient client); [reflexivity | discriminate H].
Qed.

Lemma createCosmosClient_run : forall w w' res,
  createCosmosClient env w = Some (w', res) ->
  clock w' = clock w /\ polls w' = polls w /\
  propagated env (calls w) (calls w') res /\
  forall client, res = Ok client ->
    (signing_client_of env client /\
     calls w' = ConnectTendermint :: ConnectWithSigner :: calls w) \/
    (credentials env = Ok None /\ client = mkClient None false /\
     calls w' = ConnectTendermint :: calls w).
Proof.
  intros w w' res H.
  unfold createCosmosClient, initialize, bindM, lift, log, ret in H.
  cbv beta iota in H.
  destruct (credentials env) as [[address |] | e] eqn:E1.
  - cbv beta iota in H. cbn [clock polls calls] in H.
    destruct (connectWithSigner env) as [[] | e] eqn:E2;
      [| inversion H; subst; cbn [clock polls calls]; repeat split;
         [known_calls | discriminate]].
    cbv beta iota in H. cbn [clock polls calls] in H.
    destruct (tendermint env) as [[] | e] eqn:E3;
      inversion H; subst; cbn [clock polls calls];
      (split; [reflexivity |]); (split; [reflexivity |]); (split; [known_calls |]);
      [| discriminate].
    intros client Hc. inversion Hc; subst client. left.
    unfold signing_client_of. cbn [walletAddress signingClient]. auto.
  - cbv beta iota in H. cbn [clock polls calls] in H.
    destruct (tendermint env) as [[] | e] eqn:E3;
      inversion H; subst; cbn [clock polls calls];
      (split; [reflexivity |]); (split; [reflexivity |]); (split; [known_calls |]);
      [| discriminate].
    intros client Hc. inversion Hc; subst client. right. auto.
  - inversion H; subst. repeat split; [apply propagated_refl | discriminate].
Qed.

Lemma createDeployment_run : forall client sdl dep w w' res,
  createDeployment env client sdl dep w = Some (w', res) ->
  clock w' = clock w /\ polls w' = polls w /\
  propagated env (calls w) (calls w') res /\
  forall tx dseq, res = Ok (tx, dseq) ->
    exists owner parsed groups h coin,
      require_signing client = Ok owner /\
      parseSDL (yaml env) sdl = Ok parsed /\
      sdlToGroups parsed = Ok groups /\
      getHeight env = Ok h /\ dseq = Z_to_string h /\
      createAktCoin (AString dep) = Ok coin /\
      signAndBroadcast env (deployment_message env parsed owner h groups coin) = Ok tx /\
      calls w' = SignAndBroadcast (deployment_message env parsed owner h groups coin)
                 :: GetHeight :: ConnectQuery :: calls w.
Proof.
  intros client sdl dep w w' res H.
  unfold createDeployment, getQueryClient, broadcast, bindM, lift, log, ret in H.
  cbv beta iota in H. cbn [clock polls calls] in H.
  destruct (require_signing client) as [owner | e] eqn:E1;
    [| inversion H; subst; repeat split; [apply propagated_refl | discriminate]].
  destruct (parseSDL (yaml env) sdl) as [parsed | e] eqn:E2;
    [| inversion H; subst; repeat split; [apply propagated_refl | discriminate]].
  destruct (sdlToGroups parsed) as [groups | e] eqn:E3;
    [| inversion H; subst; repeat split; [apply propagated_refl | discriminate]].
  destruct (connect env) as [u | e] eqn:E0;
    [| inversion H; subst; cbn [clock polls calls]; repeat split;
       [known_calls | discriminate]].
  destruct (getHeight env) as [h | e] eqn:E4;
    [| inversion H; subst; cbn [clock polls calls]; repeat split;
       [known_calls | discriminate]].
  destruct (createAktCoin (AString dep)) as [coin | e] eqn:E5;
    [| inversion H; subst; cbn [clock polls calls]; repeat split;
       [known_calls | discriminate]].
  destruct (signAndBroadcast env _) as [tx | e] eqn:E6;
    inversion H; subst; cbn [clock polls calls];
    (split; [reflexivity |]); (split; [reflexivity |]); (split; [known_calls |]);
    [| discriminate].
  intros tx' dseq Hr. inversion Hr; subst.
  exists owner, parsed, groups, h, coin. unfold deployment_message.
  repeat split; assumption.
Qed.

Lemma accept_bid_run : forall client options parsed dseq response best w w' res,
  accept_bid env client options parsed dseq response best w = Some (w', res) ->
  propagated env (calls w) (calls w') res /\
  forall r, res = Ok r ->
    match best with
    | None =>
        w' = w /\
        r = set_message (set_lease response None)
              "No suitable bids received within the wait time"
    | Some b =>
        exists owner tx,
          require_signing client = Ok owner /\
          signAndBroadcast env (lease_message owner dseq b) = Ok tx /\
          let leased := set_lease response (Some (lease_info b tx)) in
          let sent := SignAndBroadcast (lease_message owner dseq b) :: calls w in
          if negb (is_false (opt_sendManifest options)) && (code tx =? 0) then
            match sdlToManifest parsed with
            | Ok manifest =>
                calls w'
                = HttpSendManifest owner dseq (bid_provider (bidId b)) manifest :: sent /\
                r = match sendManifest_reply env owner dseq (bid_provider (bidId b)) manifest
                    with
                    | Ok _ => set_manifestSent leased true
                    | Throw e => set_manifestError (set_manifestSent leased false) (message e)
                    end
            | Throw e =>
                calls w' = sent /\
                r = set_manifestError (set_manifestSent leased false) (message e)
            end
          else calls w' = sent /\ r = leased
    end.
Proof.
  intros client options parsed dseq response [b |] w w' res H.
  - unfold accept_bid, createLease, broadcast, sendManifest, try_catch, bindM, lift, log, ret
      in H.
    cbv beta iota in H. cbn [clock polls calls] in H.
    destruct (require_signing client) as [owner | e] eqn:E1;
      [| inversion H; subst; split; [apply propagated_refl | discriminate]].
    rewrite (signing_wallet _ _ E1) in H.
    fold (lease_message owner dseq b) in H.
    destruct (signAndBroadcast env (lease_message owner dseq b)) as [tx | e] eqn:E2;
      [| inversion H; subst; cbn [calls]; split; [known_calls | discriminate]].
    fold (lease_info b tx) in H.
    assert (Hres : exists r, res = Ok r).
    { destruct (negb (is_false (opt_sendManifest options)) && (code tx =? 0));
        cbv beta iota in H; cbn [clock polls calls] in H;
        [destruct (sdlToManifest parsed) as [manifest | e];
           [destruct (sendManifest_reply env owner dseq _ manifest) |] |];
        inversion H; eauto. }
    split.
    + destruct Hres as [r ->].
      destruct (negb (is_false (opt_sendManifest options)) && (code tx =? 0));
        cbv beta iota in H; cbn [clock polls calls] in H;
        [destruct (sdlToManifest parsed) as [manifest | e];
           [destruct (sendManifest_reply env owner dseq _ manifest) |] |];
        inversion H; subst; cbn [calls]; known_calls.
    + intros r Hr. subst res. exists owner, tx.
      split; [reflexivity |]. split; [exact E2 |]. cbv zeta.
      destruct (negb (is_false (opt_sendManifest options)) && (code tx =? 0));
        cbv beta iota in H; cbn [clock polls calls] in H;
        [destruct (sdlToManifest parsed) as [manifest | e];
           [destruct (sendManifest_reply env owner dseq _ manifest) |] |];
        inversion H; subst; cbn [calls]; split; reflexivity.
  - apply ret_run in H. destruct H as [-> ->]. split; [apply propagated_refl |].
    intros r Hr. inversion Hr. auto.
Qed.

Lemma disconnect_run : forall client w w' res,
  signingClient client = true ->
  disconnect env client w = Some (w', res) ->
  w' = mkWorld (clock w) (polls w) (Disconnect :: calls w) /\ res = disconnect_reply env.
Proof.
  intros client w w' res Hs H. unfold disconnect in H. rewrite Hs in H.
  inversion H. auto.
Qed.

Lemma poll_bids_run : forall client owner options dseq fuel w w' res,
  getWalletAddress client = Ok owner ->
  poll_bids fuel env client options dseq w = Some (w', res) ->
  exists st, res = Ok st /\ (polls w <= polls w')%nat /\
    chosen_in_rounds env options (polls w) (polls w') (bestBid st) /\
    preferred_wins env options (polls w) (polls w') (bestBid st) /\
    only_polls owner dseq (calls w) (calls w').
Proof.
  intros client owner options dseq fuel w w' res Hw H.
  unfold poll_bids, bindM, Date_now in H.
  eapply (poll_loop_post env client options dseq owner Hw) with (k0 := polls w) in H.
  - exact H.
  - lia.
  - intros b Hb. discriminate Hb.
  - intros j bids b Hj. lia.
Qed.

(** The branch taken when bids are accepted automatically: polling, then
    the lease. *)
Lemma bidding_run : forall client owner options parsed dseq response fuel w w' res,
  getWalletAddress client = Ok owner ->
  bindM (poll_bids fuel env client options dseq)
    (fun st =>
       accept_bid env client options parsed dseq
         (set_bidsReceived response (List.length (bids st))) (bestBid st)) w
  = Some (w', res) ->
  propagated env (calls w) (calls w') res /\
  exists w1 st,
    poll_bids fuel env client options dseq w = Some (w1, Ok st) /\
    accept_bid env client options parsed dseq
      (set_bidsReceived response (List.length (bids st))) (bestBid st) w1 = Some (w', res).
Proof.
  intros client owner options parsed dseq response fuel w w' res Hw H.
  run_step H.
  - destruct (poll_bids_run _ _ _ _ _ _ _ _ Hw R) as [st [Hst [_ [_ [_ Hp]]]]].
    inversion Hst; subst a. split.
    + eapply propagated_trans.
      * eapply propagated_polls with (res := Ok st). exact Hp.
      * eapply accept_bid_run. exact H.
    + eauto.
  - destruct (poll_bids_run _ _ _ _ _ _ _ _ Hw R) as [st [Hst _]]. discriminate Hst.
Qed.

(** Every error of making the client, of the query connection, of
    [getHeight], [signAndBroadcast] and [disconnect] ends the handler. *)
Lemma execute_propagated : forall fuel sdl deposit options w w' res,
  execute fuel env sdl deposit options w = Some (w', res) ->
  propagated env (calls w) (calls w') res.
Proof.
  intros fuel sdl deposit options w w' res H. unfold execute in H.
  run_step H; [run_lift R | apply lift_run in R; destruct R as [-> _]; apply propagated_refl].
  destruct (negb (valid (validateSDL a))).
  { inversion H. apply propagated_refl. }
  destruct (is_true (validateOnly options)).
  { repeat (run_step H;
            [run_lift R | apply lift_run in R; destruct R as [-> _]; apply propagated_refl]).
    apply ret_run in H. destruct H as [-> _]. apply propagated_refl. }
  run_step H;
    [| subst res; eapply propagated_throw;
       exact (proj1 (proj2 (proj2 (createCosmosClient_run _ _ _ R))))].
  eapply propagated_trans;
    [exact (proj1 (proj2 (proj2 (createCosmosClient_run _ _ _ R)))) |].
  clear R. rename w into w_start. rename w0 into w.
  run_step H; [run_lift R | apply lift_run in R; destruct R as [-> _]; apply propagated_refl].
  run_step H;
    [| subst res; destruct (createDeployment_run _ _ _ _ _ _ R) as (_ & _ & Hp & _);
       eapply propagated_throw; exact Hp].
  destruct a2 as [tx dseq].
  destruct (createDeployment_run _ _ _ _ _ _ R) as (_ & _ & Hp & Hok).
  destruct (Hok _ _ eq_refl) as (owner & parsed & groups & h & coin & Hsig & _).
  eapply propagated_trans; [exact Hp |]. clear Hp Hok R.
  run_step H; [run_lift R | apply lift_run in R; destruct R as [-> _]; apply propagated_refl].
  assert (Hb : forall w1 r,
             (if negb (is_false (autoAcceptBid options))
              then
                bindM (poll_bids fuel env a0 options dseq)
                  (fun st =>
                     accept_bid env a0 options a dseq
                       (set_bidsReceived
                          (mkResponse (code tx =? 0) (transactionHash tx) dseq a2
                             (number_to_string deposit ++ " AKT") (height tx) (gasUsed tx)
                             None None None None None)
                          (List.length (bids st)))
                       (bestBid st))
              else
                ret (mkResponse (code tx =? 0) (transactionHash tx) dseq a2
                       (number_to_string deposit ++ " AKT") (height tx) (gasUsed tx)
                       None None None None None)) w0 = Some (w1, r) ->
             propagated env (calls w0) (calls w1) r).
  { intros w1 r Hr. destruct (negb (is_false (autoAcceptBid options))).
    - eapply bidding_run; eauto.
    - apply ret_run in Hr. destruct Hr as [-> _]. apply propagated_refl. }
  run_step H; [| subst res; eapply propagated_throw; eapply Hb; exact R].
  eapply propagated_trans; [eapply Hb; exact R |]. clear Hb R.
  pose proof (signing_client _ _ Hsig) as Hs.
  run_step H.
  - destruct (disconnect_run _ _ _ _ Hs R) as [-> Hd].
    apply ret_run in H. destruct H as [-> ->]. cbn [calls]. known_calls.
  - destruct (disconnect_run _ _ _ _ Hs R) as [-> Hd]. subst res. cbn [calls]. known_calls.
Qed.

(** The steps of a run of the handler that returns a response. *)
Lemma execute_created : forall fuel sdl deposit options w w' r,
  execute fuel env sdl deposit options w = Some (w', Ok (Created r)) ->
  exists parsed client owner groups h coin tx,
    parseSDL (yaml env) sdl = Ok parsed /\
    signing_client_of env client /\
    require_signing client = Ok owner /\
    sdlToGroups parsed = Ok groups /\
    getHeight env = Ok h /\
    signAndBroadcast env (deployment_message env parsed owner h groups coin) = Ok tx /\
    exists w2,
      (if negb (is_false (autoAcceptBid options)) then
         exists w1 st,
           poll_bids fuel env client options (Z_to_string h)
             (world_deployed w (deployment_message env parsed owner h groups coin)) = Some (w1, Ok st) /\
           accept_bid env client options parsed (Z_to_string h)
             (set_bidsReceived (first_response tx owner h deposit) (List.length (bids st)))
             (bestBid st) w1 = Some (w2, Ok r)
       else
         w2 = world_deployed w (deployment_message env parsed owner h groups coin) /\
         r = first_response tx owner h deposit) /\
      w' = mkWorld (clock w2) (polls w2) (Disconnect :: calls w2).
Proof.
  intros fuel sdl deposit options w w' r H. unfold execute in H.
  run_step H; [run_lift R | discriminate H].
  destruct (negb (valid (validateSDL a))); [discriminate H |].
  destruct (is_true (validateOnly options)).
  { repeat (run_step H; [run_lift R | discriminate H]).
    apply ret_run in H. destruct H as [_ H]. discriminate H. }
  run_step H; [| discriminate H].
  destruct (createCosmosClient_run _ _ _ R) as (Hcl0 & Hpo0 & _ & E0).
  specialize (E0 _ eq_refl). clear R.
  run_step H; [run_lift R | discriminate H].
  run_step H; [| discriminate H].
  destruct a2 as [tx dseq].
  destruct (createDeployment_run _ _ _ _ _ _ R) as (Hc & Hp & _ & Hok).
  destruct (Hok _ _ eq_refl)
    as (owner & parsed & groups & h & coin & Hsig & Hparse & Hg & Hh & Hd & _ & Htx & Hcalls).
  rewrite E in Hparse. inversion Hparse; subst parsed dseq. clear Hparse Hok R.
  destruct E0 as [[Hsc Hc0] | (_ & Hnone & _)];
    [| subst a0; apply signing_client in Hsig; discriminate Hsig].
  assert (Hw0 : w1 = world_deployed w (deployment_message env a owner h groups coin)).
  { destruct w1 as [c1 p1 l1]. cbn [clock polls calls] in *. unfold world_deployed.
    rewrite Hc, Hp, Hcalls, Hcl0, Hpo0, Hc0. reflexivity. }
  subst w1. clear Hc Hp Hcalls Hcl0 Hpo0 Hc0. clear w0.
  run_step H; [run_lift R | discriminate H].
  match goal with
  | G : getWalletAddress a0 = Ok _ |- _ =>
      rewrite (signing_wallet _ _ Hsig) in G; inversion G; subst a2; clear G
  end.
  exists a, a0, owner, groups, h, coin, tx.
  repeat (split; [assumption |]).
  run_step H; [| discriminate H].
  run_step H; [| discriminate H].
  destruct (disconnect_run _ _ _ _ (signing_client _ _ Hsig) R0) as [-> _].
  apply ret_run in H. destruct H as [-> H]. inversion H; subst a2. clear H.
  exists w0. split; [| reflexivity].
  fold (first_response tx owner h deposit) in R.
  destruct (negb (is_false (autoAcceptBid options))).
  - eapply bidding_run; [apply signing_wallet; exact Hsig | exact R].
  - apply ret_run in R. destruct R as [-> R]. inversion R. auto.
Qed.

End Execute.

Section Lease.

Variable env : Env.

Lemma auto_accept : forall options,
  autoAcceptBid options <> Some false -> negb (is_false (autoAcceptBid options)) = true.
Proof.
  intros options H. destruct (autoAcceptBid options) as [[|] |]; try reflexivity.
  exfalso. apply H. reflexivity.
Qed.


Lemma trace_calls : forall w c, In c (trace w) <-> In c (calls w).
Proof. intros w c. unfold trace. symmetry. apply in_rev. Qed.


End Lease.





Lemma accepted_lease : forall env client options parsed dseq response best w w' r l,
  accept_bid env client options parsed dseq response best w = Some (w', Ok r) ->
  lease r = Some (Some l) -> exists b, best = Some b /\ lease_of_bid l b.
Proof.
  intros env client options parsed dseq response best w w' r l H Hl.
  destruct best as [b |].
  - exists b. split; [reflexivity |].
    destruct (accept_bid_run _ _ _ _ _ _ _ _ _ _ H) as [_ Hr]. specialize (Hr r eq_refl).
    destruct Hr as (owner & tx & _ & _ & Hr). cbv zeta in Hr.
    assert (Hlease : lease r = Some (Some (lease_info b tx))).
    { destruct (negb (is_false (opt_sendManifest options)) && (code tx =? 0)).
      - destruct (sdlToManifest parsed) as [manifest | e].
        + destruct Hr as [_ ->].
          destruct (sendManifest_reply env owner dseq _ manifest); reflexivity.
        + destruct Hr as [_ ->]. reflexivity.
      - destruct Hr as [_ ->]. reflexivity. }
    rewrite Hlease in Hl. inversion Hl; subst l. repeat split.
  - apply ret_run in H. destruct H as [_ H]. inversion H; subst r. discriminate Hl.
Qed.




Section Caught.

Variable env : Env.

Lemma getBids_error_caught : forall client owner options dseq start st w e,
  getWalletAddress client = Ok owner ->
  getBids_reply env (polls w) = Throw e ->
  poll_round env client options dseq start st w
  = Some (world_after_round env owner dseq w, Ok (false, st)).
Proof.
  intros client owner options dseq start st w e Hw He.
  rewrite (poll_round_run env client options dseq owner Hw). rewrite He. reflexivity.
Qed.

Lemma sendManifest_error_caught :
  forall client owner options parsed dseq response b tx manifest e w,
    require_signing client = Ok owner ->
    signAndBroadcast env (lease_message owner dseq b) = Ok tx ->
    opt_sendManifest options <> Some false -> code tx = 0 ->
    sdlToManifest parsed = Ok manifest ->
    sendManifest_reply env owner dseq (bid_provider (bidId b)) manifest = Throw e ->
    accept_bid env client options parsed dseq response (Some b) w
    = Some (mkWorld (clock w) (polls w)
              (HttpSendManifest owner dseq (bid_provider (bidId b)) manifest
               :: SignAndBroadcast (lease_message owner dseq b) :: calls w),
            Ok (manifest_failed response b tx e)).
Proof.
  intros client owner options parsed dseq response b tx manifest e w
    Hsig Htx Hopt Hcode Hm He.
  unfold accept_bid, createLease, broadcast, sendManifest, try_catch, bindM, lift, log, ret.
  cbv beta iota. cbn [clock polls calls].
  rewrite Hsig. fold (lease_message owner dseq b). rewrite Htx.
  assert (Hsend : negb (is_false (opt_sendManifest options)) && (code tx =? 0) = true).
  { rewrite Hcode. destruct (opt_sendManifest options) as [[|] |]; try reflexivity.
    exfalso. apply Hopt. reflexivity. }
  rewrite Hsend, Hm, (signing_wallet _ _ Hsig), He. reflexivity.
Qed.

End Caught.

(** C4 fails for [getBids]: with a console API that answers every request
    for bids with an error, deployment create still returns its response. *)
Lemma C4_getBids_error_is_caught :
  getBids_reply env_console_down 0 = Throw (Error "Request failed with status code 503") /\
  exists w r,
    execute 100 env_console_down "sdl" (num 5) options0 world0 = Some (w, Ok (Created r)) /\
    In (HttpGetBids "akash1owner" "100" 1 1) (trace w) /\
    lease r = Some None.
Proof.
  split; [reflexivity |]. vm_compute. eexists. eexists.
  split; [reflexivity |]. split; [| reflexivity].
  repeat (first [left; reflexivity | right]).
Qed.

(** C4, amended.  In deployment create (1) an error of making the chain
    client, of the query connection, of [getHeight], of [signAndBroadcast]
    (for the deployment or the lease) or of [disconnect] ends the
    operation with that error; (2) an error of [getBids] is
    caught: the polling round ends without [break] and leaves the selected
    bid as it was; (3) an error of [sendManifest] is caught: the lease is
    reported with [manifestSent: false] and the error's message. *)
Theorem C4_errors_of_deployment_create :
  (forall fuel env sdl deposit options w' res c e,
     execute fuel env sdl deposit options world0 = Some (w', res) ->
     In c (trace w') -> failed env c e -> res = Throw e) /\
  (forall env client owner options dseq start st w e,
     getWalletAddress client = Ok owner ->
     getBids_reply env (polls w) = Throw e ->
     poll_round env client options dseq start st w
     = Some (world_after_round env owner dseq w, Ok (false, st))) /\
  (forall env client owner options parsed dseq response b tx manifest e w,
     require_signing client = Ok owner ->
     signAndBroadcast env (lease_message owner dseq b) = Ok tx ->
     opt_sendManifest options <> Some false -> code tx = 0 ->
     sdlToManifest parsed = Ok manifest ->
     sendManifest_reply env owner dseq (bid_provider (bidId b)) manifest = Throw e ->
     exists w',
       accept_bid env client options parsed dseq response (Some b) w
       = Some (w', Ok (manifest_failed response b tx e))).
Proof.
  split; [| split].
  - intros fuel env sdl deposit options w' res c e H Hin Hf.
    apply execute_propagated in H. destruct H as [new [Hnew H]].
    apply (H c e); [| exact Hf].
    apply trace_calls in Hin. rewrite Hnew in Hin. cbn [calls world0] in Hin.
    rewrite app_nil_r in Hin. exact Hin.
  - intros env client owner options dseq start st w e Hw He.
    exact (getBids_error_caught env client owner options dseq start st w e Hw He).
  - intros env client owner options parsed dseq response b tx manifest e w
      Hsig Htx Hopt Hcode Hm He.
    eexists.
    exact (sendManifest_error_caught env client owner options parsed dseq response b tx
             manifest e w Hsig Htx Hopt Hcode Hm He).
Qed.

Lemma C4_errors_of_deployment_create_witness :
  exists w,
    execute 100 env_rpc_down "sdl" (num 5) options0 world0
    = Some (w, Throw (Error "socket hang up")) /\
    In GetHeight (trace w) /\
    failed env_rpc_down GetHeight (Error "socket hang up") /\
    getBids_reply env_console_down (polls world0)
    = Throw (Error "Request failed with status code 503") /\
    poll_round env_console_down signer options0 "100" 0 (mkPoll None []) world0
    = Some (world_after_round env_console_down "akash1owner" "100" world0,
            Ok (false, mkPoll None [])).
Proof.
  assert (E : exists w res,
             execute 100 env_rpc_down "sdl" (num 5) options0 world0 = Some (w, res) /\
             In GetHeight (trace w)).
  { vm_compute. eexists. eexists.
    split; [reflexivity | repeat (first [left; reflexivity | right])]. }
  destruct E as (w & res & E & Hin). exists w.
  assert (F : failed env_rpc_down GetHeight (Error "socket hang up")) by reflexivity.
  pose proof (proj1 C4_errors_of_deployment_create 100%nat env_rpc_down "sdl" (num 5) options0
                w res GetHeight (Error "socket hang up") E Hin F) as Hres.
  rewrite Hres in E.
  split; [exact E |]. split; [exact Hin |]. split; [exact F |].
  split; [reflexivity |].
  apply (proj1 (proj2 C4_errors_of_deployment_create) env_console_down signer "akash1owner"
           options0 "100" 0 (mkPoll None []) world0
           (Error "Request failed with status code 503"));
    reflexivity.
Defined.
Section Groups.

Lemma deref_ok : forall A (o : option A) a, deref o = Ok a -> o = Some a.
Proof. intros A [x |] a H; inversion H. reflexivity. Qed.

Lemma mapM_Forall2 : forall A B (f : A -> result B) (P : A -> B -> Prop),
  (forall a b, f a = Ok b -> P a b) ->
  forall l bs, mapM f l = Ok bs -> Forall2 P l bs.
Proof.
  intros A B f P Hf. induction l as [| a l IH]; intros bs H; cbn [mapM] in H.
  - inversion H. constructor.
  - bind_ok H. bind_ok H. inversion H; subst bs. constructor; auto.
Qed.

Lemma mapMi_Forall2 : forall A B (f : nat -> A -> result B) (P : A -> B -> Prop),
  (forall i a b, f i a = Ok b -> P a b) ->
  forall l i bs, mapMi_from i f l = Ok bs -> Forall2 P l bs.
Proof.
  intros A B f P Hf. induction l as [| a l IH]; intros i bs H; cbn [mapMi_from] in H.
  - inversion H. constructor.
  - bind_ok H. bind_ok H. inversion H; subst bs. constructor; eauto.
Qed.

Lemma convertStorage_spec : forall i os sr,
  convertStorage i os = Ok sr -> storage_as_specified os sr.
Proof.
  intros i os sr H. unfold convertStorage in H. repeat bind_ok H.
  inversion H; subst sr. clear H.
  repeat match goal with
         | E : deref _ = Ok _ |- _ => apply deref_ok in E
         end.
  eexists _, _, _. repeat (split; [eassumption |]). reflexivity.
Qed.

Variable sdl : ISDLManifest.

Lemma groupResource_spec : forall pp entry rg,
  groupResource sdl (Some pp) entry = Ok rg -> resource_as_specified sdl pp entry rg.
Proof.
  intros pp [serviceName config] rg H. unfold groupResource in H.
  repeat bind_ok H. inversion H; subst rg. clear H.
  match goal with
  | Hc : convertResources _ _ = Ok _ |- _ => unfold convertResources in Hc; repeat bind_ok Hc;
      inversion Hc; subst; clear Hc
  end.
  match goal with
  | Hs : mapMi convertStorage _ = Ok _ |- _ =>
      apply (mapMi_Forall2 _ _ _ storage_as_specified convertStorage_spec) in Hs
  end.
  repeat match goal with
         | E : deref _ = Ok _ |- _ => apply deref_ok in E
         end.
  repeat match goal with
         | G : get blank_compute _ _ = Some ?c, R : resources ?c = Some _ |- _ =>
             apply get_own in G; [| intro F; subst c; discriminate R]
         | G : get blank_pricing _ _ = Some ?p, R : aktToUakt (pr_amount ?p) = Ok _ |- _ =>
             apply get_own in G; [| intro F; subst p; vm_compute in R; discriminate R]
         end.
  inversion E1; subst a1. subst a11.
  unfold resource_as_specified. cbn [snd rg_resources rg_count rg_price ru_cpu ru_memory ru_storage].
  eexists _, _, _, _, _, _, _, _, _, _, _.
  repeat (split; [eassumption |]). repeat (split; [reflexivity |]).
  split; [eassumption |]. split; reflexivity.
Qed.

Lemma groupOfPlacement_spec : forall entry g,
  groupOfPlacement sdl entry = Ok g -> group_as_specified sdl entry g.
Proof.
  intros [placementName pl] g H. unfold groupOfPlacement in H.
  repeat bind_ok H. inversion H; subst g. clear H.
  repeat match goal with
         | E : deref _ = Ok _ |- _ => apply deref_ok in E
         end.
  split; [reflexivity |]. cbn [fst snd gs_resources].
  eexists _, _, _. repeat (split; [eassumption |]).
  match goal with
  | Hl : get blank_placement placementName _ = Some _, Hm : mapM _ pl = Ok _ |- _ =>
      rewrite Hl in Hm;
      exact (mapM_Forall2 _ _ _ _ (groupResource_spec _) _ _ Hm)
  end.
Qed.

End Groups.

(** When [sdlToGroups] returns, it returns one group per entry of
    [sdl.deployment], in order and named after the placement, with one
    resource entry per service of the placement: cpu units
    [round(parseCpuUnits(cpu.units) * 1000)], memory and storage quantities
    [parseMemorySize] of their sizes, the entry's count, and the price of
    the placement's pricing for the entry's profile, with its denom and the
    amount [aktToUakt(pricing.amount)]. *)
Theorem sdlToGroups_shape : forall sdl groups,
  sdlToGroups sdl = Ok groups ->
  exists dep, deployment sdl = Some dep /\ Forall2 (group_as_specified sdl) dep groups.
Proof.
  intros sdl groups H. unfold sdlToGroups in H. bind_ok H. apply deref_ok in E.
  exists a. split; [exact E |].
  exact (mapM_Forall2 _ _ _ _ (groupOfPlacement_spec sdl) _ _ H).
Qed.

Lemma sdlToGroups_shape_witness :
  exists groups,
    sdlToGroups valid_sdl = Ok groups /\
    List.length groups = 1%nat /\
    exists dep,
      deployment valid_sdl = Some dep /\ Forall2 (group_as_specified valid_sdl) dep groups.
Proof.
  assert (E : exists groups,
             sdlToGroups valid_sdl = Ok groups /\ List.length groups = 1%nat).
  { vm_compute. eexists. split; reflexivity. }
  destruct E as (groups & E & Hn). exists groups.
  split; [exact E |]. split; [exact Hn |].
  exact (sdlToGroups_shape valid_sdl groups E).
Defined.

Section FixedPoint.

Lemma dec_round_integer : forall n s, dec_round (mkDec (n * pow10 s) s) = n.
Proof.
  intros n s. unfold dec_round. cbn [dmant dscale].
  pose proof (pow10_pos s) as Hp.
  replace (2 * (n * pow10 s) + pow10 s) with (pow10 s + n * (2 * pow10 s)) by ring.
  rewrite Z.div_add by lia. rewrite Z.div_small by lia. lia.
Qed.

Lemma number_ge_small : forall m s, 0 <= m < 10 ^ 21 * pow10 s ->
  number_ge (Fin (mkDec m s)) (num (10 ^ 21)) = false.
Proof.
  intros m s H. remember (10 ^ 21) as c eqn:Ec in *. clear Ec.
  unfold number_ge, number_le, num, dec_of_Z. cbn [number_compare].
  unfold dec_compare. cbn [dmant dscale]. change (pow10 0) with 1.
  destruct (c * pow10 s ?= m * 1) eqn:E; try reflexivity.
  - apply Z.compare_eq in E. lia.
  - change (c * pow10 s < m * 1) in E. lia.
Qed.

Lemma toFixed_micro : forall n, 0 <= n < 10 ^ 27 ->
  toFixed (Fin (mkDec n 6)) 6 = six_decimals n.
Proof.
  intros n Hn. unfold toFixed. cbn [dmant dscale].
  rewrite Z.abs_eq by lia.
  rewrite number_ge_small by (change (pow10 6) with 1000000; lia).
  rewrite dec_round_integer.
  assert (E : (n <? 0) = false) by (apply Z.ltb_ge; lia). rewrite E.
  reflexivity.
Qed.

Lemma six_decimals_numeral : forall n, 0 <= n ->
  exists m, numeral_ok m /\ numeral_text m = six_decimals n /\ numeral_dec m = mkDec n 6.
Proof.
  intros n Hn.
  assert (Hq : 0 <= n / 1000000) by (apply Z.div_pos; lia).
  assert (Hr : 0 <= n mod 1000000 < pow10 6)
    by (change (pow10 6) with 1000000; apply Z.mod_pos_bound; lia).
  destruct (Z_to_digits_spec _ Hq) as [H1 [H2 H3]].
  destruct (pad_digits_spec 6 _ Hr) as [P1 [P2 P3]].
  exists (mkNumeral (Z_to_digits (n / 1000000)) (Some (pad_digits 6 (n mod 1000000)))).
  split; [| split].
  - repeat split; auto. intro F. rewrite F in P2. discriminate P2.
  - reflexivity.
  - unfold numeral_dec. cbn [frac_part int_part]. rewrite P2. f_equal.
    rewrite digits_val_append, H3, P3, P2. change (pow10 6) with 1000000.
    rewrite (Z.div_mod n 1000000) at 3 by lia. ring.
Qed.

Lemma aktToUakt_six_decimals : forall n, 0 <= n ->
  aktToUakt (AString (six_decimals n)) = Ok (Z_to_string n).
Proof.
  intros n Hn. destruct (six_decimals_numeral n Hn) as [m [Hm [Et Ed]]].
  unfold aktToUakt. rewrite <- Et.
  pose proof (parseFloat_numeral m false Hm) as Hp. cbn [append] in Hp.
  rewrite Hp, Ed. cbn [dmant dscale isNaN].
  assert (El : number_lt (Fin (mkDec n 6)) (num 0) = false).
  { unfold number_lt, num, dec_of_Z. cbn [number_compare]. unfold dec_compare.
    cbn [dmant dscale]. change (pow10 0) with 1.
    destruct (n * 1 ?= 0 * pow10 6) eqn:E; try reflexivity.
    change (n * 1 < 0 * pow10 6) in E. lia. }
  rewrite El. unfold UAKT_PER_AKT, num, dec_of_Z. cbn [number_mul Math_round].
  unfold dec_mul. cbn [dmant dscale]. rewrite Nat.add_0_r.
  change 1000000 with (pow10 6). rewrite dec_round_integer.
  rewrite number_to_string_num. reflexivity.
Qed.

Lemma uaktToAkt_digits : forall n, 0 <= n < 10 ^ 27 ->
  uaktToAkt (AString (Z_to_string n)) = Ok (six_decimals n).
Proof.
  intros n Hn. unfold uaktToAkt.
  rewrite Z_to_string_nonneg by lia.
  destruct (Z_to_digits_spec n ltac:(lia)) as [H1 [H2 H3]].
  rewrite (parseInt_digits _ H1 H2), H3. unfold num, dec_of_Z. cbn [isNaN].
  unfold number_div_pow10, dec_div_pow10. cbn [dmant dscale Nat.add].
  unfold AKT_DECIMALS. rewrite toFixed_micro by lia. reflexivity.
Qed.

End FixedPoint.

Section Scanning.

Variable p : ascii -> bool.

Lemma span_all : forall a r,
  all_chars p a = true -> starts_outside p r -> span p (a ++ r) = (a, r).
Proof.
  induction a as [| c a IH]; intros r H Hr; cbn [append span all_chars] in *.
  - destruct r as [| c r]; cbn [span]; [reflexivity |]. cbn [starts_outside] in Hr. now rewrite Hr.
  - apply andb_prop in H as [Hc Ha]. rewrite Hc, (IH r Ha Hr). reflexivity.
Qed.

Lemma span_split : forall s a b,
  span p s = (a, b) -> s = a ++ b /\ all_chars p a = true /\ starts_outside p b.
Proof.
  induction s as [| c s IH]; intros a b H; cbn [span] in H.
  - inversion H. repeat split.
  - destruct (p c) eqn:Hc.
    + destruct (span p s) as [a' b'] eqn:E. inversion H; subst a b.
      destruct (IH a' b' eq_refl) as [-> [Ha Hb]].
      cbn [append all_chars]. rewrite Hc, Ha. repeat split. exact Hb.
    + inversion H; subst a b. repeat split. exact Hc.
Qed.

Lemma all_chars_append : forall a b,
  all_chars p (a ++ b) = all_chars p a && all_chars p b.
Proof.
  induction a as [| c a IH]; intro b; cbn [append all_chars].
  - reflexivity.
  - rewrite IH. apply andb_assoc.
Qed.

Lemma all_chars_weaken : forall (q : ascii -> bool) s,
  (forall c, p c = true -> q c = true) -> all_chars p s = true -> all_chars q s = true.
Proof.
  intros q s Hpq. induction s as [| c s IH]; intro H; cbn [all_chars] in *.
  - reflexivity.
  - apply andb_prop in H as [Hc Hs]. rewrite (Hpq c Hc), (IH Hs). reflexivity.
Qed.

End Scanning.

Section Trimming.

Lemma all_digits_chars : forall s, all_digits s = all_chars is_digit s.
Proof. induction s as [| c s IH]; cbn [all_digits all_chars]; [reflexivity | now rewrite IH]. Qed.

Lemma no_space_chars : forall s, no_space s = all_chars (fun c => negb (is_space c)) s.
Proof. induction s as [| c s IH]; cbn [no_space all_chars]; [reflexivity | now rewrite IH]. Qed.

Lemma all_space_chars : forall s, all_space s = all_chars is_space s.
Proof. induction s as [| c s IH]; cbn [all_space all_chars]; [reflexivity | now rewrite IH]. Qed.

Lemma trimStart_outside : forall s, starts_outside is_space s -> trimStart s = s.
Proof.
  intros [| c s] H; cbn [trimStart starts_outside] in *; [reflexivity | now rewrite H].
Qed.

Lemma no_space_starts : forall a r, no_space a = true -> a <> "" ->
  starts_outside is_space (a ++ r).
Proof.
  intros [| c a] r H Hne; [congruence |]. cbn [append starts_outside no_space] in *.
  apply andb_prop in H as [Hc _]. now destruct (is_space c).
Qed.

(** A text that begins and ends with words has nothing to trim. *)
Lemma trim_between_words : forall a mid b,
  no_space a = true -> a <> "" -> no_space b = true -> b <> "" ->
  trim (a ++ mid ++ b) = a ++ mid ++ b.
Proof.
  intros a mid b Ha Hane Hb Hbne. unfold trim, trimEnd.
  rewrite (trimStart_outside (a ++ mid ++ b)) by now apply no_space_starts.
  rewrite <- !append_assoc. rewrite (rev_string_append (a ++ mid) b).
  rewrite trimStart_outside.
  - rewrite <- rev_string_append. apply rev_string_involutive.
  - apply no_space_starts; [now apply no_space_rev |].
    intro F. apply (f_equal rev_string) in F. rewrite rev_string_involutive in F.
    now subst b.
Qed.

End Trimming.

Section AmountText.

Lemma match_amount_found : forall cls unit a ws u,
  all_chars cls a = true -> a <> "" -> all_space ws = true ->
  starts_outside cls (ws ++ u) -> starts_outside is_space u -> toLowerCase u = unit ->
  match_amount cls unit (a ++ ws ++ u) = Some a.
Proof.
  intros cls unit a ws u Ha Hne Hws Hout Hu El. unfold match_amount.
  rewrite (span_all cls a (ws ++ u) Ha Hout).
  destruct a as [| c a]; [congruence |]. cbn [is_empty].
  rewrite (trimStart_spaces ws u Hws), (trimStart_outside u Hu), El, String.eqb_refl.
  reflexivity.
Qed.

Lemma match_amount_other : forall cls unit s a r,
  span cls s = (a, r) -> toLowerCase (trimStart r) <> unit ->
  match_amount cls unit s = None.
Proof.
  intros cls unit s a r E H. unfold match_amount. rewrite E.
  destruct (is_empty a); [reflexivity |].
  destruct (String.eqb_spec (toLowerCase (trimStart r)) unit); [contradiction | reflexivity].
Qed.

Lemma digits_are_amount_chars : forall s, all_digits s = true -> all_chars is_amount_char s = true.
Proof.
  intros s H. rewrite all_digits_chars in H.
  apply (all_chars_weaken is_digit is_amount_char); [| exact H].
  intros c Hc. unfold is_amount_char. now rewrite Hc.
Qed.

Lemma six_decimals_chars : forall n, 0 <= n ->
  all_chars is_amount_char (six_decimals n) = true /\ six_decimals n <> "" /\
  no_space (six_decimals n) = true /\ toLowerCase (six_decimals n) = six_decimals n.
Proof.
  intros n Hn. destruct (six_decimals_numeral n Hn) as [m [Hm [Et _]]].
  rewrite <- Et. split; [| split; [| split]].
  - destruct Hm as [Hi [_ Hf]]. unfold numeral_text.
    destruct (frac_part m) as [f |].
    + destruct Hf as [Hf _]. rewrite !all_chars_append.
      rewrite (digits_are_amount_chars _ Hi), (digits_are_amount_chars _ Hf). reflexivity.
    + now apply digits_are_amount_chars.
  - destruct (numeral_text_first m Hm) as [c [r [E _]]]. rewrite E. discriminate.
  - now apply numeral_text_no_space.
  - now apply numeral_text_lower.
Qed.

(** The text [d.dddddd UNIT] is read as the amount before the unit. *)
Lemma akt_text_parsed : forall n, 0 <= n ->
  parseAmountString (six_decimals n ++ " AKT")
  = Ok (mkCoin (Some TOKEN_DENOMINATIONS_uakt) (Z_to_string n)).
Proof.
  intros n Hn. destruct (six_decimals_chars n Hn) as [Hc [Hne [Hns Hl]]].
  unfold parseAmountString.
  change (six_decimals n ++ " AKT") with (six_decimals n ++ " " ++ "AKT").
  rewrite trim_between_words by (auto; discriminate).
  rewrite !toLowerCase_append, Hl.
  change (toLowerCase " ") with " ". change (toLowerCase "AKT") with "akt".
  rewrite (match_amount_found is_amount_char "akt" _ " " "akt" Hc Hne)
    by reflexivity.
  unfold createAktCoin. rewrite (aktToUakt_six_decimals n Hn). reflexivity.
Qed.

Lemma usdc_text_parsed : forall n, 0 <= n ->
  parseAmountString (six_decimals n ++ " USDC")
  = Ok (mkCoin (Some TOKEN_DENOMINATIONS_usdc) (Z_to_string n)).
Proof.
  intros n Hn. destruct (six_decimals_chars n Hn) as [Hc [Hne [Hns Hl]]].
  destruct (six_decimals_numeral n Hn) as [m [Hm [Et Ed]]].
  unfold parseAmountString.
  change (six_decimals n ++ " USDC") with (six_decimals n ++ " " ++ "USDC").
  rewrite trim_between_words by (auto; discriminate).
  rewrite !toLowerCase_append, Hl.
  change (toLowerCase " ") with " ". change (toLowerCase "USDC") with "usdc".
  rewrite (match_amount_other is_amount_char "akt" _ (six_decimals n) (" " ++ "usdc"))
    by (try (apply span_all; [exact Hc | reflexivity]); discriminate).
  assert (Eu : match_amount is_digit "uakt" (six_decimals n ++ " " ++ "usdc") = None).
  { unfold six_decimals. rewrite !append_assoc.
    destruct (Z_to_digits_spec (n / 1000000) ltac:(apply Z.div_pos; lia)) as [H1 _].
    eapply match_amount_other.
    - apply span_all; [now rewrite <- all_digits_chars | reflexivity].
    - cbn [append trimStart is_space nat_of_ascii]. discriminate. }
  rewrite Eu.
  rewrite (match_amount_found is_amount_char "usdc" _ " " "usdc" Hc Hne)
    by reflexivity.
  rewrite <- Et.
  pose proof (parseFloat_numeral m false Hm) as Hp. cbn [append] in Hp.
  rewrite Hp, Ed. cbn [dmant dscale].
  unfold num, dec_of_Z. cbn [number_mul Math_round].
  unfold dec_mul. cbn [dmant dscale]. rewrite Nat.add_0_r.
  change 1000000 with (pow10 6). rewrite dec_round_integer.
  rewrite number_to_string_num. reflexivity.
Qed.

End AmountText.

(** A coin of [n] uakt, or of [n] micro-USDC, with [n] below 10^15 is
    formatted as [d.dddddd AKT] or [d.dddddd USDC], and
    [parseAmountString] reads that text back as the same coin. *)
Theorem formatCoin_parseAmountString_round_trip : forall n d,
  0 <= n < 10 ^ 15 ->
  d = TOKEN_DENOMINATIONS_uakt \/ d = TOKEN_DENOMINATIONS_usdc ->
  exists text,
    formatCoin (mkCoin (Some d) (Z_to_string n)) = Ok text /\
    parseAmountString text = Ok (mkCoin (Some d) (Z_to_string n)).
Proof.
  intros n d Hn [-> | ->].
  - exists (six_decimals n ++ " AKT"). split.
    + unfold formatCoin. cbn [denom_is denom amount].
      change (String.eqb TOKEN_DENOMINATIONS_uakt TOKEN_DENOMINATIONS_uakt) with true.
      cbv iota. rewrite uaktToAkt_digits by lia. reflexivity.
    + apply akt_text_parsed. lia.
  - exists (six_decimals n ++ " USDC"). split.
    + unfold formatCoin. cbn [denom_is denom amount].
      change (String.eqb TOKEN_DENOMINATIONS_usdc TOKEN_DENOMINATIONS_uakt) with false.
      change (String.eqb TOKEN_DENOMINATIONS_usdc TOKEN_DENOMINATIONS_usdc) with true.
      cbv iota.
      rewrite Z_to_string_nonneg by lia.
      destruct (Z_to_digits_spec n ltac:(lia)) as [H1 [H2 H3]].
      rewrite (parseInt_digits _ H1 H2), H3. unfold num, dec_of_Z.
      unfold number_div_pow10, dec_div_pow10. cbn [dmant dscale Nat.add].
      rewrite toFixed_micro by lia. reflexivity.
    + apply usdc_text_parsed. lia.
Qed.

Lemma formatCoin_parseAmountString_round_trip_witness :
  exists text,
    formatCoin (mkCoin (Some "uakt") (Z_to_string 1500000)) = Ok text /\
    parseAmountString text = Ok (mkCoin (Some "uakt") (Z_to_string 1500000)).
Proof.
  apply (formatCoin_parseAmountString_round_trip 1500000 "uakt").
  - lia.
  - left. reflexivity.
Defined.

(** For [n] below 10^15, [uaktToAkt] writes [n] uakt with exactly six
    decimals and [aktToUakt] maps that text back to [n]. *)
Theorem uaktToAkt_aktToUakt_round_trip : forall n,
  0 <= n < 10 ^ 15 ->
  uaktToAkt (AString (Z_to_string n)) = Ok (six_decimals n) /\
  aktToUakt (AString (six_decimals n)) = Ok (Z_to_string n).
Proof.
  intros n Hn. split.
  - apply uaktToAkt_digits. lia.
  - apply aktToUakt_six_decimals. lia.
Qed.

Lemma uaktToAkt_aktToUakt_round_trip_witness :
  uaktToAkt (AString (Z_to_string 500000)) = Ok (six_decimals 500000) /\
  aktToUakt (AString (six_decimals 500000)) = Ok (Z_to_string 500000).
Proof. apply (uaktToAkt_aktToUakt_round_trip 500000). lia. Defined.

Section AmountErrors.

Lemma amount_char_cases : forall c, is_amount_char c = true -> is_digit c = true \/ c = "."%char.
Proof.
  intros c H. unfold is_amount_char in H. apply orb_prop in H as [H | H]; [now left |].
  right. now apply Ascii.eqb_eq in H.
Qed.

(** [parseFloat] of digits and points is NaN or a number that is not
    negative. *)
Lemma parseFloat_amount_chars : forall s,
  all_chars is_amount_char s = true ->
  parseFloat s = NaN \/ exists d, parseFloat s = Fin d /\ 0 <= dmant d.
Proof.
  intros s H. unfold parseFloat.
  destruct s as [| c r].
  - left. reflexivity.
  - pose proof H as H'. cbn [all_chars] in H'. apply andb_prop in H' as [Hc Hr].
    assert (Hsp : trimStart (String c r) = String c r).
    { apply trimStart_outside. cbn [starts_outside].
      destruct (amount_char_cases c Hc) as [Hd | ->];
        [now apply digit_not_space | reflexivity]. }
    rewrite Hsp.
    assert (Hsg : split_sign (String c r) = (false, String c r)).
    { destruct (amount_char_cases c Hc) as [Hd | ->];
        [now apply split_sign_digit | reflexivity]. }
    rewrite Hsg.
    assert (Hinf : String.prefix "Infinity" (String c r) = false).
    { destruct (amount_char_cases c Hc) as [Hd | ->];
        [now apply prefix_Infinity_digit | apply prefix_Infinity_point]. }
    rewrite Hinf.
    destruct (span is_digit (String c r)) as [ip r1] eqn:E1.
    destruct (span_split is_digit _ _ _ E1) as [Es [Hip Hr1]].
    assert (Hr1c : all_chars is_amount_char r1 = true).
    { rewrite Es, all_chars_append in H. now apply andb_prop in H as [_ H]. }
    assert (Hcases : exists fp r2,
               match r1 with
               | String "." r => span is_digit r
               | _ => (EmptyString, r1)
               end = (fp, r2) /\ all_digits fp = true /\ parse_exponent r2 = 0).
    { destruct r1 as [| c1 r1'].
      - exists "", "". repeat split.
      - cbn [starts_outside] in Hr1. cbn [all_chars] in Hr1c.
        apply andb_prop in Hr1c as [Hc1 Hr1c].
        destruct (amount_char_cases c1 Hc1) as [Hd | ->]; [congruence |].
        destruct (span is_digit r1') as [fp r2] eqn:E2.
        destruct (span_split is_digit _ _ _ E2) as [Es2 [Hfp Hr2]].
        exists fp, r2. split; [reflexivity |]. split; [now rewrite all_digits_chars |].
        destruct r2 as [| c2 r2']; [reflexivity |].
        rewrite Es2, all_chars_append in Hr1c. apply andb_prop in Hr1c as [_ Hr2c].
        cbn [all_chars] in Hr2c. apply andb_prop in Hr2c as [Hc2 _].
        cbn [starts_outside] in Hr2.
        destruct (amount_char_cases c2 Hc2) as [Hd | ->]; [congruence | reflexivity]. }
    destruct Hcases as [fp [r2 [-> [Hfp He]]]].
    destruct (is_empty ip && is_empty fp); [now left |].
    right. rewrite He, dec_scale10_zero. eexists. split; [reflexivity |].
    cbn [dmant]. apply digits_val_nonneg.
    rewrite all_digits_append, Hfp, all_digits_chars, Hip. reflexivity.
Qed.

Lemma aktToUakt_amount_chars : forall s e,
  all_chars is_amount_char s = true ->
  aktToUakt (AString s) = Throw e -> e = Error ("Invalid AKT amount: " ++ s).
Proof.
  intros s e H Ht. unfold aktToUakt in Ht.
  destruct (parseFloat_amount_chars s H) as [En | [d [Ed Hd]]].
  - rewrite En in Ht. cbn [isNaN] in Ht. inversion Ht. reflexivity.
  - rewrite Ed in Ht. cbn [isNaN] in Ht.
    assert (El : number_lt (Fin d) (num 0) = false).
    { unfold number_lt, num, dec_of_Z. cbn [number_compare]. unfold dec_compare.
      cbn [dmant dscale]. change (pow10 0) with 1.
      destruct (dmant d * 1 ?= 0 * pow10 (dscale d)) eqn:E; try reflexivity.
      change (dmant d * 1 < 0 * pow10 (dscale d)) in E. lia. }
    rewrite El in Ht. discriminate Ht.
Qed.

End AmountErrors.

(** [parseAmountString] fails in two ways only: with 'Unable to parse
    amount string' for its argument, or with 'Invalid AKT amount' for the
    digits and points it read.  A text with a minus sign is never
    reported as a negative amount. *)
Theorem parseAmountString_errors : forall s e,
  parseAmountString s = Throw e ->
  e = Error ("Unable to parse amount string: " ++ s) \/
  exists m, all_chars is_amount_char m = true /\ parseFloat m = NaN /\
            e = Error ("Invalid AKT amount: " ++ m).
Proof.
  intros s e H. unfold parseAmountString in H.
  assert (Hakt : forall m, all_chars is_amount_char m = true ->
                   createAktCoin (AString m) = Throw e ->
                   exists m, all_chars is_amount_char m = true /\ parseFloat m = NaN /\
                             e = Error ("Invalid AKT amount: " ++ m)).
  { intros m Hm Hc. unfold createAktCoin in Hc.
    destruct (aktToUakt (AString m)) as [a | e'] eqn:Ea; [discriminate Hc |].
    cbn [bind] in Hc. inversion Hc; subst e'.
    exists m. split; [exact Hm |]. split.
    - destruct (parseFloat_amount_chars m Hm) as [En | [d [Ed Hd]]]; [exact En |].
      exfalso. unfold aktToUakt in Ea. rewrite Ed in Ea. cbn [isNaN] in Ea.
      destruct (number_lt (Fin d) (num 0)) eqn:El; [| discriminate Ea].
      unfold number_lt, num, dec_of_Z in El. cbn [number_compare] in El.
      unfold dec_compare in El. cbn [dmant dscale] in El. change (pow10 0) with 1 in El.
      destruct (dmant d * 1 ?= 0 * pow10 (dscale d)) eqn:E; try discriminate El.
      change (dmant d * 1 < 0 * pow10 (dscale d)) in E. lia.
    - eapply aktToUakt_amount_chars; eauto. }
  destruct (match_amount is_amount_char "akt" (toLowerCase (trim s))) as [m1 |] eqn:E1.
  { right. apply (Hakt m1); [| exact H].
    unfold match_amount in E1.
    destruct (span is_amount_char (toLowerCase (trim s))) as [a r] eqn:Es.
    destruct (span_split _ _ _ _ Es) as [_ [Ha _]].
    destruct (is_empty a); [discriminate E1 |].
    destruct (String.eqb _ _); inversion E1; subst m1. exact Ha. }
  destruct (match_amount is_digit "uakt" (toLowerCase (trim s))); [discriminate H |].
  destruct (match_amount is_amount_char "usdc" (toLowerCase (trim s))); [discriminate H |].
  destruct (match_number (toLowerCase (trim s))) eqn:En.
  - right. apply (Hakt (toLowerCase (trim s))); [| exact H].
    unfold match_number in En.
    destruct (span is_amount_char (toLowerCase (trim s))) as [a r] eqn:Es.
    destruct (span_split _ _ _ _ Es) as [Esplit [Ha _]].
    apply andb_prop in En as [_ Hr]. apply is_empty_true in Hr. subst r.
    rewrite Esplit, append_nil_r. exact Ha.
  - left. inversion H. reflexivity.
Qed.

Lemma parseAmountString_errors_witness :
  parseAmountString "-5 akt" = Throw (Error "Unable to parse amount string: -5 akt") /\
  (Error "Unable to parse amount string: -5 akt"
   = Error ("Unable to parse amount string: " ++ "-5 akt") \/
   exists m, all_chars is_amount_char m = true /\ parseFloat m = NaN /\
             Error "Unable to parse amount string: -5 akt"
             = Error ("Invalid AKT amount: " ++ m)).
Proof.
  split; [reflexivity |].
  apply (parseAmountString_errors "-5 akt"). reflexivity.
Defined.

Section TrimAround.

Lemma rev_string_cons : forall c s, rev_string (String c s) = rev_string s ++ String c "".
Proof. intros c s. unfold rev_string. cbn [rev_append]. apply rev_append_spec. Qed.

Lemma all_chars_rev : forall p s, all_chars p (rev_string s) = all_chars p s.
Proof.
  intros p. induction s as [| c s IH].
  - reflexivity.
  - rewrite rev_string_cons, all_chars_append, IH. cbn [all_chars].
    rewrite andb_true_r. apply andb_comm.
Qed.

Lemma trim_around : forall ws1 a mid b ws3,
  all_space ws1 = true -> all_space ws3 = true ->
  no_space a = true -> a <> "" -> no_space b = true -> b <> "" ->
  trim (ws1 ++ (a ++ mid ++ b) ++ ws3) = a ++ mid ++ b.
Proof.
  intros ws1 a mid b ws3 H1 H3 Ha Hane Hb Hbne. unfold trim, trimEnd.
  rewrite (trimStart_spaces ws1 _ H1).
  rewrite (trimStart_outside ((a ++ mid ++ b) ++ ws3))
    by (rewrite append_assoc; now apply no_space_starts).
  rewrite rev_string_append.
  rewrite trimStart_spaces by (rewrite all_space_chars, all_chars_rev, <- all_space_chars; exact H3).
  rewrite <- !append_assoc. rewrite (rev_string_append (a ++ mid) b).
  rewrite trimStart_outside.
  - rewrite <- rev_string_append. apply rev_string_involutive.
  - apply no_space_starts; [now apply no_space_rev |].
    intro F. apply (f_equal rev_string) in F. rewrite rev_string_involutive in F.
    now subst b.
Qed.

Lemma to_lower_space : forall c, is_space (to_lower c) = is_space c.
Proof. intro c. destruct c as [[] [] [] [] [] [] [] []]; reflexivity. Qed.

Lemma toLowerCase_spaces : forall ws, all_space ws = true -> toLowerCase ws = ws.
Proof.
  induction ws as [| c ws IH]; intro H.
  - reflexivity.
  - cbn [all_space] in H. apply andb_prop in H as [Hc Hs].
    change (toLowerCase (String c ws)) with (String (to_lower c) (toLowerCase ws)).
    rewrite (IH Hs). f_equal.
    destruct c as [[] [] [] [] [] [] [] []]; try discriminate Hc; reflexivity.
Qed.

Lemma no_space_lower : forall s, no_space (toLowerCase s) = no_space s.
Proof.
  induction s as [| c s IH].
  - reflexivity.
  - change (toLowerCase (String c s)) with (String (to_lower c) (toLowerCase s)).
    cbn [no_space]. now rewrite IH, to_lower_space.
Qed.

Lemma lower_word : forall u w, toLowerCase u = w -> no_space w = true -> w <> "" ->
  no_space u = true /\ u <> "".
Proof.
  intros u w E Hw Hne. split.
  - rewrite <- no_space_lower, E. exact Hw.
  - intro F. subst u. cbn in E. congruence.
Qed.

Lemma spaces_then_word : forall cls ws u,
  all_space ws = true -> (forall c, is_space c = true -> cls c = false) ->
  starts_outside cls u -> starts_outside cls (ws ++ u).
Proof.
  intros cls [| c ws] u H Hcls Hu; cbn [append starts_outside all_space] in *.
  - exact Hu.
  - apply andb_prop in H as [Hc _]. now apply Hcls.
Qed.

Lemma space_not_amount_char : forall c, is_space c = true -> is_amount_char c = false.
Proof. intro c. destruct c as [[] [] [] [] [] [] [] []]; try discriminate; reflexivity. Qed.

End TrimAround.

(** An amount in uakt is returned digit for digit: white space around the
    text and before the unit is skipped, the unit is read in any case, and
    the digits are neither converted nor normalised. *)
Theorem parseAmountString_uakt_verbatim : forall ws1 ds ws2 u ws3,
  all_space ws1 = true -> all_space ws2 = true -> all_space ws3 = true ->
  all_digits ds = true -> ds <> "" -> toLowerCase u = "uakt" ->
  parseAmountString (ws1 ++ (ds ++ ws2 ++ u) ++ ws3)
  = Ok (mkCoin (Some TOKEN_DENOMINATIONS_uakt) ds).
Proof.
  intros ws1 ds ws2 u ws3 H1 H2 H3 Hd Hne Hu.
  destruct (lower_word u "uakt" Hu eq_refl ltac:(discriminate)) as [Hus Hune].
  unfold parseAmountString.
  rewrite trim_around by (auto using all_digits_no_space).
  rewrite !toLowerCase_append, (all_digits_lower ds Hd), (toLowerCase_spaces ws2 H2), Hu.
  assert (Hout : starts_outside is_amount_char (ws2 ++ "uakt")).
  { apply spaces_then_word; [exact H2 | exact space_not_amount_char | reflexivity]. }
  rewrite (match_amount_other is_amount_char "akt" _ ds (ws2 ++ "uakt")).
  - rewrite (match_amount_found is_digit "uakt" ds ws2 "uakt"); try reflexivity; auto.
    + now rewrite <- all_digits_chars.
    + apply spaces_then_word; [exact H2 | exact space_not_digit | reflexivity].
  - apply span_all; [now apply digits_are_amount_chars | exact Hout].
  - rewrite (trimStart_spaces ws2 _ H2). discriminate.
Qed.

Lemma parseAmountString_uakt_verbatim_witness :
  parseAmountString (" " ++ ("007" ++ "  " ++ "uAKT") ++ " ")
  = Ok (mkCoin (Some TOKEN_DENOMINATIONS_uakt) "007").
Proof.
  apply (parseAmountString_uakt_verbatim " " "007" "  " "uAKT" " ");
    try reflexivity; discriminate.
Defined.

(** A USDC amount written with points and no digit is accepted with the
    amount 'NaN', whereas the same text in AKT is rejected. *)
Theorem parseAmountString_usdc_without_digits : forall points ws,
  all_chars (Ascii.eqb ".") points = true -> points <> "" -> all_space ws = true ->
  parseAmountString (points ++ ws ++ "usdc")
  = Ok (mkCoin (Some TOKEN_DENOMINATIONS_usdc) "NaN") /\
  parseAmountString (points ++ ws ++ "akt")
  = Throw (Error ("Invalid AKT amount: " ++ points)).
Proof.
  intros points ws Hp Hne Hws.
  assert (Hpc : all_chars is_amount_char points = true).
  { apply (all_chars_weaken (Ascii.eqb ".") is_amount_char); [| exact Hp].
    intros c Hc. apply Ascii.eqb_eq in Hc. subst c. reflexivity. }
  assert (Hns : no_space points = true).
  { rewrite no_space_chars.
    apply (all_chars_weaken (Ascii.eqb ".") (fun c => negb (is_space c))); [| exact Hp].
    intros c Hc. apply Ascii.eqb_eq in Hc. subst c. reflexivity. }
  assert (Hl : toLowerCase points = points).
  { clear Hne Hpc Hns. induction points as [| c r IH]; [reflexivity |].
    cbn [all_chars] in Hp. apply andb_prop in Hp as [Hc Hr].
    apply Ascii.eqb_eq in Hc. subst c.
    change (toLowerCase (String "." r)) with (String "." (toLowerCase r)).
    now rewrite (IH Hr). }
  assert (Hnan : parseFloat points = NaN).
  { destruct points as [| c r]; [congruence |].
    cbn [all_chars] in Hp. apply andb_prop in Hp as [Hc Hr].
    apply Ascii.eqb_eq in Hc. subst c.
    unfold parseFloat.
    change (trimStart (String "." r)) with (String "." r).
    change (split_sign (String "." r)) with (false, String "." r).
    cbv beta iota. rewrite prefix_Infinity_point.
    change (span is_digit (String "." r)) with ("", String "." r).
    cbv beta iota.
    destruct r as [| c r']; [reflexivity |].
    cbn [all_chars] in Hr. apply andb_prop in Hr as [Hc _].
    apply Ascii.eqb_eq in Hc. subst c. reflexivity. }
  assert (Hdig : forall rest unit, match_amount is_digit unit (points ++ rest) = None).
  { intros rest unit. destruct points as [| c r]; [congruence |].
    cbn [all_chars] in Hp. apply andb_prop in Hp as [Hc _].
    apply Ascii.eqb_eq in Hc. subst c. reflexivity. }
  assert (Hout : forall w, starts_outside is_space w -> starts_outside is_amount_char w ->
                           starts_outside is_amount_char (ws ++ w)).
  { intros w _ Hw. apply spaces_then_word; [exact Hws | exact space_not_amount_char | exact Hw]. }
  unfold parseAmountString. split.
  - rewrite trim_between_words by (auto; discriminate).
    rewrite !toLowerCase_append, Hl, (toLowerCase_spaces ws Hws).
    change (toLowerCase "usdc") with "usdc".
    rewrite (match_amount_other is_amount_char "akt" _ points (ws ++ "usdc")).
    + rewrite Hdig.
      rewrite (match_amount_found is_amount_char "usdc" points ws "usdc");
        try reflexivity; auto.
      * rewrite Hnan. reflexivity.
      * apply Hout; reflexivity.
    + apply span_all; [exact Hpc | apply Hout; reflexivity].
    + rewrite (trimStart_spaces ws _ Hws). discriminate.
  - rewrite trim_between_words by (auto; discriminate).
    rewrite !toLowerCase_append, Hl, (toLowerCase_spaces ws Hws).
    change (toLowerCase "akt") with "akt".
    rewrite (match_amount_found is_amount_char "akt" points ws "akt");
      try reflexivity; auto.
    + unfold createAktCoin, aktToUakt. rewrite Hnan. reflexivity.
    + apply Hout; reflexivity.
Qed.

Lemma parseAmountString_usdc_without_digits_witness :
  parseAmountString ("." ++ " " ++ "usdc")
  = Ok (mkCoin (Some TOKEN_DENOMINATIONS_usdc) "NaN") /\
  parseAmountString ("." ++ " " ++ "akt")
  = Throw (Error ("Invalid AKT amount: " ++ ".")).
Proof.
  apply (parseAmountString_usdc_without_digits "." " "); try reflexivity; discriminate.
Defined.

Section AmountArithmetic.

Lemma BigInt_of_number_num : forall z, BigInt_of_number (num z) = Ok z.
Proof.
  intro z. unfold BigInt_of_number, num, dec_of_Z, dec_is_int, dec_trunc.
  cbn [dmant dscale]. change (pow10 0) with 1.
  rewrite Z.mod_1_r, Z.quot_1_r. reflexivity.
Qed.

Lemma BigInt_of_string_error : forall s e, BigInt_of_string s = Throw e -> e = SyntaxError.
Proof.
  intros s e H. unfold BigInt_of_string in H.
  destruct (is_empty (trim s)); [discriminate H |].
  destruct (radix_prefix (trim s)) as [[radix ds] |].
  - destruct (is_empty ds); [inversion H; reflexivity |].
    destruct (radix_val_acc radix 0 ds); inversion H. reflexivity.
  - destruct (split_sign (trim s)) as [neg u].
    destruct (negb (is_empty u) && all_digits u); inversion H. reflexivity.
Qed.

End AmountArithmetic.

(** [subtractAmounts a b] refuses with 'Subtraction would result in
    negative amount' exactly when [compareAmounts a b] is -1, and returns
    a difference exactly when [compareAmounts a b] is 0 or 1. *)
Theorem subtractAmounts_agrees_with_compareAmounts : forall a b,
  (subtractAmounts a b = Throw (Error "Subtraction would result in negative amount")
   <-> compareAmounts a b = Ok (-1)) /\
  ((exists s, subtractAmounts a b = Ok s)
   <-> (compareAmounts a b = Ok 0 \/ compareAmounts a b = Ok 1)).
Proof.
  intros a b. unfold subtractAmounts, compareAmounts.
  destruct (BigInt_of_string a) as [x | e] eqn:Ea; cbn [bind].
  2: { apply BigInt_of_string_error in Ea. subst e.
       split; split; intro H; try discriminate H.
       - destruct H as [s H]. discriminate H.
       - destruct H as [H | H]; discriminate H. }
  destruct (BigInt_of_string b) as [y | e] eqn:Eb; cbn [bind].
  2: { apply BigInt_of_string_error in Eb. subst e.
       split; split; intro H; try discriminate H.
       - destruct H as [s H]. discriminate H.
       - destruct H as [H | H]; discriminate H. }
  destruct (x - y <? 0) eqn:E1.
  - apply Z.ltb_lt in E1.
    assert (E2 : (x <? y) = true) by (apply Z.ltb_lt; lia). rewrite E2.
    split; split; intro H; try reflexivity.
    + destruct H as [s H]. discriminate H.
    + destruct H as [H | H]; discriminate H.
  - apply Z.ltb_ge in E1.
    assert (E2 : (x <? y) = false) by (apply Z.ltb_ge; lia). rewrite E2.
    split; split; intro H; try discriminate H.
    + destruct (x >? y); discriminate H.
    + destruct (x >? y); [right | left]; reflexivity.
    + eexists. reflexivity.
Qed.

(** Subtracting an amount that was added gives the first amount back,
    written without sign, blanks or leading zeros. *)
Theorem subtractAmounts_undoes_addAmounts : forall a b s x,
  BigInt_of_string a = Ok x -> 0 <= x ->
  addAmounts a b = Ok s ->
  subtractAmounts s b = Ok (Z_to_string x).
Proof.
  intros a b s x Ha Hx H. unfold addAmounts in H. rewrite Ha in H. cbn [bind] in H.
  destruct (BigInt_of_string b) as [y | e] eqn:Hb; [| discriminate H].
  cbn [bind] in H. inversion H; subst s. clear H.
  unfold subtractAmounts. rewrite BigInt_of_Z_to_string, Hb. cbn [bind].
  replace (x + y - y) with x by ring.
  assert (E : (x <? 0) = false) by (apply Z.ltb_ge; lia). rewrite E. reflexivity.
Qed.

Lemma subtractAmounts_undoes_addAmounts_witness :
  BigInt_of_string " 0500 " = Ok 500 /\ 0 <= 500 /\
  addAmounts " 0500 " "1000" = Ok "1500" /\
  subtractAmounts "1500" "1000" = Ok (Z_to_string 500).
Proof.
  split; [reflexivity |]. split; [lia |]. split; [reflexivity |].
  apply (subtractAmounts_undoes_addAmounts " 0500 " "1000" "1500" 500);
    [reflexivity | lia | reflexivity].
Defined.

(** The cost functions compute in whole numbers of any size:
    [calculateTotalCost] is price times blocks, [estimateMonthlyCost] is
    the price times 720, which is [calculateTotalCost] for 720 blocks, and
    a number of blocks with a fraction is a RangeError. *)
Theorem cost_functions_are_exact :
  (forall p b, calculateTotalCost (Z_to_string p) (num b) = Ok (Z_to_string (p * b))) /\
  (forall h, estimateMonthlyCost h = calculateTotalCost h (num 720)) /\
  (forall p d, dec_is_int d = false ->
               calculateTotalCost (Z_to_string p) (Fin d) = Throw RangeError).
Proof.
  split; [| split].
  - intros p b. unfold calculateTotalCost.
    rewrite BigInt_of_Z_to_string, BigInt_of_number_num. reflexivity.
  - intro h. unfold estimateMonthlyCost, calculateTotalCost.
    rewrite BigInt_of_number_num.
    destruct (BigInt_of_string h) as [x | e]; cbn [bind]; [| reflexivity].
    f_equal. f_equal. ring.
  - intros p d Hd. unfold calculateTotalCost.
    rewrite BigInt_of_Z_to_string. cbn [bind BigInt_of_number]. rewrite Hd. reflexivity.
Qed.

Lemma cost_functions_are_exact_witness :
  dec_is_int (mkDec 15 1) = false /\
  calculateTotalCost (Z_to_string 100) (Fin (mkDec 15 1)) = Throw RangeError.
Proof.
  split; [reflexivity |].
  apply (proj2 (proj2 cost_functions_are_exact) 100 (mkDec 15 1)). reflexivity.
Defined.

Section CpuText.

Lemma parseFloat_negative_millis : forall ds, all_digits ds = true -> ds <> "" ->
  parseFloat (String "-" (ds ++ "m")) = num (- digits_val ds).
Proof.
  intros ds H Hne. unfold parseFloat.
  change (trimStart (String "-" (ds ++ "m"))) with (String "-" (ds ++ "m")).
  change (split_sign (String "-" (ds ++ "m"))) with (true, ds ++ "m").
  cbv beta iota.
  destruct ds as [| c r] eqn:Eds; [congruence |]. rewrite <- Eds in *.
  assert (Hc : is_digit c = true).
  { rewrite Eds in H. cbn [all_digits] in H. now apply andb_prop in H as [Hc _]. }
  assert (Hinf : String.prefix "Infinity" (ds ++ "m") = false).
  { rewrite Eds. cbn [append]. now apply prefix_Infinity_digit. }
  rewrite Hinf, (span_digits ds "m" H) by reflexivity.
  cbv beta iota.
  assert (He : is_empty ds = false) by now apply is_empty_false.
  rewrite He. cbn [andb is_empty String.length parse_exponent is_e Ascii.eqb].
  rewrite append_nil_r.
  change (parse_exponent "m") with 0. rewrite dec_scale10_zero. reflexivity.
Qed.

End CpuText.

(** For a cpu value of [r] thousandths, [r] whole and below 10^15 in
    size, [formatCpuUnits(cpu, true)] writes [r] millicpu.
    [parseCpuUnits] reads the text back as [r] thousandths when [r] is not
    negative; a negative one it reads a thousand times too large, because
    the text '-Nm' is not in millicpu format and [parseFloat] reads the
    number before the 'm'. *)
Theorem parseCpuUnits_of_formatCpuUnits : forall d r,
  (dec_to_Q d * 1000 == inject_Z r)%Q -> Z.abs r < 10 ^ 15 ->
  parseCpuUnits (formatCpuUnits (Fin d) true)
  = Ok (if 0 <=? r then Fin (mkDec r 3) else num r).
Proof.
  intros d r Hq _.
  assert (Er : r = dec_round (dec_mul d (dec_of_Z 1000))).
  { symmetry. rewrite dec_round_spec. apply round_Q_whole.
    rewrite dec_to_Q_mul, dec_to_Q_of_Z. exact Hq. }
  unfold formatCpuUnits. cbn [number_mul num Math_round].
  fold (dec_of_Z 1000). rewrite <- Er. rewrite number_to_string_num.
  unfold Z_to_string. destruct (r <? 0) eqn:E.
  - apply Z.ltb_lt in E.
    assert (E0 : (0 <=? r) = false) by (apply Z.leb_gt; lia). rewrite E0.
    destruct (Z_to_digits_spec (- r) ltac:(lia)) as [H1 [H2 H3]].
    unfold parseCpuUnits.
    change (String "-" (Z_to_digits (- r)) ++ "m")
      with ("-" ++ Z_to_digits (- r) ++ "m").
    rewrite trim_no_space
      by (rewrite !no_space_append, (all_digits_no_space _ H1); reflexivity).
    rewrite !toLowerCase_append, (all_digits_lower _ H1).
    change (toLowerCase "-") with "-". change (toLowerCase "m") with "m".
    change (match_millicpu ("-" ++ Z_to_digits (- r) ++ "m")) with (@None string).
    change ("-" ++ Z_to_digits (- r) ++ "m") with (String "-" (Z_to_digits (- r) ++ "m")).
    rewrite (parseFloat_negative_millis _ H1 H2), H3. cbn [isNaN negb num].
    do 3 f_equal. lia.
  - apply Z.ltb_ge in E.
    assert (E0 : (0 <=? r) = true) by (apply Z.leb_le; lia). rewrite E0.
    destruct (Z_to_digits_spec r E) as [H1 [H2 H3]].
    unfold parseCpuUnits.
    rewrite trim_no_space
      by (rewrite no_space_append, (all_digits_no_space _ H1); reflexivity).
    rewrite toLowerCase_append, (all_digits_lower _ H1).
    change (toLowerCase "m") with "m".
    rewrite (match_millicpu_format _ H1 H2), (parseInt_digits _ H1 H2), H3.
    reflexivity.
Qed.

Lemma parseCpuUnits_of_formatCpuUnits_witness :
  (dec_to_Q (mkDec (-5) 1) * 1000 == inject_Z (-500))%Q /\ Z.abs (-500) < 10 ^ 15 /\
  parseCpuUnits (formatCpuUnits (Fin (mkDec (-5) 1)) true)
  = Ok (if 0 <=? -500 then Fin (mkDec (-500) 3) else num (-500)).
Proof.
  split; [reflexivity |]. split; [reflexivity |].
  apply (parseCpuUnits_of_formatCpuUnits (mkDec (-5) 1) (-500)); reflexivity.
Defined.
Section Stages.

Variable env : Env.

(** The calls of [createDeployment], whatever its outcome. *)
Lemma createDeployment_calls : forall client sdl dep w w' res,
  createDeployment env client sdl dep w = Some (w', res) ->
  (calls w' = calls w /\ exists e, res = Throw e) \/
  (exists owner parsed groups,
     require_signing client = Ok owner /\
     parseSDL (yaml env) sdl = Ok parsed /\
     sdlToGroups parsed = Ok groups /\
     ((calls w' = ConnectQuery :: calls w /\ exists e, res = Throw e) \/
      (calls w' = GetHeight :: ConnectQuery :: calls w /\ exists e, res = Throw e) \/
      (exists h coin,
         getHeight env = Ok h /\ createAktCoin (AString dep) = Ok coin /\
         calls w' = SignAndBroadcast (deployment_message env parsed owner h groups coin)
                    :: GetHeight :: ConnectQuery :: calls w /\
         res = match signAndBroadcast env (deployment_message env parsed owner h groups coin)
               with
               | Ok tx => Ok (tx, Z_to_string h)
               | Throw e => Throw e
               end))).
Proof.
  intros client sdl dep w w' res H.
  unfold createDeployment, getQueryClient, broadcast, bindM, lift, log, ret in H.
  cbv beta iota in H. cbn [clock polls calls] in H.
  destruct (require_signing client) as [owner | e] eqn:E1;
    [| inversion H; subst; left; eauto].
  destruct (parseSDL (yaml env) sdl) as [parsed | e] eqn:E2;
    [| inversion H; subst; left; eauto].
  destruct (sdlToGroups parsed) as [groups | e] eqn:E3;
    [| inversion H; subst; left; eauto].
  right. exists owner, parsed, groups. do 3 (split; [first [reflexivity | assumption] |]).
  destruct (connect env) as [u | e] eqn:E0;
    [| inversion H; subst; left; eauto].
  destruct (getHeight env) as [h | e] eqn:E4;
    [| inversion H; subst; right; left; eauto].
  destruct (createAktCoin (AString dep)) as [coin | e] eqn:E5;
    [| inversion H; subst; right; left; eauto].
  right. right. exists h, coin. fold (deployment_message env parsed owner h groups coin) in H.
  destruct (signAndBroadcast env (deployment_message env parsed owner h groups coin));
    inversion H; subst; auto.
Qed.

(** The calls of the lease branch, whatever its outcome: none, the lease
    message, or the lease message and the manifest. *)
Lemma accept_bid_calls : forall client options parsed dseq response best w w' res,
  accept_bid env client options parsed dseq response best w = Some (w', res) ->
  calls w' = calls w \/
  (exists m, calls w' = SignAndBroadcast m :: calls w) \/
  (exists o d p mf m, calls w' = HttpSendManifest o d p mf :: SignAndBroadcast m :: calls w
                      /\ exists r, res = Ok r).
Proof.
  intros client options parsed dseq response [b |] w w' res H.
  - unfold accept_bid, createLease, broadcast, sendManifest, try_catch, bindM, lift, log, ret
      in H.
    cbv beta iota in H. cbn [clock polls calls] in H.
    destruct (require_signing client) as [owner | e] eqn:E1;
      [| inversion H; subst; left; reflexivity].
    rewrite (signing_wallet _ _ E1) in H.
    destruct (signAndBroadcast env _) as [tx | e] eqn:E2;
      [| inversion H; subst; cbn [calls]; right; left; eexists; reflexivity].
    destruct (negb (is_false (opt_sendManifest options)) && (code tx =? 0));
      cbv beta iota in H; cbn [clock polls calls] in H;
      [destruct (sdlToManifest parsed) as [manifest | e];
         [destruct (sendManifest_reply env owner dseq _ manifest) |] |];
      inversion H; subst; cbn [calls];
      first [ right; left; eexists; reflexivity
            | right; right; do 5 eexists; split; [reflexivity | eexists; reflexivity] ].
  - apply ret_run in H. destruct H as [-> _]. left. reflexivity.
Qed.

Lemma bidding_calls : forall client owner options parsed dseq response fuel w w' res,
  getWalletAddress client = Ok owner ->
  (if negb (is_false (autoAcceptBid options))
   then
     bindM (poll_bids fuel env client options dseq)
       (fun st =>
          accept_bid env client options parsed dseq
            (set_bidsReceived response (List.length (bids st))) (bestBid st))
   else ret response) w = Some (w', res) ->
  exists new, calls w' = (new ++ calls w)%list /\ ~ In Disconnect new.
Proof.
  intros client owner options parsed dseq response fuel w w' res Hw H.
  destruct (negb (is_false (autoAcceptBid options))).
  - destruct (bidding_run env _ _ _ _ _ _ _ _ _ _ Hw H) as [_ (w1 & st & Hp & Ha)].
    destruct (poll_bids_run env _ _ _ _ _ _ _ _ Hw Hp) as (st' & _ & _ & _ & _ & [n Hn]).
    destruct (accept_bid_calls _ _ _ _ _ _ _ _ _ Ha)
      as [Hc | [[m Hc] | (o & d & pv & mf & m & Hc & _)]]; rewrite Hc, Hn.
    + exists (repeat (HttpGetBids owner dseq 1 1) n). split; [reflexivity |].
      intro F. apply repeat_spec in F. discriminate F.
    + exists (SignAndBroadcast m :: repeat (HttpGetBids owner dseq 1 1) n).
      split; [reflexivity |].
      intros [F | F]; [discriminate F | apply repeat_spec in F; discriminate F].
    + exists (HttpSendManifest o d pv mf :: SignAndBroadcast m
              :: repeat (HttpGetBids owner dseq 1 1) n).
      split; [reflexivity |].
      intros [F | [F | F]];
        [discriminate F | discriminate F | apply repeat_spec in F; discriminate F].
  - apply ret_run in H. destruct H as [-> _]. exists []. split; [reflexivity | intros []].
Qed.

(** The calls of [createCosmosClient], whatever its outcome. *)
Lemma createCosmosClient_calls : forall w w' res,
  createCosmosClient env w = Some (w', res) ->
  (calls w' = calls w /\ exists e, res = Throw e) \/
  (exists init,
     calls w' = (init ++ calls w)%list /\
     ((init = [ConnectWithSigner] /\ exists e, res = Throw e) \/
      (init = [ConnectTendermint] /\
       (res = Ok (mkClient None false) \/ exists e, res = Throw e)) \/
      (init = [ConnectTendermint; ConnectWithSigner] /\
       ((exists client, res = Ok client /\ signing_client_of env client) \/
        exists e, res = Throw e)))).
Proof.
  intros w w' res H.
  unfold createCosmosClient, initialize, bindM, lift, log, ret in H.
  cbv beta iota in H.
  destruct (credentials env) as [[address |] | e] eqn:E1.
  - cbv beta iota in H. cbn [clock polls calls] in H.
    destruct (connectWithSigner env) as [[] | e] eqn:E2.
    + cbv beta iota in H. cbn [clock polls calls] in H.
      destruct (tendermint env) as [[] | e] eqn:E3; inversion H; subst; cbn [calls];
        right; exists [ConnectTendermint; ConnectWithSigner];
        (split; [reflexivity |]); right; right; (split; [reflexivity |]).
      * left. eexists. split; [reflexivity |].
        unfold signing_client_of. cbn [walletAddress signingClient]. auto.
      * right. eauto.
    + inversion H; subst; cbn [calls]. right. exists [ConnectWithSigner].
      split; [reflexivity |]. left. eauto.
  - cbv beta iota in H. cbn [clock polls calls] in H.
    destruct (tendermint env) as [[] | e] eqn:E3; inversion H; subst; cbn [calls];
      right; exists [ConnectTendermint]; (split; [reflexivity |]); right; left;
      (split; [reflexivity |]); [left; reflexivity | right; eauto].
  - inversion H; subst. left. eauto.
Qed.

Lemma client_calls_connect : forall init c,
  client_calls init -> In c init -> c = ConnectWithSigner \/ c = ConnectTendermint.
Proof.
  intros init c [-> | [-> | ->]] F; cbn [In] in F;
    repeat match goal with
           | G : _ \/ _ |- _ => destruct G
           | G : False |- _ => destruct G
           end; auto.
Qed.

Lemma client_calls_no_disconnect : forall init, client_calls init -> ~ In Disconnect init.
Proof.
  intros init [-> | [-> | ->]] F; cbn [In] in F;
    repeat match goal with
           | G : _ \/ _ |- _ => destruct G
           | G : False |- _ => destruct G
           | G : _ = Disconnect |- _ => discriminate G
           end.
Qed.

(** How far a run of deployment create got, read off its calls. *)
Lemma execute_stages : forall fuel sdl deposit options w' res,
  execute fuel env sdl deposit options world0 = Some (w', res) ->
  (calls w' = [] /\ forall r, res <> Ok (Created r)) \/
  (validated env sdl /\ is_true (validateOnly options) = false /\
   exists later init,
     calls w' = (later ++ init)%list /\ client_calls init /\
     (later <> [] ->
      height_asked env sdl /\ init = [ConnectTendermint; ConnectWithSigner] /\
      exists l, later = (l ++ [ConnectQuery])%list) /\
     ((~ In Disconnect later /\ exists e, res = Throw e) \/
      (exists rest r,
         later = Disconnect :: rest /\ ~ In Disconnect rest /\
         res = match disconnect_reply env with
               | Ok _ => Ok (Created r)
               | Throw e => Throw e
               end))).
Proof.
  intros fuel sdl deposit options w' res H. unfold execute in H.
  run_step H; [run_lift R | apply lift_run in R; destruct R as [-> _]; subst res;
                            left; split; [reflexivity | discriminate]].
  destruct (negb (valid (validateSDL a))) eqn:Ev.
  { inversion H. subst. left. split; [reflexivity | discriminate]. }
  destruct (is_true (validateOnly options)) eqn:Eo.
  { left. repeat (run_step H; [run_lift R | apply lift_run in R; destruct R as [-> _];
                                           subst res; split; [reflexivity | discriminate]]).
    apply ret_run in H. destruct H as [-> ->]. split; [reflexivity | discriminate]. }
  apply negb_false_iff in Ev.
  assert (Hval : validated env sdl) by (exists a; split; assumption).
  assert (Hstop : forall init e,
            client_calls init ->
            calls w' = init -> res = Throw e ->
            validated env sdl /\ false = false /\
            exists later init,
              calls w' = (later ++ init)%list /\ client_calls init /\
              (later <> [] ->
               height_asked env sdl /\ init = [ConnectTendermint; ConnectWithSigner] /\
               exists l, later = (l ++ [ConnectQuery])%list) /\
              ((~ In Disconnect later /\ exists e, res = Throw e) \/
               (exists rest r,
                  later = Disconnect :: rest /\ ~ In Disconnect rest /\
                  res = match disconnect_reply env with
                        | Ok _ => Ok (Created r)
                        | Throw e => Throw e
                        end))).
  { intros init e Hi Hc Hr. split; [exact Hval |]. split; [reflexivity |].
    exists [], init. split; [exact Hc |]. split; [exact Hi |].
    split; [intro F; now destruct F |]. left. split; [intros [] | eauto]. }
  run_step H.
  2: { destruct (createCosmosClient_calls _ _ _ R)
         as [[Hc _] | (init & Hc & [[-> _] | [[-> _] | [-> _]]])];
         cbn [calls world0 app] in Hc.
       - left. split; [exact Hc | subst res; discriminate].
       - right. eapply Hstop; [left; reflexivity | exact Hc | exact H].
       - right. eapply Hstop; [right; left; reflexivity | exact Hc | exact H].
       - right. eapply Hstop; [right; right; reflexivity | exact Hc | exact H]. }
  right.
  destruct (createCosmosClient_calls _ _ _ R)
    as [[_ [e F]] | (init & Hc0 & Hinit)]; [discriminate F |].
  cbn [calls world0] in Hc0. rewrite app_nil_r in Hc0.
  assert (Hi : client_calls init).
  { destruct Hinit as [[-> _] | [[-> _] | [-> _]]];
      [left | right; left | right; right]; reflexivity. }
  assert (Hsc : forall owner, require_signing a0 = Ok owner ->
                  signing_client_of env a0 /\ init = [ConnectTendermint; ConnectWithSigner]).
  { intros owner Hs.
    destruct Hinit as [[_ [e F]] | [[_ [F | [e F]]] | [-> [(c & F & Hc) | [e F]]]]];
      try discriminate F.
    - inversion F; subst a0. apply signing_client in Hs. discriminate Hs.
    - inversion F; subst c. auto. }
  clear R Hinit.
  run_step H; [run_lift R | apply lift_run in R; destruct R as [-> _]; subst res;
                            eapply Hstop; [exact Hi | exact Hc0 | reflexivity]].
  assert (Hstage : forall w1 r0,
            createDeployment env a0 sdl (number_to_string deposit) w = Some (w1, r0) ->
            (calls w1 = init /\ exists e, r0 = Throw e) \/
            (height_asked env sdl /\ init = [ConnectTendermint; ConnectWithSigner] /\
             exists owner, require_signing a0 = Ok owner /\
             ((exists l, calls w1 = ((l ++ [ConnectQuery]) ++ init)%list /\
                         ~ In Disconnect l /\ exists e, r0 = Throw e) \/
              (exists m, calls w1 = ([SignAndBroadcast m; GetHeight; ConnectQuery]
                                     ++ init)%list)))).
  { intros w1 r0 Hc.
    destruct (createDeployment_calls _ _ _ _ _ _ Hc)
      as [[Hn He] | (owner & parsed & groups & Hs & Hp & Hg & Hrest)].
    - left. rewrite Hn, Hc0. auto.
    - right. destruct (Hsc _ Hs) as [Hcl Hin]. split; [| split; [exact Hin |]].
      + exists a, a0, owner, groups. rewrite E in Hp. inversion Hp; subst parsed.
        destruct a1. auto 10.
      + exists owner. split; [exact Hs |]. rewrite Hc0 in Hrest.
        destruct Hrest as [[Hc1 He] | [[Hc1 He] | (h & coin & _ & _ & Hc1 & _)]].
        * left. exists []. split; [exact Hc1 |]. split; [intros [] | exact He].
        * left. exists [GetHeight]. split; [exact Hc1 |].
          split; [intros [F | []]; discriminate F | exact He].
        * right. eauto. }
  split; [exact Hval |]. split; [reflexivity |].
  run_step H.
  2: { subst res.
       destruct (Hstage _ _ R)
         as [[Hc _] | (Hh & Hin & owner & _ & [(l & Hc & Hd & He) | [m Hc]])].
       - exists [], init. split; [exact Hc |]. split; [exact Hi |].
         split; [intro F; now destruct F |]. left. split; [intros [] | eauto].
       - exists (l ++ [ConnectQuery])%list, init. split; [exact Hc |].
         split; [exact Hi |]. split; [intros _; split; [exact Hh | split; [exact Hin | eauto]] |].
         left. split; [| eauto]. intro F. apply in_app_or in F.
         destruct F as [F | [F | []]]; [now apply Hd | discriminate F].
       - exists [SignAndBroadcast m; GetHeight; ConnectQuery], init. split; [exact Hc |].
         split; [exact Hi |].
         split; [intros _; split; [exact Hh |]; split; [exact Hin |];
                 exists [SignAndBroadcast m; GetHeight]; reflexivity |].
         left. split; [| eauto]. intros [F | [F | [F | []]]]; discriminate F. }
  destruct a2 as [tx dseq].
  destruct (Hstage _ _ R)
    as [[_ [e He]] | (Hh & Hin & owner & Hsig & [(l & _ & _ & [e He]) | [m Hc]])];
    try discriminate He.
  clear Hstage R.
  set (base := [SignAndBroadcast m; GetHeight; ConnectQuery]) in *.
  assert (Hbase : ~ In Disconnect base).
  { intros [F | [F | [F | []]]]; discriminate F. }
  assert (Hfrom : forall new,
            height_asked env sdl /\ init = [ConnectTendermint; ConnectWithSigner] /\
            exists l, (new ++ base)%list = (l ++ [ConnectQuery])%list).
  { intros new. split; [exact Hh |]. split; [exact Hin |].
    exists (new ++ [SignAndBroadcast m; GetHeight])%list.
    unfold base. rewrite <- app_assoc. reflexivity. }
  run_step H; [run_lift R | apply lift_run in R; destruct R as [-> _]; subst res;
                            exists base, init; split; [exact Hc |];
                            split; [exact Hi |];
                            split; [intros _; exact (Hfrom []) |];
                            left; split; [exact Hbase | eauto]].
  assert (Hwal : getWalletAddress a0 = Ok a2) by assumption.
  run_step H.
  2: { subst res.
       destruct (bidding_calls _ _ _ _ _ _ _ _ _ _ Hwal R) as [new [Hn Hd]].
       exists (new ++ base)%list, init. split.
       - rewrite Hn, Hc, <- app_assoc. reflexivity.
       - split; [exact Hi |]. split; [intros _; exact (Hfrom new) |].
         left. split; [| eauto]. intro F. apply in_app_or in F.
         destruct F as [F | F]; [now apply Hd | now apply Hbase]. }
  destruct (bidding_calls _ _ _ _ _ _ _ _ _ _ Hwal R) as [new [Hn Hd]].
  assert (Hrest : ~ In Disconnect (new ++ base)%list).
  { intro F. apply in_app_or in F.
    destruct F as [F | F]; [now apply Hd | now apply Hbase]. }
  exists (Disconnect :: new ++ base)%list, init.
  pose proof (signing_client _ _ Hsig) as Hs.
  assert (Hlater : Disconnect :: (new ++ base)%list <> [] ->
            height_asked env sdl /\ init = [ConnectTendermint; ConnectWithSigner] /\
            exists l, Disconnect :: (new ++ base)%list = (l ++ [ConnectQuery])%list).
  { intros _. split; [exact Hh |]. split; [exact Hin |].
    exists (Disconnect :: new ++ [SignAndBroadcast m; GetHeight])%list.
    unfold base. rewrite <- app_comm_cons, <- app_assoc. reflexivity. }
  run_step H.
  - destruct (disconnect_run env _ _ _ _ Hs R0) as [-> Hr].
    apply ret_run in H. destruct H as [-> ->]. cbn [calls]. split.
    + rewrite Hn, Hc, <- app_comm_cons, <- app_assoc. reflexivity.
    + split; [exact Hi |]. split; [exact Hlater |].
      right. eexists (new ++ base)%list, _.
      split; [reflexivity |]. split; [exact Hrest |]. rewrite <- Hr. reflexivity.
  - destruct (disconnect_run env _ _ _ _ Hs R0) as [-> Hr]. subst res. cbn [calls]. split.
    + rewrite Hn, Hc, <- app_comm_cons, <- app_assoc. reflexivity.
    + split; [exact Hi |]. split; [exact Hlater |].
      right. exists (new ++ base)%list, (first_response tx owner 0 deposit).
      split; [reflexivity |]. split; [exact Hrest |]. rewrite <- Hr. reflexivity.
Qed.

End Stages.

(** Deployment create makes no call before the manifest has parsed and
    passed validation, and none at all when only validation is asked for.
    Its first call opens a connection of the chain client.  A call other
    than the client's two connections is made only when both of them are
    open, the console client exists, the wallet can sign and the manifest
    converted to groups; the first such call is the connection through
    which the height is asked. *)
Theorem execute_sends_nothing_unless_valid : forall fuel env sdl deposit options w' res,
  execute fuel env sdl deposit options world0 = Some (w', res) ->
  trace w' <> [] ->
  validated env sdl /\ is_true (validateOnly options) = false /\
  (exists rest,
     trace w' = ConnectWithSigner :: rest \/ trace w' = ConnectTendermint :: rest) /\
  (forall c, In c (trace w') -> c <> ConnectWithSigner -> c <> ConnectTendermint ->
     height_asked env sdl /\
     exists rest,
       trace w' = ConnectWithSigner :: ConnectTendermint :: ConnectQuery :: rest).
Proof.
  intros fuel env sdl deposit options w' res H Hne.
  destruct (execute_stages env _ _ _ _ _ _ H)
    as [[Hc _] | (Hh & Hv & later & init & Hc & Hi & Hl & _)].
  - exfalso. apply Hne. unfold trace. rewrite Hc. reflexivity.
  - split; [exact Hh |]. split; [exact Hv |].
    assert (Ht : trace w' = (rev init ++ rev later)%list).
    { unfold trace. rewrite Hc. apply rev_app_distr. }
    split.
    + exists (tl (rev init) ++ rev later)%list. rewrite Ht.
      destruct Hi as [-> | [-> | ->]]; cbn [rev app tl]; auto.
    + intros c Hin H1 H2. rewrite Ht in Hin. apply in_app_or in Hin.
      destruct Hin as [Hin | Hin].
      * exfalso. apply in_rev in Hin.
        destruct Hi as [-> | [-> | ->]]; cbn [In] in Hin;
          repeat match goal with
                 | G : _ \/ _ |- _ => destruct G
                 | G : False |- _ => destruct G
                 end; congruence.
      * destruct later as [| c' later']; [destruct Hin |].
        destruct (Hl ltac:(discriminate)) as (Ha & -> & l & El). split; [exact Ha |].
        exists (rev l). rewrite Ht, El, rev_app_distr. reflexivity.
Qed.

Lemma execute_sends_nothing_unless_valid_witness :
  exists w' res,
    execute 100 env_rpc_down "sdl" (num 5) options0 world0 = Some (w', res) /\
    trace w' <> [] /\
    validated env_rpc_down "sdl" /\ is_true (validateOnly options0) = false /\
    (exists rest,
       trace w' = ConnectWithSigner :: rest \/ trace w' = ConnectTendermint :: rest) /\
    (forall c, In c (trace w') -> c <> ConnectWithSigner -> c <> ConnectTendermint ->
       height_asked env_rpc_down "sdl" /\
       exists rest,
         trace w' = ConnectWithSigner :: ConnectTendermint :: ConnectQuery :: rest).
Proof.
  assert (E : exists w' res,
             execute 100 env_rpc_down "sdl" (num 5) options0 world0 = Some (w', res) /\
             trace w' <> []).
  { vm_compute. eexists. eexists. split; [reflexivity | discriminate]. }
  destruct E as (w' & res & E & Hne). exists w', res.
  split; [exact E |]. split; [exact Hne |].
  exact (execute_sends_nothing_unless_valid 100 env_rpc_down "sdl" (num 5) options0 w' res
           E Hne).
Defined.

(** Deployment create disconnects the signing client as its last step
    and only there: a run that returns a response ends with exactly one
    [disconnect], and a run that fails has called [disconnect] only if
    the failure is the error of [disconnect] itself.  A failure of any
    earlier step leaves the client connected. *)
Theorem execute_disconnects_last : forall fuel env sdl deposit options w' res,
  execute fuel env sdl deposit options world0 = Some (w', res) ->
  (forall r, res = Ok (Created r) ->
     exists before, trace w' = (before ++ [Disconnect])%list /\ ~ In Disconnect before) /\
  (forall e, res = Throw e -> In Disconnect (trace w') ->
     disconnect_reply env = Throw e /\
     exists before, trace w' = (before ++ [Disconnect])%list /\ ~ In Disconnect before).
Proof.
  intros fuel env sdl deposit options w' res H.
  destruct (execute_stages env _ _ _ _ _ _ H)
    as [[Hc Hn]
       | (_ & _ & later & init & Hc & Hi & _
          & [[Hd [e He]] | (rest & r & -> & Hd & Hr)])].
  - split.
    + intros r Hr. now destruct (Hn r).
    + intros e _ Hin. apply trace_calls in Hin. rewrite Hc in Hin. destruct Hin.
  - split.
    + intros r Hr. rewrite He in Hr. discriminate Hr.
    + intros e' _ Hin. exfalso. apply trace_calls in Hin. rewrite Hc in Hin.
      apply in_app_or in Hin.
      destruct Hin as [Hin | Hin];
        [now apply Hd | now apply (client_calls_no_disconnect init Hi)].
  - assert (Ht : trace w' = ((rev init ++ rev rest) ++ [Disconnect])%list).
    { unfold trace. rewrite Hc, rev_app_distr. cbn [rev]. apply app_assoc. }
    assert (Hb : ~ In Disconnect (rev init ++ rev rest)%list).
    { intro F. apply in_app_or in F. destruct F as [F | F]; apply in_rev in F.
      - now apply (client_calls_no_disconnect init Hi).
      - now apply Hd. }
    split.
    + intros r' _. eauto.
    + intros e He _. split; [| eauto].
      destruct (disconnect_reply env) as [u | e0]; [rewrite He in Hr; discriminate Hr |].
      rewrite He in Hr. inversion Hr. reflexivity.
Qed.

Lemma execute_disconnects_last_witness :
  exists w' r,
    execute 100 env_one_bid "sdl" (num 5) options0 world0 = Some (w', Ok (Created r)) /\
    exists before, trace w' = (before ++ [Disconnect])%list /\ ~ In Disconnect before.
Proof.
  assert (E : exists w' r,
             execute 100 env_one_bid "sdl" (num 5) options0 world0
             = Some (w', Ok (Created r))).
  { vm_compute. eexists. eexists. reflexivity. }
  destruct E as (w' & r & E). exists w', r. split; [exact E |].
  exact (proj1 (execute_disconnects_last 100 env_one_bid "sdl" (num 5) options0 w' _ E)
           r eq_refl).
Defined.

(** With [autoAcceptBid] false, deployment create that returns a response
    has made exactly six calls: the two connections of the chain client,
    the connection for the query, [getHeight], the broadcast of the
    deployment message and [disconnect].  It does not poll for bids, and the response has no
    [bidsReceived], [lease], [manifestSent] or [message].  Stated for a
    deposit of [n] millionths of AKT, [n] whole and below 10^15 in size,
    for which the response prints the deposit in positional notation. *)
Theorem execute_without_auto_accept : forall fuel env sdl d n options w' r,
  autoAcceptBid options = Some false ->
  dec_to_Q d * 1000000 == inject_Z n -> Z.abs n < 10 ^ 15 ->
  execute fuel env sdl (Fin d) options world0 = Some (w', Ok (Created r)) ->
  exists parsed owner h groups coin tx,
    parseSDL (yaml env) sdl = Ok parsed /\
    signAndBroadcast env (deployment_message env parsed owner h groups coin) = Ok tx /\
    trace w' = [ConnectWithSigner; ConnectTendermint; ConnectQuery; GetHeight;
                SignAndBroadcast (deployment_message env parsed owner h groups coin);
                Disconnect] /\
    polls w' = 0%nat /\ clock w' = 0 /\
    r = first_response tx owner h (Fin d).
Proof.
  intros fuel env sdl d n options w' r Hoff _ _ H.
  apply execute_created in H.
  destruct H as (parsed & client & owner & groups & h & coin & tx & Hparse & _ & _ & _ & _
                 & Htx & w2 & Hrun & Hw').
  rewrite Hoff in Hrun. cbn [is_false negb] in Hrun. destruct Hrun as [-> ->].
  exists parsed, owner, h, groups, coin, tx. subst w'.
  split; [exact Hparse |]. split; [exact Htx |]. repeat split.
Qed.

Lemma execute_without_auto_accept_witness :
  dec_to_Q (mkDec 5 0) * 1000000 == inject_Z 5000000 /\ Z.abs 5000000 < 10 ^ 15 /\
  exists w' r,
    execute 0 env_one_bid "sdl" (Fin (mkDec 5 0))
      (mkOptions (Some false) None None None None None) world0
    = Some (w', Ok (Created r)) /\
    bidsReceived r = None /\ lease r = None /\ polls w' = 0%nat /\
    r_deposit r = "5 AKT".
Proof.
  split; [reflexivity |]. split; [reflexivity |].
  assert (E : exists w' r,
             execute 0 env_one_bid "sdl" (Fin (mkDec 5 0))
               (mkOptions (Some false) None None None None None) world0
             = Some (w', Ok (Created r))).
  { vm_compute. eexists. eexists. reflexivity. }
  destruct E as (w' & r & E). exists w', r. split; [exact E |].
  destruct (execute_without_auto_accept 0 env_one_bid "sdl" (mkDec 5 0) 5000000
              (mkOptions (Some false) None None None None None) w' r eq_refl
              eq_refl eq_refl E)
    as (parsed & owner & h & groups & coin & tx & _ & _ & _ & Hp & _ & ->).
  repeat split. exact Hp.
Defined.

Section PollingEnds.

Variable env : Env.
Variable client : CosmosClient.
Variable options : CreateOptions.
Variable dseq : string.
Variable owner : string.
Hypothesis Hwallet : getWalletAddress client = Ok owner.

Lemma round_bids : forall elapsed st reply stop st1,
  round_outcome options elapsed st reply = (stop, st1) ->
  bids st1 = match reply with Ok l => l | Throw _ => bids st end.
Proof.
  intros elapsed st reply stop st1 H. unfold round_outcome in H.
  destruct reply as [l | e]; [| inversion H; reflexivity].
  destruct (0 <? List.length l)%nat; [| inversion H; reflexivity].
  destruct (preferredBid options (eligibleBids options l)); [inversion H; reflexivity |].
  destruct (eligibleBids options l); inversion H; reflexivity.
Qed.

Lemma round_stop : forall k elapsed st stop st1,
  round_outcome options elapsed st (getBids_reply env k) = (stop, st1) ->
  stop = true -> exists b, bestBid st1 = Some b /\ left_with env options k elapsed b.
Proof.
  intros k elapsed st stop st1 H Hs. subst stop. unfold round_outcome in H.
  destruct (getBids_reply env k) as [l | e] eqn:Er; [| discriminate H].
  destruct (0 <? List.length l)%nat; [| discriminate H].
  destruct (preferredBid options (eligibleBids options l)) as [p |] eqn:Ep.
  - inversion H; subst st1. exists p. split; [reflexivity |]. exists l. auto.
  - destruct (eligibleBids options l) as [| first rest] eqn:Ee; [discriminate H |].
    inversion H as [[Ht Hst]]. exists (lowestBid first rest). split; [reflexivity |].
    exists l. split; [exact Er |]. right. rewrite Ee. split; [exact Ep |].
    split; [apply Z.gtb_lt in Ht; lia |]. eauto.
Qed.

(** When the loop is left, the wait has run out or the last round has
    left it with a bid; the bids kept are those of the last reply. *)
Lemma poll_loop_exit : forall start W fuel st w w' st',
  poll_loop fuel env client options dseq start W st w = Some (w', Ok st') ->
  (polls w <= polls w')%nat /\
  last_reply env (polls w) (polls w') (bids st) (bids st') /\
  (number_lt (num (clock w' - start)) W = false \/
   ((polls w < polls w')%nat /\
    exists b, bestBid st' = Some b /\
              left_with env options (pred (polls w')) (clock w' - start) b)).
Proof.
  intros start W. induction fuel as [| fuel IH]; intros st w w' st' H.
  - cbn [poll_loop] in H. unfold bindM, Date_now in H.
    destruct (number_lt (num (clock w - start)) W) eqn:Et; [discriminate H |].
    unfold ret in H. inversion H; subst w' st'.
    split; [lia |]. split; [| now left].
    left. split; [reflexivity |]. intros j Hj. lia.
  - cbn [poll_loop] in H. unfold bindM at 1, Date_now in H.
    destruct (number_lt (num (clock w - start)) W) eqn:Et.
    2:{ unfold ret in H. inversion H; subst w' st'.
        split; [lia |]. split; [| now left].
        left. split; [reflexivity |]. intros j Hj. lia. }
    unfold bindM in H. rewrite (poll_round_run env client options dseq owner Hwallet) in H.
    set (w1 := world_after_round env owner dseq w) in *.
    assert (Hpolls : polls w1 = S (polls w)) by reflexivity.
    destruct (round_outcome options (clock w1 - start) st (getBids_reply env (polls w)))
      as [stop st1] eqn:Eo.
    pose proof (round_bids _ _ _ _ _ Eo) as Hb.
    assert (Hlast : last_reply env (polls w) (polls w1) (bids st) (bids st1)).
    { rewrite Hpolls, Hb. destruct (getBids_reply env (polls w)) as [l | e] eqn:Er.
      - right. exists (polls w). split; [lia |]. split; [exact Er |]. intros j' Hj'. lia.
      - left. split; [reflexivity |]. intros j Hj.
        assert (j = polls w) by lia. subst j. eauto. }
    destruct stop.
    + unfold ret in H. inversion H; subst w' st'.
      split; [lia |]. split; [exact Hlast |]. right. split; [lia |].
      rewrite Hpolls. cbn [pred]. eapply round_stop; [exact Eo | reflexivity].
    + destruct (IH st1 w1 w' st' H) as (Hle & Hl & Hend).
      split; [lia |]. split.
      * rewrite Hpolls in Hl, Hlast.
        destruct Hl as [[El Hall] | (j & Hj & Er & Hall)].
        -- rewrite El. destruct Hlast as [[E0 H0] | (j0 & Hj0 & Er0 & H0)].
           ++ left. split; [exact E0 |]. intros j Hj.
              destruct (Nat.eq_dec j (polls w)) as [-> | Hn];
                [apply H0; lia | apply Hall; lia].
           ++ right. exists j0. split; [lia |]. split; [exact Er0 |].
              intros j' Hj'. apply Hall. lia.
        -- right. exists j. split; [lia |]. split; [exact Er |]. exact Hall.
      * destruct Hend as [Hw | (Hlt & b & Hb' & Hleft)]; [now left |].
        right. split; [lia |]. eauto.
Qed.

End PollingEnds.

Section AfterPolling.

Variable env : Env.

(** The lease branch takes no time in the model and polls no more. *)
Lemma accept_bid_world : forall client options parsed dseq response best w w' res,
  accept_bid env client options parsed dseq response best w = Some (w', res) ->
  polls w' = polls w /\ clock w' = clock w.
Proof.
  intros client options parsed dseq response [b |] w w' res H.
  - unfold accept_bid, createLease, broadcast, sendManifest, try_catch, bindM, lift, log, ret
      in H.
    cbv beta iota in H. cbn [clock polls calls] in H.
    destruct (require_signing client) as [owner | e] eqn:E1;
      [| inversion H; subst; split; reflexivity].
    rewrite (signing_wallet _ _ E1) in H.
    destruct (signAndBroadcast env _) as [tx | e] eqn:E2;
      [| inversion H; subst; split; reflexivity].
    destruct (negb (is_false (opt_sendManifest options)) && (code tx =? 0));
      cbv beta iota in H; cbn [clock polls calls] in H;
      [destruct (sdlToManifest parsed) as [manifest | e];
         [destruct (sendManifest_reply env owner dseq _ manifest) |] |];
      inversion H; subst; split; reflexivity.
  - apply ret_run in H. destruct H as [-> _]. split; reflexivity.
Qed.

(** What the lease branch leaves of the response it was given. *)
Lemma accept_bid_response : forall client options parsed dseq response best w w' r,
  accept_bid env client options parsed dseq response best w = Some (w', Ok r) ->
  bidsReceived r = bidsReceived response /\
  (lease r = Some None -> best = None).
Proof.
  intros client options parsed dseq response best w w' r H.
  destruct (accept_bid_run env _ _ _ _ _ _ _ _ _ H) as [_ Hr]. specialize (Hr r eq_refl).
  destruct best as [b |].
  - destruct Hr as (owner & tx & _ & _ & Hr). cbv zeta in Hr.
    destruct (negb (is_false (opt_sendManifest options)) && (code tx =? 0)).
    + destruct (sdlToManifest parsed) as [manifest | e].
      * destruct Hr as [_ ->].
        destruct (sendManifest_reply env owner dseq _ manifest);
          (split; [reflexivity | discriminate]).
      * destruct Hr as [_ ->]. split; [reflexivity | discriminate].
    + destruct Hr as [_ ->]. split; [reflexivity | discriminate].
  - destruct Hr as [_ ->]. split; reflexivity.
Qed.

(** The polling part of a run with auto-accept that returns a response. *)
Lemma execute_polled : forall fuel sdl deposit options w' r,
  autoAcceptBid options <> Some false ->
  execute fuel env sdl deposit options world0 = Some (w', Ok (Created r)) ->
  exists client owner dseq parsed response w0 w1 w2 st,
    getWalletAddress client = Ok owner /\
    clock w0 = 0 /\ polls w0 = 0%nat /\
    poll_bids fuel env client options dseq w0 = Some (w1, Ok st) /\
    accept_bid env client options parsed dseq
      (set_bidsReceived response (List.length (bids st))) (bestBid st) w1
    = Some (w2, Ok r) /\
    polls w' = polls w1 /\ clock w' = clock w1.
Proof.
  intros fuel sdl deposit options w' r Hauto H.
  apply execute_created in H.
  destruct H as (parsed & client & owner & groups & h & coin & tx & _ & _ & Hsig & _ & _
                 & _ & w2 & Hrun & Hw').
  rewrite (auto_accept _ Hauto) in Hrun. destruct Hrun as (w1 & st & Hp & Ha).
  destruct (accept_bid_world _ _ _ _ _ _ _ _ _ Ha) as [Hpl Hcl].
  exists client, owner, (Z_to_string h), parsed, (first_response tx owner h deposit),
    (world_deployed world0 (deployment_message env parsed owner h groups coin)), w1, w2, st.
  split; [now apply signing_wallet |]. split; [reflexivity |]. split; [reflexivity |].
  split; [exact Hp |]. split; [exact Ha |]. subst w'. cbn [polls clock]. auto.
Qed.

End AfterPolling.

(** Deployment create gives up on bids only when the wait has run out:
    a response without a lease is returned after at least [bidWaitTime]
    seconds of polling.  A lease is created earlier than that only for the
    bid with which the last round left the loop: the first eligible bid of
    the preferred provider, or the lowest eligible bid once more than 30
    seconds have passed. *)
Theorem execute_waits_for_bids : forall fuel env sdl deposit options w' r,
  autoAcceptBid options <> Some false ->
  execute fuel env sdl deposit options world0 = Some (w', Ok (Created r)) ->
  (lease r = Some None -> waited_out options (clock w')) /\
  (forall l, lease r = Some (Some l) ->
     waited_out options (clock w') \/
     exists b, lease_of_bid l b /\
               left_with env options (pred (polls w')) (clock w') b).
Proof.
  intros fuel env sdl deposit options w' r Hauto H.
  destruct (execute_polled env _ _ _ _ _ _ Hauto H)
    as (client & owner & dseq & parsed & response & w0 & w1 & w2 & st
        & Hw & Hc0 & Hp0 & Hpoll & Hacc & Hpl & Hcl).
  unfold poll_bids, bindM, Date_now in Hpoll. rewrite Hc0 in Hpoll.
  destruct (poll_loop_exit env client options dseq owner Hw _ _ _ _ _ _ _ Hpoll)
    as (_ & _ & Hend).
  rewrite Z.sub_0_r in Hend. rewrite Hpl, Hcl. unfold waited_out.
  split.
  - intro Hnone.
    destruct (accept_bid_response env _ _ _ _ _ _ _ _ _ Hacc) as [_ Hb].
    specialize (Hb Hnone).
    destruct Hend as [Hwait | (_ & b & Hsome & _)]; [exact Hwait |].
    rewrite Hb in Hsome. discriminate Hsome.
  - intros l Hl.
    destruct (accepted_lease _ _ _ _ _ _ _ _ _ _ _ Hacc Hl) as (b & Hb & Hlb).
    destruct Hend as [Hwait | (_ & b' & Hsome & Hleft)]; [now left |].
    right. rewrite Hb in Hsome. inversion Hsome; subst b'. eauto.
Qed.

Lemma execute_waits_for_bids_witness :
  exists w' r,
    execute 100 env_console_down "sdl" (num 5) options0 world0
    = Some (w', Ok (Created r)) /\
    lease r = Some None /\ waited_out options0 (clock w') /\ clock w' = 120000.
Proof.
  assert (E : exists w' r,
             execute 100 env_console_down "sdl" (num 5) options0 world0
             = Some (w', Ok (Created r)) /\ lease r = Some None /\ clock w' = 120000).
  { vm_compute. eexists. eexists. repeat split. }
  destruct E as (w' & r & E & Hl & Hc). exists w', r.
  split; [exact E |]. split; [exact Hl |]. split; [| exact Hc].
  exact (proj1 (execute_waits_for_bids 100 env_console_down "sdl" (num 5) options0 w' r
                  ltac:(discriminate) E) Hl).
Defined.

(** [bidsReceived] in the response of deployment create is the number of
    bids in the last reply that [getBids] gave, eligible or not, and 0
    when every request failed; bids of earlier replies are not counted. *)
Theorem execute_bidsReceived_is_last_reply : forall fuel env sdl deposit options w' r,
  autoAcceptBid options <> Some false ->
  execute fuel env sdl deposit options world0 = Some (w', Ok (Created r)) ->
  exists l, bidsReceived r = Some (List.length l) /\ last_reply env 0 (polls w') [] l.
Proof.
  intros fuel env sdl deposit options w' r Hauto H.
  destruct (execute_polled env _ _ _ _ _ _ Hauto H)
    as (client & owner & dseq & parsed & response & w0 & w1 & w2 & st
        & Hw & Hc0 & Hp0 & Hpoll & Hacc & Hpl & Hcl).
  unfold poll_bids, bindM, Date_now in Hpoll.
  destruct (poll_loop_exit env client options dseq owner Hw _ _ _ _ _ _ _ Hpoll)
    as (_ & Hlast & _).
  cbn [bids] in Hlast. rewrite Hp0 in Hlast.
  destruct (accept_bid_response env _ _ _ _ _ _ _ _ _ Hacc) as [Hb _].
  exists (bids st). rewrite Hb, Hpl. split; [reflexivity | exact Hlast].
Qed.

Lemma execute_bidsReceived_is_last_reply_witness :
  exists w' r,
    execute 100 env_two_bids "sdl" (num 5) options0 world0 = Some (w', Ok (Created r)) /\
    exists l, bidsReceived r = Some (List.length l) /\ last_reply env_two_bids 0 (polls w') [] l.
Proof.
  assert (E : exists w' r,
             execute 100 env_two_bids "sdl" (num 5) options0 world0
             = Some (w', Ok (Created r))).
  { vm_compute. eexists. eexists. reflexivity. }
  destruct E as (w' & r & E). exists w', r. split; [exact E |].
  exact (execute_bidsReceived_is_last_reply 100 env_two_bids "sdl" (num 5) options0 w' r
           ltac:(discriminate) E).
Defined.

Section GroupsAndManifest.

Lemma mapM_pair : forall A B C (f : A -> result B) (g : A -> result C) (P : B -> C -> Prop),
  (forall a b c, f a = Ok b -> g a = Ok c -> P b c) ->
  forall l bs cs, mapM f l = Ok bs -> mapM g l = Ok cs -> Forall2 P bs cs.
Proof.
  intros A B C f g P Hfg. induction l as [| a l IH]; intros bs cs Hf Hg;
    cbn [mapM] in Hf, Hg.
  - inversion Hf. inversion Hg. constructor.
  - repeat bind_ok Hf. repeat bind_ok Hg. inversion Hf. inversion Hg. subst.
    constructor; eauto.
Qed.

Lemma mapMi_pair : forall A B C (f : nat -> A -> result B) (g : nat -> A -> result C)
  (P : B -> C -> Prop),
  (forall i a b c, f i a = Ok b -> g i a = Ok c -> P b c) ->
  forall l i bs cs, mapMi_from i f l = Ok bs -> mapMi_from i g l = Ok cs -> Forall2 P bs cs.
Proof.
  intros A B C f g P Hfg. induction l as [| a l IH]; intros i bs cs Hf Hg;
    cbn [mapMi_from] in Hf, Hg.
  - inversion Hf. inversion Hg. constructor.
  - repeat bind_ok Hf. repeat bind_ok Hg. inversion Hf. inversion Hg. subst.
    constructor; eauto.
Qed.

Lemma storage_pair : forall i os sr ms,
  convertStorage i os = Ok sr -> convertManifestStorage i os = Ok ms -> same_storage sr ms.
Proof.
  intros i os sr ms H1 H2. unfold convertStorage in H1. unfold convertManifestStorage in H2.
  repeat bind_ok H1. repeat bind_ok H2. same_ok. split; reflexivity.
Qed.

Variable sdl : ISDLManifest.

Lemma resources_pair : forall pp entry rg ms,
  groupResource sdl pp entry = Ok rg -> manifestService sdl entry = Ok ms ->
  same_resources rg ms.
Proof.
  intros pp [serviceName config] rg ms H1 H2.
  unfold groupResource in H1. unfold manifestService in H2.
  repeat bind_ok H1. repeat bind_ok H2. same_ok.
  match goal with
  | Hc : convertResources _ _ = Ok _ |- _ => unfold convertResources in Hc; repeat bind_ok Hc
  end.
  match goal with
  | Hc : convertManifestResources _ = Ok _ |- _ =>
      unfold convertManifestResources in Hc; repeat bind_ok Hc
  end.
  same_ok.
  unfold same_resources. cbn [rg_resources rg_count msv_resources msv_count ru_cpu ru_memory
                              ru_storage ru_gpu mr_cpu_units mr_memory_size mr_storage mr_gpu].
  split; [| split; [reflexivity | split; [| split; [| reflexivity]]]].
  - reflexivity.
  - eapply (mapMi_pair _ _ _ _ _ same_storage storage_pair); eassumption.
  - unfold same_gpu.
    match goal with
    | |- context [gpu ?r] => destruct (gpu r) as [g |]; [| exact I]
    end.
    destruct (gpu_units g) as [gu |]; [| exact I].
    destruct (number_gt gu (num 0)); [reflexivity | exact I].
Qed.

Lemma group_pair : forall entry g m,
  groupOfPlacement sdl entry = Ok g -> manifestGroup sdl entry = Ok m -> same_group g m.
Proof.
  intros [placementName pl] g m H1 H2.
  unfold groupOfPlacement in H1. unfold manifestGroup in H2.
  repeat bind_ok H1. repeat bind_ok H2. same_ok.
  split; [reflexivity |]. cbn [gs_resources mgr_services].
  eapply (mapM_pair _ _ _ _ _ same_resources (resources_pair _)); eassumption.
Qed.

End GroupsAndManifest.

(** The groups put on chain and the manifest sent to the provider agree:
    when both conversions of a manifest succeed, they list the same
    placements in the same order, and for every service the same cpu
    units, memory size, storage names and sizes, gpu units and count. *)
Theorem groups_and_manifest_agree : forall sdl groups manifest,
  sdlToGroups sdl = Ok groups -> sdlToManifest sdl = Ok manifest ->
  Forall2 same_group groups manifest.
Proof.
  intros sdl groups manifest H1 H2. unfold sdlToGroups in H1. unfold sdlToManifest in H2.
  bind_ok H1. bind_ok H2. same_ok.
  eapply (mapM_pair _ _ _ _ _ same_group (group_pair sdl)); eassumption.
Qed.

Lemma groups_and_manifest_agree_witness :
  exists groups manifest,
    sdlToGroups valid_sdl = Ok groups /\ sdlToManifest valid_sdl = Ok manifest /\
    List.length groups = 1%nat /\ Forall2 same_group groups manifest.
Proof.
  assert (E : exists groups manifest,
             sdlToGroups valid_sdl = Ok groups /\ sdlToManifest valid_sdl = Ok manifest /\
             List.length groups = 1%nat).
  { vm_compute. eexists. eexists. repeat split. }
  destruct E as (groups & manifest & E1 & E2 & Hn). exists groups, manifest.
  split; [exact E1 |]. split; [exact E2 |]. split; [exact Hn |].
  exact (groups_and_manifest_agree valid_sdl groups manifest E1 E2).
Defined.

Section BuilderConverts.

Lemma split_env_pair : forall k v,
  all_chars (fun c => negb (Ascii.eqb c "=")) k = true ->
  split_env (k ++ "=" ++ v) = (k, v).
Proof.
  induction k as [| c k IH]; intros v H.
  - reflexivity.
  - cbn [all_chars] in H. apply andb_prop in H as [Hc Hk].
    cbn [append split_env]. apply negb_true_iff in Hc. rewrite Hc.
    change (k ++ String "=" v) with (k ++ "=" ++ v). rewrite (IH v Hk). reflexivity.
Qed.

Lemma split_env_all : forall l,
  (forall k v, In (k, v) l -> all_chars (fun c => negb (Ascii.eqb c "=")) k = true) ->
  map split_env (map (fun kv : string * string => fst kv ++ "=" ++ snd kv) l) = l.
Proof.
  induction l as [| [k v] l IH]; intro H.
  - reflexivity.
  - cbn [map fst snd]. rewrite split_env_pair by (apply (H k v); now left).
    rewrite IH; [reflexivity |]. intros k' v' Hin. apply (H k' v'). now right.
Qed.

Variable o : SimpleSDLOptions.

Lemma simple_manifest_converts : forall cpuValue bytes size,
  parseCpuUnits (number_to_string (o_cpu o)) = Ok cpuValue ->
  parseMemorySize (o_memory o) = Ok bytes ->
  parseMemorySize (o_storage o) = Ok size ->
  sdlToManifest (simpleSDLObject o)
  = Ok [mkManifestGroup "dcloud"
          [mkManifestService (o_serviceName o) (Some (o_image o))
             (ANumber (option_default (o_replicas o) (num 1)))
             (mkManifestResources (Math_round (number_mul cpuValue (num 1000)))
                (number_to_string bytes)
                [mkManifestStorage "default" (number_to_string size) []]
                None)
             None None
             (option_map (map split_env)
                (option_map (map (fun kv : string * string => fst kv ++ "=" ++ snd kv))
                   (o_env o)))
             (builder_expose (o_port o))
             None]].
Proof.
  intros cpuValue bytes size Hc Hm Hs.
  unfold sdlToManifest, simpleSDLObject. cbn [deployment deref bind mapM manifestGroup].
  unfold manifestService.
  cbn [services profiles compute deref bind profile count].
  rewrite !get_single. cbn [deref bind resources].
  unfold convertManifestResources.
  cbn [deref bind cpu memory storage gpu String_of_units storage_list map].
  rewrite Hc, Hm. cbn [bind]. unfold mapMi. cbn [mapMi_from].
  unfold convertManifestStorage. cbn [deref bind st_size st_name st_class storage_name].
  rewrite Hs. cbn [bind image command args env expose params_storage option_map].
  unfold builder_expose, option_default.
  destruct (o_port o) as [p |]; [destruct (truthy_number p) |]; reflexivity.
Qed.

End BuilderConverts.

(** The manifest of an SDL made by [createSimpleSDL] has one placement
    [dcloud] with the one service of the options: its name, image and
    replica count, the environment pairs as they were given (the builder
    joins them with '=' and the conversion splits them at the first '=',
    so no key may have one), the port exposed globally as port 80 over
    tcp, and memory and storage in bytes.  The cpu, given in whole
    millicpu ([c] of them, that is [c / 1000] with up to three decimals),
    comes out as [c]. *)
Theorem built_sdl_manifest : forall yaml o d c bytes size,
  reads_back yaml o ->
  o_cpu o = Fin d -> dec_to_Q d * 1000 == inject_Z c -> 0 < c < 10 ^ 15 ->
  parseMemorySize (o_memory o) = Ok bytes ->
  parseMemorySize (o_storage o) = Ok size ->
  keys_without_equals (o_env o) ->
  exists m svc,
    parseSDL yaml (createSimpleSDL yaml o) = Ok m /\
    sdlToManifest m = Ok [mkManifestGroup "dcloud" [svc]] /\
    msv_name svc = o_serviceName o /\
    msv_image svc = Some (o_image o) /\
    msv_count svc = ANumber (option_default (o_replicas o) (num 1)) /\
    msv_env svc = o_env o /\
    msv_expose svc = builder_expose (o_port o) /\
    mr_cpu_units (msv_resources svc) = num c /\
    mr_memory_size (msv_resources svc) = number_to_string bytes /\
    mr_storage (msv_resources svc) = [mkManifestStorage "default" (number_to_string size) []].
Proof.
  intros yaml o d c bytes size Hrb Hcpu Hc Hcb Hm Hs Hkeys.
  assert (Hd : 0 < dmant d).
  { destruct d as [m s]. unfold dec_to_Q in Hc. cbn [dmant dscale] in *.
    pose proof (pow10_pos s) as Hp.
    assert (E : m * 1000 = c * pow10 s).
    { apply (f_equal (fun x => x)) in Hc.
      unfold Qeq, Qdiv, Qmult, Qinv, inject_Z in Hc. cbn in Hc.
      destruct (pow10 s) eqn:Ep; try lia. cbn in Hc. lia. }
    nia. }
  destruct (parseCpuUnits_of_number d Hd) as (v & Hv & (d' & -> & Hq) & _).
  exists (simpleSDLObject o). eexists. split.
  - unfold parseSDL, createSimpleSDL. unfold reads_back in Hrb. now rewrite Hrb.
  - split.
    + apply (simple_manifest_converts o (Fin d') bytes size); [| exact Hm | exact Hs].
      rewrite Hcpu. exact Hv.
    + cbn [msv_name msv_image msv_count msv_env msv_expose msv_resources mr_cpu_units
                    mr_memory_size mr_storage].
      repeat (split; [reflexivity |]). split; [| split; [reflexivity |]].
      * destruct (o_env o) as [l |] eqn:He; [| reflexivity]. cbn [option_map].
        rewrite split_env_all; [reflexivity |].
        intros k v Hin. exact (Hkeys l k v eq_refl Hin).
      * repeat (split; [reflexivity |]).
        split; [| split; reflexivity].
        cbn [number_mul num Math_round]. unfold num. do 2 f_equal.
        rewrite dec_round_spec. apply round_Q_whole.
        rewrite dec_to_Q_mul, Hq, dec_to_Q_of_Z. exact Hc.
Qed.

Lemma built_sdl_manifest_witness :
  exists m svc,
    parseSDL env_yaml (createSimpleSDL env_yaml env_options) = Ok m /\
    sdlToManifest m = Ok [mkManifestGroup "dcloud" [svc]] /\
    msv_env svc = Some [("MODE", "a=b")] /\
    mr_cpu_units (msv_resources svc) = num 500.
Proof.
  destruct (built_sdl_manifest env_yaml env_options (mkDec 5 1) 500 (num 536870912)
              (num 1073741824))
    as (m & svc & Hp & Hm & _ & _ & _ & He & _ & Hc & _).
  - reflexivity.
  - reflexivity.
  - reflexivity.
  - lia.
  - reflexivity.
  - reflexivity.
  - intros l k v E Hin. inversion E; subst l.
    destruct Hin as [Hin | []]. inversion Hin. reflexivity.
  - exists m, svc. split; [exact Hp |]. split; [exact Hm |]. split; [exact He |].
    exact Hc.
Defined.

Section BuilderPrice.

Variable o : SimpleSDLOptions.

Lemma aktToUakt_of_number : forall p, 0 <= dmant p ->
  aktToUakt (ANumber (Fin p)) = Ok (Z_to_string (dec_round (dec_mul p (dec_of_Z 1000000)))).
Proof.
  intros p Hp. unfold aktToUakt. cbn [isNaN].
  assert (El : number_lt (Fin p) (num 0) = false).
  { unfold number_lt, num, dec_of_Z. cbn [number_compare]. unfold dec_compare.
    cbn [dmant dscale]. change (pow10 0) with 1.
    destruct (dmant p * 1 ?= 0 * pow10 (dscale p)) eqn:E; try reflexivity.
    change (dmant p * 1 < 0 * pow10 (dscale p)) in E. pose proof (pow10_pos (dscale p)). lia. }
  rewrite El. unfold UAKT_PER_AKT. cbn [number_mul num Math_round].
  rewrite number_to_string_num. reflexivity.
Qed.

(** An amount with at most six decimals, [k] millionths, comes out as
    the numeral of [k]. *)
Lemma aktToUakt_micro : forall p k,
  dec_to_Q p * 1000000 == inject_Z k -> 0 <= k ->
  aktToUakt (ANumber (Fin p)) = Ok (Z_to_string k).
Proof.
  intros p k Hk Hpos.
  assert (Hp : 0 <= dmant p).
  { destruct p as [m s]. unfold dec_to_Q in Hk. cbn [dmant dscale] in *.
    pose proof (pow10_pos s) as Hs.
    assert (E : m * 1000000 = k * pow10 s).
    { unfold Qeq, Qdiv, Qmult, Qinv, inject_Z in Hk. cbn in Hk.
      destruct (pow10 s) eqn:Ep; try lia. cbn in Hk. lia. }
    nia. }
  rewrite (aktToUakt_of_number p Hp). do 2 f_equal.
  rewrite dec_round_spec. apply round_Q_whole.
  rewrite dec_to_Q_mul, dec_to_Q_of_Z. exact Hk.
Qed.

Lemma simple_price : forall p k n,
  option_default (o_maxPrice o) (num 100) = Fin p ->
  dec_to_Q p * 1000000 == inject_Z k -> 0 <= k ->
  option_default (o_replicas o) (num 1) = num n ->
  calculateSDLPrice (simpleSDLObject o)
  = Ok (mkCoin (Some TOKEN_DENOMINATIONS_uakt) (Z_to_string (k * n))).
Proof.
  intros p k n Hp Hk Hpos Hn.
  unfold calculateSDLPrice, simpleSDLObject.
  cbn [deployment deref bind foldM addPlacementPrice profiles Types.placement].
  rewrite get_single.
  cbn [foldM addServicePrice deref bind pricing profile count].
  rewrite get_single. cbn [deref bind pr_amount].
  fold (option_default (o_maxPrice o) (num 100)).
  fold (option_default (o_replicas o) (num 1)).
  rewrite Hp, Hn, (aktToUakt_micro p k Hk Hpos). cbn [bind].
  rewrite BigInt_of_Z_to_string. cbn [bind BigInt_of_count].
  rewrite BigInt_of_number_num. cbn [bind]. reflexivity.
Qed.

End BuilderPrice.

(** The price per block estimated for an SDL made by [createSimpleSDL]
    is the replica count times a million times [maxPrice] (100 when not
    given): the amount the builder writes in uakt is converted once more
    as if it were in AKT.  Stated for a [maxPrice] with at most six
    decimals, [k] millionths with [k] below 10^15. *)
Theorem built_sdl_price : forall yaml o p k n,
  reads_back yaml o ->
  option_default (o_maxPrice o) (num 100) = Fin p ->
  dec_to_Q p * 1000000 == inject_Z k -> 0 <= k < 10 ^ 15 ->
  option_default (o_replicas o) (num 1) = num n ->
  exists m,
    parseSDL yaml (createSimpleSDL yaml o) = Ok m /\
    calculateSDLPrice m = Ok (mkCoin (Some "uakt") (Z_to_string (k * n))).
Proof.
  intros yaml o p k n Hrb Hp Hk Hkb Hn. exists (simpleSDLObject o). split.
  - unfold parseSDL, createSimpleSDL. unfold reads_back in Hrb. now rewrite Hrb.
  - apply (simple_price o p k n Hp Hk); [lia | exact Hn].
Qed.

Lemma built_sdl_price_witness :
  exists m,
    parseSDL env_yaml (createSimpleSDL env_yaml env_options) = Ok m /\
    calculateSDLPrice m = Ok (mkCoin (Some "uakt") "100000000").
Proof.
  destruct (built_sdl_price env_yaml env_options (mkDec 50 0) 50000000 2)
    as (m & Hp & Hc); try reflexivity.
  - lia.
  - exists m. split; [exact Hp |]. rewrite Hc. reflexivity.
Defined.

Section Priceable.

Lemma foldM_each : forall A B (f : B -> A -> result B) l acc r a,
  foldM f l acc = Ok r -> In a l -> exists acc1 acc2, f acc1 a = Ok acc2.
Proof.
  intros A B f. induction l as [| x l IH]; intros acc r a H Hin.
  - destruct Hin.
  - cbn [foldM] in H. bind_ok H. destruct Hin as [-> | Hin]; eauto.
Qed.

(** A validated manifest has numbers for counts. *)
Lemma valid_counts : forall sdl dep pname pl sname config,
  valid (validateSDL sdl) = true ->
  deployment sdl = Some dep -> In (pname, pl) dep -> In (sname, config) pl ->
  exists c, count config = ANumber c.
Proof.
  intros sdl dep pname pl sname config Hv Hd Hp Hs.
  cbn in Hv. apply is_nil_true in Hv. unfold validateSDL_errors in Hv.
  apply app_nil_iff in Hv as [_ Hv]. apply app_nil_iff in Hv as [_ Hv].
  apply app_nil_iff in Hv as [_ Hv]. rewrite Hd in Hv. cbn [missing_or_empty entries] in Hv.
  destruct (is_nil dep); [discriminate Hv |].
  rewrite concat_map_nil, Forall_forall in Hv. specialize (Hv _ Hp).
  unfold validateDeploymentPlacement in Hv. apply app_nil_iff in Hv as [_ Hv].
  rewrite concat_map_nil, Forall_forall in Hv. specialize (Hv _ Hs).
  unfold validateDeploymentEntry in Hv.
  apply app_nil_iff in Hv as [_ Hv]. apply app_nil_iff in Hv as [_ Hv].
  destruct (count config) as [| c | t]; [discriminate Hv | eauto | discriminate Hv].
Qed.

Lemma addServicePrice_priced : forall plmap pname acc acc' sname config,
  addServicePrice (get blank_placement pname plmap) acc (sname, config) = Ok acc' ->
  (exists n, BigInt_of_count (count config) = Ok n) /\
  exists pp prmap p,
    lookup pname plmap = Some pp /\ pricing pp = Some prmap /\
    lookup (profile config) prmap = Some p.
Proof.
  intros plmap pname acc acc' sname config H. unfold addServicePrice in H.
  repeat bind_ok H.
  repeat match goal with
         | E : deref _ = Ok _ |- _ => apply deref_ok in E
         end.
  split; [eauto |].
  repeat match goal with
         | G : get blank_placement _ _ = Some ?c, R : pricing ?c = Some _ |- _ =>
             apply get_own in G; [| intro F; subst c; discriminate R]
         | G : get blank_pricing _ _ = Some ?q, R : aktToUakt (pr_amount ?q) = Ok _ |- _ =>
             apply get_own in G; [| intro F; subst q; vm_compute in R; discriminate R]
         end.
  eauto 6.
Qed.

End Priceable.

(** For a manifest that [validateSDL] accepts, [calculateSDLPrice]
    returns a price only if every entry of the deployment has a whole
    number for its count and its placement has a price for the entry's
    profile; otherwise it throws. *)
Theorem calculateSDLPrice_needs_whole_counts :
  forall sdl price dep profs plmap pname pl sname config,
    valid (validateSDL sdl) = true ->
    calculateSDLPrice sdl = Ok price ->
    deployment sdl = Some dep -> In (pname, pl) dep -> In (sname, config) pl ->
    profiles sdl = Some profs -> placement profs = Some plmap ->
    priceable (lookup pname plmap) config.
Proof.
  intros sdl price dep profs plmap pname pl sname config Hv H Hd Hp Hs Hpr Hpl.
  destruct (valid_counts _ _ _ _ _ _ Hv Hd Hp Hs) as [c Hc].
  unfold calculateSDLPrice in H. rewrite Hd in H. cbn [deref bind] in H. bind_ok H.
  destruct (foldM_each _ _ _ _ _ _ _ E Hp) as (acc1 & acc2 & Ha).
  unfold addPlacementPrice in Ha. rewrite Hpr in Ha. cbn [deref bind] in Ha.
  rewrite Hpl in Ha. cbn [deref bind] in Ha.
  destruct (foldM_each _ _ _ _ _ _ _ Ha Hs) as (b1 & b2 & Hb).
  destruct (addServicePrice_priced _ _ _ _ _ _ Hb)
    as [[n Hn] (pp & prmap & p & Hl & Hprm & Hlp)].
  split.
  - rewrite Hc in Hn. cbn [BigInt_of_count] in Hn.
    destruct c as [d | b |]; cbn [BigInt_of_number] in Hn; try discriminate Hn.
    destruct (dec_is_int d) eqn:Ei; [| discriminate Hn]. rewrite Hc. eauto.
  - exists pp, prmap, p. auto.
Qed.

Lemma calculateSDLPrice_needs_whole_counts_witness :
  priceable (Some (dcloud_placement "web")) (mkDeploymentEntry "web" (ANumber (num 1))).
Proof.
  apply (calculateSDLPrice_needs_whole_counts valid_sdl
           (mkCoin (Some "uakt") "1000000000")
           [("dcloud", [("web", mkDeploymentEntry "web" (ANumber (num 1)))])]
           (mkProfiles (Some [("web", mkComputeProfile (Some (web_resources "1Gi")))])
              (Some [("dcloud", dcloud_placement "web")]))
           [("dcloud", dcloud_placement "web")]
           "dcloud" [("web", mkDeploymentEntry "web" (ANumber (num 1)))]
           "web" (mkDeploymentEntry "web" (ANumber (num 1))));
    try reflexivity; left; reflexivity.
Defined.

(** The count check of [validateSDL] accepts every number from 1 on,
    whole or not: an SDL built with a fraction for [replicas] passes
    validation, and [calculateSDLPrice] then throws a RangeError.  Stated
    for a [maxPrice] with at most six decimals, [k] millionths with [k]
    below 10^15, so that the price itself converts. *)
Theorem built_sdl_with_fraction_of_replicas : forall yaml o d p k,
  reads_back yaml o -> options_ok o ->
  o_replicas o = Some (Fin d) -> dec_is_int d = false ->
  option_default (o_maxPrice o) (num 100) = Fin p ->
  dec_to_Q p * 1000000 == inject_Z k -> 0 <= k < 10 ^ 15 ->
  exists m,
    parseSDL yaml (createSimpleSDL yaml o) = Ok m /\
    validateSDL m = mkValidation true [] /\
    calculateSDLPrice m = Throw RangeError.
Proof.
  intros yaml o d p k Hrb Hok Hr Hd Hp Hk Hkb. exists (simpleSDLObject o).
  split; [| split].
  - unfold parseSDL, createSimpleSDL. unfold reads_back in Hrb. now rewrite Hrb.
  - unfold validateSDL.
    rewrite (proj2 (validateSDL_errors_nil _ (simple_manifest_no_NaN o Hok))
               (simple_manifest_ok o Hok)).
    reflexivity.
  - unfold calculateSDLPrice, simpleSDLObject.
    cbn [deployment deref bind foldM addPlacementPrice profiles Types.placement].
    rewrite get_single.
    cbn [foldM addServicePrice deref bind pricing profile count].
    rewrite get_single. cbn [deref bind pr_amount].
    fold (option_default (o_maxPrice o) (num 100)).
    rewrite Hp, Hr, (aktToUakt_micro p k Hk ltac:(lia)). cbn [bind].
    rewrite BigInt_of_Z_to_string. cbn [bind BigInt_of_count BigInt_of_number].
    rewrite Hd. reflexivity.
Qed.

Lemma built_sdl_with_fraction_of_replicas_witness :
  exists m,
    parseSDL fraction_yaml (createSimpleSDL fraction_yaml fraction_options) = Ok m /\
    validateSDL m = mkValidation true [] /\
    calculateSDLPrice m = Throw RangeError.
Proof.
  apply (built_sdl_with_fraction_of_replicas fraction_yaml fraction_options
           (mkDec 15 1) (mkDec 100 0) 100000000); try reflexivity; [| lia].
  unfold options_ok.
  cbn [fraction_options o_image o_cpu o_memory o_replicas o_maxPrice].
  split; [discriminate |].
  split; [eexists; split; [reflexivity | cbn; lia] |].
  split; [eexists; split; reflexivity |].
  split; intros x E; [inversion E; reflexivity | discriminate E].
Defined.

Section PrintedAndParsed.

Lemma dec_normalize_aux_nonpos : forall s m, m <= 0 -> dmant (dec_normalize_aux m s) <= 0.
Proof.
  induction s as [| s IH]; intros m Hm; cbn [dec_normalize_aux].
  - exact Hm.
  - destruct (m mod 10 =? 0) eqn:E; [| exact Hm].
    apply IH. apply Z.eqb_eq in E.
    assert (m = 10 * (m / 10)) by (rewrite (Z.div_mod m 10) at 1 by lia; lia). lia.
Qed.

Lemma dec_normalize_aux_neg : forall s m, m < 0 -> dmant (dec_normalize_aux m s) < 0.
Proof.
  induction s as [| s IH]; intros m Hm; cbn [dec_normalize_aux].
  - exact Hm.
  - destruct (m mod 10 =? 0) eqn:E; [| exact Hm].
    apply IH. apply Z.eqb_eq in E.
    assert (m = 10 * (m / 10)) by (rewrite (Z.div_mod m 10) at 1 by lia; lia). lia.
Qed.

Lemma dec_normalize_aux_zero : forall s, dec_normalize_aux 0 s = mkDec 0 0.
Proof. induction s as [| s IH]; cbn [dec_normalize_aux]; [reflexivity | exact IH]. Qed.

(** The digits printed for [m / 10^s], [m] not negative, are a numeral
    of that value. *)
Lemma printed_numeral : forall m s, 0 <= m ->
  exists n, numeral_ok n /\
    numeral_text n
    = match s with
      | O => Z_to_digits m
      | S _ => Z_to_digits (m / pow10 s) ++ "." ++ pad_digits s (m mod pow10 s)
      end /\
    dec_to_Q (numeral_dec n) == dec_to_Q (mkDec m s) /\ 0 <= dmant (numeral_dec n).
Proof.
  intros m s Hm. destruct s as [| k].
  - destruct (Z_to_digits_spec m Hm) as [H1 [H2 H3]].
    exists (mkNumeral (Z_to_digits m) None). split; [repeat split; auto |].
    split; [reflexivity |]. unfold numeral_dec. cbn [frac_part int_part dmant].
    rewrite H3. split; [reflexivity | exact Hm].
  - pose proof (pow10_pos (S k)) as Hp. set (p := pow10 (S k)) in *.
    assert (Hq : 0 <= m / p) by (apply Z.div_pos; lia).
    assert (Hr : 0 <= m mod p < p) by (apply Z.mod_pos_bound; lia).
    destruct (Z_to_digits_spec (m / p) Hq) as [H1 [H2 H3]].
    destruct (pad_digits_spec (S k) (m mod p) Hr) as [P1 [P2 P3]].
    exists (mkNumeral (Z_to_digits (m / p)) (Some (pad_digits (S k) (m mod p)))).
    split; [| split; [reflexivity |]].
    + repeat split; auto. intro F. rewrite F in P2. discriminate P2.
    + unfold numeral_dec. cbn [frac_part int_part dmant].
      rewrite P2, digits_val_append, H3, P3, P2. fold p.
      replace (m / p * p + m mod p) with m
        by (rewrite (Z.div_mod m p) at 1 by lia; ring).
      split; [reflexivity | exact Hm].
Qed.

(** [parseFloat(String(x))] is [x] again, for every finite [x]. *)
Lemma parseFloat_printed : forall d,
  exists d', parseFloat (dec_to_string d) = Fin d' /\ dec_to_Q d' == dec_to_Q d /\
             (dmant d < 0 -> dmant d' < 0) /\ (0 <= dmant d -> 0 <= dmant d').
Proof.
  intro d. unfold dec_to_string.
  pose proof (dec_normalize_aux_value (dscale d) (dmant d)) as Hv.
  fold (dec_normalize d) in Hv.
  assert (Ed : mkDec (dmant d) (dscale d) = d) by (destruct d; reflexivity).
  rewrite Ed in Hv. clear Ed.
  pose proof (dec_normalize_aux_neg (dscale d) (dmant d)) as Hneg.
  pose proof (dec_normalize_aux_sign (dscale d) (dmant d)) as Hpos.
  fold (dec_normalize d) in Hneg, Hpos.
  assert (Hzero : dmant d = 0 -> dec_normalize d = mkDec 0 0).
  { intro E. unfold dec_normalize. rewrite E. apply dec_normalize_aux_zero. }
  destruct (dec_normalize d) as [m s]. cbn [dmant dscale] in *.
  destruct (printed_numeral (Z.abs m) s (Z.abs_nonneg m)) as (n & Hn & Et & Eq & Hnn).
  rewrite <- Et.
  destruct (m <? 0) eqn:E.
  - apply Z.ltb_lt in E.
    pose proof (parseFloat_numeral n true Hn) as Hp. cbn [append] in Hp.
    rewrite Hp. eexists. split; [reflexivity |]. cbn [dmant dscale].
    assert (Hq : dec_to_Q (mkDec (- dmant (numeral_dec n)) (dscale (numeral_dec n)))
                 == - dec_to_Q (numeral_dec n)).
    { unfold dec_to_Q. cbn [dmant dscale]. rewrite inject_Z_opp. field.
      apply inject_Z_pow10_nonzero. }
    assert (Hm : dec_to_Q (mkDec (Z.abs m) s) == - dec_to_Q (mkDec m s)).
    { unfold dec_to_Q. cbn [dmant dscale]. rewrite Z.abs_neq by lia.
      rewrite inject_Z_opp. field. apply inject_Z_pow10_nonzero. }
    split; [| split].
    + rewrite Hq, Eq, Hm, Hv. ring.
    + intros _.
      assert (Hne : dmant (numeral_dec n) <> 0).
      { intro F. assert (Hz : dec_to_Q (numeral_dec n) == 0).
        { unfold dec_to_Q. rewrite F. unfold Qdiv. ring. }
        rewrite Eq in Hz. unfold dec_to_Q in Hz. cbn [dmant dscale] in Hz.
        pose proof (pow10_pos s) as Hps.
        unfold Qeq, Qdiv, Qmult, Qinv, inject_Z in Hz. cbn in Hz.
        destruct (pow10 s) eqn:Ep; try lia. cbn in Hz. lia. }
      lia.
    + intro Hge. destruct (Z.eq_dec (dmant d) 0) as [Hz | Hnz].
      * specialize (Hzero Hz). inversion Hzero. lia.
      * specialize (Hpos ltac:(lia)). lia.
  - apply Z.ltb_ge in E.
    pose proof (parseFloat_numeral n false Hn) as Hp. cbn [append] in Hp.
    rewrite Hp. eexists. split; [reflexivity |]. cbn [dmant dscale].
    assert (Ed : mkDec (dmant (numeral_dec n)) (dscale (numeral_dec n)) = numeral_dec n)
      by (destruct (numeral_dec n); reflexivity).
    rewrite Ed. rewrite Z.abs_eq in Eq by lia.
    split; [rewrite Eq; exact Hv |]. split; [| intros _; exact Hnn].
    intro Hlt. specialize (Hneg Hlt). lia.
Qed.

End PrintedAndParsed.

Section DepositAmount.

Lemma number_lt_zero : forall d, number_lt (Fin d) (num 0) = (dmant d <? 0).
Proof.
  intro d. unfold number_lt, num, dec_of_Z. cbn [number_compare]. unfold dec_compare.
  cbn [dmant dscale]. change (pow10 0) with 1. rewrite Z.mul_1_r, Z.mul_0_l.
  unfold Z.ltb. destruct (dmant d ?= 0); reflexivity.
Qed.

Lemma aktToUakt_printed : forall d,
  aktToUakt (AString (number_to_string (Fin d))) = aktToUakt (ANumber (Fin d)).
Proof.
  intro d. unfold aktToUakt. cbn [number_to_string amount_arg_to_string].
  destruct (parseFloat_printed d) as (d' & Ep & Eq & Hneg & Hpos).
  rewrite Ep. cbn [isNaN]. rewrite !number_lt_zero.
  destruct (dmant d <? 0) eqn:E.
  - apply Z.ltb_lt in E. specialize (Hneg E).
    apply Z.ltb_lt in Hneg. rewrite Hneg. reflexivity.
  - apply Z.ltb_ge in E. specialize (Hpos E).
    apply Z.ltb_ge in Hpos. rewrite Hpos.
    unfold UAKT_PER_AKT. cbn [number_mul num Math_round].
    rewrite !dec_round_spec.
    rewrite (round_Q_comp (dec_to_Q (dec_mul d' (dec_of_Z 1000000)))
                          (dec_to_Q (dec_mul d (dec_of_Z 1000000)))); [reflexivity |].
    rewrite !dec_to_Q_mul, Eq. reflexivity.
Qed.

(** The coin made of a printed number. *)
Lemma createAktCoin_printed : forall d coin,
  createAktCoin (AString (number_to_string (Fin d))) = Ok coin ->
  0 <= dmant d /\
  coin = mkCoin (Some "uakt") (Z_to_string (round_Q (dec_to_Q d * 1000000))).
Proof.
  intros d coin H. unfold createAktCoin in H.
  rewrite aktToUakt_printed in H.
  destruct (Z_lt_le_dec (dmant d) 0) as [Hn | Hp].
  - unfold aktToUakt in H. cbn [isNaN] in H. rewrite number_lt_zero in H.
    apply Z.ltb_lt in Hn. rewrite Hn in H. discriminate H.
  - rewrite (aktToUakt_of_number d Hp) in H. cbn [bind] in H.
    inversion H. split; [exact Hp |]. unfold TOKEN_DENOMINATIONS_uakt.
    rewrite dec_round_spec.
    rewrite (round_Q_comp _ (dec_to_Q d * 1000000)); [reflexivity |].
    rewrite dec_to_Q_mul, dec_to_Q_of_Z. reflexivity.
Qed.

(** [aktToUakt] gives the same result, or throws the same error, for a
    number and for the text [String] prints for it: the handlers, which
    pass [amount.toString()], lose nothing by it. *)
Theorem aktToUakt_of_printed_number : forall x,
  aktToUakt (AString (number_to_string x)) = aktToUakt (ANumber x).
Proof.
  intros [d | neg |].
  - apply aktToUakt_printed.
  - destruct neg; reflexivity.
  - reflexivity.
Qed.

End DepositAmount.

Section DepositOfCreate.

Variable env : Env.

(** The calls of the handler extend those of [createDeployment]. *)
Lemma execute_after_deployment : forall fuel sdl deposit options w' res,
  execute fuel env sdl deposit options world0 = Some (w', res) ->
  ((forall m, ~ In (SignAndBroadcast m) (calls w')) /\ forall r, res <> Ok (Created r)) \/
  exists client w0 w1 r0,
    calls w0 = [ConnectTendermint; ConnectWithSigner] /\
    createDeployment env client sdl (number_to_string deposit) w0 = Some (w1, r0) /\
    ((w' = w1 /\ exists e, r0 = Throw e /\ res = Throw e) \/
     (exists tx dseq new, r0 = Ok (tx, dseq) /\ calls w' = (new ++ calls w1)%list)).
Proof.
  intros fuel sdl deposit options w' res H. unfold execute in H.
  assert (Hnone : forall m, ~ In (SignAndBroadcast m) (@nil call)) by (intros m []).
  run_step H; [run_lift R | apply lift_run in R; destruct R as [-> _]; subst res;
                            left; split; [exact Hnone | discriminate]].
  destruct (negb (valid (validateSDL a))) eqn:Ev.
  { inversion H. subst. left. split; [exact Hnone | discriminate]. }
  destruct (is_true (validateOnly options)) eqn:Eo.
  { left. repeat (run_step H; [run_lift R | apply lift_run in R; destruct R as [-> _];
                                           subst res;
                                           split; [exact Hnone | discriminate]]).
    apply ret_run in H. destruct H as [-> ->]. split; [exact Hnone | discriminate]. }
  assert (Hconn : forall w1, (calls w1 = [] \/ client_calls (calls w1)) ->
                    forall m, ~ In (SignAndBroadcast m) (calls w1)).
  { intros w1 [Hc | Hc] m F.
    - rewrite Hc in F. destruct F.
    - destruct (client_calls_connect _ _ Hc F) as [G | G]; discriminate G. }
  assert (Hmade : forall w1 r1, createCosmosClient env world0 = Some (w1, r1) ->
                    calls w1 = [] \/ client_calls (calls w1)).
  { intros w1 r1 Hr.
    destruct (createCosmosClient_calls env _ _ _ Hr)
      as [[Hc _] | (init & Hc & [[-> _] | [[-> _] | [-> _]]])];
      cbn [calls world0 app] in Hc; rewrite Hc;
      [left | right; left | right; right; left | right; right; right]; reflexivity. }
  run_step H.
  2: { subst res. left. split; [exact (Hconn _ (Hmade _ _ R)) | discriminate]. }
  pose proof (Hmade _ _ R) as Hw.
  run_step H; [run_lift R0 | apply lift_run in R0; destruct R0 as [-> _]; subst res;
                             left; split; [exact (Hconn _ Hw) | discriminate]].
  assert (Hsigning : forall owner, require_signing a0 = Ok owner ->
                       calls w = [ConnectTendermint; ConnectWithSigner]).
  { intros owner Hs.
    destruct (createCosmosClient_calls env _ _ _ R)
      as [[_ [e F]] | (init & Hc & [[_ [e F]] | [[_ [F | [e F]]] | [-> _]]])];
      try discriminate F.
    - inversion F; subst a0. apply signing_client in Hs. discriminate Hs.
    - exact Hc. }
  run_step H.
  2: { subst res.
       destruct (createDeployment_calls env _ _ _ _ _ _ R0)
         as [[Hn _] | (owner & _ & _ & Hs & _)].
       - left. split; [| discriminate]. intros m F. rewrite Hn in F.
         exact (Hconn _ Hw m F).
       - right. exists a0, w, w', (Throw e).
         split; [exact (Hsigning _ Hs) |]. split; [exact R0 |]. left. eauto. }
  destruct a2 as [tx dseq].
  destruct (createDeployment_calls env _ _ _ _ _ _ R0)
    as [[_ [e F]] | (owner & _ & _ & Hs & _)]; [discriminate F |].
  right. exists a0, w, w0, (Ok (tx, dseq)).
  split; [exact (Hsigning _ Hs) |]. split; [exact R0 |]. right.
  exists tx, dseq.
  cut (exists new, calls w' = (new ++ calls w0)%list);
    [intros [new Hnew]; exists new; split; [reflexivity | exact Hnew] |].
  run_step H; [run_lift R1 | apply lift_run in R1; destruct R1 as [-> _];
                             exists []; reflexivity].
  assert (Hwal : getWalletAddress a0 = Ok a2) by assumption.
  run_step H.
  2: { destruct (bidding_calls env _ _ _ _ _ _ _ _ _ _ Hwal R1) as [new [Hn _]].
       exists new. exact Hn. }
  destruct (bidding_calls env _ _ _ _ _ _ _ _ _ _ Hwal R1) as [new [Hn _]].
  assert (Hd : forall w3 r3, disconnect env a0 w1 = Some (w3, r3) ->
                 exists more, calls w3 = (more ++ calls w1)%list).
  { intros w3 r3 Hd. unfold disconnect in Hd.
    destruct (signingClient a0).
    - unfold bindM, log, lift in Hd. inversion Hd. exists [Disconnect]. reflexivity.
    - apply ret_run in Hd. destruct Hd as [-> _]. exists []. reflexivity. }
  run_step H.
  - apply ret_run in H. destruct H as [-> _].
    destruct (Hd _ _ R2) as [more Hm]. exists (more ++ new)%list.
    rewrite Hm, Hn, app_assoc. reflexivity.
  - destruct (Hd _ _ R2) as [more Hm]. exists (more ++ new)%list.
    rewrite Hm, Hn, app_assoc. reflexivity.
Qed.

End DepositOfCreate.

(** The numerator of an amount of [k] millionths. *)
Lemma micro_sign : forall p k,
  dec_to_Q p * 1000000 == inject_Z k -> (0 <= dmant p <-> 0 <= k).
Proof.
  intros [m s] k Hk. unfold dec_to_Q in Hk. cbn [dmant dscale] in *.
  pose proof (pow10_pos s) as Hs.
  assert (E : m * 1000000 = k * pow10 s).
  { unfold Qeq, Qdiv, Qmult, Qinv, inject_Z in Hk. cbn in Hk.
    destruct (pow10 s) eqn:Ep; try lia. cbn in Hk. lia. }
  split; intro; nia.
Qed.

(** No broadcast is among the calls listed. *)
Ltac no_broadcast H :=
  let m := fresh "m" in
  let F := fresh "F" in
  intros m F; apply trace_calls in F; rewrite H in F; cbn [In calls] in F;
  repeat match goal with
         | G : _ \/ _ |- _ => destruct G
         | G : False |- _ => destruct G
         | G : _ = SignAndBroadcast _ |- _ => discriminate G
         end.

(** The deposit of a deployment, for a deposit of [n] millionths of
    AKT, [n] whole and below 10^15 in size.  A run of deployment create
    broadcasts nothing and creates nothing, or else [n] is not negative
    and the run begins with the two connections of the client, the
    connection for the query and [getHeight], and then broadcasts the
    deployment message with a deposit of [n] uakt, the wallet being owner
    and depositor.  With a negative deposit nothing is broadcast. *)
Theorem execute_deposit_in_uakt : forall fuel env sdl d n options w' res,
  dec_to_Q d * 1000000 == inject_Z n -> Z.abs n < 10 ^ 15 ->
  execute fuel env sdl (Fin d) options world0 = Some (w', res) ->
  ((forall m, ~ In (SignAndBroadcast m) (trace w')) /\ forall r, res <> Ok (Created r)) \/
  (0 <= n /\
   exists parsed owner h groups rest,
     trace w' = ConnectWithSigner :: ConnectTendermint :: ConnectQuery :: GetHeight
                :: SignAndBroadcast
                     (MsgCreateDeployment owner (Z_to_string h) groups
                        (generateVersionHash (hash env) parsed)
                        (mkCoin (Some "uakt") (Z_to_string n)) owner)
                :: rest).
Proof.
  intros fuel env sdl d n options w' res Hq _ H.
  destruct (execute_after_deployment env _ _ _ _ _ _ H)
    as [[Hc Hr] | (client & w0 & w1 & r0 & Hw0 & Hcd & Hrest)].
  { left. split; [| exact Hr]. intros m F. apply trace_calls in F. exact (Hc m F). }
  destruct (createDeployment_calls env _ _ _ _ _ _ Hcd)
    as [[Hn [e He]] | (owner & parsed & groups & Hs & Hp & Hg & Hrun)].
  { left. destruct Hrest as [[-> (e' & _ & ->)] | (tx & dseq & new & Hr0 & _)].
    - rewrite Hw0 in Hn. split; [no_broadcast Hn | discriminate].
    - rewrite Hr0 in He. discriminate He. }
  rewrite Hw0 in Hrun.
  destruct Hrun as [[Hn [e He]] | [[Hn [e He]] | (h & coin & Hh & Hcoin & Hn & Hr0)]].
  { left. destruct Hrest as [[-> (e' & _ & ->)] | (tx & dseq & new & Hr0 & _)].
    - split; [no_broadcast Hn | discriminate].
    - rewrite Hr0 in He. discriminate He. }
  { left. destruct Hrest as [[-> (e' & _ & ->)] | (tx & dseq & new & Hr0 & _)].
    - split; [no_broadcast Hn | discriminate].
    - rewrite Hr0 in He. discriminate He. }
  right. destruct (createAktCoin_printed _ _ Hcoin) as [Hd Ec].
  split; [now apply (micro_sign d n Hq) |].
  rewrite (round_Q_whole _ _ Hq) in Ec.
  subst coin. unfold deployment_message in Hn.
  exists parsed, owner, h, groups.
  destruct Hrest as [[-> _] | (tx & dseq & new & _ & Hc)].
  - exists []. unfold trace. rewrite Hn. reflexivity.
  - exists (rev new). unfold trace. rewrite Hc, Hn, rev_app_distr. reflexivity.
Qed.

Lemma execute_deposit_in_uakt_witness :
  dec_to_Q (mkDec 25 1) * 1000000 == inject_Z 2500000 /\ Z.abs 2500000 < 10 ^ 15 /\
  exists w' res,
    execute 0 env_one_bid "sdl" (Fin (mkDec 25 1))
      (mkOptions (Some false) None None None None None) world0 = Some (w', res) /\
    (((forall m, ~ In (SignAndBroadcast m) (trace w')) /\
      forall r, res <> Ok (Created r)) \/
     (0 <= 2500000 /\
      exists parsed owner h groups rest,
        trace w' = ConnectWithSigner :: ConnectTendermint :: ConnectQuery :: GetHeight
                   :: SignAndBroadcast
                        (MsgCreateDeployment owner (Z_to_string h) groups
                           (generateVersionHash (hash env_one_bid) parsed)
                           (mkCoin (Some "uakt") (Z_to_string 2500000)) owner)
                   :: rest)).
Proof.
  split; [reflexivity |]. split; [reflexivity |].
  assert (E : exists w' res,
             execute 0 env_one_bid "sdl" (Fin (mkDec 25 1))
               (mkOptions (Some false) None None None None None) world0
             = Some (w', res)).
  { vm_compute. eexists. eexists. reflexivity. }
  destruct E as (w' & res & E). exists w', res. split; [exact E |].
  exact (execute_deposit_in_uakt 0 env_one_bid "sdl" (mkDec 25 1) 2500000
           (mkOptions (Some false) None None None None None) w' res
           eq_refl eq_refl E).
Defined.
Import DeploymentOps.

Section OpsRuns.

Variable env : OpEnv.

Lemma bindT_run : forall A B (c : T A) (k : A -> T B) cs cs' res,
  bindT c k cs = (cs', res) ->
  (exists c1 a, c cs = (c1, Ok a) /\ k a c1 = (cs', res)) \/
  (exists e, c cs = (cs', Throw e) /\ res = Throw e).
Proof.
  intros A B c k cs cs' res H. unfold bindT in H.
  destruct (c cs) as [c1 [a | e]] eqn:R.
  - left. eauto.
  - right. inversion H; subst. eauto.
Qed.

Lemma liftT_run : forall A (r : result A) cs cs' res,
  liftT r cs = (cs', res) -> cs' = cs /\ r = res.
Proof. intros A r cs cs' res H. inversion H. auto. Qed.

Lemma retT_run : forall A (a : A) cs cs' res,
  retT a cs = (cs', res) -> cs' = cs /\ res = Ok a.
Proof. intros A a cs cs' res H. inversion H. auto. Qed.

Lemma op_createCosmosClient_run : forall cs cs' res,
  op_createCosmosClient env cs = (cs', res) ->
  exists init,
    cs' = (init ++ cs)%list /\ op_client_calls init /\
    forall client, res = Ok client -> signingClient client = true ->
      init = [OpConnectTendermint; OpConnectWithSigner].
Proof.
  intros cs cs' res H.
  unfold op_createCosmosClient, bindT, liftT, logT, retT in H. cbv beta iota in H.
  destruct (op_credentials env) as [[address |] | e].
  - cbv beta iota in H.
    destruct (op_connectWithSigner env) as [[] | e].
    + cbv beta iota in H.
      destruct (op_tendermint env) as [[] | e]; inversion H; subst;
        exists [OpConnectTendermint; OpConnectWithSigner];
        (split; [reflexivity |]); (split; [right; right; right; reflexivity |]);
        intros; reflexivity.
    + inversion H; subst. exists [OpConnectWithSigner].
      split; [reflexivity |]. split; [right; left; reflexivity |].
      intros client F. discriminate F.
  - cbv beta iota in H.
    destruct (op_tendermint env) as [[] | e]; inversion H; subst;
      exists [OpConnectTendermint];
      (split; [reflexivity |]); (split; [right; right; left; reflexivity |]);
      intros client F Hs; [inversion F; subst client; discriminate Hs | discriminate F].
  - inversion H; subst. exists []. split; [reflexivity |]. split; [left; reflexivity |].
    intros client F. discriminate F.
Qed.

Lemma op_client_calls_connect : forall init c,
  op_client_calls init -> In c init -> c = OpConnectWithSigner \/ c = OpConnectTendermint.
Proof.
  intros init c [-> | [-> | [-> | ->]]] F; cbn [In] in F;
    repeat match goal with
           | G : _ \/ _ |- _ => destruct G
           | G : False |- _ => destruct G
           end; auto.
Qed.

(** A broadcast after the signing guard: the call is made whenever the
    guard passes, and the result is the reply. *)
Lemma op_broadcast_run : forall m cs cs' res,
  op_broadcast env m cs = (cs', res) ->
  cs' = OpSignAndBroadcast m :: cs /\ res = op_signAndBroadcast env m.
Proof. intros m cs cs' res H. inversion H. auto. Qed.

Lemma op_disconnect_run : forall client cs cs' res,
  signingClient client = true ->
  op_disconnect env client cs = (cs', res) ->
  cs' = OpDisconnect :: cs /\ res = op_disconnect_reply env.
Proof.
  intros client cs cs' res Hs H. unfold op_disconnect in H. rewrite Hs in H.
  inversion H. auto.
Qed.

Lemma updateDeployment_run : forall client dseq sdl cs cs' res,
  updateDeployment env client dseq sdl cs = (cs', res) ->
  (cs' = cs /\ exists e, res = Throw e) \/
  (exists owner parsed,
     require_signing client = Ok owner /\
     parseSDL (op_yaml env) sdl = Ok parsed /\
     let update :=
       MsgUpdateDeployment owner dseq (generateVersionHash (op_hash env) parsed) in
     cs' = OpSignAndBroadcast update :: cs /\
     res = op_signAndBroadcast env update).
Proof.
  intros client dseq sdl cs cs' res H. unfold updateDeployment in H.
  apply bindT_run in H. destruct H as [(c1 & owner & R & H) | (e & R & ->)];
    apply liftT_run in R; destruct R as [-> R]; [| left; eauto].
  apply bindT_run in H. destruct H as [(c2 & p & R2 & H) | (e & R2 & ->)];
    apply liftT_run in R2; destruct R2 as [-> R2]; [| left; eauto].
  apply op_broadcast_run in H. right. exists owner, p. destruct H. auto.
Qed.

Lemma closeDeployment_run : forall client dseq cs cs' res,
  closeDeployment env client dseq cs = (cs', res) ->
  (cs' = cs /\ exists e, res = Throw e) \/
  (exists owner, require_signing client = Ok owner /\
     cs' = OpSignAndBroadcast (MsgCloseDeployment owner dseq) :: cs /\
     res = op_signAndBroadcast env (MsgCloseDeployment owner dseq)).
Proof.
  intros client dseq cs cs' res H. unfold closeDeployment in H.
  apply bindT_run in H. destruct H as [(c1 & owner & R & H) | (e & R & ->)];
    apply liftT_run in R; destruct R as [-> R]; [| left; eauto].
  apply op_broadcast_run in H. right. exists owner. destruct H. auto.
Qed.

Lemma depositDeployment_run : forall client dseq amount cs cs' res,
  depositDeployment env client dseq amount cs = (cs', res) ->
  (cs' = cs /\ exists e, res = Throw e) \/
  (exists owner coin, require_signing client = Ok owner /\
     createAktCoin (AString amount) = Ok coin /\
     cs' = OpSignAndBroadcast (MsgDepositDeployment owner dseq coin owner) :: cs /\
     res = op_signAndBroadcast env (MsgDepositDeployment owner dseq coin owner)).
Proof.
  intros client dseq amount cs cs' res H. unfold depositDeployment in H.
  apply bindT_run in H. destruct H as [(c1 & owner & R & H) | (e & R & ->)];
    apply liftT_run in R; destruct R as [-> R]; [| left; eauto].
  apply bindT_run in H. destruct H as [(c2 & coin & R2 & H) | (e & R2 & ->)];
    apply liftT_run in R2; destruct R2 as [-> R2]; [| left; eauto].
  apply op_broadcast_run in H. right. exists owner, coin. destruct H. auto.
Qed.

End OpsRuns.

(** [disconnect] is not among the calls listed. *)
Ltac no_disconnect :=
  let F := fresh "F" in
  intro F;
  repeat match type of F with
         | In _ (_ :: _) => destruct F as [F | F]; [discriminate F |]
         | In _ (_ ++ _)%list => apply in_app_or in F; destruct F as [F | F]
         end;
  try (now destruct F);
  match goal with
  | Hi : op_client_calls ?init, G : In _ ?init |- _ =>
      destruct (op_client_calls_connect _ _ Hi G) as [G' | G']; discriminate G'
  end.

(** The update handler.  It makes no call for an SDL that does not parse
    or does not validate.  When it returns, the client was made and the
    update was broadcast for the wallet, with the version hash of the
    parsed SDL; the manifest was sent, once, to the given provider and
    before the client was disconnected, exactly if the transaction came
    back with code 0 and the manifest converts; a failure to convert or
    to send is recorded in the response and does not fail the
    handler. *)
Theorem executeUpdate_sends_manifest_after_update :
  forall env dseq sdl provider cs res,
  executeUpdate env dseq sdl provider [] = (cs, res) ->
  (cs <> [] ->
   exists parsed, parseSDL (op_yaml env) sdl = Ok parsed /\
                  valid (validateSDL parsed) = true) /\
  (forall r, res = Ok r ->
   exists parsed owner tx,
     parseSDL (op_yaml env) sdl = Ok parsed /\
     op_signAndBroadcast env
       (MsgUpdateDeployment owner dseq (generateVersionHash (op_hash env) parsed)) = Ok tx /\
     u_success r = (code tx =? 0) /\
     update_outcome env parsed owner dseq provider tx (made cs) r).
Proof.
  intros env dseq sdl provider cs res H. unfold executeUpdate in H.
  apply bindT_run in H. destruct H as [(c1 & parsed & R & H) | (e & R & ->)];
    apply liftT_run in R; destruct R as [-> R];
    [| split; [intro F; now elim F | discriminate]].
  destruct (negb (valid (validateSDL parsed))) eqn:Ev.
  { inversion H. subst. split; [intro F; now elim F | discriminate]. }
  apply negb_false_iff in Ev.
  split; [intros _; exists parsed; auto |].
  intros r ->.
  apply bindT_run in H. destruct H as [(c2 & client & R2 & H) | (e & _ & F)];
    [| discriminate F].
  destruct (op_createCosmosClient_run env _ _ _ R2) as (init & -> & _ & Hinit).
  specialize (Hinit _ eq_refl). clear R2.
  apply bindT_run in H. destruct H as [(c3 & u & R3 & H) | (e & _ & F)];
    [| discriminate F].
  apply liftT_run in R3. destruct R3 as [-> R3].
  apply bindT_run in H. destruct H as [(c4 & tx & R4 & H) | (e & _ & F)];
    [| discriminate F].
  destruct (updateDeployment_run env _ _ _ _ _ _ R4)
    as [[_ [e F]] | (owner & parsed' & Hs & Hp' & Hrun)]; [discriminate F |].
  rewrite R in Hp'. inversion Hp'; subst parsed'. clear Hp'.
  cbv zeta in Hrun. destruct Hrun as [-> Htx].
  rewrite (Hinit (signing_client _ _ Hs)) in *. clear Hinit.
  symmetry in Htx. pose proof (signing_client _ _ Hs) as Hsc.
  pose proof (signing_wallet _ _ Hs) as Hw.
  exists parsed, owner, tx. split; [exact R |]. split; [exact Htx |].
  apply bindT_run in H. destruct H as [(c5 & r1 & R5 & H) | (e & _ & F)];
    [| discriminate F].
  apply bindT_run in H. destruct H as [(c6 & u6 & R6 & H) | (e & _ & F)];
    [| discriminate F].
  apply retT_run in H. destruct H as [-> H]. inversion H; subst r1. clear H.
  apply (op_disconnect_run env _ _ _ _ Hsc) in R6. destruct R6 as [-> _].
  unfold update_outcome, made. cbv zeta.
  destruct (code tx =? 0) eqn:Ec.
  - unfold try_catchT, bindT, liftT, op_sendManifest, logT, retT in R5.
    cbv beta iota in R5. rewrite Hw in R5.
    destruct (sdlToManifest parsed) as [manifest | e] eqn:Em.
    + destruct (op_sendManifest_reply env owner dseq provider manifest) as [[] | e] eqn:Er;
        inversion R5; subst; cbn [u_success u_manifestSent u_manifestError rev app];
        auto.
    + inversion R5; subst. cbn [u_success u_manifestSent u_manifestError rev app].
      split; [reflexivity |]. split; [reflexivity |]. split; [reflexivity | discriminate].
  - apply retT_run in R5. destruct R5 as [-> R5]. inversion R5; subst.
    cbn [u_success u_manifestSent u_manifestError rev app]. auto.
Qed.

(** The deposit handler, for an amount of [n] millionths of AKT, [n]
    whole and below 10^15 in size.  It makes the client first.  With a
    negative amount it throws after that, whatever the client: its only
    calls are connections of the client, nothing is broadcast and the
    client is not disconnected.  When it returns, the amount is not
    negative; after the client's two connections it has broadcast one
    deposit message of [n] uakt, for the wallet as owner and depositor,
    and has disconnected; [success] tells whether the transaction came
    back with code 0. *)
Theorem executeDeposit_amount_in_uakt : forall env dseq d n cs res,
  dec_to_Q d * 1000000 == inject_Z n -> Z.abs n < 10 ^ 15 ->
  executeDeposit env dseq (Fin d) [] = (cs, res) ->
  (n < 0 ->
   (exists e, res = Throw e) /\
   forall c, In c cs -> c = OpConnectWithSigner \/ c = OpConnectTendermint) /\
  (forall r, res = Ok r ->
   0 <= n /\ d_amount r = dec_to_string d ++ " AKT" /\
   exists owner tx,
     let deposit :=
       MsgDepositDeployment owner dseq (mkCoin (Some "uakt") (Z_to_string n)) owner in
     op_signAndBroadcast env deposit = Ok tx /\
     d_success r = (code tx =? 0) /\
     made cs = [OpConnectWithSigner; OpConnectTendermint;
                OpSignAndBroadcast deposit; OpDisconnect]).
Proof.
  intros env dseq d n cs res Hq _ H. unfold executeDeposit in H.
  pose proof (micro_sign d n Hq) as Hsign.
  apply bindT_run in H. destruct H as [(c1 & client & R & H) | (e & R & ->)];
    destruct (op_createCosmosClient_run env _ _ _ R) as (init & -> & Hi & Hinit);
    rewrite app_nil_r in *.
  2: { split; [| discriminate]. intros _. split; [eauto |].
       intros c Hin. exact (op_client_calls_connect _ _ Hi Hin). }
  specialize (Hinit _ eq_refl).
  apply bindT_run in H. destruct H as [(c2 & tx & R2 & H) | (e & R2 & ->)].
  - destruct (depositDeployment_run env _ _ _ _ _ _ R2)
      as [[_ [e F]] | (owner & coin & Hs & Hcoin & -> & Htx)]; [discriminate F |].
    destruct (createAktCoin_printed _ _ Hcoin) as [Hd ->].
    rewrite (round_Q_whole _ _ Hq) in *.
    rewrite (Hinit (signing_client _ _ Hs)) in *.
    split; [intro F; apply Hsign in Hd; lia |].
    intros r ->.
    apply bindT_run in H. destruct H as [(c3 & u & R3 & H) | (e & _ & F)];
      [| discriminate F].
    apply (op_disconnect_run env _ _ _ _ (signing_client _ _ Hs)) in R3.
    destruct R3 as [-> _].
    apply retT_run in H. destruct H as [-> H]. inversion H. clear H.
    cbn [d_amount d_success number_to_string].
    split; [now apply Hsign |]. split; [reflexivity |].
    exists owner, tx. cbv zeta. split; [symmetry; exact Htx |].
    split; reflexivity.
  - split; [| discriminate].
    intro Hd.
    destruct (depositDeployment_run env _ _ _ _ _ _ R2)
      as [[-> _] | (owner & coin & Hs & Hcoin & _)].
    + split; [eauto |]. intros c Hin. exact (op_client_calls_connect _ _ Hi Hin).
    + destruct (createAktCoin_printed _ _ Hcoin) as [Hp _]. apply Hsign in Hp. lia.
Qed.

(** No handler has a [finally]: when the node refuses every broadcast,
    update, close and deposit each fail without disconnecting the
    client. *)
Theorem failed_broadcast_leaves_client_connected :
  forall env e dseq sdl provider amount,
  (forall m, op_signAndBroadcast env m = Throw e) ->
  (exists e', snd (executeUpdate env dseq sdl provider []) = Throw e') /\
  ~ In OpDisconnect (fst (executeUpdate env dseq sdl provider [])) /\
  (exists e', snd (executeClose env dseq []) = Throw e') /\
  ~ In OpDisconnect (fst (executeClose env dseq [])) /\
  (exists e', snd (executeDeposit env dseq amount []) = Throw e') /\
  ~ In OpDisconnect (fst (executeDeposit env dseq amount [])).
Proof.
  intros env e dseq sdl provider amount Hb.
  assert (Hu : (exists e', snd (executeUpdate env dseq sdl provider []) = Throw e') /\
               ~ In OpDisconnect (fst (executeUpdate env dseq sdl provider []))).
  { destruct (executeUpdate env dseq sdl provider []) as [cs res] eqn:H.
    cbn [fst snd]. unfold executeUpdate in H.
    apply bindT_run in H. destruct H as [(c1 & parsed & R & H) | (e1 & R & ->)];
      apply liftT_run in R; destruct R as [-> R]; [| split; [eauto | intros []]].
    destruct (negb (valid (validateSDL parsed))).
    { inversion H. subst. split; [eauto | intros []]. }
    apply bindT_run in H. destruct H as [(c2 & client & R2 & H) | (e1 & R2 & ->)];
      destruct (op_createCosmosClient_run env _ _ _ R2) as (init & -> & Hi & _);
      [| split; [eauto | no_disconnect]].
    apply bindT_run in H. destruct H as [(c3 & u & R3 & H) | (e1 & R3 & ->)];
      apply liftT_run in R3; destruct R3 as [-> R3]; [| split; [eauto | no_disconnect]].
    apply bindT_run in H. destruct H as [(c4 & tx & R4 & H) | (e1 & R4 & ->)].
    - destruct (updateDeployment_run env _ _ _ _ _ _ R4)
        as [[_ [e1 F]] | (owner & parsed' & _ & _ & F)]; [discriminate F |].
      cbv zeta in F. destruct F as [_ F]. rewrite Hb in F. discriminate F.
    - split; [eauto |].
      destruct (updateDeployment_run env _ _ _ _ _ _ R4)
        as [[-> _] | (owner & parsed' & _ & _ & F)]; [no_disconnect |].
      cbv zeta in F. destruct F as [-> _]. no_disconnect. }
  assert (Hc : (exists e', snd (executeClose env dseq []) = Throw e') /\
               ~ In OpDisconnect (fst (executeClose env dseq []))).
  { destruct (executeClose env dseq []) as [cs res] eqn:H.
    cbn [fst snd]. unfold executeClose in H.
    apply bindT_run in H. destruct H as [(c1 & client & R & H) | (e1 & R & ->)];
      destruct (op_createCosmosClient_run env _ _ _ R) as (init & -> & Hi & _);
      [| split; [eauto | no_disconnect]].
    apply bindT_run in H. destruct H as [(c4 & tx & R4 & H) | (e1 & R4 & ->)].
    - destruct (closeDeployment_run env _ _ _ _ _ R4)
        as [[_ [e1 F]] | (owner & _ & _ & F)]; [discriminate F |].
      rewrite Hb in F. discriminate F.
    - split; [eauto |].
      destruct (closeDeployment_run env _ _ _ _ _ R4)
        as [[-> _] | (owner & _ & -> & _)]; no_disconnect. }
  assert (Hd : (exists e', snd (executeDeposit env dseq amount []) = Throw e') /\
               ~ In OpDisconnect (fst (executeDeposit env dseq amount []))).
  { destruct (executeDeposit env dseq amount []) as [cs res] eqn:H.
    cbn [fst snd]. unfold executeDeposit in H.
    apply bindT_run in H. destruct H as [(c1 & client & R & H) | (e1 & R & ->)];
      destruct (op_createCosmosClient_run env _ _ _ R) as (init & -> & Hi & _);
      [| split; [eauto | no_disconnect]].
    apply bindT_run in H. destruct H as [(c4 & tx & R4 & H) | (e1 & R4 & ->)].
    - destruct (depositDeployment_run env _ _ _ _ _ _ R4)
        as [[_ [e1 F]] | (owner & coin & _ & _ & _ & F)]; [discriminate F |].
      rewrite Hb in F. discriminate F.
    - split; [eauto |].
      destruct (depositDeployment_run env _ _ _ _ _ _ R4)
        as [[-> _] | (owner & coin & _ & _ & -> & _)]; no_disconnect. }
  tauto.
Qed.

Lemma executeUpdate_sends_manifest_after_update_witness :
  exists cs r,
    executeUpdate ops_env "100" "sdl" "akash1provider" [] = (cs, Ok r) /\
    exists parsed owner tx,
      parseSDL (op_yaml ops_env) "sdl" = Ok parsed /\
      op_signAndBroadcast ops_env
        (MsgUpdateDeployment owner "100" (generateVersionHash (op_hash ops_env) parsed))
      = Ok tx /\
      u_success r = (code tx =? 0) /\
      update_outcome ops_env parsed owner "100" "akash1provider" tx (made cs) r.
Proof.
  assert (E : exists cs r,
             executeUpdate ops_env "100" "sdl" "akash1provider" [] = (cs, Ok r)).
  { vm_compute. eexists. eexists. reflexivity. }
  destruct E as (cs & r & E). exists cs, r. split; [exact E |].
  exact (proj2 (executeUpdate_sends_manifest_after_update ops_env "100" "sdl"
                  "akash1provider" cs (Ok r) E) r eq_refl).
Defined.

Lemma executeDeposit_amount_in_uakt_witness :
  dec_to_Q (mkDec 25 1) * 1000000 == inject_Z 2500000 /\ Z.abs 2500000 < 10 ^ 15 /\
  exists cs r,
    executeDeposit ops_env "100" (Fin (mkDec 25 1)) [] = (cs, Ok r) /\
    0 <= 2500000 /\ d_amount r = "2.5 AKT" /\
    exists owner tx,
      let deposit :=
        MsgDepositDeployment owner "100" (mkCoin (Some "uakt") (Z_to_string 2500000))
          owner in
      op_signAndBroadcast ops_env deposit = Ok tx /\
      d_success r = (code tx =? 0) /\
      made cs = [OpConnectWithSigner; OpConnectTendermint;
                 OpSignAndBroadcast deposit; OpDisconnect].
Proof.
  split; [reflexivity |]. split; [reflexivity |].
  assert (E : exists cs r,
             executeDeposit ops_env "100" (Fin (mkDec 25 1)) [] = (cs, Ok r)).
  { vm_compute. eexists. eexists. reflexivity. }
  destruct E as (cs & r & E). exists cs, r. split; [exact E |].
  exact (proj2 (executeDeposit_amount_in_uakt ops_env "100" (mkDec 25 1) 2500000 cs (Ok r)
                  eq_refl eq_refl E)
           r eq_refl).
Defined.

Lemma failed_broadcast_leaves_client_connected_witness :
  (exists e', snd (executeUpdate ops_env_refused "100" "sdl" "akash1provider" [])
              = Throw e') /\
  ~ In OpDisconnect (fst (executeUpdate ops_env_refused "100" "sdl" "akash1provider" [])) /\
  (exists e', snd (executeClose ops_env_refused "100" []) = Throw e') /\
  ~ In OpDisconnect (fst (executeClose ops_env_refused "100" [])) /\
  (exists e', snd (executeDeposit ops_env_refused "100" (num 5) []) = Throw e') /\
  ~ In OpDisconnect (fst (executeDeposit ops_env_refused "100" (num 5) [])).
Proof.
  exact (failed_broadcast_leaves_client_connected ops_env_refused
           (Error "insufficient fees") "100" "sdl" "akash1provider" (num 5)
           (fun _ => eq_refl)).
Defined.

Section LeadingDigits.

Lemma parseInt_leading_digits : forall ds r,
  all_digits ds = true -> ds <> "" -> starts_without_digit r ->
  parseInt (ds ++ r) = num (digits_val ds).
Proof.
  intros ds r H Hne Hr. unfold parseInt.
  destruct ds as [| c ds']; [congruence |].
  pose proof H as H'. cbn [all_digits] in H'. apply andb_prop in H' as [Hc _].
  cbn [append trimStart]. rewrite (digit_not_space c Hc).
  rewrite (split_sign_digit c (ds' ++ r) Hc).
  change (String c (ds' ++ r)) with (String c ds' ++ r).
  rewrite (span_digits _ r H Hr).
  reflexivity.
Qed.

(** [uaktToAkt] cuts a string at the first character that is no digit
    but rounds a number: the text of [n] followed by anything else, a
    fraction for instance, is read as [n] uakt, while the number [n + 0.5]
    is [n + 1] uakt. *)
Theorem uaktToAkt_cuts_strings_and_rounds_numbers : forall n r,
  0 <= n < 10 ^ 15 -> starts_without_digit r ->
  uaktToAkt (AString (Z_to_string n ++ r)) = Ok (six_decimals n) /\
  uaktToAkt (ANumber (Fin (mkDec (10 * n + 5) 1))) = Ok (six_decimals (n + 1)).
Proof.
  intros n r Hn Hr. split.
  - unfold uaktToAkt. rewrite Z_to_string_nonneg by lia.
    destruct (Z_to_digits_spec n ltac:(lia)) as [H1 [H2 H3]].
    rewrite (parseInt_leading_digits _ _ H1 H2 Hr), H3. unfold num, dec_of_Z. cbn [isNaN].
    unfold number_div_pow10, dec_div_pow10. cbn [dmant dscale Nat.add].
    unfold AKT_DECIMALS. rewrite toFixed_micro by lia. reflexivity.
  - unfold uaktToAkt. cbn [Math_round].
    assert (E : dec_round (mkDec (10 * n + 5) 1) = n + 1).
    { unfold dec_round. cbn [dmant dscale]. change (pow10 1) with 10.
      replace (2 * (10 * n + 5) + 10) with ((n + 1) * (2 * 10)) by ring.
      apply Z.div_mul. lia. }
    rewrite E. unfold num, dec_of_Z. cbn [isNaN].
    unfold number_div_pow10, dec_div_pow10. cbn [dmant dscale Nat.add].
    unfold AKT_DECIMALS. rewrite toFixed_micro by lia. reflexivity.
Qed.

Lemma uaktToAkt_cuts_strings_and_rounds_numbers_witness :
  uaktToAkt (AString (Z_to_string 1 ++ ".5")) = Ok (six_decimals 1) /\
  uaktToAkt (ANumber (Fin (mkDec (10 * 1 + 5) 1))) = Ok (six_decimals (1 + 1)).
Proof.
  apply (uaktToAkt_cuts_strings_and_rounds_numbers 1 ".5"); [lia | reflexivity].
Defined.

End LeadingDigits.
